(** * Speed-test measurement engine (lib/speedtest.ts)

    A shallow embedding of the measurement engine of the repository: the
    retry wrapper [withRetry], the metadata lookup [getIspInformation], the
    probes [measureLatency], [measureDownloadForSize] and
    [measureUploadForSize], the aggregation [averageThroughput] and the
    orchestrator [runSpeedTest].

    Conventions of the embedding.
    - A JavaScript [number] that carries a measurement (a clock reading, a
      duration, a throughput, a progress value) is an IEEE 754 binary64
      value: Rocq's primitive [float], whose operations are the ones
      JavaScript applies (round to nearest, ties to even).
    - A [number] used as a loop index or as a retry budget is an integer and
      is a [Z].
    - An [async] function is a state transformer that can throw: it maps the
      state of the world to a new state and either a thrown value ([inl]) or
      a result ([inr]).  The effects of a computation that throws are kept,
      as in JavaScript. *)

From Stdlib Require Import ZArith List Bool Lia String Floats.
Import ListNotations.

(** ** Computations that change a state and may throw *)

Section Computations.
Context {S E : Type}.

Definition M (A : Type) : Type := S -> S * (E + A).

Definition ret {A} (a : A) : M A := fun s => (s, inr a).

Definition throw {A} (e : E) : M A := fun s => (s, inl e).

Definition bind {A B} (c : M A) (k : A -> M B) : M B :=
  fun s =>
    match c s with
    | (s1, inr a) => k a s1
    | (s1, inl e) => (s1, inl e)
    end.

(** [try { body } catch (error) { handler error }] *)
Definition try_catch {A} (body : M A) (handler : E -> M A) : M A :=
  fun s =>
    match body s with
    | (s1, inr a) => (s1, inr a)
    | (s1, inl e) => handler e s1
    end.

(** A statement that only changes the state. *)
Definition effect (f : S -> S) : M unit := fun s => (f s, inr tt).
End Computations.

Arguments M : clear implicits.

Declare Scope comp_scope.
Delimit Scope comp_scope with comp.
Notation "x <- c ;; k" := (bind c (fun x => k))
  (at level 61, c at next level, right associativity) : comp_scope.
Notation "c ;;; k" := (bind c (fun _ => k))
  (at level 61, right associativity) : comp_scope.

(** ** The retry wrapper

<<
const withRetry = async <T>(fn: () => Promise<T>, retries = 2): Promise<T> => {
  let lastError: unknown;
  for (let attempt = 0; attempt <= retries; attempt += 1) {
    try {
      return await fn();
    } catch (error) {
      lastError = error;
      if (attempt === retries) {
        break;
      }
      await new Promise((resolve) => setTimeout(resolve, 300 * (attempt + 1)));
    }
  }
  throw lastError;
};
>> *)

(** The value of a variable of type [unknown] that holds either nothing yet
    or a value caught from the wrapped operation. *)
Inductive unknown (E : Type) : Type :=
| undefined : unknown E
| caught : E -> unknown E.
Arguments undefined {E}.
Arguments caught {E} _.

Section Retry.
Context {S E T : Type}.
(** [await new Promise((resolve) => setTimeout(resolve, ms))] *)
Variable sleep : Z -> S -> S.
(** The wrapped operation. *)
Variable fn : M S E T.

(** The [for] loop from the iteration that starts with [attempt] and
    [lastError].  [n] bounds the number of iterations that are left; the
    loop needs [retries + 1 - attempt] of them ([withRetry_loop_eq]). *)
Fixpoint withRetry_loop (n : nat) (retries attempt : Z) (lastError : unknown E)
  : M S (unknown E) T :=
  fun s =>
    if (attempt <=? retries)%Z then
      match n with
      | O => (s, inl lastError)
      | Datatypes.S n' =>
          match fn s with
          | (s1, inr v) => (s1, inr v)
          | (s1, inl error) =>
              if (attempt =? retries)%Z then (s1, inl (caught error))
              else
                withRetry_loop n' retries (attempt + 1) (caught error)
                  (sleep (300 * (attempt + 1)) s1)
          end
      end
    else (s, inl lastError).

Definition withRetry (retries : Z) : M S (unknown E) T :=
  withRetry_loop (Z.to_nat (retries + 1)) retries 0 undefined.
End Retry.

(** ** A scripted operation for the wrapper

    The state counts the invocations of the operation and records the
    delays the wrapper slept for; the operation's [i]-th invocation
    (counting from 0) has the outcome [script i]. *)

Record CallLog : Type := { calls : nat; naps : list Z }.

Definition no_calls : CallLog := {| calls := 0; naps := [] |}.

Definition nap (ms : Z) (h : CallLog) : CallLog :=
  {| calls := calls h; naps := naps h ++ [ms] |}.

Definition stub {E T} (script : nat -> E + T) : M CallLog E T :=
  fun h => ({| calls := Datatypes.S (calls h); naps := naps h |}, script (calls h)).

(** ** JavaScript numbers *)

(** The [number] that holds the integer [z] (exactly, for the loop indices
    and array lengths of this program). *)
Definition number_of_Z (z : Z) : float :=
  SF2Prim (binary_normalize prec emax z 0 false).

Definition number_of_nat (n : nat) : float := number_of_Z (Z.of_nat n).

Definition is_pos_zero (x : float) : bool :=
  match classify x with PZero => true | _ => false end.

Definition is_neg_zero (x : float) : bool :=
  match classify x with NZero => true | _ => false end.

(** [Math.min(...xs)]: NaN if an argument is NaN; otherwise the scan of
    ECMA-262 (21.3.2.25), which starts from +Infinity and ranks -0 below +0. *)
Definition lower (lowest x : float) : float :=
  if (is_neg_zero x && is_pos_zero lowest) || (x <? lowest)%float then x else lowest.

Definition Math_min (xs : list float) : float :=
  if existsb is_nan xs then nan else fold_left lower xs infinity.

(** [Math.max(...xs)] (21.3.2.24): starts from -Infinity and ranks +0 above -0. *)
Definition higher (highest x : float) : float :=
  if (is_pos_zero x && is_neg_zero highest) || (highest <? x)%float then x else highest.

Definition Math_max (xs : list float) : float :=
  if existsb is_nan xs then nan else fold_left higher xs neg_infinity.

Definition Math_abs (x : float) : float := abs x.

(** [Number.isInteger]: a finite number without a fractional part. *)
Definition isInteger (x : float) : bool :=
  match Prim2SF x with
  | S754_zero _ => true
  | S754_finite _ m e => (0 <=? e)%Z || (Z.pos m mod 2 ^ (- e) =? 0)%Z
  | _ => false
  end.

(** [xs.reduce((acc, value) => acc + value, 0)] *)
Definition add_up (xs : list float) : float :=
  fold_left (fun acc value => (acc + value)%float) xs 0%float.

(** ** JavaScript values read from a JSON body *)

#[local] Set Warnings "-register-all".

Inductive JsValue : Type :=
| JsUndefined
| JsNull
| JsBoolean (b : bool)
| JsNumber (x : float)
| JsString (s : string)
| JsArray (items : list JsValue)
| JsObject (fields : list (string * JsValue)).

(** [v?.key] for a key that no prototype defines ([client], [asn], [name],
    [iata], [ip]): the own property of an object, [undefined] anywhere else. *)
Definition optional_get (v : JsValue) (key : string) : JsValue :=
  match v with
  | JsObject fields =>
      match find (fun kv => String.eqb (fst kv) key) fields with
      | Some kv => snd kv
      | None => JsUndefined
      end
  | _ => JsUndefined
  end.

Definition truthy (v : JsValue) : bool :=
  match v with
  | JsUndefined | JsNull => false
  | JsBoolean b => b
  | JsNumber x => negb (is_zero x || is_nan x)
  | JsString s => negb (String.eqb s EmptyString)
  | JsArray _ | JsObject _ => true
  end.

(** [a || b] *)
Definition js_or (a b : JsValue) : JsValue := if truthy a then a else b.

(** ** Types of the engine *)

Inductive SpeedTestPhase : Type :=
| phase_idle | phase_latency | phase_download | phase_upload | phase_completed | phase_error.

Record LatencyMetrics : Type := {
  average : float;
  min : float;
  max : float;
  jitter : float;
  samples : list float
}.

Record ThroughputSample : Type := {
  sizeBytes : float;
  durationSeconds : float;
  mbps : float
}.

(** [number | null] is [option float]; [null] is [None]. *)
Record SpeedTestResult : Type := {
  downloadMbps : option float;
  uploadMbps : option float;
  latency : option LatencyMetrics;
  timestamp : float
}.

(** The abort signal of the caller's controller; its [aborted] flag is part
    of the state of the world. *)
Inductive AbortSignal : Type := caller_signal.

(** An optional field is an [option].  [onProgress] tells whether the caller
    gave a callback: the callback is the caller's code, and the embedding
    records its calls in the trace of the world. *)
Record RunSpeedTestOptions : Type := {
  onProgress : bool;
  signal : option AbortSignal;
  enableUpload : option bool;
  retries : option Z
}.

(** The defaults of the destructured options: [enableUpload = true] and
    [retries = 2]. *)
Definition upload_enabled (options : RunSpeedTestOptions) : bool :=
  match enableUpload options with Some b => b | None => true end.

Definition retry_budget (options : RunSpeedTestOptions) : Z :=
  match retries options with Some r => r | None => 2%Z end.

(** The three URLs. *)
Inductive Endpoint : Type :=
| CLOUDFLARE_DOWNLOAD_ENDPOINT | CLOUDFLARE_UPLOAD_ENDPOINT | CLOUDFLARE_META_ENDPOINT.

Definition DOWNLOAD_SIZES : list float := [1048576; 5242880; 10485760]%float.
Definition UPLOAD_SIZES : list float := [1048576; 2097152]%float.
Definition LATENCY_ATTEMPTS : nat := 8.

(** ** Aggregation

<<
const averageThroughput = (samples: ThroughputSample[]): number => {
  if (!samples.length) return 0;
  const total = samples.reduce((acc, sample) => acc + sample.mbps, 0);
  return total / samples.length;
};
>> *)
Definition averageThroughput (samples : list ThroughputSample) : float :=
  if (List.length samples =? 0)%nat then 0%float
  else
    let total := fold_left (fun acc sample => (acc + mbps sample)%float) samples 0%float in
    (total / number_of_nat (List.length samples))%float.

(** ** The world: network, clocks and the caller *)

(** A call of [fetch].  The cache-busting part of the query string is left
    out: [Date.now()] and [Math.random()] are read for nothing else. *)
Record Request : Type := {
  endpoint : Endpoint;
  bytes : option float;          (* the [bytes=] parameter *)
  post : bool;                   (* [method: 'POST'] with a body of that size *)
  keepalive : bool;
  req_signal : option AbortSignal
}.

(** What the server sends back. *)
Record Reply : Type := {
  status : Z;
  abort_mid_body : bool;         (* the caller aborts while the body is read *)
  body_arrives : bool;           (* false: the connection breaks before the end *)
  json_body : option JsValue     (* the body as JSON, if it is JSON *)
}.

(** What happens to a request that is put on the wire. *)
Record Outcome : Type := {
  abort_in_flight : bool;        (* the caller aborts before the headers arrive *)
  reply : option Reply           (* [None]: the request fails on the network *)
}.

(** The [Response] object that [fetch] resolves with. *)
Record Response : Type := {
  from : Reply;
  cancellable : bool             (* the request carried the signal *)
}.

Definition ok (r : Response) : bool :=
  (200 <=? status (from r))%Z && (status (from r) <=? 299)%Z.

(** Values this program throws or sees thrown. *)
Inductive JsError : Type :=
| AbortError                     (* DOMException of an aborted request *)
| NetworkError                   (* TypeError of a failed request or body *)
| JsonSyntaxError                (* SyntaxError of [response.json()] *)
| QuotaExceededError             (* DOMException of [crypto.getRandomValues] *)
| StatusError (message : string) (status : Z).   (* [new Error(`${message}${status}`)] *)

(** What an observer of one execution sees, in order. *)
Inductive Event : Type :=
| Fetch (req : Request) (sent : bool)   (* a call of [fetch]; [sent = false]: refused
                                           at once because the signal had fired *)
| Cancel                                 (* the caller fires the signal *)
| Sleep (ms : Z)                        (* a backoff sleep of the retry wrapper *)
| Progress (value : float) (phase : SpeedTestPhase)   (* a call of [onProgress] *)
| Warn (message : string) (e : JsError).              (* a call of [console.warn] *)

(** The environment of one execution: it decides what the program observes. *)
Record Env : Type := {
  network : nat -> Outcome;              (* of the n-th request put on the wire *)
  clock_reading : nat -> float;        (* the n-th reading of the clock *)
  abort_while_sleeping : nat -> bool;    (* the caller aborts during the n-th sleep *)
  random_values_quota : float -> bool;   (* [crypto.getRandomValues] fills a buffer
                                            of that many bytes; the Web Crypto API
                                            refuses more than 65536 *)
  date_now : float;                      (* [Date.now()] when the run completes *)
  removeConsole : bool                   (* the build that runs: next.config.js sets
                                            [compiler.removeConsole] to
                                            [process.env.NODE_ENV === 'production'],
                                            and the production build has the calls
                                            of [console.*] removed *)
}.

Record World : Type := {
  trace : list Event;            (* what happened so far, oldest first *)
  wire : nat;                    (* requests put on the wire *)
  readings : nat;                (* readings of the clock *)
  sleeps : nat;                  (* sleeps taken *)
  aborted : bool                 (* [signal.aborted] *)
}.

Definition initial_world : World :=
  {| trace := []; wire := 0; readings := 0; sleeps := 0; aborted := false |}.

Definition record (ev : Event) (w : World) : World :=
  {| trace := trace w ++ [ev]; wire := wire w; readings := readings w;
     sleeps := sleeps w; aborted := aborted w |}.

(** The caller fires the signal, if it [fires] now and has not done so before. *)
Definition caller_may_abort (fires : bool) (w : World) : World :=
  if fires && negb (aborted w)
  then {| trace := trace w ++ [Cancel]; wire := wire w; readings := readings w;
          sleeps := sleeps w; aborted := true |}
  else w.

(** The requests of the engine. *)
Definition meta_request : Request :=
  {| endpoint := CLOUDFLARE_META_ENDPOINT; bytes := None; post := false;
     keepalive := false; req_signal := None |}.

Definition latency_request (signal : option AbortSignal) : Request :=
  {| endpoint := CLOUDFLARE_DOWNLOAD_ENDPOINT; bytes := Some 0%float; post := false;
     keepalive := false; req_signal := signal |}.

Definition download_request (sizeBytes : float) (signal : option AbortSignal) : Request :=
  {| endpoint := CLOUDFLARE_DOWNLOAD_ENDPOINT; bytes := Some sizeBytes; post := false;
     keepalive := false; req_signal := signal |}.

Definition upload_request (sizeBytes : float) (signal : option AbortSignal) : Request :=
  {| endpoint := CLOUDFLARE_UPLOAD_ENDPOINT; bytes := Some sizeBytes; post := true;
     keepalive := true; req_signal := signal |}.

Local Open Scope comp_scope.

Section Engine.
Variable env : Env.

(** *** Primitives of the platform *)

(** [await fetch(url, { signal, ... })].  A request that carries a signal
    that has already fired is rejected without reaching the network; one
    whose signal fires while it is in flight is rejected then. *)
Definition fetch (req : Request) : M World JsError Response :=
  fun w =>
    let guarded := match req_signal req with Some _ => true | None => false end in
    if guarded && aborted w then (record (Fetch req false) w, inl AbortError)
    else
      let o := network env (wire w) in
      let w1 := record (Fetch req true) w in
      let w2 := {| trace := trace w1; wire := Datatypes.S (wire w1);
                   readings := readings w1; sleeps := sleeps w1;
                   aborted := aborted w1 |} in
      let w3 := caller_may_abort (abort_in_flight o) w2 in
      if guarded && aborted w3 then (w3, inl AbortError)
      else
        match reply o with
        | Some r => (w3, inr {| from := r; cancellable := guarded |})
        | None => (w3, inl NetworkError)
        end.

(** Reading the body to its end, as [arrayBuffer()] and [json()] do first. *)
Definition drain (response : Response) : M World JsError unit :=
  fun w =>
    let w1 := caller_may_abort (abort_mid_body (from response)) w in
    if cancellable response && aborted w1 then (w1, inl AbortError)
    else if body_arrives (from response) then (w1, inr tt)
    else (w1, inl NetworkError).

(** [await response.arrayBuffer()] *)
Definition arrayBuffer (response : Response) : M World JsError unit :=
  drain response.

(** [await res.json()] *)
Definition json (response : Response) : M World JsError JsValue :=
  drain response ;;;
  match json_body (from response) with
  | Some data => ret data
  | None => throw JsonSyntaxError
  end.

(** [performance.now()] *)
Definition performance_now : M World JsError float :=
  fun w =>
    ({| trace := trace w; wire := wire w; readings := Datatypes.S (readings w);
        sleeps := sleeps w; aborted := aborted w |},
     inr (clock_reading env (readings w))).

(** [await new Promise((resolve) => setTimeout(resolve, ms))]; the caller
    may abort in the meantime. *)
Definition setTimeout_sleep (ms : Z) (w : World) : World :=
  caller_may_abort (abort_while_sleeping env (sleeps w))
    {| trace := trace w ++ [Sleep ms]; wire := wire w; readings := readings w;
       sleeps := Datatypes.S (sleeps w); aborted := aborted w |}.

(** [crypto.getRandomValues(new Uint8Array(sizeBytes))] *)
Definition crypto_getRandomValues (sizeBytes : float) : M World JsError unit :=
  if random_values_quota env sizeBytes then ret tt else throw QuotaExceededError.

(** [console.warn(message, error)]; the statement is not in the production
    build. *)
Definition console_warn (message : string) (error : JsError) : M World JsError unit :=
  if removeConsole env then ret tt else effect (record (Warn message error)).

(** *** The metadata lookup

<<
export const getIspInformation = async (): Promise<string | undefined> => {
  try {
    const res = await fetch(CLOUDFLARE_META_ENDPOINT, { cache: 'no-store' });
    if (!res.ok) {
      throw new Error(`Failed metadata request: ${res.status}`);
    }
    const data = await res.json();
    return data?.client?.asn?.name || data?.client?.iata || data?.client?.ip;
  } catch (error) {
    console.warn('Unable to fetch ISP metadata', error);
    return undefined;
  }
};
>> *)
Definition getIspInformation : M World JsError JsValue :=
  try_catch
    (res <- fetch meta_request ;;
     if negb (ok res)
     then throw (StatusError "Failed metadata request: " (status (from res)))
     else
       data <- json res ;;
       ret (js_or (js_or (optional_get (optional_get (optional_get data "client") "asn")
                            "name")
                         (optional_get (optional_get data "client") "iata"))
                  (optional_get (optional_get data "client") "ip")))
    (fun error =>
       console_warn "Unable to fetch ISP metadata" error ;;;
       ret JsUndefined).

(** *** The latency probe

<<
const measureLatency = async (signal?: AbortSignal): Promise<LatencyMetrics> => {
  const samples: number[] = [];
  for (let i = 0; i < LATENCY_ATTEMPTS; i += 1) {
    const url = `${CLOUDFLARE_DOWNLOAD_ENDPOINT}0&ts=${Date.now()}-${i}`;
    const start = performance.now();
    const response = await fetch(url, { cache: 'no-store', signal });
    if (!response.ok) {
      throw new Error(`Latency request failed with status ${response.status}`);
    }
    await response.arrayBuffer();
    const duration = performance.now() - start;
    samples.push(duration);
  }
  const average = samples.reduce((acc, value) => acc + value, 0) / samples.length;
  const min = Math.min(...samples);
  const max = Math.max(...samples);
  const jitter =
    samples.reduce((acc, value) => acc + Math.abs(value - average), 0) / samples.length;
  return { average, min, max, jitter, samples };
};
>> *)

(** The body of the loop, once. *)
Definition latency_attempt (signal : option AbortSignal) : M World JsError float :=
  start <- performance_now ;;
  response <- fetch (latency_request signal) ;;
  if negb (ok response)
  then throw (StatusError "Latency request failed with status " (status (from response)))
  else
    arrayBuffer response ;;;
    stop <- performance_now ;;
    ret (stop - start)%float.

(** The loop with [todo] iterations left ([LATENCY_ATTEMPTS - i]). *)
Fixpoint latency_loop (todo : nat) (signal : option AbortSignal) (samples : list float)
  : M World JsError (list float) :=
  match todo with
  | O => ret samples
  | Datatypes.S todo' =>
      duration <- latency_attempt signal ;;
      latency_loop todo' signal (samples ++ [duration])
  end.

(** The statistics computed after the loop. *)
Definition latency_metrics (samples : list float) : LatencyMetrics :=
  let average := (add_up samples / number_of_nat (List.length samples))%float in
  let min := Math_min samples in
  let max := Math_max samples in
  let jitter :=
    (fold_left (fun acc value => acc + Math_abs (value - average)) samples 0
     / number_of_nat (List.length samples))%float in
  {| average := average; min := min; max := max; jitter := jitter; samples := samples |}.

Definition measureLatency (signal : option AbortSignal) : M World JsError LatencyMetrics :=
  samples <- latency_loop LATENCY_ATTEMPTS signal [] ;;
  ret (latency_metrics samples).

(** *** The throughput probes

<<
const measureDownloadForSize = async (sizeBytes: number, signal?: AbortSignal) => {
  const cacheBuster = `&ts=${Date.now()}-${Math.random().toString(16).slice(2)}`;
  const url = `${CLOUDFLARE_DOWNLOAD_ENDPOINT}${sizeBytes}${cacheBuster}`;
  const start = performance.now();
  const response = await fetch(url, { cache: 'no-store', signal });
  if (!response.ok) {
    throw new Error(`Download request failed with status ${response.status}`);
  }
  await response.arrayBuffer();
  const seconds = (performance.now() - start) / 1000;
  const mbps = (sizeBytes * 8) / seconds / 1_000_000;
  return { sizeBytes, durationSeconds: seconds, mbps };
};
>> *)
Definition measureDownloadForSize (sizeBytes : float) (signal : option AbortSignal)
  : M World JsError ThroughputSample :=
  start <- performance_now ;;
  response <- fetch (download_request sizeBytes signal) ;;
  if negb (ok response)
  then throw (StatusError "Download request failed with status " (status (from response)))
  else
    arrayBuffer response ;;;
    stop <- performance_now ;;
    let seconds := ((stop - start) / 1000)%float in
    let mbps := ((sizeBytes * 8) / seconds / 1000000)%float in
    ret {| sizeBytes := sizeBytes; durationSeconds := seconds; mbps := mbps |}.

(**
<<
const measureUploadForSize = async (sizeBytes: number, signal?: AbortSignal) => {
  const data = new Uint8Array(sizeBytes);
  crypto.getRandomValues(data);
  const params = new URLSearchParams({ bytes: String(sizeBytes) });
  const start = performance.now();
  const response = await fetch(`${CLOUDFLARE_UPLOAD_ENDPOINT}?${params.toString()}`, {
    method: 'POST', body: data, cache: 'no-store', signal, keepalive: true
  });
  if (!response.ok) {
    throw new Error(`Upload request failed with status ${response.status}`);
  }
  await response.arrayBuffer();
  const seconds = (performance.now() - start) / 1000;
  const mbps = (sizeBytes * 8) / seconds / 1_000_000;
  return { sizeBytes, durationSeconds: seconds, mbps };
};
>> *)
Definition measureUploadForSize (sizeBytes : float) (signal : option AbortSignal)
  : M World JsError ThroughputSample :=
  crypto_getRandomValues sizeBytes ;;;
  start <- performance_now ;;
  response <- fetch (upload_request sizeBytes signal) ;;
  if negb (ok response)
  then throw (StatusError "Upload request failed with status " (status (from response)))
  else
    arrayBuffer response ;;;
    stop <- performance_now ;;
    let seconds := ((stop - start) / 1000)%float in
    let mbps := ((sizeBytes * 8) / seconds / 1000000)%float in
    ret {| sizeBytes := sizeBytes; durationSeconds := seconds; mbps := mbps |}.

(** *** The orchestrator

<<
export const runSpeedTest = async ({
  onProgress, signal, enableUpload = true, retries = 2
}: RunSpeedTestOptions = {}): Promise<SpeedTestResult> => {
  const progress = (value: number, phase: SpeedTestPhase) => {
    if (onProgress) {
      onProgress(Math.min(100, Math.max(0, value)), phase);
    }
  };

  progress(2, 'latency');
  const latency = await withRetry(() => measureLatency(signal), retries);
  progress(20, 'latency');

  const downloadSamples: ThroughputSample[] = [];
  for (let i = 0; i < DOWNLOAD_SIZES.length; i += 1) {
    const size = DOWNLOAD_SIZES[i];
    const sample = await withRetry(() => measureDownloadForSize(size, signal), retries);
    downloadSamples.push(sample);
    progress(20 + ((i + 1) / DOWNLOAD_SIZES.length) * 55, 'download');
  }
  const downloadMbps = averageThroughput(downloadSamples);

  let uploadMbps: number | null = null;
  if (enableUpload) {
    const uploadSamples: ThroughputSample[] = [];
    for (let i = 0; i < UPLOAD_SIZES.length; i += 1) {
      const size = UPLOAD_SIZES[i];
      const sample = await withRetry(() => measureUploadForSize(size, signal), retries);
      uploadSamples.push(sample);
      progress(80 + ((i + 1) / UPLOAD_SIZES.length) * 18, 'upload');
    }
    uploadMbps = averageThroughput(uploadSamples);
  }

  progress(100, 'completed');

  return { downloadMbps, uploadMbps, latency, timestamp: Date.now() };
};
>> *)

(** The clamp of the [progress] closure. *)
Definition clamp (value : float) : float :=
  Math_min [100%float; Math_max [0%float; value]].

Definition progress (onProgress : bool) (value : float) (phase : SpeedTestPhase)
  : M World (unknown JsError) unit :=
  if onProgress then effect (record (Progress (clamp value) phase)) else ret tt.

(** The download loop from index [i], with the sizes [DOWNLOAD_SIZES[i..]]
    still [todo]. *)
Fixpoint download_loop (onProgress : bool) (signal : option AbortSignal) (retries : Z)
    (todo : list float) (i : Z) (downloadSamples : list ThroughputSample)
  : M World (unknown JsError) (list ThroughputSample) :=
  match todo with
  | [] => ret downloadSamples
  | size :: todo' =>
      sample <- withRetry setTimeout_sleep (measureDownloadForSize size signal) retries ;;
      progress onProgress
        (20 + (number_of_Z (i + 1) / number_of_nat (List.length DOWNLOAD_SIZES)) * 55)%float
        phase_download ;;;
      download_loop onProgress signal retries todo' (i + 1) (downloadSamples ++ [sample])
  end.

(** The upload loop from index [i], with the sizes [UPLOAD_SIZES[i..]]
    still [todo]. *)
Fixpoint upload_loop (onProgress : bool) (signal : option AbortSignal) (retries : Z)
    (todo : list float) (i : Z) (uploadSamples : list ThroughputSample)
  : M World (unknown JsError) (list ThroughputSample) :=
  match todo with
  | [] => ret uploadSamples
  | size :: todo' =>
      sample <- withRetry setTimeout_sleep (measureUploadForSize size signal) retries ;;
      progress onProgress
        (80 + (number_of_Z (i + 1) / number_of_nat (List.length UPLOAD_SIZES)) * 18)%float
        phase_upload ;;;
      upload_loop onProgress signal retries todo' (i + 1) (uploadSamples ++ [sample])
  end.

Definition runSpeedTest (options : RunSpeedTestOptions)
  : M World (unknown JsError) SpeedTestResult :=
  let onProgress := onProgress options in
  let signal := signal options in
  let enableUpload := upload_enabled options in
  let retries := retry_budget options in
  progress onProgress 2 phase_latency ;;;
  latency <- withRetry setTimeout_sleep (measureLatency signal) retries ;;
  progress onProgress 20 phase_latency ;;;
  downloadSamples <- download_loop onProgress signal retries DOWNLOAD_SIZES 0 [] ;;
  let downloadMbps := averageThroughput downloadSamples in
  uploadMbps <-
    (if enableUpload
     then
       uploadSamples <- upload_loop onProgress signal retries UPLOAD_SIZES 0 [] ;;
       ret (Some (averageThroughput uploadSamples))
     else ret None) ;;
  progress onProgress 100 phase_completed ;;;
  ret {| downloadMbps := Some downloadMbps; uploadMbps := uploadMbps;
         latency := Some latency; timestamp := date_now env |}.
End Engine.

(** ** Vocabulary of the statements *)

(** The delays [300 * first], [300 * (first + 1)], ...: [count] of them. *)
Definition delays (first : Z) (count : nat) : list Z :=
  map (fun j => (300 * (first + Z.of_nat j))%Z) (seq 0 count).

(** A scripted operation that throws [0], [1], ..., [k - 1] on its first [k]
    invocations and returns ["done"] afterwards. *)
Definition fails_then_succeeds (k : nat) : nat -> nat + string :=
  fun i => if (i <? k)%nat then inl i else inr "done"%string.



(** Views of a number through its IEEE 754 specification [Prim2SF], for the
    proofs about the arithmetic. *)
Definition sf_nan (s : spec_float) : bool :=
  match s with S754_nan => true | _ => false end.

Definition sf_finite (s : spec_float) : bool :=
  match s with S754_zero _ | S754_finite _ _ _ => true | _ => false end.

(** A zero, a finite number or an infinity whose sign bit is clear. *)
Definition sf_unsigned (s : spec_float) : bool :=
  match s with
  | S754_zero false | S754_infinity false | S754_finite false _ _ => true
  | _ => false
  end.

(** The classes a rounded value can fall in: a zero, a finite number or an
    infinity, of the sign that was asked for. *)
Definition sf_signed (sx : bool) (s : spec_float) : bool :=
  match s with
  | S754_zero s' | S754_infinity s' | S754_finite s' _ _ => Bool.eqb sx s'
  | S754_nan => false
  end.

(** The calls of [onProgress] among some events, in order. *)
Definition progress_events (evs : list Event) : list (float * SpeedTestPhase) :=
  flat_map (fun ev => match ev with Progress value phase => [(value, phase)] | _ => [] end) evs.

Definition progress_values (evs : list Event) : list float :=
  map fst (progress_events evs).

(** The calls of [fetch] among some events, in order. *)
Definition fetches (evs : list Event) : list (Request * bool) :=
  flat_map (fun ev => match ev with Fetch req sent => [(req, sent)] | _ => [] end) evs.

(** [w'] is [w] after some more events, all of which satisfy [P]. *)
Definition extends_with (P : Event -> Prop) (w w' : World) : Prop :=
  exists evs, trace w' = trace w ++ evs /\ Forall P evs.

(** From any state, the events of [c] satisfy [P]. *)
Definition emits {E A : Type} (P : Event -> Prop) (c : M World E A) : Prop :=
  forall w, extends_with P w (fst (c w)).

(** From any state, [c] reports the progress [l] when it returns, and an
    initial segment of [l] when it throws. *)
Definition reports {E A : Type} (c : M World E A) (l : list (float * SpeedTestPhase)) : Prop :=
  forall w, exists evs,
    trace (fst (c w)) = trace w ++ evs /\
    match snd (c w) with
    | inr _ => progress_events evs = l
    | inl _ => exists rest, l = progress_events evs ++ rest
    end.

Definition not_progress (ev : Event) : Prop :=
  match ev with Progress _ _ => False | _ => True end.

(** The breakpoints as the specification lists them: 2 entering latency, 20
    at latency complete, [20 + (count / total) * 55] per download size,
    [80 + (count / total) * 18] per upload size if upload is enabled, 100 at
    the end. *)
Definition spec_breakpoints (upload : bool) : list (float * SpeedTestPhase) :=
  [(2%float, phase_latency); (20%float, phase_latency)]
  ++ map (fun count => ((20 + (number_of_nat count / 3) * 55)%float, phase_download)) [1; 2; 3]%nat
  ++ (if upload
      then map (fun count => ((80 + (number_of_nat count / 2) * 18)%float, phase_upload)) [1; 2]%nat
      else [])
  ++ [(100%float, phase_completed)].

(** Non-decreasing, by [<=] of JavaScript. *)
Fixpoint non_decreasing (xs : list float) : bool :=
  match xs with
  | x :: (y :: _) as rest => (x <=? y)%float && non_decreasing rest
  | _ => true
  end.

Definition within_0_100 (x : float) : bool := (0 <=? x)%float && (x <=? 100)%float.

(** The progress that the download loop reports from index [i] on, for
    [count] sizes; likewise for the upload loop. *)
Definition download_progress (i : Z) (count : nat) : list (float * SpeedTestPhase) :=
  map (fun j => (clamp (20 + (number_of_Z (i + Z.of_nat j + 1)
                              / number_of_nat (List.length DOWNLOAD_SIZES)) * 55)%float,
                 phase_download)) (seq 0 count).

Definition upload_progress (i : Z) (count : nat) : list (float * SpeedTestPhase) :=
  map (fun j => (clamp (80 + (number_of_Z (i + Z.of_nat j + 1)
                              / number_of_nat (List.length UPLOAD_SIZES)) * 18)%float,
                 phase_upload)) (seq 0 count).

(** The progress of a whole run, as the code computes it. *)
Definition run_progress (options : RunSpeedTestOptions) : list (float * SpeedTestPhase) :=
  if onProgress options
  then [(clamp 2, phase_latency); (clamp 20, phase_latency)]
       ++ download_progress 0 (List.length DOWNLOAD_SIZES)
       ++ (if upload_enabled options then upload_progress 0 (List.length UPLOAD_SIZES) else [])
       ++ [(clamp 100, phase_completed)]
  else [].

(** ** Environments and options of the examples *)

(** A server that answers every request with status 200 and a full body. *)
Definition good_reply : Reply :=
  {| status := 200; abort_mid_body := false; body_arrives := true; json_body := None |}.

Definition answered : Outcome := {| abort_in_flight := false; reply := Some good_reply |}.

(** The scenario of the specification: every latency sample takes 20 ms and
    the downloads of 1, 5 and 10 MiB take 0.1 s, 0.4 s and 0.8 s. *)
Definition scenario_clock : list float :=
  [0; 20; 20; 40; 40; 60; 60; 80; 80; 100; 100; 120; 120; 140; 140; 160;
   160; 260; 260; 660; 660; 1460; 1460; 1560; 1560; 1760]%float.

Definition scenario : Env :=
  {| network := fun _ => answered;
     clock_reading := fun n => nth n scenario_clock 0%float;
     abort_while_sleeping := fun _ => false;
     random_values_quota := fun _ => true;
     date_now := 1700000000000%float;
     removeConsole := false |}.

Definition default_options : RunSpeedTestOptions :=
  {| onProgress := true; signal := Some caller_signal; enableUpload := None; retries := None |}.

Definition download_only : RunSpeedTestOptions :=
  {| onProgress := true; signal := Some caller_signal; enableUpload := Some false;
     retries := Some 0%Z |}.

(** The statement that every reported progress value is an integer. *)
Definition progress_values_are_integers : Prop :=
  forall env options,
    Forall (fun value => isInteger value = true)
      (progress_values (trace (fst (runSpeedTest env options initial_world)))).

Definition never_idle_nor_error (ev : Event) : Prop :=
  match ev with
  | Progress _ phase_idle | Progress _ phase_error => False
  | _ => True
  end.

Definition no_upload (ev : Event) : Prop :=
  match ev with
  | Fetch req _ => endpoint req <> CLOUDFLARE_UPLOAD_ENDPOINT /\ post req = false
  | Progress _ phase_upload => False
  | _ => True
  end.

(** The identity that the specification gives for a throughput sample. *)
Definition sample_identity (sample : ThroughputSample) : Prop :=
  mbps sample = (sizeBytes sample * 8 / durationSeconds sample / 1000000)%float.

(** The sample of the probe for [size] whose first reading of the clock is
    the [reading]-th of the execution: the seconds between that reading and
    the next one, and the megabits per second that they give. *)
Definition sample_at (env : Env) (size : float) (reading : nat) : ThroughputSample :=
  let seconds :=
    ((clock_reading env (Datatypes.S reading) - clock_reading env reading) / 1000)%float in
  {| sizeBytes := size; durationSeconds := seconds;
     mbps := (size * 8 / seconds / 1000000)%float |}.

(** The probes for the sizes [sizes] returned when they were called in the
    states [calls], each with the sample of its two readings of the clock. *)
Definition returned_in (probe : float -> M World JsError ThroughputSample) (env : Env)
    (sizes : list float) (calls : list World) : Prop :=
  Forall2 (fun size w0 =>
             exists w1, probe size w0 = (w1, inr (sample_at env size (readings w0))))
    sizes calls.

(** The samples of these calls. *)
Definition samples_of (env : Env) (sizes : list float) (calls : list World)
  : list ThroughputSample :=
  map (fun call => sample_at env (fst call) (readings (snd call))) (combine sizes calls).

(** The clock is read for the [first]-th time or later when the first of
    the calls starts, each call takes two readings and is over before the
    next one starts, and [last] readings or more have been taken in the
    end. *)
Fixpoint in_sequence (first : nat) (starts : list nat) (last : nat) : Prop :=
  match starts with
  | [] => (first <= last)%nat
  | start :: starts' => (first <= start)%nat /\ in_sequence (start + 2) starts' last
  end.

(** The unweighted arithmetic mean as the specification words it: the sum
    divided by the count, and 0 for an empty list. *)
Definition unweighted_mean (xs : list float) : float :=
  match xs with
  | [] => 0%float
  | _ => (add_up xs / number_of_nat (List.length xs))%float
  end.

(** The arithmetic mean of the specification: the sum divided by the count. *)
Definition arithmetic_mean (xs : list float) : float :=
  (add_up xs / number_of_nat (List.length xs))%float.

(** The mean absolute deviation of the specification: the arithmetic mean of
    the distances to the arithmetic mean. *)
Definition mean_absolute_deviation (xs : list float) : float :=
  arithmetic_mean (map (fun value => Math_abs (value - arithmetic_mean xs)%float) xs).

(** The duration that the clock gives the [i]-th attempt of a latency
    measurement that starts after [r0] readings. *)
Definition attempt_duration (env : Env) (r0 i : nat) : float :=
  (clock_reading env (r0 + 2 * i + 1) - clock_reading env (r0 + 2 * i))%float.

(** The value of a finite number in units of [2 ^ -1074], the least positive
    number: an integer.  It is 0 for the other numbers. *)
Definition sf_scaled (s : spec_float) : Z :=
  match s with
  | S754_finite sx m e => cond_Zopp sx (Z.pos m * 2 ^ (e + 1074))
  | _ => 0%Z
  end.

Definition scaled (x : float) : Z := sf_scaled (Prim2SF x).

(** ** Rounding to binary64, on the scaled values

    In units of [2 ^ -1074] the finite numbers that are not negative are
    the integers of at most 53 binary digits times a power of two: the
    integers [n] that are multiples of [grid n]. *)

(** The distance between neighbouring binary64 numbers at [n]. *)
Definition grid (n : Z) : Z := (2 ^ Z.max 0 (Z.log2 n - 52))%Z.

Definition representable (n : Z) : Prop := (n mod grid n = 0)%Z.

(** The nearest binary64 numbers below and above [n]. *)
Definition round_down (n : Z) : Z := (n - n mod grid n)%Z.

Definition round_up (n : Z) : Z :=
  if (n mod grid n =? 0)%Z then n else (round_down n + grid n)%Z.

(** [r] is [n] rounded to one of its two neighbours, as the operations of
    binary64 round their exact result. *)
Definition faithful (n r : Z) : Prop :=
  representable r /\ (round_down n <= r <= round_up n)%Z.

(** The digits that a right shift has dropped were all zero. *)
Definition shr_exact (mrs : shr_record) : Prop :=
  shr_r mrs = false /\ shr_s mrs = false.

(** A zero, or a finite number whose sign bit is clear. *)
Definition sf_nonneg (s : spec_float) : bool :=
  match s with
  | S754_zero _ | S754_finite false _ _ => true
  | _ => false
  end.

(** The number 8, the count of the latency attempts. *)
Definition sf_eight : spec_float := S754_finite false 4503599627370496 (-49).

(** ** The clock

    [performance.now()] gives the milliseconds since the time origin of the
    page on a monotonic clock: a finite number that is not negative, and a
    later reading is not below an earlier one.  A reading is also far below
    [2 ^ 1023] ms, the half of the largest number. *)
Definition plausible_reading (x : float) : bool :=
  is_finite x && (0 <=? x)%float && (x <? 0x1p1023)%float.

(** The [count] readings from the [first]-th on are such readings and do not
    go down. *)
Definition monotonic_clock (env : Env) (first count : nat) : bool :=
  forallb (fun i => plausible_reading (clock_reading env i)) (seq first count)
  && forallb (fun i => (clock_reading env i <=? clock_reading env (S i))%float)
             (seq first (count - 1)).

(** The metadata lookup fails when the request fails on the network, the
    status is not a success, the body does not arrive or is not JSON. *)
Definition lookup_fails (o : Outcome) : bool :=
  match reply o with
  | None => true
  | Some r =>
      negb ((200 <=? status r)%Z && (status r <=? 299)%Z)
      || negb (body_arrives r)
      || match json_body r with Some _ => false | None => true end
  end.

(** [data?.client?.asn?.name || data?.client?.iata || data?.client?.ip] *)
Definition isp_of (data : JsValue) : JsValue :=
  js_or (js_or (optional_get (optional_get (optional_get data "client") "asn") "name")
               (optional_get (optional_get data "client") "iata"))
        (optional_get (optional_get data "client") "ip").

Definition is_warning (ev : Event) : bool :=
  match ev with Warn _ _ => true | _ => false end.

(** The production build, on a network that cannot be reached. *)
Definition production_offline : Env :=
  {| network := fun _ => {| abort_in_flight := false; reply := None |};
     clock_reading := fun n => number_of_nat n;
     abort_while_sleeping := fun _ => false;
     random_values_quota := fun _ => true;
     date_now := 1700000000000%float;
     removeConsole := true |}.

(** The statement that every execution of the lookup that fails logs the
    failure. *)
Definition lookup_failure_is_logged : Prop :=
  forall (env : Env) (w : World),
    lookup_fails (network env (wire w)) = true ->
    exists evs,
      trace (fst (getIspInformation env w)) = trace w ++ evs /\
      exists message error, In (Warn message error) evs.

(** *** Cancellation *)

(** An environment in which the caller aborts while the first request is in
    flight. *)
Definition aborts_first_request : Env :=
  {| network := fun n =>
       match n with
       | O => {| abort_in_flight := true; reply := Some good_reply |}
       | _ => answered
       end;
     clock_reading := fun n => number_of_nat n;
     abort_while_sleeping := fun _ => false;
     random_values_quota := fun _ => true;
     date_now := 1700000000000%float;
     removeConsole := false |}.


(** What can still happen once the signal has fired: backoff sleeps and calls
    of [fetch] that are refused before anything is sent. *)
Definition after_cancellation (ev : Event) : Prop :=
  match ev with
  | Sleep _ | Fetch _ false => True
  | _ => False
  end.

(** The events of a computation during which the signal fires: it fires
    once, and what follows is as [after_cancellation] says. *)
Definition cancelled_trace (evs : list Event) : Prop :=
  exists pre post,
    evs = pre ++ Cancel :: post /\ ~ In Cancel pre /\ Forall after_cancellation post.

(** The errors of a probe that runs after the signal has fired. *)
Definition cancelled_error (e : JsError) : Prop :=
  e = AbortError \/ e = QuotaExceededError.

Definition caught_cancelled_error (u : unknown JsError) : Prop :=
  exists e, u = caught e /\ cancelled_error e.

(** [c], started after the signal has fired, adds only events of
    [after_cancellation] and either throws an error of [err] or returns a
    value of [Q]. *)
Definition refusing {E A : Type} (err : E -> Prop) (Q : A -> Prop) (c : M World E A) : Prop :=
  forall w, aborted w = true ->
    exists evs,
      trace (fst (c w)) = trace w ++ evs /\ Forall after_cancellation evs /\
      aborted (fst (c w)) = true /\
      match snd (c w) with inr a => Q a | inl e => err e end.

(** [c], started before the signal has fired: either the signal does not
    fire during [c], and [c] returns a value of [Q] if it returns; or it
    fires, and then [c] throws an error of [err] and its events form a
    [cancelled_trace]. *)
Definition cancelling {E A : Type} (err : E -> Prop) (Q : A -> Prop) (c : M World E A)
  : Prop :=
  forall w, aborted w = false ->
    exists evs,
      trace (fst (c w)) = trace w ++ evs /\
      ((aborted (fst (c w)) = false /\ ~ In Cancel evs /\
        match snd (c w) with inr a => Q a | inl _ => True end)
       \/
       (aborted (fst (c w)) = true /\ cancelled_trace evs /\
        match snd (c w) with inr _ => False | inl e => err e end)).

(** ** Tactics of the proofs *)

(** Case analysis on the comparisons of exponents and mantissas. *)
Ltac cmp_cases :=
  repeat match goal with
  | |- context [Z.compare ?a ?b] => destruct (Z.compare_spec a b); subst
  | H : context [Z.compare ?a ?b] |- _ => destruct (Z.compare_spec a b); subst
  | |- context [Pos.compare_cont Eq ?a ?b] => change (Pos.compare_cont Eq a b) with (Pos.compare a b); destruct (Pos.compare_spec a b); subst
  | H : context [Pos.compare_cont Eq ?a ?b] |- _ => change (Pos.compare_cont Eq a b) with (Pos.compare a b) in H; destruct (Pos.compare_spec a b); subst
  end.

(** ** Vocabulary of the further properties of the engine *)

(** The time the wrapper has slept in total, in milliseconds. *)
Definition total_backoff (h : CallLog) : Z := fold_right Z.add 0%Z (naps h).

(** A clock that stands still: every reading is 5 ms. *)
Definition frozen_clock : Env :=
  {| network := fun _ => answered;
     clock_reading := fun _ => 5%float;
     abort_while_sleeping := fun _ => false;
     random_values_quota := fun _ => true;
     date_now := 1700000000000%float;
     removeConsole := false |}.

(** The options [{ onProgress, signal, retries: -1 }]. *)
Definition negative_budget : RunSpeedTestOptions :=
  {| onProgress := true; signal := Some caller_signal; enableUpload := None;
     retries := Some (-1)%Z |}.

(** [c] throws only values of [Q] and returns only values of [R]. *)
Definition outcome {S E A : Type} (Q : E -> Prop) (R : A -> Prop) (c : M S E A) : Prop :=
  forall s, match snd (c s) with inl e => Q e | inr a => R a end.

(** The errors of a probe: the abort error if the probe was given a signal,
    the [TypeError] of the network, the quota error if the probe fills a
    buffer, and the error that the probe makes of a status that is not a
    success. *)
Definition probe_error (guarded fills : bool) (message : string) (e : JsError) : bool :=
  match e with
  | AbortError => guarded
  | NetworkError => true
  | JsonSyntaxError => false
  | QuotaExceededError => fills
  | StatusError message' status =>
      String.eqb message' message && negb ((200 <=? status)%Z && (status <=? 299)%Z)
  end.

(** Whether a probe was given a signal. *)
Definition guarded_by (signal : option AbortSignal) : bool :=
  match signal with Some _ => true | None => false end.

Definition has_signal (options : RunSpeedTestOptions) : bool :=
  guarded_by (signal options).

(** The values that a run throws. *)
Definition run_error (options : RunSpeedTestOptions) (u : unknown JsError) : bool :=
  match u with
  | undefined => (retry_budget options <? 0)%Z
  | caught e =>
      (0 <=? retry_budget options)%Z
      && (probe_error (has_signal options) false "Latency request failed with status " e
          || probe_error (has_signal options) false "Download request failed with status " e
          || (upload_enabled options
              && probe_error (has_signal options) true "Upload request failed with status " e))
  end.

(** What the wrapper throws when the wrapped operation throws values of [Q]. *)
Definition retried (Q : JsError -> Prop) (budget : Z) (u : unknown JsError) : Prop :=
  match u with
  | undefined => (budget < 0)%Z
  | caught e => (0 <= budget)%Z /\ Q e
  end.

(** What can happen in a run that does not get to send an upload: no
    request to the upload endpoint, no progress of the upload stage and no
    completion. *)
Definition before_upload (ev : Event) : Prop :=
  match ev with
  | Fetch req _ => endpoint req <> CLOUDFLARE_UPLOAD_ENDPOINT /\ post req = false
  | Progress _ phase_upload | Progress _ phase_completed => False
  | _ => True
  end.

(** The scenario on a platform whose [crypto.getRandomValues] refuses a
    buffer of more than 65536 bytes, as the Web Crypto API specifies. *)
Definition web_crypto_quota : Env :=
  {| network := fun _ => answered;
     clock_reading := fun n => nth n scenario_clock 0%float;
     abort_while_sleeping := fun _ => false;
     random_values_quota := fun sizeBytes => (sizeBytes <=? 65536)%float;
     date_now := 1700000000000%float;
     removeConsole := false |}.

(** *** The requests of a run, stage by stage *)

(** The calls of [fetch] among some events, in order, sent or refused. *)
Definition requests (evs : list Event) : list Request := map fst (fetches evs).

Definition not_fetch (ev : Event) : Prop :=
  match ev with Fetch _ _ => False | _ => True end.

(** From any state, [c] calls [fetch] at most [bound] times, each time for
    the request [q]. *)
Definition calls_fetch {E A : Type} (q : Request) (bound : nat) (c : M World E A) : Prop :=
  forall w, exists evs n,
    trace (fst (c w)) = trace w ++ evs /\ (n <= bound)%nat /\ requests evs = repeat q n.

(** A plan lists the requests of the stages in order, each with the most
    times it can be made; [staged plan counts] is the sequence of requests
    in which the request of each stage is made as often as [counts] says. *)
Definition staged (plan : list (Request * nat)) (counts : list nat) : list Request :=
  List.concat (map (fun stage => repeat (fst (fst stage)) (snd stage)) (combine plan counts)).

Definition within_plan (plan : list (Request * nat)) (counts : list nat) : Prop :=
  Forall2 (fun stage n => (n <= snd stage)%nat) plan counts.

(** From any state, the calls of [fetch] of [c] go through the stages of
    [plan] in order, within its bounds. *)
Definition follows {E A : Type} (plan : list (Request * nat)) (c : M World E A) : Prop :=
  forall w, exists evs counts,
    trace (fst (c w)) = trace w ++ evs /\ within_plan plan counts /\
    requests evs = staged plan counts.

(** The plan of a run: the latency request, 8 times per attempt; then one
    request per attempt for each download size and, if upload is enabled,
    for each upload size.  A budget [r >= 0] allows [r + 1] attempts. *)
Definition run_plan (options : RunSpeedTestOptions) : list (Request * nat) :=
  let attempts := Z.to_nat (retry_budget options + 1) in
  [(latency_request (signal options), (LATENCY_ATTEMPTS * attempts)%nat)]
  ++ map (fun size => (download_request size (signal options), attempts)) DOWNLOAD_SIZES
  ++ (if upload_enabled options
      then map (fun size => (upload_request size (signal options), attempts)) UPLOAD_SIZES
      else []).

(** *** Runs on a network without surprises *)

(** The caller never fires the signal. *)
Definition never_aborts (env : Env) : Prop :=
  (forall n, abort_in_flight (network env n) = false) /\
  (forall n rep, reply (network env n) = Some rep -> abort_mid_body rep = false) /\
  (forall n, abort_while_sleeping env n = false).

(** The error of a probe whose request has the outcome [o], when the
    request fails before the body is read: on the network, or by a status
    that is not a success. *)
Definition request_error (message : string) (o : Outcome) : option JsError :=
  match reply o with
  | None => Some NetworkError
  | Some rep =>
      if (200 <=? status rep)%Z && (status rep <=? 299)%Z then None
      else Some (StatusError message (status rep))
  end.

(** The request is answered with a status of success and its body arrives,
    and the caller does not abort meanwhile. *)
Definition served (o : Outcome) : bool :=
  negb (abort_in_flight o)
  && match reply o with
     | Some rep =>
         (200 <=? status rep)%Z && (status rep <=? 299)%Z
         && negb (abort_mid_body rep) && body_arrives rep
     | None => false
     end.

(** The world after a request has been put on the wire, after a reading of
    the clock and after a sleep that the caller does not interrupt. *)
Definition sent (req : Request) (w : World) : World :=
  {| trace := trace w ++ [Fetch req true]; wire := Datatypes.S (wire w);
     readings := readings w; sleeps := sleeps w; aborted := aborted w |}.

Definition tick (w : World) : World :=
  {| trace := trace w; wire := wire w; readings := Datatypes.S (readings w);
     sleeps := sleeps w; aborted := aborted w |}.

Definition slept (ms : Z) (w : World) : World :=
  {| trace := trace w ++ [Sleep ms]; wire := wire w; readings := readings w;
     sleeps := Datatypes.S (sleeps w); aborted := aborted w |}.

(** [w'] is [w] after the events [evs], [n] of them requests put on the
    wire between two readings of the clock each, without a sleep and
    without a change of the signal. *)
Definition advances (w w' : World) (evs : list Event) (n : nat) : Prop :=
  trace w' = trace w ++ evs /\ wire w' = (wire w + n)%nat /\
  readings w' = (readings w + 2 * n)%nat /\ sleeps w' = sleeps w /\
  aborted w' = aborted w.

(** The events of a wrapped probe that fails at its first request on each
    of its [count + 1] attempts, the sleep before the first retry being of
    [300 * first] ms. *)
Definition attempts_trace (q : Request) (first : Z) (count : nat) : list Event :=
  Fetch q true
  :: flat_map (fun j => [Sleep (300 * (first + Z.of_nat j)); Fetch q true]) (seq 0 count).

(** The call of the callback, if there is one. *)
Definition report (onProgress : bool) (value : float) (phase : SpeedTestPhase) : list Event :=
  if onProgress then [Progress (clamp value) phase] else [].

(** The events of the download loop and of the upload loop from index [i],
    when every probe succeeds at once. *)
Fixpoint download_events (onProgress : bool) (signal : option AbortSignal)
    (todo : list float) (i : Z) : list Event :=
  match todo with
  | [] => []
  | size :: todo' =>
      Fetch (download_request size signal) true
      :: report onProgress
           (20 + (number_of_Z (i + 1) / number_of_nat (List.length DOWNLOAD_SIZES)) * 55)%float
           phase_download
      ++ download_events onProgress signal todo' (i + 1)
  end.

Fixpoint upload_events (onProgress : bool) (signal : option AbortSignal)
    (todo : list float) (i : Z) : list Event :=
  match todo with
  | [] => []
  | size :: todo' =>
      Fetch (upload_request size signal) true
      :: report onProgress
           (80 + (number_of_Z (i + 1) / number_of_nat (List.length UPLOAD_SIZES)) * 18)%float
           phase_upload
      ++ upload_events onProgress signal todo' (i + 1)
  end.

(** The events of a run from the end of a latency measurement on, when
    every probe succeeds at once. *)
Definition stages_trace (options : RunSpeedTestOptions) : list Event :=
  report (onProgress options) 20 phase_latency
  ++ download_events (onProgress options) (signal options) DOWNLOAD_SIZES 0
  ++ (if upload_enabled options
      then upload_events (onProgress options) (signal options) UPLOAD_SIZES 0
      else [])
  ++ report (onProgress options) 100 phase_completed.

(** The events of a run in which every probe succeeds at once. *)
Definition healthy_trace (options : RunSpeedTestOptions) : list Event :=
  report (onProgress options) 2 phase_latency
  ++ repeat (Fetch (latency_request (signal options)) true) LATENCY_ATTEMPTS
  ++ stages_trace options.

(** The number of requests of such a run. *)
Definition healthy_requests (options : RunSpeedTestOptions) : nat :=
  LATENCY_ATTEMPTS + List.length DOWNLOAD_SIZES
  + (if upload_enabled options then List.length UPLOAD_SIZES else 0).

(** The next [count] requests are served. *)
Definition serves (env : Env) (from count : nat) : Prop :=
  forall i, (i < count)%nat -> served (network env (from + i)) = true.

(** A server that answers every request with the status 503. *)
Definition unavailable : Env :=
  {| network := fun _ =>
       {| abort_in_flight := false;
          reply := Some {| status := 503; abort_mid_body := false; body_arrives := true;
                           json_body := None |} |};
     clock_reading := fun n => number_of_nat n;
     abort_while_sleeping := fun _ => false;
     random_values_quota := fun _ => true;
     date_now := 1700000000000%float;
     removeConsole := false |}.

(** A network that fails the request number [failing] and serves the
    others; the clock advances by 1 ms at each reading. *)
Definition one_failure (failing : nat) : Env :=
  {| network := fun n =>
       if (n =? failing)%nat then {| abort_in_flight := false; reply := None |} else answered;
     clock_reading := fun n => number_of_nat n;
     abort_while_sleeping := fun _ => false;
     random_values_quota := fun _ => true;
     date_now := 1700000000000%float;
     removeConsole := false |}.

(** The events of a wrapped probe that is refused at its first request on
    each of its [count + 1] attempts, because the signal had fired. *)
Definition refused_trace (q : Request) (first : Z) (count : nat) : list Event :=
  Fetch q false
  :: flat_map (fun j => [Sleep (300 * (first + Z.of_nat j)); Fetch q false]) (seq 0 count).

(** A world in which the signal has fired before the run starts. *)
Definition already_aborted : World :=
  {| trace := []; wire := 0; readings := 0; sleeps := 0; aborted := true |}.

(** * The component (components/SpeedTest.tsx)

    The component keeps the state of the page in React state variables and
    one ref, and changes it in event handlers.  A handler is embedded as a
    function on the values of the state variables, of the ref and of what it
    uses of the browser; a call of a state setter takes effect at once.  The
    component is a client component: [window] and [document] are defined,
    and it stays mounted.

    [startTest] awaits [runSpeedTest]: while the promise is pending, the
    callback [onProgress] and the handler of the Cancel button run; their
    calls are the [Progress] and [Cancel] events of the world, and they are
    replayed on the state in the order of the trace.  A run is followed to
    its end before the next click on Start is looked at.

    The store keeps the history as JSON text; the embedding keeps the
    entries that the text was made from: a list of any length.  A text
    that is not the JSON text of a list of entries, which only another
    program can have put in the store, is outside the embedding. *)

(** [Math.round]: the nearest integer, a tie going up; a result that is zero
    keeps the sign of the argument. *)
Definition Math_round (x : float) : float :=
  match Prim2SF x with
  | S754_finite s m e =>
      if (0 <=? e)%Z then x
      else
        let n := ((cond_Zopp s (Z.pos m) * 2 + 2 ^ (- e)) / 2 ^ (1 - e))%Z in
        if (n =? 0)%Z && s then (-0)%float else number_of_Z n
  | _ => x
  end.

(** [interface SpeedTestHistoryEntry extends SpeedTestResult { isp?: string }];
    [isp] holds what [getIspInformation] returned. *)
Record SpeedTestHistoryEntry : Type := {
  extends : SpeedTestResult;
  isp : JsValue
}.

Module SpeedTest.

Inductive ThemeMode : Type := light | dark.

(** The state variables and the ref of the component. *)
Record Component : Type := {
  isRunning : bool;
  phase : SpeedTestPhase;
  progress : float;
  result : option SpeedTestResult;
  error : option string;
  history : list SpeedTestHistoryEntry;
  isp : JsValue;
  theme : ThemeMode;
  abortControllerRef : option AbortSignal   (* [.current]: the controller of the run *)
}.

(** What the component uses of the browser. *)
Record Browser : Type := {
  stored_theme : option ThemeMode;      (* [localStorage.getItem(THEME_STORAGE_KEY)] *)
  stored_history : option (list SpeedTestHistoryEntry);
                                        (* the entries whose JSON text is stored
                                           under [HISTORY_STORAGE_KEY] *)
  body_light : bool;                    (* [document.body] has the class [light] *)
  console_errors : list (unknown JsError)   (* the calls of [console.error] *)
}.

(** The initial values of the state variables, in a browser. *)
Definition initial : Component :=
  {| isRunning := false; phase := phase_idle; progress := 0; result := None; error := None;
     history := []; isp := JsUndefined; theme := dark; abortControllerRef := None |}.

(**
<<
const loadStoredTheme = (): ThemeMode | null => {
  if (typeof window === 'undefined') return null;
  return (localStorage.getItem(THEME_STORAGE_KEY) as ThemeMode | null) ?? null;
};
const persistTheme = (mode: ThemeMode) => {
  if (typeof window === 'undefined') return;
  localStorage.setItem(THEME_STORAGE_KEY, mode);
};
const applyThemeClass = (mode: ThemeMode) => {
  if (typeof document === 'undefined') return;
  document.body.classList.toggle('light', mode === 'light');
};
>> *)
Definition loadStoredTheme (b : Browser) : option ThemeMode := stored_theme b.

Definition persistTheme (mode : ThemeMode) (b : Browser) : Browser :=
  {| stored_theme := Some mode; stored_history := stored_history b;
     body_light := body_light b; console_errors := console_errors b |}.

Definition applyThemeClass (mode : ThemeMode) (b : Browser) : Browser :=
  {| stored_theme := stored_theme b; stored_history := stored_history b;
     body_light := match mode with light => true | dark => false end;
     console_errors := console_errors b |}.

Definition setTheme (mode : ThemeMode) (c : Component) : Component :=
  {| isRunning := isRunning c; phase := phase c; progress := progress c; result := result c;
     error := error c; history := history c; isp := isp c; theme := mode;
     abortControllerRef := abortControllerRef c |}.

(** The part of the effect of the first render that restores the theme;
    [matches] is [window.matchMedia('(prefers-color-scheme: dark)').matches].
<<
    const storedTheme = loadStoredTheme();
    const preferred: ThemeMode = storedTheme
      ? storedTheme
      : window.matchMedia('(prefers-color-scheme: dark)').matches ? 'dark' : 'light';
    setTheme(preferred);
    applyThemeClass(preferred);
>> *)
Definition restore_theme (matches : bool) (ui : Component * Browser) : Component * Browser :=
  let (c, b) := ui in
  let preferred :=
    match loadStoredTheme b with
    | Some storedTheme => storedTheme
    | None => if matches then dark else light
    end in
  (setTheme preferred c, applyThemeClass preferred b).

(** The part of the effect of the first render that restores the history:
    the list that is read from the store is taken as it is.
<<
    const storedHistory = localStorage.getItem(HISTORY_STORAGE_KEY);
    if (storedHistory) {
      try {
        const parsed = JSON.parse(storedHistory) as SpeedTestHistoryEntry[];
        setHistory(parsed);
      } catch (storageError) {
        console.warn('Unable to parse stored history', storageError);
      }
    }
>> *)
Definition setHistory (entries : list SpeedTestHistoryEntry) (c : Component) : Component :=
  {| isRunning := isRunning c; phase := phase c; progress := progress c; result := result c;
     error := error c; history := entries; isp := isp c; theme := theme c;
     abortControllerRef := abortControllerRef c |}.

Definition restore_history (ui : Component * Browser) : Component * Browser :=
  let (c, b) := ui in
  match stored_history b with
  | Some parsed => (setHistory parsed c, b)
  | None => ui
  end.

(** The effect of the first render, up to the registration of
    [handleChange]. *)
Definition mount (matches : bool) (ui : Component * Browser) : Component * Browser :=
  restore_theme matches (restore_history ui).

(**
<<
    const handleChange = (event: MediaQueryListEvent) => {
      if (!loadStoredTheme()) {
        const nextMode: ThemeMode = event.matches ? 'dark' : 'light';
        setTheme(nextMode);
        applyThemeClass(nextMode);
      }
    };
>> *)
Definition handleChange (matches : bool) (ui : Component * Browser) : Component * Browser :=
  let (c, b) := ui in
  match loadStoredTheme b with
  | Some _ => ui
  | None =>
      let nextMode := if matches then dark else light in
      (setTheme nextMode c, applyThemeClass nextMode b)
  end.

(**
<<
  const handleThemeToggle = useCallback(() => {
    setTheme((prev) => {
      const next: ThemeMode = prev === 'dark' ? 'light' : 'dark';
      applyThemeClass(next);
      persistTheme(next);
      return next;
    });
  }, []);
>> *)
Definition handleThemeToggle (ui : Component * Browser) : Component * Browser :=
  let (c, b) := ui in
  let next := match theme c with dark => light | light => dark end in
  (setTheme next c, persistTheme next (applyThemeClass next b)).

(** The effect that looks the provider up: [getIspInformation().then(setIsp)]. *)
Definition setIsp (value : JsValue) (c : Component) : Component :=
  {| isRunning := isRunning c; phase := phase c; progress := progress c; result := result c;
     error := error c; history := history c; isp := value; theme := theme c;
     abortControllerRef := abortControllerRef c |}.

(**
<<
  const persistHistory = useCallback((entries: SpeedTestHistoryEntry[]) => {
    if (typeof window === 'undefined') return;
    localStorage.setItem(HISTORY_STORAGE_KEY, JSON.stringify(entries));
  }, []);
>> *)
Definition persistHistory (entries : list SpeedTestHistoryEntry) (b : Browser) : Browser :=
  {| stored_theme := stored_theme b; stored_history := Some entries;
     body_light := body_light b; console_errors := console_errors b |}.

(** The options that [startTest] gives [runSpeedTest]: a callback, the
    signal of a new controller, [enableUpload: true], and no [retries]. *)
Definition options : RunSpeedTestOptions :=
  {| onProgress := true; signal := Some caller_signal; enableUpload := Some true;
     retries := None |}.

(** The callback:
<<
        onProgress: (nextProgress, nextPhase) => {
          setProgress(Math.round(nextProgress));
          setPhase(nextPhase);
        }
>> *)
Definition onProgress (nextProgress : float) (nextPhase : SpeedTestPhase) (c : Component)
  : Component :=
  {| isRunning := isRunning c; phase := nextPhase; progress := Math_round nextProgress;
     result := result c; error := error c; history := history c; isp := isp c;
     theme := theme c; abortControllerRef := abortControllerRef c |}.

(** The handler of the Cancel button; its call of [abort()] is the event
    [Cancel] of the world.
<<
  const cancelTest = useCallback(() => {
    if (abortControllerRef.current) {
      abortControllerRef.current.abort();
      abortControllerRef.current = null;
    }
    setIsRunning(false);
    setPhase('idle');
    setProgress(0);
  }, []);
>> *)
Definition cancelTest (c : Component) : Component :=
  {| isRunning := false; phase := phase_idle; progress := 0; result := result c;
     error := error c; history := history c; isp := isp c; theme := theme c;
     abortControllerRef := None |}.

(** What an event of the run does to the state while [startTest] waits. *)
Definition during (c : Component) (ev : Event) : Component :=
  match ev with
  | Progress value nextPhase => onProgress value nextPhase c
  | Cancel => cancelTest c
  | _ => c
  end.

Definition ERROR_MESSAGE : string :=
  "Unable to complete the speed test. Please check your connection and try again.".

(** The statements of [startTest] before the [await]. *)
Definition starting (c : Component) : Component :=
  {| isRunning := true; phase := phase_latency; progress := 0; result := None; error := None;
     history := history c; isp := isp c; theme := theme c;
     abortControllerRef := Some caller_signal |}.

(** The statements after the [await]: the rest of the [try] block, the
    [catch] block and the [finally] block.  [isp0] is the [isp] of the
    render that made the handler; [history c] is the [prev] of the updater.
    The call of [console.error] is not in the production build.
<<
      setResult(testResult);
      setPhase('completed');
      setProgress(100);
      const entry: SpeedTestHistoryEntry = { ...testResult, isp };
      setHistory((prev) => {
        const nextHistory = [entry, ...prev].slice(0, 5);
        persistHistory(nextHistory);
        return nextHistory;
      });
    } catch (err) {
      if (err instanceof DOMException && err.name === 'AbortError') {
        setError(null);
        setPhase('idle');
        setProgress(0);
      } else {
        console.error(err);
        setError('Unable to complete the speed test. Please check your connection and try again.');
        setPhase('error');
        setProgress(0);
      }
    } finally {
      setIsRunning(false);
      abortControllerRef.current = null;
    }
>> *)
Definition settle (env : Env) (isp0 : JsValue) (out : unknown JsError + SpeedTestResult)
    (ui : Component * Browser) : Component * Browser :=
  let (c, b) := ui in
  match out with
  | inr testResult =>
      let entry := Build_SpeedTestHistoryEntry testResult isp0 in
      let nextHistory := firstn 5 (entry :: history c) in
      ({| isRunning := false; phase := phase_completed; progress := 100;
          result := Some testResult; error := error c; history := nextHistory;
          isp := isp c; theme := theme c; abortControllerRef := None |},
       persistHistory nextHistory b)
  | inl (caught AbortError) =>
      ({| isRunning := false; phase := phase_idle; progress := 0; result := result c;
          error := None; history := history c; isp := isp c; theme := theme c;
          abortControllerRef := None |},
       b)
  | inl err =>
      ({| isRunning := false; phase := phase_error; progress := 0; result := result c;
          error := Some ERROR_MESSAGE; history := history c; isp := isp c;
          theme := theme c; abortControllerRef := None |},
       {| stored_theme := stored_theme b; stored_history := stored_history b;
          body_light := body_light b;
          console_errors := if removeConsole env then console_errors b
                            else console_errors b ++ [err] |})
  end.

(** [new AbortController()]: a signal that has not fired. *)
Definition new_controller (w : World) : World :=
  {| trace := trace w; wire := wire w; readings := readings w; sleeps := sleeps w;
     aborted := false |}.

(**
<<
  const startTest = useCallback(async () => {
    if (isRunning) return;

    setIsRunning(true);
    setPhase('latency');
    setProgress(0);
    setError(null);
    setResult(null);

    const controller = new AbortController();
    abortControllerRef.current = controller;

    try {
      const testResult = await runSpeedTest({
        enableUpload: true,
        signal: controller.signal,
        onProgress: (nextProgress, nextPhase) => { ... }
      });
      ...
  }, [isRunning, isp, persistHistory]);
>> *)
Definition startTest (env : Env) (ui : Component * Browser) (w : World)
  : (Component * Browser) * World :=
  let (c, b) := ui in
  if isRunning c then (ui, w)
  else
    let w0 := new_controller w in
    let (w', out) := runSpeedTest env options w0 in
    let events := skipn (List.length (trace w0)) (trace w') in
    (settle env (isp c) out (fold_left during events (starting c), b), w').

(** The states that the page goes through while the events happen. *)
Fixpoint shown (c : Component) (evs : list Event) : list Component :=
  match evs with
  | [] => []
  | ev :: evs' => during c ev :: shown (during c ev) evs'
  end.

(** The result that the cards show:
    [const activeResult = result ?? history.at(0) ?? null;] *)
Definition activeResult (c : Component) : option SpeedTestResult :=
  match result c with
  | Some r => Some r
  | None =>
      match history c with
      | entry :: _ => Some (extends entry)
      | [] => None
      end
  end.

(** What happens to a mounted component. *)
Inductive Action : Type :=
| ClickStart (env : Env)             (* the Start button, and the run it starts *)
| ClickCancel                        (* the Cancel button *)
| ClickTheme                         (* the theme button *)
| PreferenceChange (matches : bool)  (* the colour scheme of the system changes *)
| IspResolved (value : JsValue).     (* [getIspInformation()] resolves *)

Definition act (s : (Component * Browser) * World) (a : Action)
  : (Component * Browser) * World :=
  let '((c, b), w) := s in
  match a with
  | ClickStart env => startTest env (c, b) w
  | ClickCancel => ((cancelTest c, b), w)
  | ClickTheme => (handleThemeToggle (c, b), w)
  | PreferenceChange matches => (handleChange matches (c, b), w)
  | IspResolved value => ((setIsp value c, b), w)
  end.

(** The class of the body is the one of the theme. *)
Definition themed (ui : Component * Browser) : Prop :=
  body_light (snd ui) = match theme (fst ui) with light => true | dark => false end.

End SpeedTest.

(** The effect that looks the provider up.  The promise of
    [getIspInformation] has a [then] and no [catch]: a rejection would be
    unhandled, and is the third component of the result.
<<
  useEffect(() => {
    let isMounted = true;
    getIspInformation().then((value) => {
      if (isMounted) {
        setIsp(value);
      }
    });
    return () => {
      isMounted = false;
    };
  }, []);
>> *)
Definition isp_effect (env : Env) (isMounted : bool) (c : SpeedTest.Component) (w : World)
  : SpeedTest.Component * World * option JsError :=
  match getIspInformation env w with
  | (w', inr value) => (if isMounted then SpeedTest.setIsp value c else c, w', None)
  | (w', inl rejection) => (c, w', Some rejection)
  end.

(** The badge [{isp ? <span>ISP · {isp}</span> : null}] is rendered. *)
Definition badge (c : SpeedTest.Component) : bool := truthy (SpeedTest.isp c).

(** The events of the run that [startTest] starts in the world [w]. *)
Definition run_events (env : Env) (w : World) : list Event :=
  skipn (List.length (trace w))
    (trace (fst (runSpeedTest env SpeedTest.options (SpeedTest.new_controller w)))).

(** The numbers that the page can show as the progress. *)
Definition shown_progress : list float := [0; 2; 20; 38; 57; 75; 89; 98; 100]%float.

(** The history that the first render reads from the store. *)
Definition restored (b : SpeedTest.Browser) : list SpeedTestHistoryEntry :=
  match SpeedTest.stored_history b with
  | Some parsed => parsed
  | None => []
  end.

(** The component is at rest: no run is in progress, the history is still
    the one that was read from the store or holds at most five results, and
    the page has the class of the theme. *)
Definition at_rest (read : list SpeedTestHistoryEntry)
    (ui : SpeedTest.Component * SpeedTest.Browser) : Prop :=
  SpeedTest.isRunning (fst ui) = false /\ SpeedTest.abortControllerRef (fst ui) = None /\
  (SpeedTest.history (fst ui) = read \/ (List.length (SpeedTest.history (fst ui)) <= 5)%nat) /\
  SpeedTest.themed ui.

(** The page after a click on Cancel: idle, at 0, without a controller. *)
Definition cancelled (c : SpeedTest.Component) : Prop :=
  SpeedTest.isRunning c = false /\ SpeedTest.phase c = phase_idle /\
  SpeedTest.progress c = 0%float /\ SpeedTest.abortControllerRef c = None.

(** A browser in which nothing is stored yet. *)
Definition empty_store : SpeedTest.Browser :=
  {| SpeedTest.stored_theme := None; SpeedTest.stored_history := None;
     SpeedTest.body_light := false; SpeedTest.console_errors := [] |}.

From Stdlib Require DecimalString.

(** * The result card (components/ResultCard.tsx)

<<
const formatValue = (value: number | string | null): string => {
  if (value === null || value === undefined) return '--';
  if (typeof value === 'number') {
    if (Number.isNaN(value)) return '--';
    return value >= 100 ? value.toFixed(0) : value.toFixed(2);
  }
  return value;
};
>> *)

(** The digits of the decimal representation of [n >= 0], without leading
    zeros; ["0"] for 0. *)
Definition decimal_digits (n : Z) : string :=
  DecimalString.NilZero.string_of_uint (N.to_uint (Z.to_N n)).

Fixpoint zeros (k : nat) : string :=
  match k with
  | O => EmptyString
  | Datatypes.S k' => ("0" ++ zeros k')%string
  end.

(** Steps 11.b and 11.c of [Number.prototype.toFixed] (ECMA-262, 21.1.3.3):
    the digits of [n] with a point before the last [f] of them, after
    zeros have been put in front where the digits are too few. *)
Definition fixed (n : Z) (f : nat) : string :=
  let m := decimal_digits n in
  if (f =? 0)%nat then m
  else
    let k := String.length m in
    let m := if (k <=? f)%nat then (zeros (f + 1 - k) ++ m)%string else m in
    let k := String.length m in
    (substring 0 (k - f) m ++ "." ++ substring (k - f) f m)%string.

(** Step 11.a for the number [m * 2 ^ e]: the integer [n] for which
    [n / 10 ^ f] is nearest to the number, the larger one of two. *)
Definition nearest (f : nat) (m : positive) (e : Z) : Z :=
  if (0 <=? e)%Z then Z.pos m * 10 ^ Z.of_nat f * 2 ^ e
  else (2 * Z.pos m * 10 ^ Z.of_nat f + 2 ^ (- e)) / 2 ^ (1 - e).

Section ResultCard.
(** [Number::toString] of the platform, to which [toFixed] hands a finite
    number of at least [10 ^ 21]. *)
Variable Number_toString : float -> string.

(** [x.toFixed(fractionDigits)], for [fractionDigits] from 0 to 100. *)
Definition toFixed (x : float) (fractionDigits : nat) : string :=
  match Prim2SF x with
  | S754_nan => "NaN"%string
  | S754_infinity s => if s then "-Infinity"%string else "Infinity"%string
  | S754_zero _ => fixed 0 fractionDigits
  | S754_finite s m e =>
      let sign := if s then "-"%string else EmptyString in
      if (1e21 <=? abs x)%float then (sign ++ Number_toString (abs x))%string
      else (sign ++ fixed (nearest fractionDigits m e) fractionDigits)%string
  end.

(** A value of the type [number | string | null] is [None] for [null]. *)
Definition formatValue (value : option (float + string)) : string :=
  match value with
  | None => "--"%string
  | Some (inl x) =>
      if is_nan x then "--"%string
      else if (100 <=? x)%float then toFixed x 0 else toFixed x 2
  | Some (inr s) => s
  end.
End ResultCard.

(** The text of [n] hundredths: the digits of the integer part, a point and
    two digits. *)
Definition hundredths (n : Z) : string :=
  (decimal_digits (n / 100) ++ "." ++ decimal_digits ((n / 10) mod 10)
   ++ decimal_digits (n mod 10))%string.

(** [n] is the integer nearest to [k] times the number [x], the larger one
    of two; [scaled x] is [x] in units of [2 ^ -1074]. *)
Definition nearest_to (k : Z) (x : float) (n : Z) : Prop :=
  ((2 * n - 1) * 2 ^ 1074 <= 2 * k * scaled x < (2 * n + 1) * 2 ^ 1074)%Z.

(** [phase === q] *)
Definition phase_eqb (p q : SpeedTestPhase) : bool :=
  match p, q with
  | phase_idle, phase_idle | phase_latency, phase_latency
  | phase_download, phase_download | phase_upload, phase_upload
  | phase_completed, phase_completed | phase_error, phase_error => true
  | _, _ => false
  end.

(** A value of the type [number | null] as a value of [number | string | null]. *)
Definition number_or_null (x : option float) : option (float + string) :=
  option_map inl x.

(** The texts of the four cards of the component. *)
Record Cards : Type := {
  Download : string;
  Upload : string;
  Ping : string;
  Jitter : string
}.

Section Cards.
Variable Number_toString : float -> string.

(** The text that a card shows for its value:
<<
              {formatValue(isLoading ? null : value)}
>> *)
Definition ResultCard (value : option (float + string)) (isLoading : bool) : string :=
  formatValue Number_toString (if isLoading then None else value).

(** The cards that show the result [shown] while the phase [p] is in
    progress ([busy p]):
<<
              <ResultCard
                label="Download"
                value={activeResult?.downloadMbps ?? null}
                isLoading={isRunning && phase === 'download'}
              />
              <ResultCard
                label="Upload"
                value={activeResult?.uploadMbps ?? null}
                isLoading={isRunning && phase === 'upload'}
              />
              <ResultCard
                label="Ping"
                value={activeResult?.latency?.average ?? null}
                isLoading={isRunning && phase === 'latency'}
              />
              <ResultCard
                label="Jitter"
                value={activeResult?.latency?.jitter ?? null}
                isLoading={isRunning && phase === 'latency'}
              />
>> *)
Definition cards_of (shown : option SpeedTestResult) (busy : SpeedTestPhase -> bool)
  : Cards :=
  let field {A} (get : SpeedTestResult -> option A) : option A :=
    match shown with Some r => get r | None => None end in
  {| Download := ResultCard (number_or_null (field downloadMbps)) (busy phase_download);
     Upload := ResultCard (number_or_null (field uploadMbps)) (busy phase_upload);
     Ping := ResultCard (number_or_null (option_map average (field latency)))
               (busy phase_latency);
     Jitter := ResultCard (number_or_null (option_map jitter (field latency)))
                 (busy phase_latency) |}.

Definition cards (c : SpeedTest.Component) : Cards :=
  cards_of (SpeedTest.activeResult c)
    (fun p => SpeedTest.isRunning c && phase_eqb (SpeedTest.phase c) p).
End Cards.

(** * Properties *)

(** ** Binary64 arithmetic *)

Lemma SFcompare_refl s : sf_nan s = false -> SFcompare s s = Some Eq.
Proof.
  destruct s as [[]|[]| |[] m e]; simpl; try reflexivity; try discriminate; intros _;
    rewrite Z.compare_refl, Pos.compare_cont_refl; reflexivity.
Qed.

Lemma is_nan_spec x : is_nan x = sf_nan (Prim2SF x).
Proof.
  unfold is_nan. rewrite eqb_spec. unfold SFeqb.
  destruct (sf_nan (Prim2SF x)) eqn:H.
  - destruct (Prim2SF x); try discriminate. reflexivity.
  - rewrite SFcompare_refl by assumption. reflexivity.
Qed.

Lemma Prim2SF_infinity : Prim2SF infinity = S754_infinity false.
Proof. reflexivity. Qed.

Lemma is_finite_spec x : is_finite x = sf_finite (Prim2SF x).
Proof.
  unfold is_finite, is_infinity. rewrite is_nan_spec, eqb_spec, abs_spec, Prim2SF_infinity.
  destruct (Prim2SF x) as [[]|[]| |[] m e]; reflexivity.
Qed.

Lemma Prim2SF_inj x y : Prim2SF x = Prim2SF y -> x = y.
Proof.
  intros H. rewrite <- (SF2Prim_Prim2SF x), <- (SF2Prim_Prim2SF y), H. reflexivity.
Qed.

(** Order *)
Lemma SFleb_nan_l a b : SFleb a b = true -> sf_nan a = false.
Proof. destruct a; try reflexivity. discriminate. Qed.
Lemma SFleb_nan_r a b : SFleb a b = true -> sf_nan b = false.
Proof. destruct a as [[]|[]| |[] ? ?], b; try reflexivity; discriminate. Qed.

Lemma SFleb_trans a b c : SFleb a b = true -> SFleb b c = true -> SFleb a c = true.
Proof.
  unfold SFleb.
  destruct a as [[]|[]| |[] ma ea], b as [[]|[]| |[] mb eb], c as [[]|[]| |[] mc ec];
    simpl; try reflexivity; try discriminate; intros H1 H2; cmp_cases;
    simpl in *; try reflexivity; try discriminate; try lia.
Qed.

Lemma SFltb_SFleb a b : SFltb a b = true -> SFleb a b = true.
Proof. unfold SFltb, SFleb. destruct (SFcompare a b) as [[]|]; auto. Qed.

Lemma SFcompare_antisym a b :
  sf_nan a = false -> sf_nan b = false ->
  SFcompare b a = option_map CompOpp (SFcompare a b).
Proof.
  destruct a as [[]|[]| |[] ma ea], b as [[]|[]| |[] mb eb];
    simpl; try reflexivity; try discriminate; intros _ _;
    rewrite (Z.compare_antisym eb ea); destruct (Z.compare eb ea); simpl; try reflexivity;
    change (Pos.compare_cont Eq ?x ?y) with (Pos.compare x y);
    rewrite (Pos.compare_antisym mb ma); destruct (Pos.compare mb ma); reflexivity.
Qed.

Lemma SFltb_false_SFleb a b :
  sf_nan a = false -> sf_nan b = false -> SFltb a b = false -> SFleb b a = true.
Proof.
  intros Ha Hb. unfold SFltb, SFleb. rewrite (SFcompare_antisym a b Ha Hb).
  destruct (SFcompare a b) as [[]|] eqn:Hc; simpl; try reflexivity; try discriminate.
  destruct a as [[]|[]| |[] ma ea], b as [[]|[]| |[] mb eb]; simpl in *; discriminate.
Qed.

(** Rounding keeps the sign *)
Lemma shr_1_nonneg mrs : (0 <= shr_m mrs)%Z -> (0 <= shr_m (shr_1 mrs))%Z.
Proof.
  destruct mrs as [m r s]. simpl. destruct m as [|p|p]; try destruct p; simpl; lia.
Qed.

Lemma iter_pos_shr_1_nonneg p : forall mrs,
  (0 <= shr_m mrs)%Z -> (0 <= shr_m (iter_pos shr_1 p mrs))%Z.
Proof.
  induction p as [p IH|p IH|]; intros mrs H; simpl.
  - apply IH, IH, shr_1_nonneg, H.
  - apply IH, IH, H.
  - apply shr_1_nonneg, H.
Qed.

Lemma shr_nonneg mrs e n : (0 <= shr_m mrs)%Z -> (0 <= shr_m (fst (shr mrs e n)))%Z.
Proof.
  intros H. destruct n; simpl; try assumption. apply iter_pos_shr_1_nonneg, H.
Qed.

Lemma shr_fexp_nonneg m e l :
  (0 <= m)%Z -> (0 <= shr_m (fst (shr_fexp prec emax m e l)))%Z.
Proof.
  intros H. unfold shr_fexp. apply shr_nonneg.
  destruct l as [|[]]; simpl; assumption.
Qed.

Lemma round_nearest_even_nonneg m l : (0 <= m)%Z -> (0 <= round_nearest_even m l)%Z.
Proof.
  intros H. destruct l as [|[]]; simpl; try lia. destruct (Z.even m); lia.
Qed.

Lemma binary_round_aux_signed sx mx ex lx :
  (0 <= mx)%Z -> sf_signed sx (binary_round_aux prec emax sx mx ex lx) = true.
Proof.
  intros H. unfold binary_round_aux.
  pose proof (shr_fexp_nonneg mx ex lx H) as H1.
  destruct (shr_fexp prec emax mx ex lx) as [mrs' e']. simpl in H1.
  pose proof (shr_fexp_nonneg
                (round_nearest_even (shr_m mrs') (loc_of_shr_record mrs')) e' loc_Exact
                (round_nearest_even_nonneg _ _ H1)) as H2.
  destruct (shr_fexp prec emax _ e' loc_Exact) as [mrs'' e'']. simpl in H2.
  destruct (shr_m mrs'') as [|m|m]; simpl.
  - apply eqb_reflx.
  - destruct (e'' <=? 971)%Z; simpl; apply eqb_reflx.
  - lia.
Qed.

Lemma binary_round_signed sx mx ex :
  sf_signed sx (binary_round prec emax sx mx ex) = true.
Proof.
  unfold binary_round. destruct (shl_align _ _ _) as [mz ez].
  apply binary_round_aux_signed. lia.
Qed.

Lemma sf_signed_not_nan sx s : sf_signed sx s = true -> sf_nan s = false.
Proof. destruct s; simpl; try reflexivity. discriminate. Qed.

Lemma sf_signed_unsigned s : sf_signed false s = true -> sf_unsigned s = true.
Proof. destruct s as [[]|[]| |[] ? ?]; simpl; try reflexivity; discriminate. Qed.

Lemma binary_normalize_not_nan m e sz :
  sf_nan (binary_normalize prec emax m e sz) = false.
Proof.
  destruct m; simpl; try reflexivity;
    eapply sf_signed_not_nan, binary_round_signed.
Qed.

(** Sums *)
Lemma SFadd_unsigned a b :
  sf_unsigned a = true -> sf_unsigned b = true -> sf_unsigned (SF64add a b) = true.
Proof.
  destruct a as [[]|[]| |[] ma ea], b as [[]|[]| |[] mb eb];
    simpl; try reflexivity; try discriminate; intros _ _.
  apply sf_signed_unsigned, binary_round_signed.
Qed.

Lemma SFadd_not_nan a b :
  sf_nan a = false -> sf_finite b = true -> sf_nan (SF64add a b) = false.
Proof.
  intros Ha Hb.
  destruct a as [[]|[]| |[] ma ea], b as [[]|[]| |[] mb eb];
    try discriminate Ha; try discriminate Hb; try reflexivity;
    apply binary_normalize_not_nan.
Qed.

Lemma SFsub_not_nan a b :
  sf_finite a = true -> sf_nan b = false -> sf_nan (SF64sub a b) = false.
Proof.
  intros Ha Hb.
  destruct a as [[]|[]| |[] ma ea], b as [[]|[]| |[] mb eb];
    try discriminate Ha; try discriminate Hb; try reflexivity;
    apply binary_normalize_not_nan.
Qed.

Lemma SFabs_unsigned a : sf_nan a = false -> sf_unsigned (SFabs a) = true.
Proof. destruct a; simpl; try reflexivity. discriminate. Qed.

(** Quotients by a positive finite number *)
Lemma SFdiv_core_binary_nonneg m1 e1 m2 e2 :
  (0 <= fst (fst (SFdiv_core_binary prec emax (Z.pos m1) e1 (Z.pos m2) e2)))%Z.
Proof.
  unfold SFdiv_core_binary.
  set (s := (e1 - e2 - _)%Z).
  set (m' := match s with Z.pos _ => Z.shiftl (Z.pos m1) s | Z0 => Z.pos m1 | Z.neg _ => 0%Z end).
  assert (Hm : (0 <= m')%Z).
  { subst m'. destruct s; try lia. apply Z.shiftl_nonneg. lia. }
  pose proof (Z.div_pos m' (Z.pos m2) Hm ltac:(lia)) as Hq.
  unfold Z.div in Hq. destruct (Z.div_eucl m' (Z.pos m2)) as [q r]. simpl. exact Hq.
Qed.

Lemma SFdiv_signed sx sy mx ex my ey :
  sf_signed (xorb sx sy)
    (SF64div (S754_finite sx mx ex) (S754_finite sy my ey)) = true.
Proof.
  unfold SF64div, SFdiv.
  pose proof (SFdiv_core_binary_nonneg mx ex my ey) as H.
  destruct (SFdiv_core_binary prec emax (Z.pos mx) ex (Z.pos my) ey) as [[mz ez] lz].
  simpl in H. apply binary_round_aux_signed, H.
Qed.

Lemma SFdiv_unsigned a mb eb :
  sf_unsigned a = true -> sf_unsigned (SF64div a (S754_finite false mb eb)) = true.
Proof.
  destruct a as [[]|[]| |[] ma ea]; try discriminate; intros _; try reflexivity.
  apply sf_signed_unsigned. apply (SFdiv_signed false false).
Qed.

Lemma SFdiv_not_nan a sb mb eb :
  sf_nan a = false -> sf_nan (SF64div a (S754_finite sb mb eb)) = false.
Proof.
  destruct a as [sa|sa| |sa ma ea]; try discriminate; intros _; try reflexivity.
  eapply sf_signed_not_nan, SFdiv_signed.
Qed.

Lemma SFleb_zero_unsigned s : sf_unsigned s = true -> SFleb (S754_zero false) s = true.
Proof. destruct s as [[]|[]| |[] ? ?]; simpl; try reflexivity; discriminate. Qed.

(** ** The retry wrapper *)

Section RetryFacts.
Context {S E T : Type}.
Variable sleep : Z -> S -> S.
Variable fn : M S E T.

(** The loop function satisfies the equation of the [for] loop as soon as
    [n] covers the iterations that are left. *)
Lemma withRetry_loop_eq (n : nat) (retries attempt : Z) (lastError : unknown E) (s : S) :
  (Z.to_nat (retries + 1 - attempt) <= n)%nat ->
  withRetry_loop sleep fn n retries attempt lastError s =
  if (attempt <=? retries)%Z then
    match fn s with
    | (s1, inr v) => (s1, inr v)
    | (s1, inl error) =>
        if (attempt =? retries)%Z then (s1, inl (caught error))
        else withRetry_loop sleep fn (Nat.pred n) retries (attempt + 1) (caught error)
               (sleep (300 * (attempt + 1)) s1)
    end
  else (s, inl lastError).
Proof.
  intros Hn. destruct n as [|n]; simpl.
  - destruct (Z.leb_spec attempt retries) as [Hle|Hgt]; [lia | reflexivity].
  - reflexivity.
Qed.

(** With a negative budget the loop body never runs. *)
Lemma withRetry_negative (retries : Z) (s : S) :
  (retries < 0)%Z -> withRetry sleep fn retries s = (s, inl undefined).
Proof.
  intros Hneg. unfold withRetry.
  rewrite withRetry_loop_eq by lia.
  destruct (Z.leb_spec 0 retries); [lia | reflexivity].
Qed.
End RetryFacts.

Section StubFacts.
Context {E T : Type}.
Variable script : nat -> E + T.

Lemma delays_S first count :
  delays first (Datatypes.S count) = (300 * first)%Z :: delays (first + 1) count.
Proof.
  unfold delays. change (seq 0 (Datatypes.S count)) with (0%nat :: seq 1 count).
  rewrite <- seq_shift, map_cons, map_map. f_equal.
  - lia.
  - apply map_ext. intros j. lia.
Qed.

Lemma loop_succeeds (k : nat) :
  forall (n : nat) (r a : Z) (lastError : unknown E) (h : CallLog) (v : T),
    (Z.to_nat (r + 1 - a) <= n)%nat ->
    (a + Z.of_nat k <= r)%Z ->
    (forall i, (i < k)%nat -> exists e, script (calls h + i) = inl e) ->
    script (calls h + k) = inr v ->
    withRetry_loop nap (stub script) n r a lastError h =
    ({| calls := calls h + k + 1; naps := naps h ++ delays (a + 1) k |}, inr v).
Proof.
  induction k as [|k IH]; intros n r a lastError h v Hn Hle Hfail Hok.
  - rewrite withRetry_loop_eq by assumption.
    destruct (Z.leb_spec a r); [|lia].
    unfold stub at 1. rewrite Nat.add_0_r in Hok. rewrite Hok.
    unfold delays; simpl. rewrite app_nil_r.
    do 2 f_equal. lia.
  - rewrite withRetry_loop_eq by assumption.
    destruct (Z.leb_spec a r); [|lia].
    unfold stub at 1.
    destruct (Hfail 0%nat ltac:(lia)) as [e He]. rewrite Nat.add_0_r in He. rewrite He.
    destruct (Z.eqb_spec a r); [lia|].
    rewrite (IH _ r (a + 1)%Z _ _ v); simpl.
    + rewrite delays_S, <- app_assoc. simpl.
      do 2 f_equal. f_equal. lia.
    + lia.
    + lia.
    + intros i Hi. destruct (Hfail (Datatypes.S i) ltac:(lia)) as [e' He'].
      exists e'. rewrite <- He'. f_equal. lia.
    + rewrite <- Hok. f_equal. lia.
Qed.

Lemma loop_exhausts (m : nat) :
  forall (n : nat) (r a : Z) (lastError : unknown E) (h : CallLog) (e : E),
    (Z.to_nat (r + 1 - a) <= n)%nat ->
    (a <= r)%Z -> m = Z.to_nat (r - a) ->
    (forall i, (i < m)%nat -> exists e', script (calls h + i) = inl e') ->
    script (calls h + m) = inl e ->
    withRetry_loop nap (stub script) n r a lastError h =
    ({| calls := calls h + m + 1; naps := naps h ++ delays (a + 1) m |}, inl (caught e)).
Proof.
  induction m as [|m IH]; intros n r a lastError h e Hn Hle Hm Hfail Hlast.
  - rewrite withRetry_loop_eq by assumption.
    destruct (Z.leb_spec a r); [|lia].
    unfold stub at 1. rewrite Nat.add_0_r in Hlast. rewrite Hlast.
    destruct (Z.eqb_spec a r); [|lia].
    unfold delays; simpl. rewrite app_nil_r. do 2 f_equal. lia.
  - rewrite withRetry_loop_eq by assumption.
    destruct (Z.leb_spec a r); [|lia].
    unfold stub at 1.
    destruct (Hfail 0%nat ltac:(lia)) as [e0 He0]. rewrite Nat.add_0_r in He0. rewrite He0.
    destruct (Z.eqb_spec a r); [lia|].
    rewrite (IH _ r (a + 1)%Z _ _ e); simpl.
    + rewrite delays_S, <- app_assoc. simpl. do 2 f_equal. f_equal. lia.
    + lia.
    + lia.
    + lia.
    + intros i Hi. destruct (Hfail (Datatypes.S i) ltac:(lia)) as [e' He'].
      exists e'. rewrite <- He'. f_equal. lia.
    + rewrite <- Hlast. f_equal. lia.
Qed.

(** Whatever the operation does, the wrapper invokes it at most
    [retries + 1 - attempt] more times and sleeps [300 * (a + 1)] after
    the failure of attempt [a], for each attempt that is followed by
    another one. *)
Lemma loop_schedule (n : nat) :
  forall (r a : Z) (lastError : unknown E) (h : CallLog),
    (Z.to_nat (r + 1 - a) <= n)%nat ->
    let h' := fst (withRetry_loop nap (stub script) n r a lastError h) in
    exists c : nat,
      calls h' = (calls h + c)%nat /\
      (Z.of_nat c <= Z.max 0 (r + 1 - a))%Z /\
      ((a <= r)%Z -> (1 <= c)%nat) /\
      naps h' = naps h ++ delays (a + 1) (c - 1).
Proof.
  induction n as [|n IH]; intros r a lastError h Hn h'; subst h'.
  - rewrite withRetry_loop_eq by assumption.
    destruct (Z.leb_spec a r); [lia|]. cbn [fst calls naps].
    exists 0%nat. unfold delays. cbn [seq map]. rewrite app_nil_r. repeat split; lia.
  - rewrite withRetry_loop_eq by assumption.
    destruct (Z.leb_spec a r) as [Har|Har].
    + change (stub script h)
        with ({| calls := Datatypes.S (calls h); naps := naps h |}, script (calls h)).
      destruct (script (calls h)) as [e|v].
      * destruct (Z.eqb_spec a r) as [Heq|Hne].
        -- cbn [fst calls naps]. exists 1%nat. unfold delays. cbn [seq map]. rewrite app_nil_r.
           repeat split; lia.
        -- simpl Nat.pred.
           destruct (IH r (a + 1)%Z (caught e)
                       (nap (300 * (a + 1)) {| calls := Datatypes.S (calls h); naps := naps h |})
                       ltac:(lia)) as (c & Hc & Hbound & Hone & Hnaps).
           cbn [nap calls naps] in Hc, Hnaps.
           specialize (Hone ltac:(lia)).
           exists (Datatypes.S c). repeat split.
           ++ rewrite Hc. lia.
           ++ lia.
           ++ lia.
           ++ rewrite Hnaps, <- app_assoc. cbn [app]. f_equal.
              replace (Datatypes.S c - 1)%nat with (Datatypes.S (c - 1)) by lia.
              rewrite delays_S. reflexivity.
      * cbn [fst calls naps]. exists 1%nat. unfold delays. cbn [seq map]. rewrite app_nil_r.
        repeat split; lia.
    + cbn [fst calls naps]. exists 0%nat. unfold delays. cbn [seq map]. rewrite app_nil_r.
      repeat split; lia.
Qed.
End StubFacts.

(** Claim C1.  A scripted operation that fails on its first [k] invocations
    is wrapped with a budget [r >= 0].  If it then succeeds with [v] and
    [k <= r], the wrapper returns [v] after exactly [k + 1] invocations.  If
    [k > r], so that every attempt fails, the wrapper stops after exactly
    [r + 1] invocations and throws the very value thrown by the last one. *)
Theorem C1_withRetry_outcome {E T : Type} (script : nat -> E + T) (r : Z) (k : nat) :
  (0 <= r)%Z ->
  (forall i, (i < k)%nat -> exists e, script i = inl e) ->
  (forall v, (Z.of_nat k <= r)%Z -> script k = inr v ->
     exists h', withRetry nap (stub script) r no_calls = (h', inr v) /\
                calls h' = (k + 1)%nat) /\
  ((r < Z.of_nat k)%Z ->
     exists h' e, withRetry nap (stub script) r no_calls = (h', inl (caught e)) /\
                  script (Z.to_nat r) = inl e /\
                  calls h' = (Z.to_nat r + 1)%nat).
Proof.
  intros Hr Hfail. split.
  - intros v Hk Hok. eexists. split.
    + unfold withRetry. apply (loop_succeeds script k); simpl; auto; lia.
    + reflexivity.
  - intros Hk.
    destruct (Hfail (Z.to_nat r) ltac:(lia)) as [e He].
    eexists. exists e. split; [|split; [exact He|]].
    + unfold withRetry. apply (loop_exhausts script (Z.to_nat r)); simpl; auto; try lia.
      intros i Hi. apply Hfail. lia.
    + reflexivity.
Qed.

Lemma C1_withRetry_outcome_witness :
  (exists h', withRetry nap (stub (fails_then_succeeds 2)) 2 no_calls
              = (h', inr "done"%string) /\ calls h' = 3%nat) /\
  (exists h' e, withRetry nap (stub (fails_then_succeeds 5)) 2 no_calls
                = (h', inl (caught e)) /\
                fails_then_succeeds 5 2 = inl e /\ calls h' = 3%nat).
Proof.
  split.
  - apply (C1_withRetry_outcome (fails_then_succeeds 2) 2 2); try lia; try reflexivity.
    intros i Hi. exists i. unfold fails_then_succeeds.
    destruct (Nat.ltb_spec i 2); [reflexivity | lia].
  - apply (C1_withRetry_outcome (fails_then_succeeds 5) 2 5); try lia.
    intros i Hi. exists i. unfold fails_then_succeeds.
    destruct (Nat.ltb_spec i 5); [reflexivity | lia].
Defined.




(** Claim C9.  With a negative budget the operation is not invoked at all
    and the wrapper throws [undefined], the initial value of [lastError]. *)
Theorem C9_negative_budget {E T : Type} (script : nat -> E + T) (r : Z) (h : CallLog) :
  (r < 0)%Z ->
  withRetry nap (stub script) r h = (h, inl undefined) /\
  calls (fst (withRetry nap (stub script) r h)) = calls h.
Proof.
  intros Hr. rewrite withRetry_negative by assumption. split; reflexivity.
Qed.

Lemma C9_negative_budget_witness :
  withRetry nap (stub (fails_then_succeeds 0)) (-1) no_calls
  = (no_calls, inl undefined) /\
  calls (fst (withRetry nap (stub (fails_then_succeeds 0)) (-1) no_calls)) = calls no_calls.
Proof.
  apply (C9_negative_budget (fails_then_succeeds 0) (-1) no_calls). lia.
Defined.

(** ** The order of JavaScript numbers *)

Lemma leb_trans x y z :
  (x <=? y)%float = true -> (y <=? z)%float = true -> (x <=? z)%float = true.
Proof. rewrite !leb_spec. apply SFleb_trans. Qed.

Lemma ltb_leb x y : (x <? y)%float = true -> (x <=? y)%float = true.
Proof. rewrite ltb_spec, leb_spec. apply SFltb_SFleb. Qed.

Lemma not_ltb_leb x y :
  is_nan x = false -> is_nan y = false -> (x <? y)%float = false -> (y <=? x)%float = true.
Proof. rewrite !is_nan_spec, ltb_spec, leb_spec. apply SFltb_false_SFleb. Qed.

Lemma leb_refl x : is_nan x = false -> (x <=? x)%float = true.
Proof.
  rewrite is_nan_spec, leb_spec. intros H. unfold SFleb.
  rewrite SFcompare_refl by assumption. reflexivity.
Qed.

Lemma leb_not_nan_l x y : (x <=? y)%float = true -> is_nan x = false.
Proof. rewrite is_nan_spec, leb_spec. apply SFleb_nan_l. Qed.

Lemma leb_not_nan_r x y : (x <=? y)%float = true -> is_nan y = false.
Proof. rewrite is_nan_spec, leb_spec. apply SFleb_nan_r. Qed.

Lemma is_neg_zero_spec x : is_neg_zero x = true -> Prim2SF x = S754_zero true.
Proof.
  unfold is_neg_zero. rewrite classify_spec. unfold SF64classify, SFclassify.
  destruct (Prim2SF x) as [[]|[]| |[] m e]; try discriminate; try reflexivity;
    destruct (Z.pos (digits2_pos m) =? prec)%Z; discriminate.
Qed.

Lemma is_pos_zero_spec x : is_pos_zero x = true -> Prim2SF x = S754_zero false.
Proof.
  unfold is_pos_zero. rewrite classify_spec. unfold SF64classify, SFclassify.
  destruct (Prim2SF x) as [[]|[]| |[] m e]; try discriminate; try reflexivity;
    destruct (Z.pos (digits2_pos m) =? prec)%Z; discriminate.
Qed.

Lemma zeros_leb x y :
  (is_neg_zero x || is_pos_zero x) = true -> (is_neg_zero y || is_pos_zero y) = true ->
  (x <=? y)%float = true.
Proof.
  intros Hx Hy. rewrite leb_spec.
  apply orb_true_iff in Hx, Hy.
  destruct Hx as [Hx|Hx], Hy as [Hy|Hy];
    first [apply is_neg_zero_spec in Hx | apply is_pos_zero_spec in Hx];
    first [apply is_neg_zero_spec in Hy | apply is_pos_zero_spec in Hy];
    rewrite Hx, Hy; reflexivity.
Qed.

Lemma infinity_leb x : (infinity <=? x)%float = true -> x = infinity.
Proof.
  rewrite leb_spec, Prim2SF_infinity. intros H. apply Prim2SF_inj.
  rewrite Prim2SF_infinity.
  destruct (Prim2SF x) as [[]|[]| |[] m e]; try discriminate; reflexivity.
Qed.

Lemma leb_neg_infinity x : (x <=? neg_infinity)%float = true -> x = neg_infinity.
Proof.
  rewrite leb_spec. change (Prim2SF neg_infinity) with (S754_infinity true).
  intros H. apply Prim2SF_inj. change (Prim2SF neg_infinity) with (S754_infinity true).
  destruct (Prim2SF x) as [[]|[]| |[] m e]; try discriminate; reflexivity.
Qed.

Lemma is_finite_not_nan x : is_finite x = true -> is_nan x = false.
Proof.
  rewrite is_finite_spec, is_nan_spec. destruct (Prim2SF x); try discriminate; reflexivity.
Qed.

Lemma all_finite_no_nan xs : forallb is_finite xs = true -> existsb is_nan xs = false.
Proof.
  induction xs as [|x xs IH]; simpl; [reflexivity|].
  intros H. apply andb_true_iff in H as [Hx Hxs].
  rewrite (is_finite_not_nan x Hx), (IH Hxs). reflexivity.
Qed.

(** *** [Math.min] and [Math.max] *)

Lemma lower_spec lowest x :
  is_nan lowest = false -> is_nan x = false ->
  (lower lowest x = lowest \/ lower lowest x = x) /\
  (lower lowest x <=? lowest)%float = true /\ (lower lowest x <=? x)%float = true.
Proof.
  intros Hl Hx. unfold lower.
  destruct (is_neg_zero x && is_pos_zero lowest) eqn:Hz; simpl.
  - apply andb_true_iff in Hz as [Hz1 Hz2].
    repeat split; [right; reflexivity | | apply leb_refl, Hx].
    apply zeros_leb; [rewrite Hz1 | rewrite Hz2, orb_true_r]; reflexivity.
  - destruct (x <? lowest)%float eqn:Hlt.
    + repeat split; [right; reflexivity | apply ltb_leb, Hlt | apply leb_refl, Hx].
    + repeat split; [left; reflexivity | apply leb_refl, Hl | apply not_ltb_leb; assumption].
Qed.

Lemma fold_lower xs : forall acc,
  is_nan acc = false -> existsb is_nan xs = false ->
  let r := fold_left lower xs acc in
  (r = acc \/ In r xs) /\ (r <=? acc)%float = true /\
  Forall (fun x => (r <=? x)%float = true) xs.
Proof.
  induction xs as [|x xs IH]; intros acc Hacc Hxs; simpl.
  - repeat split; [left; reflexivity | apply leb_refl, Hacc | constructor].
  - simpl in Hxs. apply orb_false_iff in Hxs as [Hx Hxs].
    destruct (lower_spec acc x Hacc Hx) as (Hor & Hla & Hlx).
    destruct (IH (lower acc x) (leb_not_nan_l _ _ Hla) Hxs) as (Hin & Hle & Hall).
    repeat split.
    + destruct Hin as [Hin|Hin]; [|right; right; exact Hin].
      rewrite Hin. destruct Hor as [-> | ->]; [left | right; left]; reflexivity.
    + eapply leb_trans; eassumption.
    + constructor; [eapply leb_trans; eassumption | exact Hall].
Qed.

(** [Math.min] of numbers, none of them NaN, is one of them and is below
    all of them. *)
Lemma Math_min_spec xs :
  xs <> [] -> existsb is_nan xs = false ->
  In (Math_min xs) xs /\ Forall (fun x => (Math_min xs <=? x)%float = true) xs.
Proof.
  intros Hne Hxs. unfold Math_min. rewrite Hxs.
  destruct (fold_lower xs infinity eq_refl Hxs) as (Hin & _ & Hall).
  split; [|exact Hall].
  destruct Hin as [Hin|Hin]; [|exact Hin].
  destruct xs as [|x xs]; [contradiction Hne; reflexivity|].
  rewrite Hin in *. inversion Hall as [|? ? Hx _]; subst.
  apply infinity_leb in Hx. left. exact Hx.
Qed.

Lemma higher_spec highest x :
  is_nan highest = false -> is_nan x = false ->
  (higher highest x = highest \/ higher highest x = x) /\
  (highest <=? higher highest x)%float = true /\ (x <=? higher highest x)%float = true.
Proof.
  intros Hh Hx. unfold higher.
  destruct (is_pos_zero x && is_neg_zero highest) eqn:Hz; simpl.
  - apply andb_true_iff in Hz as [Hz1 Hz2].
    repeat split; [right; reflexivity | | apply leb_refl, Hx].
    apply zeros_leb; [rewrite Hz2 | rewrite Hz1, orb_true_r]; reflexivity.
  - destruct (highest <? x)%float eqn:Hlt.
    + repeat split; [right; reflexivity | apply ltb_leb, Hlt | apply leb_refl, Hx].
    + repeat split; [left; reflexivity | apply leb_refl, Hh | apply not_ltb_leb; assumption].
Qed.

Lemma fold_higher xs : forall acc,
  is_nan acc = false -> existsb is_nan xs = false ->
  let r := fold_left higher xs acc in
  (r = acc \/ In r xs) /\ (acc <=? r)%float = true /\
  Forall (fun x => (x <=? r)%float = true) xs.
Proof.
  induction xs as [|x xs IH]; intros acc Hacc Hxs; simpl.
  - repeat split; [left; reflexivity | apply leb_refl, Hacc | constructor].
  - simpl in Hxs. apply orb_false_iff in Hxs as [Hx Hxs].
    destruct (higher_spec acc x Hacc Hx) as (Hor & Hla & Hlx).
    destruct (IH (higher acc x) (leb_not_nan_r _ _ Hla) Hxs) as (Hin & Hle & Hall).
    repeat split.
    + destruct Hin as [Hin|Hin]; [|right; right; exact Hin].
      rewrite Hin. destruct Hor as [-> | ->]; [left | right; left]; reflexivity.
    + eapply leb_trans; eassumption.
    + constructor; [eapply leb_trans; eassumption | exact Hall].
Qed.

(** [Math.max] of numbers, none of them NaN, is one of them and is above
    all of them. *)
Lemma Math_max_spec xs :
  xs <> [] -> existsb is_nan xs = false ->
  In (Math_max xs) xs /\ Forall (fun x => (x <=? Math_max xs)%float = true) xs.
Proof.
  intros Hne Hxs. unfold Math_max. rewrite Hxs.
  destruct (fold_higher xs neg_infinity eq_refl Hxs) as (Hin & _ & Hall).
  split; [|exact Hall].
  destruct Hin as [Hin|Hin]; [|exact Hin].
  destruct xs as [|x xs]; [contradiction Hne; reflexivity|].
  rewrite Hin in *. inversion Hall as [|? ? Hx _]; subst.
  apply leb_neg_infinity in Hx. left. exact Hx.
Qed.

(** The clamp of the progress closure keeps every number, NaN apart, within
    0 and 100. *)
Lemma clamp_bounds value :
  is_nan value = false ->
  (0 <=? clamp value)%float = true /\ (clamp value <=? 100)%float = true.
Proof.
  intros Hv. unfold clamp.
  assert (Hmax : existsb is_nan [0%float; value] = false) by (simpl; rewrite Hv; reflexivity).
  destruct (Math_max_spec [0%float; value] ltac:(discriminate) Hmax) as (_ & Hall).
  inversion Hall as [|? ? H0 _]; subst.
  assert (Hmin : existsb is_nan [100%float; Math_max [0%float; value]] = false).
  { simpl. rewrite (leb_not_nan_r _ _ H0). reflexivity. }
  destruct (Math_min_spec [100%float; Math_max [0%float; value]] ltac:(discriminate) Hmin)
    as (Hin & Hall').
  inversion Hall' as [|? ? H100 _]; subst. split; [|exact H100].
  destruct Hin as [<-|[<-|[]]]; [reflexivity | exact H0].
Qed.

(** ** The values of the finite numbers *)

Lemma digits2_pos_size m : digits2_pos m = Pos.size m.
Proof. induction m as [m IH|m IH|]; simpl; rewrite ?IH; reflexivity. Qed.

Lemma digits2_pos_bounds m :
  (2 ^ (Z.pos (digits2_pos m) - 1) <= Z.pos m < 2 ^ Z.pos (digits2_pos m))%Z.
Proof.
  rewrite digits2_pos_size. split.
  - pose proof (Pos.size_le m) as H.
    assert (H' : (2 ^ Z.pos (Pos.size m) <= 2 * Z.pos m)%Z).
    { change 2%Z with (Z.pos 2) at 1. rewrite <- Pos2Z.inj_pow.
      change (2 * Z.pos m)%Z with (Z.pos (m~0)). apply Pos2Z.pos_le_pos, H. }
    replace (Z.pos (Pos.size m)) with (Z.succ (Z.pos (Pos.size m) - 1)) in H' by lia.
    rewrite Z.pow_succ_r in H' by lia. lia.
  - pose proof (Pos.size_gt m) as H.
    change 2%Z with (Z.pos 2). rewrite <- Pos2Z.inj_pow. apply Pos2Z.pos_lt_pos, H.
Qed.

(** A valid mantissa and exponent. *)
Lemma bounded_facts m e :
  bounded prec emax m e = true ->
  (-1074 <= e)%Z /\ (Z.pos m < 2 ^ 53)%Z /\ ((-1074 < e)%Z -> (2 ^ 52 <= Z.pos m)%Z).
Proof.
  unfold bounded, canonical_mantissa, fexp, emin. intros H.
  apply andb_true_iff in H as [H _]. apply Z.eqb_eq in H.
  change (3 - emax - prec)%Z with (-1074)%Z in H. change prec with 53%Z in H.
  pose proof (digits2_pos_bounds m) as [Hlo Hhi].
  assert (Hd : (Z.pos (digits2_pos m) <= 53)%Z) by lia.
  repeat split.
  - lia.
  - eapply Z.lt_le_trans; [exact Hhi|]. apply Z.pow_le_mono_r; lia.
  - intros He. assert (Z.pos (digits2_pos m) = 53)%Z by lia.
    rewrite H0 in Hlo. exact Hlo.
Qed.

Lemma scaled_lt_of_exponent m1 e1 m2 e2 :
  bounded prec emax m1 e1 = true -> bounded prec emax m2 e2 = true ->
  (e1 < e2)%Z ->
  (Z.pos m1 * 2 ^ (e1 + 1074) < Z.pos m2 * 2 ^ (e2 + 1074))%Z.
Proof.
  intros H1 H2 He.
  destruct (bounded_facts m1 e1 H1) as (He1 & Hm1 & _).
  destruct (bounded_facts m2 e2 H2) as (He2 & _ & Hm2).
  specialize (Hm2 ltac:(lia)).
  replace (e2 + 1074)%Z with ((e1 + 1074) + (e2 - e1))%Z by lia.
  rewrite (Z.pow_add_r 2 (e1 + 1074) (e2 - e1)) by lia.
  assert (Hp : (0 < 2 ^ (e1 + 1074))%Z) by (apply Z.pow_pos_nonneg; lia).
  assert (Hq : (2 <= 2 ^ (e2 - e1))%Z).
  { change 2%Z with (2 ^ 1)%Z at 1. apply Z.pow_le_mono_r; lia. }
  change (2 ^ 53)%Z with (2 * 2 ^ 52)%Z in Hm1.
  remember (2 ^ 52)%Z as A. remember (2 ^ (e1 + 1074))%Z as P.
  remember (2 ^ (e2 - e1))%Z as Q.
  assert (Hstep1 : (Z.pos m1 * P < 2 * A * P)%Z) by (apply Z.mul_lt_mono_pos_r; lia).
  assert (Hstep2 : (2 * A <= Z.pos m2 * Q)%Z) by nia.
  assert (Hstep3 : (2 * A * P <= Z.pos m2 * Q * P)%Z) by (apply Z.mul_le_mono_nonneg_r; lia).
  lia.
Qed.

Lemma SFcompare_scaled a b :
  valid_binary a = true -> valid_binary b = true ->
  sf_finite a = true -> sf_finite b = true ->
  SFcompare a b = Some (sf_scaled a ?= sf_scaled b)%Z.
Proof.
  intros Va Vb Fa Fb.
  destruct a as [sa|sa| |sa ma ea], b as [sb|sb| |sb mb eb]; try discriminate;
    cbn [valid_binary] in Va, Vb; cbn [SFcompare sf_scaled cond_Zopp].
  - reflexivity.
  - destruct (bounded_facts mb eb Vb) as (He & _ & _).
    assert (0 < Z.pos mb * 2 ^ (eb + 1074))%Z
      by (apply Z.mul_pos_pos; [lia | apply Z.pow_pos_nonneg; lia]).
    destruct sb; unfold cond_Zopp; f_equal; symmetry;
      [apply Z.compare_gt_iff | apply Z.compare_lt_iff]; lia.
  - destruct (bounded_facts ma ea Va) as (He & _ & _).
    assert (0 < Z.pos ma * 2 ^ (ea + 1074))%Z
      by (apply Z.mul_pos_pos; [lia | apply Z.pow_pos_nonneg; lia]).
    destruct sa; unfold cond_Zopp; f_equal; symmetry;
      [apply Z.compare_lt_iff | apply Z.compare_gt_iff]; lia.
  - destruct (bounded_facts ma ea Va) as (Hea & _ & _).
    destruct (bounded_facts mb eb Vb) as (Heb & _ & _).
    assert (Ha : (0 < Z.pos ma * 2 ^ (ea + 1074))%Z)
      by (apply Z.mul_pos_pos; [lia | apply Z.pow_pos_nonneg; lia]).
    assert (Hb : (0 < Z.pos mb * 2 ^ (eb + 1074))%Z)
      by (apply Z.mul_pos_pos; [lia | apply Z.pow_pos_nonneg; lia]).
    assert (Hlt : (ea < eb)%Z ->
                  (Z.pos ma * 2 ^ (ea + 1074) < Z.pos mb * 2 ^ (eb + 1074))%Z)
      by (apply scaled_lt_of_exponent; assumption).
    assert (Hgt : (eb < ea)%Z ->
                  (Z.pos mb * 2 ^ (eb + 1074) < Z.pos ma * 2 ^ (ea + 1074))%Z)
      by (apply scaled_lt_of_exponent; assumption).
    assert (Hp : (0 < 2 ^ (ea + 1074))%Z) by (apply Z.pow_pos_nonneg; lia).
    assert (Hm : forall c, Pos.compare ma mb = c ->
                           (Z.pos ma * 2 ^ (ea + 1074) ?= Z.pos mb * 2 ^ (ea + 1074))%Z = c).
    { intros c <-. destruct (Pos.compare_spec ma mb) as [Heq|Hl|Hg].
      - subst mb. apply Z.compare_refl.
      - apply Z.compare_lt_iff, Z.mul_lt_mono_pos_r; lia.
      - apply Z.compare_gt_iff, Z.mul_lt_mono_pos_r; lia. }
    change (Pos.compare_cont Eq ma mb) with (Pos.compare ma mb).
    remember (Z.pos ma * 2 ^ (ea + 1074))%Z as A.
    remember (Z.pos mb * 2 ^ (eb + 1074))%Z as B.
    assert (Hcmp : (A ?= B)%Z
                   = match (ea ?= eb)%Z with
                     | Eq => Pos.compare ma mb
                     | Lt => Lt
                     | Gt => Gt
                     end).
    { destruct (Z.compare_spec ea eb) as [Heq|He|He].
      - subst eb A B. apply Hm. reflexivity.
      - apply Z.compare_lt_iff. auto.
      - apply Z.compare_gt_iff. auto. }
    destruct sa, sb; unfold cond_Zopp; f_equal.
    + rewrite Z.compare_opp, (Z.compare_antisym A B), Hcmp.
      destruct (ea ?= eb)%Z; reflexivity.
    + symmetry. apply Z.compare_lt_iff. lia.
    + symmetry. apply Z.compare_gt_iff. lia.
    + rewrite Hcmp. destruct (ea ?= eb)%Z; reflexivity.
Qed.

Lemma leb_scaled x y :
  is_finite x = true -> is_finite y = true ->
  (x <=? y)%float = (scaled x <=? scaled y)%Z.
Proof.
  rewrite !is_finite_spec, leb_spec. intros Hx Hy. unfold SFleb, scaled.
  rewrite (SFcompare_scaled _ _ (Prim2SF_valid x) (Prim2SF_valid y) Hx Hy).
  unfold Z.leb. destruct (sf_scaled (Prim2SF x) ?= sf_scaled (Prim2SF y))%Z; reflexivity.
Qed.

Lemma ltb_scaled x y :
  is_finite x = true -> is_finite y = true ->
  (x <? y)%float = (scaled x <? scaled y)%Z.
Proof.
  rewrite !is_finite_spec, ltb_spec. intros Hx Hy. unfold SFltb, scaled.
  rewrite (SFcompare_scaled _ _ (Prim2SF_valid x) (Prim2SF_valid y) Hx Hy).
  unfold Z.ltb. destruct (sf_scaled (Prim2SF x) ?= sf_scaled (Prim2SF y))%Z; reflexivity.
Qed.

Lemma all_finite_In xs x : forallb is_finite xs = true -> In x xs -> is_finite x = true.
Proof. intros H Hin. rewrite forallb_forall in H. apply H, Hin. Qed.

Lemma scaled_sum_lower xs lo :
  Forall (fun x => (lo <= scaled x)%Z) xs ->
  (Z.of_nat (List.length xs) * lo <= fold_right Z.add 0 (map scaled xs))%Z.
Proof.
  induction 1 as [|x xs Hx _ IH]; [simpl; lia|].
  cbn [List.length map fold_right]. lia.
Qed.

Lemma scaled_sum_upper xs hi :
  Forall (fun x => (scaled x <= hi)%Z) xs ->
  (fold_right Z.add 0 (map scaled xs) <= Z.of_nat (List.length xs) * hi)%Z.
Proof.
  induction 1 as [|x xs Hx _ IH]; [simpl; lia|].
  cbn [List.length map fold_right]. lia.
Qed.

(** ** What a computation adds to the trace *)

Lemma extends_refl P w : extends_with P w w.
Proof. exists []. rewrite app_nil_r. split; [reflexivity | constructor]. Qed.

Lemma extends_trans P w1 w2 w3 :
  extends_with P w1 w2 -> extends_with P w2 w3 -> extends_with P w1 w3.
Proof.
  intros (e1 & H1 & F1) (e2 & H2 & F2). exists (e1 ++ e2).
  rewrite H2, H1, app_assoc. split; [reflexivity | apply Forall_app; split; assumption].
Qed.

Lemma extends_record P ev w : P ev -> extends_with P w (record ev w).
Proof. intros H. exists [ev]. split; [reflexivity | repeat constructor; exact H]. Qed.

Lemma extends_caller_may_abort P fires w :
  P Cancel -> extends_with P w (caller_may_abort fires w).
Proof.
  intros H. unfold caller_may_abort. destruct (fires && negb (aborted w)).
  - exists [Cancel]. split; [reflexivity | repeat constructor; exact H].
  - apply extends_refl.
Qed.

Section Emits.
Variable env : Env.
Variable P : Event -> Prop.

Lemma emits_ret {E A} (a : A) : emits P (ret (E := E) a).
Proof. intros w. apply extends_refl. Qed.

Lemma emits_throw {E A} (e : E) : emits P (throw (A := A) e).
Proof. intros w. apply extends_refl. Qed.

Lemma emits_bind {E A B} (c : M World E A) (k : A -> M World E B) :
  emits P c -> (forall a, emits P (k a)) -> emits P (bind c k).
Proof.
  intros Hc Hk w. unfold bind. specialize (Hc w).
  destruct (c w) as [w1 [e|a]]; simpl in *; [exact Hc|].
  eapply extends_trans; [exact Hc | apply Hk].
Qed.

Lemma emits_fetch req :
  (forall sent, P (Fetch req sent)) -> P Cancel -> emits P (fetch env req).
Proof.
  intros Hf Ha w. unfold fetch.
  destruct (match req_signal req with Some _ => true | None => false end && aborted w).
  - apply extends_record, Hf.
  - cbv zeta.
    match goal with
    | |- extends_with P w (fst (if _ then (?w3, _) else _)) =>
        assert (H3 : extends_with P w w3)
    end.
    { eapply extends_trans; [apply (extends_record P (Fetch req true) w), Hf|].
      eapply extends_trans; [|apply extends_caller_may_abort, Ha].
      exists []. simpl. rewrite app_nil_r. split; [reflexivity | constructor]. }
    destruct (_ && _); [exact H3|].
    destruct (reply _); exact H3.
Qed.

Lemma emits_drain response : P Cancel -> emits P (drain response).
Proof.
  intros Ha w. unfold drain. cbv zeta.
  pose proof (extends_caller_may_abort P (abort_mid_body (from response)) w Ha) as H.
  destruct (_ && _); [exact H|]. destruct (body_arrives _); exact H.
Qed.

Lemma emits_performance_now : emits P (performance_now env).
Proof. intros w. exists []. simpl. rewrite app_nil_r. split; [reflexivity | constructor]. Qed.

Lemma emits_crypto sizeBytes : emits P (crypto_getRandomValues env sizeBytes).
Proof.
  unfold crypto_getRandomValues. destruct (random_values_quota env sizeBytes);
    [apply emits_ret | apply emits_throw].
Qed.

Lemma extends_sleep ms w :
  P (Sleep ms) -> P Cancel -> extends_with P w (setTimeout_sleep env ms w).
Proof.
  intros Hs Ha. unfold setTimeout_sleep.
  eapply extends_trans; [|apply extends_caller_may_abort, Ha].
  exists [Sleep ms]. split; [reflexivity | repeat constructor; exact Hs].
Qed.

Lemma emits_withRetry_loop {E A} (fn : M World E A) :
  emits P fn -> (forall ms, P (Sleep ms)) -> P Cancel ->
  forall n r a lastError,
    emits P (withRetry_loop (setTimeout_sleep env) fn n r a lastError).
Proof.
  intros Hfn Hs Ha. induction n as [|n IH]; intros r a lastError w; simpl.
  - destruct (a <=? r)%Z; apply extends_refl.
  - destruct (a <=? r)%Z; [|apply extends_refl].
    specialize (Hfn w). destruct (fn w) as [w1 [e|v]]; simpl in Hfn; [|exact Hfn].
    destruct (a =? r)%Z; [exact Hfn|].
    eapply extends_trans; [exact Hfn|].
    eapply extends_trans; [apply extends_sleep; auto | apply IH].
Qed.

Lemma emits_withRetry {E A} (fn : M World E A) r :
  emits P fn -> (forall ms, P (Sleep ms)) -> P Cancel ->
  emits P (withRetry (setTimeout_sleep env) fn r).
Proof. intros. apply emits_withRetry_loop; assumption. Qed.

(** The events of the probes. *)
Hypothesis P_abort : P Cancel.

Lemma emits_latency_attempt signal :
  (forall sent, P (Fetch (latency_request signal) sent)) ->
  emits P (latency_attempt env signal).
Proof.
  intros Hf. unfold latency_attempt.
  apply emits_bind; [apply emits_performance_now | intros start].
  apply emits_bind; [apply emits_fetch; assumption | intros response].
  destruct (negb (ok response)); [apply emits_throw|].
  apply emits_bind; [apply emits_drain; assumption | intros _].
  apply emits_bind; [apply emits_performance_now | intros stop]. apply emits_ret.
Qed.

Lemma emits_latency_loop signal :
  (forall sent, P (Fetch (latency_request signal) sent)) ->
  forall todo samples, emits P (latency_loop env todo signal samples).
Proof.
  intros Hf. induction todo as [|todo IH]; intros samples; simpl.
  - apply emits_ret.
  - apply emits_bind; [apply emits_latency_attempt, Hf | intros d; apply IH].
Qed.

Lemma emits_measureLatency signal :
  (forall sent, P (Fetch (latency_request signal) sent)) ->
  emits P (measureLatency env signal).
Proof.
  intros Hf. unfold measureLatency.
  apply emits_bind; [apply emits_latency_loop, Hf | intros s; apply emits_ret].
Qed.

Lemma emits_measureDownloadForSize sizeBytes signal :
  (forall sent, P (Fetch (download_request sizeBytes signal) sent)) ->
  emits P (measureDownloadForSize env sizeBytes signal).
Proof.
  intros Hf. unfold measureDownloadForSize.
  apply emits_bind; [apply emits_performance_now | intros start].
  apply emits_bind; [apply emits_fetch; assumption | intros response].
  destruct (negb (ok response)); [apply emits_throw|].
  apply emits_bind; [apply emits_drain; assumption | intros _].
  apply emits_bind; [apply emits_performance_now | intros stop]. apply emits_ret.
Qed.

Lemma emits_measureUploadForSize sizeBytes signal :
  (forall sent, P (Fetch (upload_request sizeBytes signal) sent)) ->
  emits P (measureUploadForSize env sizeBytes signal).
Proof.
  intros Hf. unfold measureUploadForSize.
  apply emits_bind; [apply emits_crypto | intros _].
  apply emits_bind; [apply emits_performance_now | intros start].
  apply emits_bind; [apply emits_fetch; assumption | intros response].
  destruct (negb (ok response)); [apply emits_throw|].
  apply emits_bind; [apply emits_drain; assumption | intros _].
  apply emits_bind; [apply emits_performance_now | intros stop]. apply emits_ret.
Qed.
End Emits.

(** ** The events of a run *)

Section RunEvents.
Variable env : Env.
Variable P : Event -> Prop.
Variable options : RunSpeedTestOptions.

Hypothesis P_abort : P Cancel.
Hypothesis P_sleep : forall ms, P (Sleep ms).
Hypothesis P_latency : forall sent, P (Fetch (latency_request (signal options)) sent).
Hypothesis P_download :
  forall size sent, P (Fetch (download_request size (signal options)) sent).
Hypothesis P_upload :
  upload_enabled options = true ->
  forall size sent, P (Fetch (upload_request size (signal options)) sent).
Hypothesis P_progress :
  forall value phase,
    match phase with
    | phase_latency | phase_download | phase_completed => True
    | phase_upload => upload_enabled options = true
    | phase_idle | phase_error => False
    end ->
    P (Progress value phase).

Lemma emits_progress value phase :
  match phase with
  | phase_latency | phase_download | phase_completed => True
  | phase_upload => upload_enabled options = true
  | phase_idle | phase_error => False
  end ->
  emits P (progress (onProgress options) value phase).
Proof.
  intros H. unfold progress. destruct (onProgress options); [|apply emits_ret].
  intros w. apply extends_record, P_progress, H.
Qed.

Lemma emits_download_loop retries todo :
  forall i downloadSamples,
    emits P (download_loop env (onProgress options) (signal options) retries todo i
               downloadSamples).
Proof.
  induction todo as [|size todo IH]; intros i downloadSamples; simpl.
  - apply emits_ret.
  - apply emits_bind.
    + apply emits_withRetry; auto. apply emits_measureDownloadForSize; auto.
    + intros sample. apply emits_bind; [apply emits_progress; exact I | intros _; apply IH].
Qed.

Lemma emits_upload_loop retries todo :
  upload_enabled options = true ->
  forall i uploadSamples,
    emits P (upload_loop env (onProgress options) (signal options) retries todo i
               uploadSamples).
Proof.
  intros Hup. induction todo as [|size todo IH]; intros i uploadSamples; simpl.
  - apply emits_ret.
  - apply emits_bind.
    + apply emits_withRetry; auto. apply emits_measureUploadForSize; auto.
    + intros sample. apply emits_bind; [apply emits_progress; exact Hup | intros _; apply IH].
Qed.

(** Every event of a run is one of those listed in the hypotheses. *)
Lemma emits_runSpeedTest : emits P (runSpeedTest env options).
Proof.
  unfold runSpeedTest. cbv zeta.
  apply emits_bind; [apply emits_progress; exact I | intros _].
  apply emits_bind; [apply emits_withRetry; auto; apply emits_measureLatency; auto
                    | intros latency].
  apply emits_bind; [apply emits_progress; exact I | intros _].
  apply emits_bind; [apply emits_download_loop | intros downloadSamples].
  apply emits_bind.
  - fold (upload_enabled options).
    assert (Hup : upload_enabled options = true \/ upload_enabled options = false)
      by (destruct (upload_enabled options); auto).
    destruct Hup as [Hup|Hup]; rewrite Hup.
    + apply emits_bind; [apply emits_upload_loop; exact Hup | intros s; apply emits_ret].
    + apply emits_ret.
  - intros uploadMbps.
    apply emits_bind; [apply emits_progress; exact I | intros _; apply emits_ret].
Qed.
End RunEvents.

(** ** The progress that a computation reports *)

Lemma progress_events_app evs1 evs2 :
  progress_events (evs1 ++ evs2) = progress_events evs1 ++ progress_events evs2.
Proof. apply flat_map_app. Qed.

Lemma progress_events_silent evs : Forall not_progress evs -> progress_events evs = [].
Proof.
  induction 1 as [|ev evs Hev _ IH]; [reflexivity|].
  simpl. rewrite IH. destruct ev; simpl in *; try reflexivity. contradiction.
Qed.

Lemma reports_silent {E A} (c : M World E A) : emits not_progress c -> reports c [].
Proof.
  intros Hc w. destruct (Hc w) as (evs & Ht & Hf). exists evs. split; [exact Ht|].
  rewrite (progress_events_silent evs Hf). destruct (snd (c w)); [exists []|]; reflexivity.
Qed.

Lemma reports_ret {E A} (a : A) : reports (ret (S := World) (E := E) a) [].
Proof. intros w. exists []. simpl. rewrite app_nil_r. split; reflexivity. Qed.

Lemma reports_bind {E A B} (c : M World E A) (k : A -> M World E B) l1 l2 :
  reports c l1 -> (forall a, reports (k a) l2) -> reports (bind c k) (l1 ++ l2).
Proof.
  intros Hc Hk w. unfold bind. destruct (Hc w) as (evs1 & Ht1 & Hp1).
  destruct (c w) as [w1 [e|a]]; simpl in *.
  - exists evs1. split; [exact Ht1|]. destruct Hp1 as [rest ->].
    exists (rest ++ l2). rewrite app_assoc. reflexivity.
  - destruct (Hk a w1) as (evs2 & Ht2 & Hp2). exists (evs1 ++ evs2).
    rewrite Ht2, Ht1, app_assoc. split; [reflexivity|].
    rewrite progress_events_app, Hp1.
    destruct (snd (k a w1)); [|rewrite Hp2; reflexivity].
    destruct Hp2 as [rest ->]. exists rest. rewrite app_assoc. reflexivity.
Qed.

Lemma reports_progress onProgress value phase :
  reports (progress onProgress value phase)
    (if onProgress then [(clamp value, phase)] else []).
Proof.
  unfold progress. destruct onProgress; [|apply reports_ret].
  intros w. exists [Progress (clamp value) phase]. split; reflexivity.
Qed.

Section RunProgress.
Variable env : Env.

Lemma reports_withRetry_probe {A} (fn : M World JsError A) retries :
  emits not_progress fn ->
  reports (withRetry (setTimeout_sleep env) fn retries) [].
Proof.
  intros H. apply reports_silent, emits_withRetry; [exact H | intros ms; exact I | exact I].
Qed.

End RunProgress.

Lemma download_progress_S i count :
  download_progress i (Datatypes.S count) =
  (clamp (20 + (number_of_Z (i + 1) / number_of_nat (List.length DOWNLOAD_SIZES)) * 55)%float,
   phase_download) :: download_progress (i + 1) count.
Proof.
  unfold download_progress. change (seq 0 (Datatypes.S count)) with (0%nat :: seq 1 count).
  rewrite <- seq_shift, map_cons, map_map. f_equal.
  - replace (i + Z.of_nat 0 + 1)%Z with (i + 1)%Z by lia. reflexivity.
  - apply map_ext. intros j.
    replace (i + Z.of_nat (Datatypes.S j) + 1)%Z with (i + 1 + Z.of_nat j + 1)%Z by lia.
    reflexivity.
Qed.

Lemma upload_progress_S i count :
  upload_progress i (Datatypes.S count) =
  (clamp (80 + (number_of_Z (i + 1) / number_of_nat (List.length UPLOAD_SIZES)) * 18)%float,
   phase_upload) :: upload_progress (i + 1) count.
Proof.
  unfold upload_progress. change (seq 0 (Datatypes.S count)) with (0%nat :: seq 1 count).
  rewrite <- seq_shift, map_cons, map_map. f_equal.
  - replace (i + Z.of_nat 0 + 1)%Z with (i + 1)%Z by lia. reflexivity.
  - apply map_ext. intros j.
    replace (i + Z.of_nat (Datatypes.S j) + 1)%Z with (i + 1 + Z.of_nat j + 1)%Z by lia.
    reflexivity.
Qed.

Section RunReports.
Variable env : Env.
Variable options : RunSpeedTestOptions.

Lemma reports_download_loop retries todo :
  forall i downloadSamples,
    reports (download_loop env (onProgress options) (signal options) retries todo i
               downloadSamples)
      (if onProgress options then download_progress i (List.length todo) else []).
Proof.
  induction todo as [|size todo IH]; intros i downloadSamples; simpl.
  - destruct (onProgress options); apply reports_ret.
  - replace (if onProgress options
             then download_progress i (Datatypes.S (List.length todo)) else [])
      with ([] ++ (if onProgress options
                   then [(clamp (20 + (number_of_Z (i + 1)
                                       / number_of_nat (List.length DOWNLOAD_SIZES)) * 55)%float,
                          phase_download)] else [])
               ++ (if onProgress options
                   then download_progress (i + 1) (List.length todo) else []))
      by (rewrite download_progress_S; destruct (onProgress options); reflexivity).
    apply reports_bind.
    + apply reports_withRetry_probe, emits_measureDownloadForSize; [exact I|intros; exact I].
    + intros sample. apply reports_bind; [apply reports_progress | intros _; apply IH].
Qed.

Lemma reports_upload_loop retries todo :
  forall i uploadSamples,
    reports (upload_loop env (onProgress options) (signal options) retries todo i
               uploadSamples)
      (if onProgress options then upload_progress i (List.length todo) else []).
Proof.
  induction todo as [|size todo IH]; intros i uploadSamples; simpl.
  - destruct (onProgress options); apply reports_ret.
  - replace (if onProgress options
             then upload_progress i (Datatypes.S (List.length todo)) else [])
      with ([] ++ (if onProgress options
                   then [(clamp (80 + (number_of_Z (i + 1)
                                       / number_of_nat (List.length UPLOAD_SIZES)) * 18)%float,
                          phase_upload)] else [])
               ++ (if onProgress options
                   then upload_progress (i + 1) (List.length todo) else []))
      by (rewrite upload_progress_S; destruct (onProgress options); reflexivity).
    apply reports_bind.
    + apply reports_withRetry_probe, emits_measureUploadForSize; [exact I|intros; exact I].
    + intros sample. apply reports_bind; [apply reports_progress | intros _; apply IH].
Qed.

Lemma reports_runSpeedTest : reports (runSpeedTest env options) (run_progress options).
Proof.
  unfold runSpeedTest. cbv zeta. fold (upload_enabled options).
  replace (run_progress options)
    with ((if onProgress options then [(clamp 2, phase_latency)] else [])
          ++ [] ++ (if onProgress options then [(clamp 20, phase_latency)] else [])
          ++ (if onProgress options
              then download_progress 0 (List.length DOWNLOAD_SIZES) else [])
          ++ (if upload_enabled options
              then (if onProgress options
                    then upload_progress 0 (List.length UPLOAD_SIZES) else []) ++ []
              else [])
          ++ (if onProgress options then [(clamp 100, phase_completed)] else []) ++ [])
    by (unfold run_progress; destruct (onProgress options), (upload_enabled options);
        rewrite ?app_nil_r; reflexivity).
  apply reports_bind; [apply reports_progress | intros _].
  apply reports_bind;
    [apply reports_withRetry_probe, emits_measureLatency; [exact I|intros; exact I]
    | intros latency].
  apply reports_bind; [apply reports_progress | intros _].
  apply reports_bind; [apply reports_download_loop | intros downloadSamples].
  apply reports_bind.
  - destruct (upload_enabled options).
    + apply reports_bind; [apply reports_upload_loop | intros s; apply reports_ret].
    + apply reports_ret.
  - intros uploadMbps.
    apply reports_bind; [apply reports_progress | intros _; apply reports_ret].
Qed.
End RunReports.

(** The code's progress values are the breakpoints of the specification:
    the clamp changes none of them. *)
Lemma run_progress_spec options :
  run_progress options =
  if onProgress options then spec_breakpoints (upload_enabled options) else [].
Proof.
  unfold run_progress. destruct (onProgress options); [|reflexivity].
  destruct (upload_enabled options); vm_compute; reflexivity.
Qed.

Lemma non_decreasing_prefix xs : forall ys,
  non_decreasing (xs ++ ys) = true -> non_decreasing xs = true.
Proof.
  induction xs as [|x [|y xs] IH]; intros ys H; try reflexivity.
  change (((x <=? y)%float && non_decreasing ((y :: xs) ++ ys)) = true) in H.
  apply andb_true_iff in H as [H1 H2].
  change (((x <=? y)%float && non_decreasing (y :: xs)) = true).
  rewrite H1. simpl. exact (IH ys H2).
Qed.

Lemma forallb_prefix {A} (f : A -> bool) xs ys :
  forallb f (xs ++ ys) = true -> forallb f xs = true.
Proof. rewrite forallb_app. intros H. apply andb_true_iff in H. apply H. Qed.

(** ** Claims about the reported progress *)

Lemma spec_breakpoints_ordered upload :
  non_decreasing (map fst (spec_breakpoints upload)) = true /\
  forallb within_0_100 (map fst (spec_breakpoints upload)) = true.
Proof. destruct upload; split; vm_compute; reflexivity. Qed.

(** The third value that a successful run reports is [20 + (1 / 3) * 55],
    which is 38.33..., not an integer. *)
Lemma C2_progress_not_integer : ~ progress_values_are_integers.
Proof.
  intros H. specialize (H scenario default_options).
  rewrite Forall_forall in H.
  specialize (H (20 + (1 / 3) * 55)%float).
  assert (Hin : In (20 + (1 / 3) * 55)%float
                  (progress_values (trace (fst (runSpeedTest scenario default_options
                                                  initial_world))))).
  { vm_compute. right. right. left. reflexivity. }
  specialize (H Hin). vm_compute in H. discriminate H.
Qed.

(** Claim C2, amended.  In every run the values passed to [onProgress] are,
    in order, an initial segment of the breakpoints 2, 20,
    [20 + (count / 3) * 55] for count = 1, 2, 3, then
    [80 + (count / 2) * 18] for count = 1, 2 when upload is enabled, then
    100; all of them when the run returns.  They are numbers, not all of
    them integers; they never decrease and lie within 0 and 100, and the
    clamp keeps any number within these bounds. *)
Theorem C2_progress_breakpoints (env : Env) (options : RunSpeedTestOptions) (w : World) :
  exists evs,
    trace (fst (runSpeedTest env options w)) = trace w ++ evs /\
    (exists rest,
        (if onProgress options then spec_breakpoints (upload_enabled options) else [])
        = progress_events evs ++ rest) /\
    match snd (runSpeedTest env options w) with
    | inr _ =>
        progress_events evs
        = if onProgress options then spec_breakpoints (upload_enabled options) else []
    | inl _ => True
    end /\
    non_decreasing (progress_values evs) = true /\
    forallb within_0_100 (progress_values evs) = true /\
    (forall value, is_nan value = false -> within_0_100 (clamp value) = true).
Proof.
  destruct (reports_runSpeedTest env options w) as (evs & Ht & Hp).
  rewrite run_progress_spec in Hp.
  exists evs. split; [exact Ht|].
  assert (Hpre : exists rest,
             (if onProgress options then spec_breakpoints (upload_enabled options) else [])
             = progress_events evs ++ rest).
  { destruct (snd (runSpeedTest env options w)); [exact Hp|].
    exists []. rewrite app_nil_r. symmetry. exact Hp. }
  split; [exact Hpre|]. split; [destruct (snd _); [exact I | exact Hp]|].
  destruct Hpre as [rest Hrest].
  assert (Hmap : map fst (if onProgress options
                          then spec_breakpoints (upload_enabled options) else [])
                 = progress_values evs ++ map fst rest)
    by (rewrite Hrest, map_app; reflexivity).
  destruct (spec_breakpoints_ordered (upload_enabled options)) as [Hnd Hin].
  repeat split.
  - apply (non_decreasing_prefix _ (map fst rest)). rewrite <- Hmap.
    destruct (onProgress options); [exact Hnd | reflexivity].
  - apply (forallb_prefix _ _ (map fst rest)). rewrite <- Hmap.
    destruct (onProgress options); [exact Hin | reflexivity].
  - intros value Hv. destruct (clamp_bounds value Hv) as [H0 H100].
    unfold within_0_100. rewrite H0, H100. reflexivity.
Qed.

(** Claim C10.  [onProgress] is never called with the phase ['idle'] or
    ['error']: the phase of every call is ['latency'], ['download'],
    ['upload'] or ['completed']. *)
Theorem C10_reported_phases (env : Env) (options : RunSpeedTestOptions) (w : World) :
  exists evs,
    trace (fst (runSpeedTest env options w)) = trace w ++ evs /\
    Forall never_idle_nor_error evs /\
    (forall value phase,
        In (Progress value phase) evs ->
        phase = phase_latency \/ phase = phase_download \/
        phase = phase_upload \/ phase = phase_completed).
Proof.
  destruct (emits_runSpeedTest env never_idle_nor_error options) with (w := w)
    as (evs & Ht & Hall); try (intros; exact I).
  - intros value [] H; try exact I; exact H.
  - exists evs. repeat split; [exact Ht | exact Hall |].
    intros value phase Hin. rewrite Forall_forall in Hall. specialize (Hall _ Hin).
    destruct phase; simpl in Hall; auto; contradiction.
Qed.

(** ** Results of the run *)

Lemma bind_inr {S E A B} (c : M S E A) (k : A -> M S E B) s s' b :
  bind c k s = (s', inr b) -> exists s1 a, c s = (s1, inr a) /\ k a s1 = (s', inr b).
Proof.
  unfold bind. destruct (c s) as [s1 [e|a]]; intros H; [discriminate|].
  exists s1, a. split; [reflexivity | exact H].
Qed.

Lemma withRetry_loop_inr {S E T} (sleep : Z -> S -> S) (fn : M S E T) n :
  forall r a lastError s s' v,
    withRetry_loop sleep fn n r a lastError s = (s', inr v) ->
    exists s0, fn s0 = (s', inr v).
Proof.
  induction n as [|n IH]; intros r a lastError s s' v; simpl.
  - destruct (a <=? r)%Z; discriminate.
  - destruct (a <=? r)%Z; [|discriminate].
    destruct (fn s) as [s1 [e|v']] eqn:Hfn.
    + destruct (a =? r)%Z; [discriminate | apply IH].
    + intros H. injection H as <- <-. exists s. exact Hfn.
Qed.

Lemma withRetry_inr {S E T} (sleep : Z -> S -> S) (fn : M S E T) r s s' v :
  withRetry sleep fn r s = (s', inr v) -> exists s0, fn s0 = (s', inr v).
Proof. apply withRetry_loop_inr. Qed.

Section RunResults.
Variable env : Env.
Variable options : RunSpeedTestOptions.

(** A run that returns has measured the latency and run the loops, and
    returns what they gave. *)
Lemma runSpeedTest_inr w w' res :
  runSpeedTest env options w = (w', inr res) ->
  exists w1 w2 w3 w4 lat dl up,
    withRetry (setTimeout_sleep env) (measureLatency env (signal options))
      (retry_budget options) w1 = (w2, inr lat) /\
    download_loop env (onProgress options) (signal options) (retry_budget options)
      DOWNLOAD_SIZES 0 [] w3 = (w4, inr dl) /\
    (if upload_enabled options
     then exists w5 w6 ul,
         upload_loop env (onProgress options) (signal options) (retry_budget options)
           UPLOAD_SIZES 0 [] w5 = (w6, inr ul) /\
         up = Some (averageThroughput ul)
     else up = None) /\
    res = {| downloadMbps := Some (averageThroughput dl); uploadMbps := up;
             latency := Some lat; timestamp := date_now env |}.
Proof.
  unfold runSpeedTest. cbv zeta. fold (upload_enabled options) (retry_budget options).
  intros H.
  apply bind_inr in H as (w1 & [] & _ & H).
  apply bind_inr in H as (w2 & lat & Hlat & H).
  apply bind_inr in H as (w3 & [] & _ & H).
  apply bind_inr in H as (w4 & dl & Hdl & H).
  apply bind_inr in H as (w5 & up & Hup & H).
  apply bind_inr in H as (w6 & [] & _ & H).
  injection H as _ <-.
  exists w1, w2, w3, w4, lat, dl, up. repeat split; try assumption.
  destruct (upload_enabled options).
  - apply bind_inr in Hup as (w7 & ul & Hul & Hret). injection Hret as _ <-.
    exists w4, w7, ul. split; [exact Hul | reflexivity].
  - injection Hup as _ <-. reflexivity.
Qed.
End RunResults.

(** Claim C5.  With [enableUpload = false] no upload probe is issued: no
    request goes to the upload endpoint, none is a POST, no call of
    [onProgress] has the phase ['upload'], and a run that returns has
    [uploadMbps = null]. *)
Theorem C5_upload_disabled (env : Env) (options : RunSpeedTestOptions) (w : World) :
  enableUpload options = Some false ->
  exists evs,
    trace (fst (runSpeedTest env options w)) = trace w ++ evs /\
    Forall no_upload evs /\
    (forall res, snd (runSpeedTest env options w) = inr res -> uploadMbps res = None).
Proof.
  intros Hoff.
  assert (Hup : upload_enabled options = false) by (unfold upload_enabled; rewrite Hoff; reflexivity).
  destruct (emits_runSpeedTest env no_upload options) with (w := w)
    as (evs & Ht & Hall); try (intros; exact I);
    try (intros; split; [discriminate | reflexivity]).
  - rewrite Hup. discriminate.
  - intros value []; rewrite ?Hup; intros H; try exact I; try discriminate H; exact H.
  - exists evs. repeat split; [exact Ht | exact Hall |].
    intros res Hres.
    destruct (runSpeedTest env options w) as [w' out] eqn:Hrun. simpl in Hres. subst out.
    apply runSpeedTest_inr in Hrun
      as (w1 & w2 & w3 & w4 & lat & dl & up & _ & _ & Hupload & ->).
    rewrite Hup in Hupload. subst up. reflexivity.
Qed.

Lemma C5_upload_disabled_witness :
  exists evs,
    trace (fst (runSpeedTest scenario download_only initial_world))
    = trace initial_world ++ evs /\
    Forall no_upload evs /\
    (forall res, snd (runSpeedTest scenario download_only initial_world) = inr res ->
                 uploadMbps res = None).
Proof.
  apply (C5_upload_disabled scenario download_only initial_world). reflexivity.
Defined.

(** ** The throughput probes and the averages *)

Lemma fold_left_add_map {A} (f : A -> float) xs : forall acc,
  fold_left (fun acc x => (acc + f x)%float) xs acc
  = fold_left (fun acc value => (acc + value)%float) (map f xs) acc.
Proof. induction xs as [|x xs IH]; intros acc; simpl; [reflexivity | apply IH]. Qed.

(** [averageThroughput] is the unweighted mean of the [mbps] of the samples. *)
Lemma averageThroughput_mean samples :
  averageThroughput samples = unweighted_mean (map mbps samples).
Proof.
  destruct samples as [|s samples]; [reflexivity|].
  unfold averageThroughput, unweighted_mean, add_up.
  rewrite (fold_left_add_map mbps), length_map. reflexivity.
Qed.

Section Probes.
Variable env : Env.

Lemma measureDownloadForSize_inr size signal w w' sample :
  measureDownloadForSize env size signal w = (w', inr sample) ->
  sizeBytes sample = size /\ sample_identity sample.
Proof.
  unfold measureDownloadForSize. intros H.
  apply bind_inr in H as (w1 & start & _ & H).
  apply bind_inr in H as (w2 & response & _ & H).
  destruct (negb (ok response)); [discriminate|].
  apply bind_inr in H as (w3 & [] & _ & H).
  apply bind_inr in H as (w4 & stop & _ & H).
  injection H as _ <-. split; reflexivity.
Qed.

Lemma measureUploadForSize_inr size signal w w' sample :
  measureUploadForSize env size signal w = (w', inr sample) ->
  sizeBytes sample = size /\ sample_identity sample.
Proof.
  unfold measureUploadForSize. intros H.
  apply bind_inr in H as (w0 & [] & _ & H).
  apply bind_inr in H as (w1 & start & _ & H).
  apply bind_inr in H as (w2 & response & _ & H).
  destruct (negb (ok response)); [discriminate|].
  apply bind_inr in H as (w3 & [] & _ & H).
  apply bind_inr in H as (w4 & stop & _ & H).
  injection H as _ <-. split; reflexivity.
Qed.

Lemma download_loop_inr onProgress signal retries todo :
  forall i acc w w' dl,
    download_loop env onProgress signal retries todo i acc w = (w', inr dl) ->
    exists new, dl = acc ++ new /\ map sizeBytes new = todo /\ Forall sample_identity new.
Proof.
  induction todo as [|size todo IH]; intros i acc w w' dl; simpl.
  - intros H. injection H as _ <-. exists []. rewrite app_nil_r. repeat split. constructor.
  - intros H.
    apply bind_inr in H as (w1 & sample & Hs & H).
    apply bind_inr in H as (w2 & [] & _ & H).
    apply withRetry_inr in Hs as (w0 & Hs).
    apply measureDownloadForSize_inr in Hs as (Hsize & Hid).
    apply IH in H as (new & -> & Hmap & Hall).
    exists (sample :: new). rewrite <- app_assoc. repeat split.
    + simpl. rewrite Hsize, Hmap. reflexivity.
    + constructor; assumption.
Qed.

Lemma upload_loop_inr onProgress signal retries todo :
  forall i acc w w' ul,
    upload_loop env onProgress signal retries todo i acc w = (w', inr ul) ->
    exists new, ul = acc ++ new /\ map sizeBytes new = todo /\ Forall sample_identity new.
Proof.
  induction todo as [|size todo IH]; intros i acc w w' ul; simpl.
  - intros H. injection H as _ <-. exists []. rewrite app_nil_r. repeat split. constructor.
  - intros H.
    apply bind_inr in H as (w1 & sample & Hs & H).
    apply bind_inr in H as (w2 & [] & _ & H).
    apply withRetry_inr in Hs as (w0 & Hs).
    apply measureUploadForSize_inr in Hs as (Hsize & Hid).
    apply IH in H as (new & -> & Hmap & Hall).
    exists (sample :: new). rewrite <- app_assoc. repeat split.
    + simpl. rewrite Hsize, Hmap. reflexivity.
    + constructor; assumption.
Qed.
End Probes.

(** The scenario of the specification, with upload disabled and no retry:
    the average latency is 20, the jitter 0, the download throughput the
    mean of the three samples (97.87...) and [uploadMbps] is [null]. *)
Example scenario_run :
  exists w' lat,
    runSpeedTest scenario download_only initial_world
    = (w', inr {| downloadMbps :=
                    Some ((0 + 1048576 * 8 / (100 / 1000) / 1000000
                           + 5242880 * 8 / (400 / 1000) / 1000000
                           + 10485760 * 8 / (800 / 1000) / 1000000) / 3)%float;
                  uploadMbps := None; latency := Some lat;
                  timestamp := 1700000000000%float |}) /\
    average lat = 20%float /\ jitter lat = 0%float /\
    min lat = 20%float /\ max lat = 20%float.
Proof.
  eexists. eexists. split; [vm_compute; reflexivity|]. repeat split.
Qed.

(** ** The latency probe *)

Lemma fetches_app evs1 evs2 : fetches (evs1 ++ evs2) = fetches evs1 ++ fetches evs2.
Proof. apply flat_map_app. Qed.

Lemma fetches_caller_may_abort fires w :
  exists evs, trace (caller_may_abort fires w) = trace w ++ evs /\ fetches evs = [].
Proof.
  unfold caller_may_abort. destruct (fires && negb (aborted w)).
  - exists [Cancel]. split; reflexivity.
  - exists []. rewrite app_nil_r. split; reflexivity.
Qed.

Lemma caller_may_abort_counters fires w :
  wire (caller_may_abort fires w) = wire w /\
  readings (caller_may_abort fires w) = readings w /\
  sleeps (caller_may_abort fires w) = sleeps w.
Proof. unfold caller_may_abort. destruct (fires && negb (aborted w)); repeat split. Qed.

Section Latency.
Variable env : Env.

Lemma fetch_inr req w w' response :
  fetch env req w = (w', inr response) ->
  wire w' = Datatypes.S (wire w) /\ readings w' = readings w /\
  exists evs, trace w' = trace w ++ evs /\ fetches evs = [(req, true)].
Proof.
  unfold fetch. destruct (_ && aborted w); [discriminate|]. cbv zeta.
  set (w2 := {| trace := trace (record (Fetch req true) w);
                wire := Datatypes.S (wire (record (Fetch req true) w));
                readings := readings (record (Fetch req true) w);
                sleeps := sleeps (record (Fetch req true) w);
                aborted := aborted (record (Fetch req true) w) |}).
  set (o := network env (wire w)).
  destruct (caller_may_abort_counters (abort_in_flight o) w2) as (Hw & Hr & _).
  destruct (fetches_caller_may_abort (abort_in_flight o) w2) as (evs & Ht & Hf).
  intros H.
  assert (Hw' : w' = caller_may_abort (abort_in_flight o) w2).
  { destruct (_ && _); [discriminate|]. destruct (reply o); [|discriminate].
    injection H as <- _. reflexivity. }
  subst w'. rewrite Hw, Hr. repeat split.
  exists (Fetch req true :: evs). rewrite Ht. simpl. rewrite <- app_assoc.
  split; [reflexivity|]. rewrite Hf. reflexivity.
Qed.

Lemma drain_inr response w w' :
  drain response w = (w', inr tt) ->
  wire w' = wire w /\ readings w' = readings w /\
  exists evs, trace w' = trace w ++ evs /\ fetches evs = [].
Proof.
  unfold drain. cbv zeta.
  destruct (caller_may_abort_counters (abort_mid_body (from response)) w) as (Hw & Hr & _).
  destruct (fetches_caller_may_abort (abort_mid_body (from response)) w) as (evs & Ht & Hf).
  intros H.
  assert (Hw' : w' = caller_may_abort (abort_mid_body (from response)) w).
  { destruct (_ && _); [discriminate|]. destruct (body_arrives _); [|discriminate].
    injection H as <-. reflexivity. }
  subst w'. rewrite Hw, Hr. repeat split. exists evs. split; assumption.
Qed.

Lemma latency_attempt_inr signal w w' duration :
  latency_attempt env signal w = (w', inr duration) ->
  duration = attempt_duration env (readings w) 0 /\
  wire w' = Datatypes.S (wire w) /\ readings w' = (readings w + 2)%nat /\
  exists evs, trace w' = trace w ++ evs /\ fetches evs = [(latency_request signal, true)].
Proof.
  unfold latency_attempt. intros H.
  apply bind_inr in H as (w1 & start & Hstart & H).
  apply bind_inr in H as (w2 & response & Hfetch & H).
  destruct (negb (ok response)); [discriminate|].
  apply bind_inr in H as (w3 & [] & Hdrain & H).
  apply bind_inr in H as (w4 & stop & Hstop & H).
  injection H as <- <-.
  unfold performance_now in Hstart. injection Hstart as <- <-.
  apply fetch_inr in Hfetch as (Hw2 & Hr2 & evs2 & Ht2 & Hf2).
  apply drain_inr in Hdrain as (Hw3 & Hr3 & evs3 & Ht3 & Hf3).
  unfold performance_now in Hstop. injection Hstop as <- <-.
  simpl in *. rewrite Hw3, Hw2, Hr3, Hr2. repeat split.
  - unfold attempt_duration.
    replace (readings w + 2 * 0 + 1)%nat with (Datatypes.S (readings w)) by lia.
    replace (readings w + 2 * 0)%nat with (readings w) by lia.
    reflexivity.
  - lia.
  - exists (evs2 ++ evs3). rewrite Ht3, Ht2, app_assoc. split; [reflexivity|].
    rewrite fetches_app, Hf2, Hf3. reflexivity.
Qed.

Lemma latency_loop_inr signal todo :
  forall acc w w' l,
    latency_loop env todo signal acc w = (w', inr l) ->
    l = acc ++ map (attempt_duration env (readings w)) (seq 0 todo) /\
    wire w' = (wire w + todo)%nat /\
    exists evs, trace w' = trace w ++ evs /\
                fetches evs = repeat (latency_request signal, true) todo.
Proof.
  induction todo as [|todo IH]; intros acc w w' l; simpl.
  - intros H. injection H as <- <-. rewrite app_nil_r. repeat split; [lia|].
    exists []. rewrite app_nil_r. split; reflexivity.
  - intros H. apply bind_inr in H as (w1 & d & Hd & H).
    apply latency_attempt_inr in Hd as (-> & Hw1 & Hr1 & evs1 & Ht1 & Hf1).
    apply IH in H as (-> & Hw' & evs & Ht & Hf).
    repeat split.
    + rewrite <- app_assoc. f_equal. simpl. f_equal.
      rewrite <- seq_shift, map_map. apply map_ext. intros i.
      unfold attempt_duration. rewrite Hr1.
      replace (readings w + 2 * Datatypes.S i + 1)%nat
        with (readings w + 2 + 2 * i + 1)%nat by lia.
      replace (readings w + 2 * Datatypes.S i)%nat
        with (readings w + 2 + 2 * i)%nat by lia.
      reflexivity.
    + lia.
    + exists (evs1 ++ evs). rewrite Ht, Ht1, app_assoc. split; [reflexivity|].
      rewrite fetches_app, Hf1, Hf. reflexivity.
Qed.

Lemma measureLatency_inr signal w w' m :
  measureLatency env signal w = (w', inr m) ->
  m = latency_metrics (map (attempt_duration env (readings w)) (seq 0 LATENCY_ATTEMPTS)) /\
  wire w' = (wire w + LATENCY_ATTEMPTS)%nat /\
  exists evs, trace w' = trace w ++ evs /\
              fetches evs = repeat (latency_request signal, true) LATENCY_ATTEMPTS.
Proof.
  unfold measureLatency. intros H.
  apply bind_inr in H as (w1 & l & Hl & H). injection H as <- <-.
  apply latency_loop_inr in Hl as (-> & Hw & Hevs). repeat split; assumption.
Qed.
End Latency.

(** ** The samples of a run *)

(** The number of readings of the clock never goes down. *)
Lemma bind_readings {E A B} (c : M World E A) (k : A -> M World E B) :
  (forall w, (readings w <= readings (fst (c w)))%nat) ->
  (forall a w, (readings w <= readings (fst (k a w)))%nat) ->
  forall w, (readings w <= readings (fst (bind c k w)))%nat.
Proof.
  intros Hc Hk w. unfold bind. specialize (Hc w).
  destruct (c w) as [w1 [e|a]]; cbn [fst] in *; [exact Hc|].
  specialize (Hk a w1). lia.
Qed.

Section Readings.
Variable env : Env.

Lemma fetch_readings req w : readings (fst (fetch env req w)) = readings w.
Proof.
  unfold fetch. destruct (_ && aborted w); [reflexivity|]. cbv zeta.
  match goal with
  | |- context [caller_may_abort ?f ?w2] =>
      destruct (caller_may_abort_counters f w2) as (_ & Hr & _);
      destruct (_ && aborted (caller_may_abort f w2));
      [|destruct (reply (network env (wire w)))]; cbn [fst]; rewrite Hr; reflexivity
  end.
Qed.

Lemma drain_readings response w : readings (fst (drain response w)) = readings w.
Proof.
  unfold drain. cbv zeta.
  destruct (caller_may_abort_counters (abort_mid_body (from response)) w) as (_ & Hr & _).
  destruct (_ && _); [|destruct (body_arrives _)]; cbn [fst]; exact Hr.
Qed.

Lemma sleep_readings ms w : readings (setTimeout_sleep env ms w) = readings w.
Proof.
  unfold setTimeout_sleep.
  match goal with
  | |- context [caller_may_abort ?f ?w2] =>
      destruct (caller_may_abort_counters f w2) as (_ & Hr & _); rewrite Hr; reflexivity
  end.
Qed.

Lemma progress_readings onProgress value phase w w' :
  progress onProgress value phase w = (w', inr tt) -> readings w' = readings w.
Proof. unfold progress. destruct onProgress; intros H; injection H as <-; reflexivity. Qed.

Lemma latency_attempt_readings signal w :
  (readings w <= readings (fst (latency_attempt env signal w)))%nat.
Proof.
  unfold latency_attempt, bind, performance_now.
  pose proof (fetch_readings (latency_request signal)
                {| trace := trace w; wire := wire w; readings := Datatypes.S (readings w);
                   sleeps := sleeps w; aborted := aborted w |}) as Hf.
  destruct (fetch env _ _) as [w2 [e|response]]; cbn [fst readings] in *; [lia|].
  destruct (negb (ok response)); [unfold throw; cbn [fst]; lia|].
  unfold arrayBuffer. pose proof (drain_readings response w2) as Hd.
  destruct (drain response w2) as [w3 [e|[]]]; cbn [fst] in *; [lia|].
  unfold ret. cbn [fst readings]. lia.
Qed.

Lemma latency_loop_readings signal todo :
  forall acc w, (readings w <= readings (fst (latency_loop env todo signal acc w)))%nat.
Proof.
  induction todo as [|todo IH]; intros acc w; cbn [latency_loop].
  - unfold ret. cbn [fst]. lia.
  - apply bind_readings; [apply latency_attempt_readings|]. intros d w1. apply IH.
Qed.

Lemma measureLatency_readings signal w :
  (readings w <= readings (fst (measureLatency env signal w)))%nat.
Proof.
  unfold measureLatency. apply bind_readings; [apply latency_loop_readings|].
  intros l w1. unfold ret. cbn [fst]. lia.
Qed.

Lemma measureDownloadForSize_readings size signal w :
  (readings w <= readings (fst (measureDownloadForSize env size signal w)))%nat.
Proof.
  unfold measureDownloadForSize, bind, performance_now.
  pose proof (fetch_readings (download_request size signal)
                {| trace := trace w; wire := wire w; readings := Datatypes.S (readings w);
                   sleeps := sleeps w; aborted := aborted w |}) as Hf.
  destruct (fetch env _ _) as [w2 [e|response]]; cbn [fst readings] in *; [lia|].
  destruct (negb (ok response)); [unfold throw; cbn [fst]; lia|].
  unfold arrayBuffer. pose proof (drain_readings response w2) as Hd.
  destruct (drain response w2) as [w3 [e|[]]]; cbn [fst] in *; [lia|].
  unfold ret. cbn [fst readings]. lia.
Qed.

Lemma measureUploadForSize_readings size signal w :
  (readings w <= readings (fst (measureUploadForSize env size signal w)))%nat.
Proof.
  unfold measureUploadForSize, bind at 1, crypto_getRandomValues.
  destruct (random_values_quota env size); [|unfold throw; cbn [fst]; lia].
  unfold ret at 1. unfold bind, performance_now.
  pose proof (fetch_readings (upload_request size signal)
                {| trace := trace w; wire := wire w; readings := Datatypes.S (readings w);
                   sleeps := sleeps w; aborted := aborted w |}) as Hf.
  destruct (fetch env _ _) as [w2 [e|response]]; cbn [fst readings] in *; [lia|].
  destruct (negb (ok response)); [unfold throw; cbn [fst]; lia|].
  unfold arrayBuffer. pose proof (drain_readings response w2) as Hd.
  destruct (drain response w2) as [w3 [e|[]]]; cbn [fst] in *; [lia|].
  unfold ret. cbn [fst readings]. lia.
Qed.

(** What the wrapper returns is what the last call of the operation
    returned, in the state in which the operation left it; the call came
    after the readings taken before. *)
Lemma withRetry_loop_returned {T} (fn : M World JsError T) n :
  (forall w, (readings w <= readings (fst (fn w)))%nat) ->
  forall r a lastError w w' v,
    withRetry_loop (setTimeout_sleep env) fn n r a lastError w = (w', inr v) ->
    exists w0, fn w0 = (w', inr v) /\ (readings w <= readings w0)%nat.
Proof.
  intros Hfn. induction n as [|n IH]; intros r a lastError w w' v; simpl.
  - destruct (a <=? r)%Z; discriminate.
  - destruct (a <=? r)%Z; [|discriminate].
    pose proof (Hfn w) as Hw.
    destruct (fn w) as [w1 [e|v']] eqn:Hcall; cbn [fst] in Hw.
    + destruct (a =? r)%Z; [discriminate|]. intros H.
      apply IH in H as (w0 & H0 & Hr). exists w0. split; [exact H0|].
      rewrite sleep_readings in Hr. lia.
    + intros H. injection H as <- <-. exists w. split; [exact Hcall | lia].
Qed.

Lemma withRetry_returned {T} (fn : M World JsError T) r w w' v :
  (forall w, (readings w <= readings (fst (fn w)))%nat) ->
  withRetry (setTimeout_sleep env) fn r w = (w', inr v) ->
  exists w0, fn w0 = (w', inr v) /\ (readings w <= readings w0)%nat.
Proof. intros Hfn. apply withRetry_loop_returned, Hfn. Qed.

(** A probe that returns has read the clock twice, before the request and
    after the body, and returns the sample of these two readings. *)
Lemma measureDownloadForSize_sample size signal w w' sample :
  measureDownloadForSize env size signal w = (w', inr sample) ->
  sample = sample_at env size (readings w) /\ readings w' = (readings w + 2)%nat.
Proof.
  unfold measureDownloadForSize. intros H.
  apply bind_inr in H as (w1 & start & Hstart & H).
  apply bind_inr in H as (w2 & response & Hfetch & H).
  destruct (negb (ok response)); [discriminate|].
  apply bind_inr in H as (w3 & [] & Hdrain & H).
  apply bind_inr in H as (w4 & stop & Hstop & H).
  injection H as <- <-.
  unfold performance_now in Hstart. injection Hstart as <- <-.
  apply fetch_inr in Hfetch as (_ & Hr2 & _).
  apply drain_inr in Hdrain as (_ & Hr3 & _).
  unfold performance_now in Hstop. injection Hstop as <- <-.
  cbn [readings] in *. unfold sample_at. rewrite Hr3, Hr2. split; [reflexivity | lia].
Qed.

Lemma measureUploadForSize_sample size signal w w' sample :
  measureUploadForSize env size signal w = (w', inr sample) ->
  sample = sample_at env size (readings w) /\ readings w' = (readings w + 2)%nat.
Proof.
  unfold measureUploadForSize. intros H.
  apply bind_inr in H as (w0 & [] & Hcrypto & H).
  apply bind_inr in H as (w1 & start & Hstart & H).
  apply bind_inr in H as (w2 & response & Hfetch & H).
  destruct (negb (ok response)); [discriminate|].
  apply bind_inr in H as (w3 & [] & Hdrain & H).
  apply bind_inr in H as (w4 & stop & Hstop & H).
  injection H as <- <-.
  unfold crypto_getRandomValues in Hcrypto.
  destruct (random_values_quota env size); [|discriminate]. injection Hcrypto as <-.
  unfold performance_now in Hstart. injection Hstart as <- <-.
  apply fetch_inr in Hfetch as (_ & Hr2 & _).
  apply drain_inr in Hdrain as (_ & Hr3 & _).
  unfold performance_now in Hstop. injection Hstop as <- <-.
  cbn [readings] in *. unfold sample_at. rewrite Hr3, Hr2. split; [reflexivity | lia].
Qed.

Lemma download_loop_calls onProgress signal retries todo :
  forall i acc w w' dl,
    download_loop env onProgress signal retries todo i acc w = (w', inr dl) ->
    exists calls,
      returned_in (fun size => measureDownloadForSize env size signal) env todo calls /\
      dl = acc ++ samples_of env todo calls /\
      in_sequence (readings w) (map readings calls) (readings w').
Proof.
  induction todo as [|size todo IH]; intros i acc w w' dl; simpl.
  - intros H. injection H as <- <-. exists []. rewrite app_nil_r.
    split; [constructor|]. split; [reflexivity|]. cbn. lia.
  - intros H.
    apply bind_inr in H as (w1 & sample & Hs & H).
    apply bind_inr in H as (w2 & [] & Hp & H).
    apply withRetry_returned in Hs as (w0 & Hs & Hr0);
      [|apply measureDownloadForSize_readings].
    destruct (measureDownloadForSize_sample _ _ _ _ _ Hs) as (-> & Hr1).
    apply progress_readings in Hp as Hr2.
    apply IH in H as (calls & Hcalls & -> & Hseq).
    exists (w0 :: calls). split; [|split].
    + constructor; [exists w1; exact Hs | exact Hcalls].
    + rewrite <- app_assoc. reflexivity.
    + cbn [map in_sequence]. split; [exact Hr0|]. rewrite <- Hr1, <- Hr2. exact Hseq.
Qed.

Lemma upload_loop_calls onProgress signal retries todo :
  forall i acc w w' ul,
    upload_loop env onProgress signal retries todo i acc w = (w', inr ul) ->
    exists calls,
      returned_in (fun size => measureUploadForSize env size signal) env todo calls /\
      ul = acc ++ samples_of env todo calls /\
      in_sequence (readings w) (map readings calls) (readings w').
Proof.
  induction todo as [|size todo IH]; intros i acc w w' ul; simpl.
  - intros H. injection H as <- <-. exists []. rewrite app_nil_r.
    split; [constructor|]. split; [reflexivity|]. cbn. lia.
  - intros H.
    apply bind_inr in H as (w1 & sample & Hs & H).
    apply bind_inr in H as (w2 & [] & Hp & H).
    apply withRetry_returned in Hs as (w0 & Hs & Hr0);
      [|apply measureUploadForSize_readings].
    destruct (measureUploadForSize_sample _ _ _ _ _ Hs) as (-> & Hr1).
    apply progress_readings in Hp as Hr2.
    apply IH in H as (calls & Hcalls & -> & Hseq).
    exists (w0 :: calls). split; [|split].
    + constructor; [exists w1; exact Hs | exact Hcalls].
    + rewrite <- app_assoc. reflexivity.
    + cbn [map in_sequence]. split; [exact Hr0|]. rewrite <- Hr1, <- Hr2. exact Hseq.
Qed.
End Readings.

Lemma in_sequence_le first starts last :
  in_sequence first starts last -> (first <= last)%nat.
Proof.
  revert first. induction starts as [|start starts IH]; intros first; cbn; [lia|].
  intros (H1 & H2). apply IH in H2. lia.
Qed.

Lemma in_sequence_weaken first first' starts last last' :
  (first' <= first)%nat -> (last <= last')%nat ->
  in_sequence first starts last -> in_sequence first' starts last'.
Proof.
  intros Hf Hl. destruct starts as [|start starts]; cbn; [lia|].
  intros (H1 & H2). split; [lia|]. clear H1 Hf.
  revert H2. generalize (start + 2)%nat. induction starts as [|s starts IH]; intros n; cbn.
  - lia.
  - intros (H1 & H2). split; [exact H1 | apply IH, H2].
Qed.

Lemma in_sequence_app first starts mid starts' last :
  in_sequence first starts mid -> in_sequence mid starts' last ->
  in_sequence first (starts ++ starts') last.
Proof.
  revert first. induction starts as [|start starts IH]; intros first; cbn [app in_sequence].
  - intros H1 H2. apply (in_sequence_weaken mid first starts' last last); [exact H1 | lia | exact H2].
  - intros (H1 & H2) H3. split; [exact H1 | apply IH; assumption].
Qed.

(** Claim C4.  Every sample that a download or an upload probe returns is
    the sample of its two readings of the clock: [durationSeconds] is the
    time between the reading before the request and the reading after the
    body, in seconds, and [mbps = sizeBytes * 8 / durationSeconds /
    1_000_000] exactly.  In a run that returns, the probe has returned once
    for each configured size, the calls one after the other in the order of
    the sizes, the downloads before the uploads; [downloadMbps] is the
    unweighted arithmetic mean of the [mbps] of the samples of the download
    calls and, when upload is enabled, [uploadMbps] that of the samples of
    the upload calls; the average of an empty list of samples is 0. *)
Theorem C4_throughput (env : Env) (options : RunSpeedTestOptions) (w w' : World)
    (res : SpeedTestResult) :
  runSpeedTest env options w = (w', inr res) ->
  (forall size signal w0 w1 sample,
      measureDownloadForSize env size signal w0 = (w1, inr sample)
      \/ measureUploadForSize env size signal w0 = (w1, inr sample) ->
      sample = sample_at env size (readings w0) /\ sample_identity sample) /\
  (exists downloads uploads,
      returned_in (fun size => measureDownloadForSize env size (signal options)) env
        DOWNLOAD_SIZES downloads /\
      downloadMbps res
      = Some (unweighted_mean (map mbps (samples_of env DOWNLOAD_SIZES downloads))) /\
      (if upload_enabled options
       then returned_in (fun size => measureUploadForSize env size (signal options)) env
              UPLOAD_SIZES uploads /\
            uploadMbps res
            = Some (unweighted_mean (map mbps (samples_of env UPLOAD_SIZES uploads)))
       else uploads = [] /\ uploadMbps res = None) /\
      in_sequence (readings w) (map readings (downloads ++ uploads)) (readings w')) /\
  averageThroughput [] = 0%float.
Proof.
  intros Hrun. split; [|split; [|reflexivity]].
  { intros size signal w0 w1 sample [H|H];
      [apply measureDownloadForSize_sample in H | apply measureUploadForSize_sample in H];
      destruct H as (-> & _); split; reflexivity. }
  unfold runSpeedTest in Hrun. cbv zeta in Hrun.
  apply bind_inr in Hrun as (wa & [] & Hpa & Hrun).
  apply bind_inr in Hrun as (wb & lat & Hlat & Hrun).
  apply bind_inr in Hrun as (wc & [] & Hpc & Hrun).
  apply bind_inr in Hrun as (wd & dl & Hdl & Hrun).
  apply bind_inr in Hrun as (we & up & Hup & Hrun).
  apply bind_inr in Hrun as (wf & [] & Hpf & Hrun).
  injection Hrun as <- <-.
  apply progress_readings in Hpa as Hra.
  apply withRetry_returned in Hlat as (w0 & Hlat & Hrb); [|apply measureLatency_readings].
  pose proof (measureLatency_readings env (signal options) w0) as Hrb'.
  rewrite Hlat in Hrb'. cbn [fst] in Hrb'.
  apply progress_readings in Hpc as Hrc.
  apply progress_readings in Hpf as Hrf.
  apply download_loop_calls in Hdl as (downloads & Hdown & Hdl & Hseq).
  cbn [app] in Hdl. subst dl.
  assert (Hseq' : in_sequence (readings w) (map readings downloads) (readings wd))
    by (apply (in_sequence_weaken (readings wc) (readings w) _ (readings wd) (readings wd));
        [lia | lia | exact Hseq]).
  cbn [downloadMbps uploadMbps]. rewrite averageThroughput_mean.
  destruct (upload_enabled options).
  - apply bind_inr in Hup as (wu & ul & Hul & Hup). injection Hup as <- <-.
    apply upload_loop_calls in Hul as (uploads & Hupl & Hul & Hsequ).
    cbn [app] in Hul. subst ul.
    exists downloads, uploads. split; [exact Hdown|]. split; [reflexivity|].
    split; [split; [exact Hupl | rewrite averageThroughput_mean; reflexivity]|].
    rewrite map_app, Hrf. apply (in_sequence_app _ _ (readings wd)); assumption.
  - injection Hup as <- <-.
    exists downloads, []. split; [exact Hdown|]. split; [reflexivity|].
    split; [split; reflexivity|].
    rewrite app_nil_r, Hrf. exact Hseq'.
Qed.

Lemma C4_throughput_witness :
  exists w' res,
    runSpeedTest scenario default_options initial_world = (w', inr res) /\
    (forall size signal w0 w1 sample,
        measureDownloadForSize scenario size signal w0 = (w1, inr sample)
        \/ measureUploadForSize scenario size signal w0 = (w1, inr sample) ->
        sample = sample_at scenario size (readings w0) /\ sample_identity sample) /\
    (exists downloads uploads,
        returned_in (fun size => measureDownloadForSize scenario size (signal default_options))
          scenario DOWNLOAD_SIZES downloads /\
        downloadMbps res
        = Some (unweighted_mean (map mbps (samples_of scenario DOWNLOAD_SIZES downloads))) /\
        (if upload_enabled default_options
         then returned_in (fun size => measureUploadForSize scenario size (signal default_options))
                scenario UPLOAD_SIZES uploads /\
              uploadMbps res
              = Some (unweighted_mean (map mbps (samples_of scenario UPLOAD_SIZES uploads)))
         else uploads = [] /\ uploadMbps res = None) /\
        in_sequence (readings initial_world) (map readings (downloads ++ uploads))
          (readings w')) /\
    averageThroughput [] = 0%float.
Proof.
  eexists. eexists. split.
  - vm_compute. reflexivity.
  - eapply (C4_throughput scenario default_options initial_world). vm_compute. reflexivity.
Defined.

(** *** The statistics *)

Lemma Prim2SF_eight : Prim2SF (number_of_nat 8) = S754_finite false 4503599627370496 (-49).
Proof. vm_compute. reflexivity. Qed.

Lemma fold_add_not_nan xs :
  forallb is_finite xs = true ->
  forall acc, is_nan acc = false ->
              is_nan (fold_left (fun acc value => (acc + value)%float) xs acc) = false.
Proof.
  induction xs as [|x xs IH]; intros Hxs acc Hacc; simpl; [exact Hacc|].
  simpl in Hxs. apply andb_true_iff in Hxs as [Hx Hxs].
  apply IH; [exact Hxs|].
  rewrite is_nan_spec, add_spec. rewrite is_nan_spec in Hacc. rewrite is_finite_spec in Hx.
  apply SFadd_not_nan; assumption.
Qed.

Lemma div_not_nan x d sd md ed :
  Prim2SF d = S754_finite sd md ed -> is_nan x = false -> is_nan (x / d)%float = false.
Proof.
  intros Hd. rewrite !is_nan_spec, div_spec, Hd. apply SFdiv_not_nan.
Qed.

Lemma deviation_unsigned value average :
  is_finite value = true -> is_nan average = false ->
  sf_unsigned (Prim2SF (Math_abs (value - average)%float)) = true.
Proof.
  rewrite is_finite_spec, is_nan_spec. intros Hv Ha.
  unfold Math_abs. rewrite abs_spec, sub_spec.
  apply SFabs_unsigned, SFsub_not_nan; assumption.
Qed.

Lemma fold_deviations_unsigned average xs :
  is_nan average = false -> forallb is_finite xs = true ->
  forall acc, sf_unsigned (Prim2SF acc) = true ->
    sf_unsigned
      (Prim2SF (fold_left (fun acc value => (acc + Math_abs (value - average))%float) xs acc))
    = true.
Proof.
  intros Ha. induction xs as [|x xs IH]; intros Hxs acc Hacc; simpl; [exact Hacc|].
  simpl in Hxs. apply andb_true_iff in Hxs as [Hx Hxs].
  apply IH; [exact Hxs|]. rewrite add_spec.
  apply SFadd_unsigned; [exact Hacc | apply deviation_unsigned; assumption].
Qed.

Lemma div_unsigned x d md ed :
  Prim2SF d = S754_finite false md ed -> sf_unsigned (Prim2SF x) = true ->
  sf_unsigned (Prim2SF (x / d)%float) = true.
Proof. intros Hd Hx. rewrite div_spec, Hd. apply SFdiv_unsigned, Hx. Qed.

Lemma unsigned_leb x : sf_unsigned (Prim2SF x) = true -> (0 <=? x)%float = true.
Proof. intros H. rewrite leb_spec. apply SFleb_zero_unsigned, H. Qed.

(** The jitter of eight finite samples is not negative. *)
Lemma jitter_nonneg xs :
  List.length xs = 8%nat -> forallb is_finite xs = true ->
  (0 <=? jitter (latency_metrics xs))%float = true.
Proof.
  intros Hlen Hfin. unfold latency_metrics. cbn [jitter]. rewrite Hlen.
  apply unsigned_leb. eapply div_unsigned; [apply Prim2SF_eight|].
  apply fold_deviations_unsigned; [|exact Hfin | reflexivity].
  eapply div_not_nan; [apply Prim2SF_eight|].
  apply fold_add_not_nan; [exact Hfin | reflexivity].
Qed.

Lemma jitter_is_mad xs :
  jitter (latency_metrics xs) = mean_absolute_deviation xs.
Proof.
  unfold latency_metrics, mean_absolute_deviation, arithmetic_mean, add_up. cbn [jitter].
  rewrite (fold_left_add_map
             (fun value => Math_abs (value - fold_left (fun acc v => acc + v) xs 0
                                              / number_of_nat (List.length xs)))%float),
    length_map.
  reflexivity.
Qed.

(** ** Rounding in binary64

    The operations of binary64 on numbers that are not negative, read on
    the scaled values: the result of an addition, of a subtraction of a
    smaller number and of a division by 8 is the exact result rounded to one
    of its two neighbours. *)

Local Open Scope Z_scope.

(** *** The grid of the binary64 numbers *)

Lemma grid_pos n : 0 < grid n.
Proof. unfold grid. apply Z.pow_pos_nonneg; lia. Qed.

Lemma pow2_divide a b : 0 <= a <= b -> (2 ^ a | 2 ^ b).
Proof.
  intros H. exists (2 ^ (b - a)). rewrite <- Z.pow_add_r by lia. f_equal. lia.
Qed.

Lemma grid_mono n n' : n <= n' -> (grid n | grid n').
Proof.
  intros H. unfold grid. apply pow2_divide.
  pose proof (Z.log2_le_mono n n' H). lia.
Qed.

Lemma grid_le n n' : n <= n' -> grid n <= grid n'.
Proof.
  intros H. apply Z.divide_pos_le; [apply grid_pos | apply grid_mono, H].
Qed.

(** Two grids: one divides the other. *)
Lemma grid_or n n' : (grid n | grid n') \/ (grid n' | grid n).
Proof. destruct (Z.le_ge_cases n n'); [left | right]; apply grid_mono; assumption. Qed.

Lemma grid_divides_pow n : 0 < n -> (grid n | 2 ^ Z.log2 n).
Proof.
  intros H. unfold grid. apply pow2_divide. pose proof (Z.log2_nonneg n). lia.
Qed.

Lemma round_down_bounds n : round_down n <= n < round_down n + grid n.
Proof.
  unfold round_down. pose proof (Z.mod_pos_bound n (grid n) (grid_pos n)). lia.
Qed.

Lemma round_down_divide n : (grid n | round_down n).
Proof.
  unfold round_down. exists (n / grid n).
  pose proof (Z.div_mod n (grid n)) as H. pose proof (grid_pos n). lia.
Qed.

Lemma round_down_log2 n : 0 < n -> Z.log2 (round_down n) = Z.log2 n.
Proof.
  intros Hn. pose proof (round_down_bounds n) as [Hle _].
  apply Z.le_antisymm; [apply Z.log2_le_mono, Hle|].
  assert (Hpow : 2 ^ Z.log2 n <= round_down n).
  { destruct (grid_divides_pow n Hn) as [k Hk]. destruct (round_down_divide n) as [q Hq].
    pose proof (Z.log2_spec n Hn) as [Hlo _].
    pose proof (round_down_bounds n) as [_ Hhi]. pose proof (grid_pos n) as Hg.
    rewrite Hk, Hq in *. remember (grid n) as g.
    assert (k < q + 1) by (apply (Z.mul_lt_mono_pos_r g); lia).
    apply Z.mul_le_mono_nonneg_r; lia. }
  pose proof (Z.log2_le_mono _ _ Hpow) as H.
  rewrite Z.log2_pow2 in H by apply Z.log2_nonneg. exact H.
Qed.

Lemma grid_round_down n : 0 <= n -> grid (round_down n) = grid n.
Proof.
  intros Hn. destruct (Z.eq_dec n 0) as [->|Hne]; [reflexivity|].
  unfold grid at 1. rewrite round_down_log2 by lia. reflexivity.
Qed.

Lemma round_down_nonneg n : 0 <= n -> 0 <= round_down n.
Proof.
  intros Hn. unfold round_down.
  pose proof (Z.mod_le n (grid n) Hn (grid_pos n)). lia.
Qed.

Lemma round_down_representable n : 0 <= n -> representable (round_down n).
Proof.
  intros Hn. unfold representable. rewrite grid_round_down by exact Hn.
  apply Z.mod_divide; [pose proof (grid_pos n); lia | apply round_down_divide].
Qed.

Lemma representable_divide f : representable f -> (grid f | f).
Proof. unfold representable. intros H. apply Z.mod_divide; [pose proof (grid_pos f); lia | exact H]. Qed.

Lemma divide_representable f : (grid f | f) -> representable f.
Proof. unfold representable. intros H. apply Z.mod_divide; [pose proof (grid_pos f); lia | exact H]. Qed.

(** The representable numbers from [n] on are multiples of the grid at [n]. *)
Lemma representable_grid f n : representable f -> n <= f -> (grid n | f).
Proof.
  intros Hf Hn. eapply Z.divide_trans; [apply grid_mono, Hn | apply representable_divide, Hf].
Qed.

Lemma round_down_exact n : representable n -> round_down n = n.
Proof. unfold representable, round_down. intros ->. lia. Qed.

(** [round_down n] is the largest representable number up to [n]. *)
Lemma round_down_max f n : representable f -> 0 <= f <= n -> f <= round_down n.
Proof.
  intros Hf [H0 Hn].
  destruct (Z.le_gt_cases f (round_down n)) as [|Hgt]; [assumption|exfalso].
  assert (Hg : grid f = grid n).
  { assert (0 < n) by (pose proof (round_down_nonneg n); lia).
    unfold grid. f_equal. f_equal. f_equal.
    apply Z.le_antisymm; [apply Z.log2_le_mono, Hn|].
    rewrite <- (round_down_log2 n) by assumption. apply Z.log2_le_mono. lia. }
  destruct (representable_divide f Hf) as [k Hk]. rewrite Hg in Hk.
  destruct (round_down_divide n) as [q Hq].
  pose proof (round_down_bounds n) as [_ Hhi]. pose proof (grid_pos n) as Hpos.
  rewrite Hk, Hq in *. remember (grid n) as g.
  assert (q < k) by (apply (Z.mul_lt_mono_pos_r g); lia).
  assert (k < q + 1) by (apply (Z.mul_lt_mono_pos_r g); lia).
  lia.
Qed.

Lemma round_down_mono n n' : 0 <= n <= n' -> round_down n <= round_down n'.
Proof.
  intros H. apply round_down_max.
  - apply round_down_representable; lia.
  - pose proof (round_down_bounds n). pose proof (round_down_nonneg n). lia.
Qed.

Lemma round_up_bounds n : n <= round_up n <= round_down n + grid n.
Proof.
  unfold round_up. pose proof (round_down_bounds n). pose proof (grid_pos n).
  destruct (n mod grid n =? 0) eqn:E; [|lia].
  apply Z.eqb_eq in E. unfold round_down in *. lia.
Qed.

Lemma round_up_exact n : representable n -> round_up n = n.
Proof. unfold representable, round_up. intros ->. reflexivity. Qed.

Lemma round_up_inexact n : ~ representable n -> round_up n = round_down n + grid n.
Proof.
  unfold representable, round_up. intros H.
  destruct (n mod grid n =? 0) eqn:E; [apply Z.eqb_eq in E; contradiction | reflexivity].
Qed.

(** The representable number that follows a representable number. *)
Lemma representable_next f b : representable f -> representable b -> b < f -> b + grid b <= f.
Proof.
  intros Hf Hb Hlt.
  destruct (representable_grid f b Hf ltac:(lia)) as [k Hk].
  destruct (representable_divide b Hb) as [q Hq].
  pose proof (grid_pos b) as Hpos. remember (grid b) as g.
  assert (q < k) by (apply (Z.mul_lt_mono_pos_r g); lia).
  assert (Hs : (q + 1) * g <= k * g) by (apply Z.mul_le_mono_nonneg_r; lia).
  lia.
Qed.

(** [round_up n] is the least representable number from [n] on. *)
Lemma round_up_min f n : representable f -> 0 <= n <= f -> round_up n <= f.
Proof.
  intros Hf [H0 Hn]. unfold round_up.
  destruct (n mod grid n =? 0) eqn:E; [exact Hn|].
  apply Z.eqb_neq in E.
  assert (Hlt : round_down n < f).
  { pose proof (round_down_bounds n). unfold round_down in *. lia. }
  pose proof (representable_next f (round_down n) Hf (round_down_representable n H0) Hlt) as H.
  rewrite grid_round_down in H by exact H0. exact H.
Qed.

Lemma pow2_representable k : 0 <= k -> representable (2 ^ k).
Proof.
  intros Hk. apply divide_representable. unfold grid. rewrite Z.log2_pow2 by exact Hk.
  apply pow2_divide. lia.
Qed.

Lemma round_up_representable n : 0 <= n -> representable (round_up n).
Proof.
  intros Hn. unfold round_up. destruct (n mod grid n =? 0) eqn:E.
  - apply Z.eqb_eq, E.
  - apply Z.eqb_neq in E.
    assert (Hpos : 0 < n) by (destruct (Z.eq_dec n 0) as [->|]; [exfalso; apply E; reflexivity | lia]).
    pose proof (Z.log2_spec n Hpos) as [Hlo Hhi].
    pose proof (round_down_bounds n) as [Hd1 Hd2].
    destruct (grid_divides_pow n Hpos) as [k Hk].
    destruct (round_down_divide n) as [q Hq].
    pose proof (grid_pos n) as Hg.
    assert (Hle : round_down n + grid n <= 2 ^ Z.succ (Z.log2 n)).
    { rewrite Z.pow_succ_r by apply Z.log2_nonneg. rewrite Z.pow_succ_r in Hhi by apply Z.log2_nonneg.
      rewrite Hk, Hq in *. remember (grid n) as g.
      assert (q < 2 * k) by (apply (Z.mul_lt_mono_pos_r g); lia).
      assert ((q + 1) * g <= 2 * k * g) by (apply Z.mul_le_mono_nonneg_r; lia).
      lia. }
    destruct (Z.eq_dec (round_down n + grid n) (2 ^ Z.succ (Z.log2 n))) as [->|Hne].
    + apply pow2_representable. pose proof (Z.log2_nonneg n). lia.
    + apply divide_representable.
      assert (Hlog : Z.log2 (round_down n + grid n) = Z.log2 n).
      { apply Z.log2_unique; [apply Z.log2_nonneg|]. split; [|lia].
        pose proof (round_down_log2 n Hpos) as Hl.
        assert (0 < round_down n).
        { destruct (Z.eq_dec (round_down n) 0) as [E0|]; [|pose proof (round_down_nonneg n); lia].
          rewrite E0 in Hl. change (Z.log2 0) with 0 in Hl.
          unfold grid in Hg, Hd2. rewrite <- Hl in *. change (Z.max 0 (0 - 52)) with 0 in *.
          change (2 ^ 0) with 1 in *. lia. }
        pose proof (Z.log2_spec (round_down n) ltac:(lia)) as [Hlo' _]. rewrite Hl in Hlo'. lia. }
      unfold grid at 1. rewrite Hlog. fold (grid n).
      apply Z.divide_add_r; [apply round_down_divide | apply Z.divide_refl].
Qed.

Lemma faithful_exact n r : representable n -> faithful n r -> r = n.
Proof.
  intros Hn [_ H]. rewrite round_down_exact, round_up_exact in H by exact Hn. lia.
Qed.

Lemma faithful_lower n r f : faithful n r -> representable f -> 0 <= f <= n -> f <= r.
Proof. intros [_ H] Hf Hn. pose proof (round_down_max f n Hf Hn). lia. Qed.

Lemma faithful_upper n r f : faithful n r -> representable f -> 0 <= n <= f -> r <= f.
Proof. intros [_ H] Hf Hn. pose proof (round_up_min f n Hf Hn). lia. Qed.

Lemma faithful_nonneg n r : 0 <= n -> faithful n r -> 0 <= r.
Proof. intros Hn [_ H]. pose proof (round_down_nonneg n Hn). lia. Qed.

(** Rounding keeps the multiples of a power of two. *)
Lemma faithful_grid m n r : 0 <= n -> (grid m | n) -> faithful n r -> (grid m | r).
Proof.
  intros Hn Hdiv [Hr Hb].
  destruct (Z.eq_dec (n mod grid n) 0) as [E|E].
  - assert (r = n) by (apply faithful_exact; [exact E | split; assumption]). subst r. exact Hdiv.
  - assert (Hgn : (grid m | grid n)).
    { destruct (grid_or m n) as [H|H]; [exact H|].
      exfalso. apply E. apply Z.mod_divide; [pose proof (grid_pos n); lia|].
      eapply Z.divide_trans; eassumption. }
    eapply Z.divide_trans; [exact Hgn|].
    rewrite <- (grid_round_down n Hn). apply representable_grid; [exact Hr | lia].
Qed.

Lemma Zdigits2_log2 m : Zdigits2 (Z.pos m) = Z.log2 (Z.pos m) + 1.
Proof.
  cbn [Zdigits2]. pose proof (digits2_pos_bounds m) as [Hlo Hhi].
  symmetry. assert (Z.log2 (Z.pos m) = Z.pos (digits2_pos m) - 1); [|lia].
  apply Z.log2_unique; [lia|]. split; [exact Hlo|].
  replace (Z.succ (Z.pos (digits2_pos m) - 1)) with (Z.pos (digits2_pos m)) by lia. exact Hhi.
Qed.

Lemma shr_1_m mrs : 0 <= shr_m mrs -> shr_m (shr_1 mrs) = shr_m mrs / 2.
Proof.
  destruct mrs as [m r s]. cbn [shr_m]. intros H.
  destruct m as [|[p|p|]|p]; cbn [shr_1 shr_m]; try lia.
  - reflexivity.
  - apply Z.div_unique with (r := 1); lia.
  - apply Z.div_unique with (r := 0); lia.
  - reflexivity.
Qed.

Lemma shr_1_exact mrs :
  0 <= shr_m mrs -> shr_exact mrs -> (2 | shr_m mrs) -> shr_exact (shr_1 mrs).
Proof.
  destruct mrs as [m r s]. unfold shr_exact. cbn [shr_m shr_r shr_s].
  intros H [-> ->] [k Hk].
  destruct m as [|[p|p|]|p]; cbn; try (split; reflexivity); lia.
Qed.

Lemma iter_pos_shr_1_m p : forall mrs,
  0 <= shr_m mrs -> shr_m (iter_pos shr_1 p mrs) = shr_m mrs / 2 ^ Z.pos p.
Proof.
  induction p as [p IH|p IH|]; intros mrs H; cbn [iter_pos].
  - pose proof (shr_1_nonneg mrs H) as H1.
    pose proof (iter_pos_shr_1_nonneg p _ H1) as H2.
    rewrite IH, IH, shr_1_m by assumption.
    rewrite !Z.div_div by (try apply Z.pow_pos_nonneg; lia).
    f_equal. rewrite <- Z.pow_add_r, <- Z.pow_succ_r by lia. f_equal. lia.
  - pose proof (iter_pos_shr_1_nonneg p _ H) as H2.
    rewrite IH, IH by assumption.
    rewrite !Z.div_div by (try apply Z.pow_pos_nonneg; lia).
    f_equal. rewrite <- Z.pow_add_r by lia. f_equal. lia.
  - apply shr_1_m, H.
Qed.

Lemma divide_div a b m : 0 < a -> (a * b | m) -> (b | m / a).
Proof.
  intros Ha [k Hk]. exists k. subst m.
  replace (k * (a * b)) with (k * b * a) by ring. apply Z.div_mul. lia.
Qed.

Lemma iter_pos_shr_1_exact p : forall mrs,
  0 <= shr_m mrs -> shr_exact mrs -> (2 ^ Z.pos p | shr_m mrs) ->
  shr_exact (iter_pos shr_1 p mrs).
Proof.
  induction p as [p IH|p IH|]; intros mrs H Hex Hdiv; cbn [iter_pos].
  - assert (E : 2 ^ Z.pos p~1 = 2 * (2 ^ Z.pos p * 2 ^ Z.pos p)).
    { rewrite <- Z.pow_add_r, <- Z.pow_succ_r by lia. f_equal. lia. }
    rewrite E in Hdiv.
    assert (Hp : 0 < 2 ^ Z.pos p) by (apply Z.pow_pos_nonneg; lia).
    pose proof (shr_1_nonneg mrs H) as H1.
    pose proof (iter_pos_shr_1_nonneg p _ H1) as H2.
    assert (D1 : (2 | shr_m mrs)).
    { eapply Z.divide_trans; [|exact Hdiv]. exists (2 ^ Z.pos p * 2 ^ Z.pos p). ring. }
    assert (D2 : (2 ^ Z.pos p * 2 ^ Z.pos p | shr_m (shr_1 mrs))).
    { rewrite shr_1_m by exact H. apply divide_div; [lia | exact Hdiv]. }
    assert (D3 : (2 ^ Z.pos p | shr_m (shr_1 mrs))).
    { eapply Z.divide_trans; [|exact D2]. exists (2 ^ Z.pos p). ring. }
    assert (D4 : (2 ^ Z.pos p | shr_m (iter_pos shr_1 p (shr_1 mrs)))).
    { rewrite iter_pos_shr_1_m by exact H1. apply divide_div; [lia | exact D2]. }
    apply IH; [exact H2 | | exact D4].
    apply IH; [exact H1 | | exact D3].
    apply shr_1_exact; assumption.
  - assert (E : 2 ^ Z.pos p~0 = 2 ^ Z.pos p * 2 ^ Z.pos p).
    { rewrite <- Z.pow_add_r by lia. f_equal. lia. }
    rewrite E in Hdiv.
    assert (Hp : 0 < 2 ^ Z.pos p) by (apply Z.pow_pos_nonneg; lia).
    pose proof (iter_pos_shr_1_nonneg p _ H) as H2.
    assert (D3 : (2 ^ Z.pos p | shr_m mrs)).
    { eapply Z.divide_trans; [|exact Hdiv]. exists (2 ^ Z.pos p). ring. }
    assert (D4 : (2 ^ Z.pos p | shr_m (iter_pos shr_1 p mrs))).
    { rewrite iter_pos_shr_1_m by exact H. apply divide_div; [lia | exact Hdiv]. }
    apply IH; [exact H2 | | exact D4].
    apply IH; assumption.
  - apply shr_1_exact; assumption.
Qed.

Lemma fexp_eq e : fexp prec emax e = Z.max (e - 53) (-1074).
Proof. reflexivity. Qed.

(** The numbers with more than 53 digits. *)
Lemma grid_shifted m k :
  0 < m -> 0 <= k -> 52 < Z.log2 m ->
  grid (m * 2 ^ k) = 2 ^ (Z.log2 m - 52 + k) /\
  round_down (m * 2 ^ k) = m / 2 ^ (Z.log2 m - 52) * 2 ^ (Z.log2 m - 52 + k) /\
  ((m * 2 ^ k) mod grid (m * 2 ^ k) = 0 -> m mod 2 ^ (Z.log2 m - 52) = 0).
Proof.
  intros Hm Hk Hd.
  assert (Hg : grid (m * 2 ^ k) = 2 ^ (Z.log2 m - 52 + k)).
  { unfold grid. rewrite Z.log2_mul_pow2 by lia. f_equal. lia. }
  assert (Hpk : 0 < 2 ^ k) by (apply Z.pow_pos_nonneg; lia).
  assert (Hpn : 0 < 2 ^ (Z.log2 m - 52)) by (apply Z.pow_pos_nonneg; lia).
  assert (Hmod : (m * 2 ^ k) mod grid (m * 2 ^ k) = m mod 2 ^ (Z.log2 m - 52) * 2 ^ k).
  { rewrite Hg, Z.pow_add_r by lia. apply Z.mul_mod_distr_r; lia. }
  split; [exact Hg|]. split.
  - unfold round_down. rewrite Hmod, Z.pow_add_r by lia.
    pose proof (Z.div_mod m (2 ^ (Z.log2 m - 52)) ltac:(lia)) as Hdm.
    remember (2 ^ (Z.log2 m - 52)) as P. remember (m / P) as q. remember (m mod P) as r.
    rewrite Hdm at 1. ring.
  - rewrite Hmod. intros H. apply Z.mul_eq_0 in H as [H|H]; [exact H | lia].
Qed.

Lemma Zdigits2_pos m : 0 < m -> Zdigits2 m = Z.log2 m + 1.
Proof. destruct m as [|p|p]; try lia. intros _. apply Zdigits2_log2. Qed.

Lemma shr_nonpos mrs e n : n <= 0 -> shr mrs e n = (mrs, e).
Proof. destruct n; try reflexivity. lia. Qed.

Lemma shr_fexp_small m e :
  0 < m -> -1074 <= e -> Z.log2 m <= 52 -> (Z.log2 m = 52 \/ e = -1074) ->
  shr_fexp prec emax m e loc_Exact = (Build_shr_record m false false, e).
Proof.
  intros Hm He Hl Hc. unfold shr_fexp. rewrite fexp_eq, Zdigits2_pos by exact Hm.
  cbn [shr_record_of_loc]. apply shr_nonpos. lia.
Qed.

Lemma shr_fexp_large m e :
  0 < m -> -1074 <= e -> 52 < Z.log2 m ->
  shr_fexp prec emax m e loc_Exact
  = (iter_pos shr_1 (Z.to_pos (Z.log2 m - 52)) (Build_shr_record m false false),
     e + (Z.log2 m - 52)).
Proof.
  intros Hm He Hl. unfold shr_fexp. rewrite fexp_eq, Zdigits2_pos by exact Hm.
  cbn [shr_record_of_loc].
  replace (Z.max (Z.log2 m + 1 + e - 53) (-1074) - e) with (Z.log2 m - 52) by lia.
  destruct (Z.log2 m - 52) as [|n|n] eqn:E; try lia. reflexivity.
Qed.

(** The last step of [binary_round_aux]: the mantissa has at most 53 digits,
    or is [2 ^ 53]. *)
Lemma final_stage m e :
  2 ^ 52 <= m <= 2 ^ 53 -> -1074 < e -> m * 2 ^ (e + 1074) <= 2 ^ 2097 ->
  let r := let '(mrs, e') := shr_fexp prec emax m e loc_Exact in
           match shr_m mrs with
           | Z0 => S754_zero false
           | Z.pos m' => if e' <=? emax - prec then S754_finite false m' e'
                         else S754_infinity false
           | Z.neg _ => S754_nan
           end in
  sf_finite r = true /\ sf_scaled r = m * 2 ^ (e + 1074).
Proof.
  intros [Hlo Hhi] He Hb.
  assert (Hm : 0 < m) by lia.
  destruct (Z.eq_dec m (2 ^ 53)) as [->|Hne].
  - rewrite shr_fexp_large; [|lia|lia|rewrite Z.log2_pow2; lia].
    rewrite Z.log2_pow2 by lia. cbv zeta.
    change (iter_pos shr_1 (Z.to_pos (53 - 52)) {| shr_m := 2 ^ 53; shr_r := false; shr_s := false |})
      with {| shr_m := 2 ^ 52; shr_r := false; shr_s := false |}.
    cbn [shr_m]. change (2 ^ 52) with (Z.pos 4503599627370496).
    assert (He' : e + (53 - 52) <= 971).
    { assert (2 ^ (53 + (e + 1074)) <= 2 ^ 2097) by (rewrite Z.pow_add_r by lia; exact Hb).
      apply Z.pow_le_mono_r_iff in H; lia. }
    change (emax - prec) with 971. destruct (Z.leb_spec (e + (53 - 52)) 971); [|lia].
    split; [reflexivity|]. cbn [sf_scaled cond_Zopp].
    change (Z.pos 4503599627370496) with (2 ^ 52).
    rewrite <- !Z.pow_add_r by lia. f_equal. lia.
  - assert (Hl : Z.log2 m = 52).
    { apply Z.log2_unique; [lia|]. change (Z.succ 52) with 53. lia. }
    rewrite shr_fexp_small; [|lia|lia|lia|left; exact Hl]. cbn [shr_m].
    destruct m as [|p|p]; try lia.
    assert (He' : e <= 971).
    { assert (2 ^ (52 + (e + 1074)) <= 2 ^ 2097).
      { rewrite Z.pow_add_r by lia. etransitivity; [|exact Hb].
        apply Z.mul_le_mono_nonneg_r; [apply Z.pow_nonneg; lia | exact Hlo]. }
      apply Z.pow_le_mono_r_iff in H; lia. }
    change (emax - prec) with 971. destruct (Z.leb_spec e 971); [|lia].
    split; reflexivity.
Qed.

Lemma round_nearest_even_bounds m l : m <= round_nearest_even m l <= m + 1.
Proof. destruct l as [|[]]; cbn; try lia. destruct (Z.even m); lia. Qed.

Lemma loc_of_exact mrs : shr_exact mrs -> loc_of_shr_record mrs = loc_Exact.
Proof. destruct mrs as [m r s]. intros [H1 H2]. cbn in *. subst. reflexivity. Qed.

(** Rounding an integer multiple of a power of two that is in canonical
    form: the result is one of the two neighbours, and the number itself
    when it is representable. *)
Lemma binary_round_aux_exact p ez :
  -1074 <= ez -> (52 <= Z.log2 (Z.pos p) \/ ez = -1074) ->
  Z.pos p * 2 ^ (ez + 1074) <= 2 ^ 2097 ->
  let r := binary_round_aux prec emax false (Z.pos p) ez loc_Exact in
  sf_finite r = true /\
  round_down (Z.pos p * 2 ^ (ez + 1074)) <= sf_scaled r
  <= round_up (Z.pos p * 2 ^ (ez + 1074)).
Proof.
  intros He Hc Hb. cbv zeta. unfold binary_round_aux.
  set (N := Z.pos p * 2 ^ (ez + 1074)) in *.
  destruct (Z.le_gt_cases (Z.log2 (Z.pos p)) 52) as [Hl|Hl].
  - rewrite shr_fexp_small by (first [lia | destruct Hc; [left|right]; lia]).
    cbn [shr_m loc_of_shr_record round_nearest_even].
    rewrite shr_fexp_small by (first [lia | destruct Hc; [left|right]; lia]).
    cbn [shr_m].
    assert (He' : ez <= 971).
    { destruct Hc as [Hc| ->]; [|lia].
      pose proof (Z.log2_spec (Z.pos p) ltac:(lia)) as [Hlo _].
      assert (2 ^ (52 + (ez + 1074)) <= 2 ^ 2097).
      { rewrite Z.pow_add_r by lia. etransitivity; [|exact Hb]. unfold N.
        apply Z.mul_le_mono_nonneg_r; [apply Z.pow_nonneg; lia|].
        etransitivity; [|exact Hlo]. apply Z.pow_le_mono_r; lia. }
      apply Z.pow_le_mono_r_iff in H; lia. }
    change (emax - prec) with 971. destruct (Z.leb_spec ez 971); [|lia].
    split; [reflexivity|]. cbn [sf_scaled cond_Zopp]. fold N.
    pose proof (round_down_bounds N). pose proof (round_up_bounds N). lia.
  - rewrite shr_fexp_large by lia.
    set (n := Z.log2 (Z.pos p) - 52) in *.
    set (rec0 := {| shr_m := Z.pos p; shr_r := false; shr_s := false |}).
    assert (Hn : 0 < n) by (unfold n; lia).
    assert (Hpn : Z.pos (Z.to_pos n) = n) by (apply Z2Pos.id; exact Hn).
    assert (Hq : shr_m (iter_pos shr_1 (Z.to_pos n) rec0) = Z.pos p / 2 ^ n).
    { rewrite iter_pos_shr_1_m by (cbn; lia). rewrite Hpn. reflexivity. }
    set (mrs := iter_pos shr_1 (Z.to_pos n) rec0) in *.
    set (q := Z.pos p / 2 ^ n) in *.
    pose proof (Z.log2_spec (Z.pos p) ltac:(lia)) as [Hlo Hhi].
    assert (Hp2 : 0 < 2 ^ n) by (apply Z.pow_pos_nonneg; lia).
    assert (Hq52 : 2 ^ 52 <= q).
    { unfold q. apply Z.div_le_lower_bound; [exact Hp2|].
      rewrite <- Z.pow_add_r by lia. replace (n + 52) with (Z.log2 (Z.pos p)) by (unfold n; lia).
      exact Hlo. }
    assert (Hq53 : q < 2 ^ 53).
    { unfold q. apply Z.div_lt_upper_bound; [exact Hp2|].
      rewrite <- Z.pow_add_r by lia.
      replace (n + 53) with (Z.succ (Z.log2 (Z.pos p))) by (unfold n; lia). exact Hhi. }
    destruct (grid_shifted (Z.pos p) (ez + 1074) ltac:(lia) ltac:(lia) Hl)
      as (Hgrid & Hrd & Hexact).
    fold n in Hgrid, Hrd, Hexact. fold q in Hrd. fold N in Hgrid, Hrd, Hexact.
    pose proof (round_nearest_even_bounds (shr_m mrs) (loc_of_shr_record mrs)) as Hm1.
    set (m1 := round_nearest_even (shr_m mrs) (loc_of_shr_record mrs)) in *.
    rewrite Hq in Hm1.
    assert (Hqg : q * 2 ^ (n + (ez + 1074)) <= N).
    { rewrite <- Hrd. apply round_down_bounds. }
    assert (Hpg : 0 < 2 ^ (n + (ez + 1074))) by (apply Z.pow_pos_nonneg; lia).
    assert (Hexp : ez + n <= 971).
    { assert (2 ^ (52 + (n + (ez + 1074))) <= 2 ^ 2097).
      { rewrite Z.pow_add_r by lia. etransitivity; [|exact Hb]. etransitivity; [|exact Hqg].
        apply Z.mul_le_mono_nonneg_r; lia. }
      apply Z.pow_le_mono_r_iff in H; lia. }
    assert (Hup : m1 * 2 ^ (n + (ez + 1074)) <= round_up N).
    { unfold round_up. destruct (N mod grid N =? 0) eqn:E.
      - apply Z.eqb_eq in E. pose proof (Hexact E) as Hmod.
        assert (Hm1q : m1 = q).
        { unfold m1. rewrite loc_of_exact; [cbn; exact Hq|].
          apply iter_pos_shr_1_exact; [cbn; lia | split; reflexivity|].
          rewrite Hpn. cbn [shr_m rec0]. apply Z.mod_divide; [lia | exact Hmod]. }
        rewrite Hm1q. exact Hqg.
      - rewrite Hrd, Hgrid.
        replace (q * 2 ^ (n + (ez + 1074)) + 2 ^ (n + (ez + 1074)))
          with ((q + 1) * 2 ^ (n + (ez + 1074))) by ring.
        apply Z.mul_le_mono_nonneg_r; lia. }
    assert (Hbound : m1 * 2 ^ (ez + n + 1074) <= 2 ^ 2097).
    { replace (ez + n + 1074) with (n + (ez + 1074)) by lia.
      etransitivity; [exact Hup|].
      apply round_up_min; [apply pow2_representable; lia | unfold N in *; lia]. }
    pose proof (final_stage m1 (ez + n) ltac:(lia) ltac:(lia) Hbound) as Hfinal.
    cbv zeta in Hfinal.
    destruct (shr_fexp prec emax m1 (ez + n) loc_Exact) as [mrs'' e''].
    destruct Hfinal as [Hfin Hval]. split; [exact Hfin|]. rewrite Hval.
    replace (ez + n + 1074) with (n + (ez + 1074)) by lia.
    split; [|exact Hup]. rewrite Hrd. apply Z.mul_le_mono_nonneg_r; lia.
Qed.

Lemma pos_iter_xO m d : Z.pos (Pos.iter xO m d) = Z.pos m * 2 ^ Z.pos d.
Proof.
  induction d as [|d IH] using Pos.peano_ind.
  - cbn [Pos.iter]. rewrite Pos2Z.inj_xO. change (2 ^ 1) with 2. ring.
  - rewrite Pos.iter_succ, Pos2Z.inj_xO, IH, Pos2Z.inj_succ, Z.pow_succ_r by lia. ring.
Qed.

Lemma shl_align_spec mx ex ex' :
  Z.pos (fst (shl_align mx ex ex')) = Z.pos mx * 2 ^ (ex - Z.min ex ex') /\
  snd (shl_align mx ex ex') = Z.min ex ex'.
Proof.
  unfold shl_align. destruct (ex' - ex) as [|d|d] eqn:E; cbn [fst snd].
  - replace (Z.min ex ex') with ex by lia. rewrite Z.sub_diag. split; [ring | reflexivity].
  - replace (Z.min ex ex') with ex by lia. rewrite Z.sub_diag. split; [ring | reflexivity].
  - replace (Z.min ex ex') with ex' by lia. rewrite pos_iter_xO. split; [|reflexivity].
    f_equal. f_equal. lia.
Qed.

(** [binary_round] of a positive integer multiple of a power of two. *)
Lemma binary_round_faithful mx ex :
  -1074 <= ex -> Z.pos mx * 2 ^ (ex + 1074) <= 2 ^ 2097 ->
  let r := binary_round prec emax false mx ex in
  sf_finite r = true /\
  round_down (Z.pos mx * 2 ^ (ex + 1074)) <= sf_scaled r
  <= round_up (Z.pos mx * 2 ^ (ex + 1074)).
Proof.
  intros He Hb. cbv zeta. unfold binary_round. rewrite fexp_eq.
  change (Z.pos (digits2_pos mx)) with (Zdigits2 (Z.pos mx)). rewrite Zdigits2_log2.
  set (ex' := Z.max (Z.log2 (Z.pos mx) + 1 + ex - 53) (-1074)).
  destruct (shl_align_spec mx ex ex') as [Hm Hez].
  destruct (shl_align mx ex ex') as [mz ez]. cbn [fst snd] in Hm, Hez.
  assert (Hval : Z.pos mz * 2 ^ (ez + 1074) = Z.pos mx * 2 ^ (ex + 1074)).
  { rewrite Hm, Hez, <- Z.mul_assoc, <- Z.pow_add_r by lia. f_equal. f_equal. lia. }
  rewrite <- Hval in *.
  apply binary_round_aux_exact; [lia | | exact Hb].
  assert (Hlog : Z.log2 (Z.pos mz) = Z.log2 (Z.pos mx) + (ex - Z.min ex ex')).
  { rewrite Hm, Z.log2_mul_pow2 by lia. lia. }
  lia.
Qed.

Lemma sf_nonneg_finite s : sf_nonneg s = true -> sf_finite s = true.
Proof. destruct s as [| | |[]]; try discriminate; reflexivity. Qed.

Lemma sf_nonneg_scaled s : sf_nonneg s = true -> 0 <= sf_scaled s.
Proof.
  destruct s as [| | |[] m e]; try discriminate; intros _; cbn [sf_scaled cond_Zopp];
    first [lia | apply Z.mul_nonneg_nonneg; [lia | apply Z.pow_nonneg; lia]].
Qed.

Lemma signed_finite_nonneg s :
  sf_signed false s = true -> sf_finite s = true -> sf_nonneg s = true.
Proof. destruct s as [[]|[]| |[] m e]; try discriminate; reflexivity. Qed.

Lemma round_bounds_refl n : round_down n <= n <= round_up n.
Proof. pose proof (round_down_bounds n). pose proof (round_up_bounds n). lia. Qed.

Lemma SFadd_faithful a b :
  valid_binary a = true -> valid_binary b = true ->
  sf_nonneg a = true -> sf_nonneg b = true ->
  sf_scaled a + sf_scaled b <= 2 ^ 2097 ->
  sf_nonneg (SF64add a b) = true /\
  round_down (sf_scaled a + sf_scaled b) <= sf_scaled (SF64add a b)
  <= round_up (sf_scaled a + sf_scaled b).
Proof.
  intros Va Vb Ha Hb Hsum.
  destruct a as [sa| | |[] ma ea], b as [sb| | |[] mb eb]; try discriminate.
  - assert (E : SF64add (S754_zero sa) (S754_zero sb) = S754_zero sa
                \/ SF64add (S754_zero sa) (S754_zero sb) = S754_zero false)
      by (destruct sa, sb; cbn; auto).
    destruct E as [-> | ->]; split; try reflexivity; cbn; lia.
  - change (SF64add (S754_zero sa) (S754_finite false mb eb)) with (S754_finite false mb eb).
    split; [reflexivity|]. cbn [sf_scaled]. rewrite Z.add_0_l. apply round_bounds_refl.
  - change (SF64add (S754_finite false ma ea) (S754_zero sb)) with (S754_finite false ma ea).
    split; [reflexivity|]. cbn [sf_scaled]. rewrite Z.add_0_r. apply round_bounds_refl.
  - cbn [valid_binary] in Va, Vb.
    destruct (bounded_facts ma ea Va) as (Hea & _ & _).
    destruct (bounded_facts mb eb Vb) as (Heb & _ & _).
    unfold SF64add, SFadd. cbv zeta.
    destruct (shl_align_spec ma ea (Z.min ea eb)) as [Hma _].
    destruct (shl_align_spec mb eb (Z.min ea eb)) as [Hmb _].
    set (ma' := fst (shl_align ma ea (Z.min ea eb))) in *.
    set (mb' := fst (shl_align mb eb (Z.min ea eb))) in *.
    cbn [cond_Zopp]. change (Z.pos ma' + Z.pos mb') with (Z.pos (ma' + mb')).
    cbn [binary_normalize].
    assert (Hval : Z.pos (ma' + mb') * 2 ^ (Z.min ea eb + 1074)
                   = sf_scaled (S754_finite false ma ea) + sf_scaled (S754_finite false mb eb)).
    { cbn [sf_scaled cond_Zopp]. rewrite Pos2Z.inj_add, Hma, Hmb.
      replace (Z.min ea (Z.min ea eb)) with (Z.min ea eb) by lia.
      replace (Z.min eb (Z.min ea eb)) with (Z.min ea eb) by lia.
      rewrite Z.mul_add_distr_r, <- !Z.mul_assoc, <- !Z.pow_add_r by lia.
      f_equal; f_equal; f_equal; lia. }
    rewrite <- Hval in *.
    destruct (binary_round_faithful (ma' + mb') (Z.min ea eb) ltac:(lia) Hsum) as [Hfin Hb'].
    split; [|exact Hb'].
    apply signed_finite_nonneg; [apply binary_round_signed | exact Hfin].
Qed.

Lemma SFsub_faithful a b :
  valid_binary a = true -> valid_binary b = true ->
  sf_nonneg a = true -> sf_nonneg b = true ->
  sf_scaled b <= sf_scaled a <= 2 ^ 2097 ->
  sf_nonneg (SF64sub a b) = true /\
  round_down (sf_scaled a - sf_scaled b) <= sf_scaled (SF64sub a b)
  <= round_up (sf_scaled a - sf_scaled b).
Proof.
  intros Va Vb Ha Hb [Hle Hbound].
  destruct a as [sa| | |[] ma ea], b as [sb| | |[] mb eb]; try discriminate.
  - assert (E : SF64sub (S754_zero sa) (S754_zero sb) = S754_zero sa
                \/ SF64sub (S754_zero sa) (S754_zero sb) = S754_zero false)
      by (destruct sa, sb; cbn; auto).
    destruct E as [-> | ->]; split; try reflexivity; cbn; lia.
  - exfalso. cbn [sf_scaled cond_Zopp] in Hle.
    assert (0 < Z.pos mb * 2 ^ (eb + 1074)); [|lia].
    cbn [valid_binary] in Vb. destruct (bounded_facts mb eb Vb) as (Heb & _ & _).
    apply Z.mul_pos_pos; [lia | apply Z.pow_pos_nonneg; lia].
  - change (SF64sub (S754_finite false ma ea) (S754_zero sb)) with (S754_finite false ma ea).
    split; [reflexivity|]. cbn [sf_scaled]. rewrite Z.sub_0_r. apply round_bounds_refl.
  - cbn [valid_binary] in Va, Vb.
    destruct (bounded_facts ma ea Va) as (Hea & _ & _).
    destruct (bounded_facts mb eb Vb) as (Heb & _ & _).
    unfold SF64sub, SFsub. cbv zeta.
    destruct (shl_align_spec ma ea (Z.min ea eb)) as [Hma _].
    destruct (shl_align_spec mb eb (Z.min ea eb)) as [Hmb _].
    set (ma' := fst (shl_align ma ea (Z.min ea eb))) in *.
    set (mb' := fst (shl_align mb eb (Z.min ea eb))) in *.
    cbn [cond_Zopp].
    assert (Hval : (Z.pos ma' - Z.pos mb') * 2 ^ (Z.min ea eb + 1074)
                   = sf_scaled (S754_finite false ma ea) - sf_scaled (S754_finite false mb eb)).
    { cbn [sf_scaled cond_Zopp]. rewrite Hma, Hmb.
      replace (Z.min ea (Z.min ea eb)) with (Z.min ea eb) by lia.
      replace (Z.min eb (Z.min ea eb)) with (Z.min ea eb) by lia.
      rewrite Z.mul_sub_distr_r, <- !Z.mul_assoc, <- !Z.pow_add_r by lia.
      f_equal; f_equal; f_equal; lia. }
    assert (Hp : 0 < 2 ^ (Z.min ea eb + 1074)) by (apply Z.pow_pos_nonneg; lia).
    destruct (Z.pos ma' - Z.pos mb') as [|m|m] eqn:Ediff.
    + cbn [binary_normalize]. split; [reflexivity|].
      rewrite <- Hval. cbn. lia.
    + cbn [binary_normalize]. rewrite <- Hval in *.
      assert (Hb2 : Z.pos m * 2 ^ (Z.min ea eb + 1074) <= 2 ^ 2097).
      { rewrite Hval. pose proof (sf_nonneg_scaled (S754_finite false mb eb) eq_refl). lia. }
      destruct (binary_round_faithful m (Z.min ea eb) ltac:(lia) Hb2) as [Hfin Hb'].
      split; [|exact Hb'].
      apply signed_finite_nonneg; [apply binary_round_signed | exact Hfin].
    + exfalso. assert (Z.neg m * 2 ^ (Z.min ea eb + 1074) < 0) by (apply Z.mul_neg_pos; lia).
      lia.
Qed.

(** ** Division by 8 *)

Lemma loc_of_record_of_loc m l : loc_of_shr_record (shr_record_of_loc m l) = l.
Proof. destruct l as [|[]]; reflexivity. Qed.

Lemma shr_m_record_of_loc m l : shr_m (shr_record_of_loc m l) = m.
Proof. destruct l as [|[]]; reflexivity. Qed.

(** The last step for a number below the normal range. *)
Lemma final_stage_emin m :
  0 <= m <= 2 ^ 53 ->
  let r := let '(mrs, e') := shr_fexp prec emax m (-1074) loc_Exact in
           match shr_m mrs with
           | Z0 => S754_zero false
           | Z.pos m' => if e' <=? emax - prec then S754_finite false m' e'
                         else S754_infinity false
           | Z.neg _ => S754_nan
           end in
  sf_nonneg r = true /\ sf_scaled r = m.
Proof.
  intros [Hlo Hhi]. cbv zeta.
  destruct (Z.eq_dec m 0) as [->|H0]; [split; reflexivity|].
  destruct (Z.eq_dec m (2 ^ 53)) as [->|H53]; [split; reflexivity|].
  assert (Hl : Z.log2 m <= 52).
  { assert (Z.log2 m < 53); [|lia]. apply Z.log2_lt_pow2; lia. }
  rewrite shr_fexp_small by (first [lia | right; reflexivity]).
  cbn [shr_m]. destruct m as [|p|p]; try lia.
  change (-1074 <=? emax - prec) with true. cbv iota.
  split; [reflexivity|]. cbn [sf_scaled cond_Zopp]. change (2 ^ (-1074 + 1074)) with 1. lia.
Qed.

Lemma SFdiv_eight a :
  valid_binary a = true -> sf_nonneg a = true ->
  sf_nonneg (SF64div a sf_eight) = true /\
  sf_scaled a / 8 <= sf_scaled (SF64div a sf_eight) <= sf_scaled a / 8 + 1 /\
  (sf_scaled a mod 8 = 0 -> sf_scaled (SF64div a sf_eight) = sf_scaled a / 8).
Proof.
  intros Va Ha. destruct a as [sa| | |[] m e]; try discriminate.
  - destruct sa; cbn; repeat split; lia.
  - cbn [valid_binary] in Va. destruct (bounded_facts m e Va) as (He & Hm & _).
    pose proof Va as Vb. unfold bounded in Vb. apply andb_true_iff in Vb as [_ Hemax].
    apply Z.leb_le in Hemax. change (emax - prec) with 971 in Hemax.
    assert (HL : Z.log2 (Z.pos m) <= 52).
    { assert (Z.log2 (Z.pos m) < 53); [|lia]. apply Z.log2_lt_pow2; lia. }
    pose proof (Z.log2_nonneg (Z.pos m)) as HL0.
    pose proof (Z.log2_spec (Z.pos m) ltac:(lia)) as [HLlo HLhi].
    set (N := Z.pos m * 2 ^ (e + 1074)).
    change (sf_scaled (S754_finite false m e)) with N.
    unfold SF64div, SFdiv, sf_eight, SFdiv_core_binary. cbn [xorb]. cbv zeta.
    rewrite fexp_eq, Zdigits2_log2.
    change (Zdigits2 4503599627370496) with 53.
    set (L := Z.log2 (Z.pos m)) in *.
    destruct (Z.le_gt_cases (-1074) (L + e - 56)) as [Hnorm|Hsub].
    + (* the quotient is a normal number: the division is exact *)
      replace (Z.min (Z.max (L + 1 + e - (53 + -49) - 53) (-1074)) (e - -49))
        with (L + e - 56) by lia.
      replace (e - -49 - (L + e - 56)) with (105 - L) by lia.
      destruct (105 - L) as [|s|s] eqn:Es; try lia.
      rewrite Z.shiftl_mul_pow2 by lia. rewrite <- Es.
      assert (Hm' : Z.pos m * 2 ^ (105 - L) = Z.pos m * 2 ^ (53 - L) * 4503599627370496).
      { change 4503599627370496 with (2 ^ 52). rewrite <- Z.mul_assoc, <- Z.pow_add_r by lia.
        f_equal. f_equal. lia. }
      rewrite Hm'.
      pose proof (Z.div_eucl_eq (Z.pos m * 2 ^ (53 - L) * 4503599627370496) 4503599627370496
                    ltac:(lia)) as Heucl.
      pose proof (Z.mod_pos_bound (Z.pos m * 2 ^ (53 - L) * 4503599627370496) 4503599627370496
                    ltac:(lia)) as Hmod.
      unfold Z.modulo in Hmod.
      destruct (Z.div_eucl (Z.pos m * 2 ^ (53 - L) * 4503599627370496) 4503599627370496)
        as [q r].
      assert (Hr : r = 0) by lia. assert (Hq : q = Z.pos m * 2 ^ (53 - L)) by lia.
      subst r. subst q.
      change (new_location 4503599627370496 0) with loc_Exact.
      assert (Hpos : 0 < Z.pos m * 2 ^ (53 - L))
        by (apply Z.mul_pos_pos; [lia | apply Z.pow_pos_nonneg; lia]).
      destruct (Z.pos m * 2 ^ (53 - L)) as [|p|p] eqn:Ep; try lia.
      assert (Hval : Z.pos p * 2 ^ (L + e - 56 + 1074) * 8 = N).
      { rewrite <- Ep. unfold N. change 8 with (2 ^ 3).
        rewrite <- !Z.mul_assoc, <- !Z.pow_add_r by lia. f_equal. f_equal. lia. }
      assert (Hlog : Z.log2 (Z.pos p) = 53).
      { rewrite <- Ep, Z.log2_mul_pow2 by lia. fold L. lia. }
      assert (Hbound : Z.pos p * 2 ^ (L + e - 56 + 1074) <= 2 ^ 2097).
      { rewrite <- Ep, <- Z.mul_assoc, <- Z.pow_add_r by lia.
        replace (53 - L + (L + e - 56 + 1074)) with (e + 1071) by lia.
        etransitivity; [apply Z.mul_le_mono_nonneg_r; [apply Z.pow_nonneg; lia | apply Z.lt_le_incl, Hm]|].
        rewrite <- Z.pow_add_r by lia. apply Z.pow_le_mono_r; lia. }
      destruct (binary_round_aux_exact p (L + e - 56) ltac:(lia) ltac:(lia) Hbound)
        as [Hfin Hb].
      assert (Hrep : representable (Z.pos p * 2 ^ (L + e - 56 + 1074))).
      { apply divide_representable. unfold grid. rewrite Z.log2_mul_pow2, Hlog by lia.
        replace (Z.max 0 (L + e - 56 + 1074 + 53 - 52)) with (1 + (L + e - 56 + 1074)) by lia.
        rewrite Z.pow_add_r by lia. apply Z.mul_divide_mono_r.
        rewrite <- Ep. exists (Z.pos m * 2 ^ (52 - L)).
        rewrite <- Z.mul_assoc. f_equal. change (2 ^ 1) with 2.
        replace (53 - L) with (Z.succ (52 - L)) by lia. rewrite Z.pow_succ_r by lia. ring. }
      rewrite round_down_exact, round_up_exact in Hb by exact Hrep.
      assert (Hres : sf_scaled (binary_round_aux prec emax false (Z.pos p) (L + e - 56) loc_Exact)
                     = N / 8).
      { rewrite <- Hval, Z.div_mul by lia. lia. }
      split; [apply signed_finite_nonneg; [apply binary_round_aux_signed; lia | exact Hfin]|].
      rewrite Hres. split; [lia|]. intros _. reflexivity.
    + (* the quotient is below the normal range *)
      replace (Z.min (Z.max (L + 1 + e - (53 + -49) - 53) (-1074)) (e - -49))
        with (-1074) by lia.
      replace (e - -49 - -1074) with (e + 1123) by lia.
      destruct (e + 1123) as [|s|s] eqn:Es; try lia.
      rewrite Z.shiftl_mul_pow2 by lia. rewrite <- Es.
      assert (Hm' : Z.pos m * 2 ^ (e + 1123) = N * 2 ^ 49).
      { unfold N. rewrite <- Z.mul_assoc, <- Z.pow_add_r by lia. f_equal. f_equal. lia. }
      rewrite Hm'.
      assert (HN : 0 <= N < 2 ^ 56).
      { unfold N. split; [apply Z.mul_nonneg_nonneg; [lia | apply Z.pow_nonneg; lia]|].
        apply Z.lt_le_trans with (2 ^ Z.succ L * 2 ^ (e + 1074)).
        - apply Z.mul_lt_mono_pos_r; [apply Z.pow_pos_nonneg; lia | exact HLhi].
        - rewrite <- Z.pow_add_r by lia. apply Z.pow_le_mono_r; lia. }
      assert (Hq : fst (Z.div_eucl (N * 2 ^ 49) 4503599627370496) = N / 8).
      { change (fst (Z.div_eucl (N * 2 ^ 49) 4503599627370496))
          with ((N * 2 ^ 49) / (8 * 2 ^ 49)).
        apply Z.div_mul_cancel_r; lia. }
      assert (Hr : snd (Z.div_eucl (N * 2 ^ 49) 4503599627370496) = N mod 8 * 2 ^ 49).
      { change (snd (Z.div_eucl (N * 2 ^ 49) 4503599627370496))
          with ((N * 2 ^ 49) mod (8 * 2 ^ 49)).
        apply Z.mul_mod_distr_r; lia. }
      destruct (Z.div_eucl (N * 2 ^ 49) 4503599627370496) as [q r].
      cbn [fst snd] in Hq, Hr. subst q.
      assert (Hq53 : 0 <= N / 8 < 2 ^ 53).
      { split; [apply Z.div_pos; lia|]. apply Z.div_lt_upper_bound; [lia|].
        change (8 * 2 ^ 53) with (2 ^ 56). lia. }
      unfold binary_round_aux.
      assert (Hshr : shr_fexp prec emax (N / 8) (-1074) (new_location 4503599627370496 r)
                     = (shr_record_of_loc (N / 8) (new_location 4503599627370496 r), -1074)).
      { unfold shr_fexp. rewrite fexp_eq. apply shr_nonpos.
        destruct (Z.eq_dec (N / 8) 0) as [->|Hne]; [cbn; lia|].
        rewrite Zdigits2_pos by lia.
        assert (Z.log2 (N / 8) < 53) by (apply Z.log2_lt_pow2; lia). lia. }
      rewrite Hshr, shr_m_record_of_loc, loc_of_record_of_loc.
      pose proof (round_nearest_even_bounds (N / 8) (new_location 4503599627370496 r)) as Hm1.
      assert (Hex : N mod 8 = 0 ->
                    round_nearest_even (N / 8) (new_location 4503599627370496 r) = N / 8).
      { intros E. rewrite Hr, E. reflexivity. }
      set (m1 := round_nearest_even (N / 8) (new_location 4503599627370496 r)) in *.
      pose proof (final_stage_emin m1 ltac:(lia)) as Hfinal. cbv zeta in Hfinal.
      destruct (shr_fexp prec emax m1 (-1074) loc_Exact) as [mrs'' e''].
      destruct Hfinal as [Hnn Hval]. split; [exact Hnn|]. rewrite Hval.
      split; [lia | exact Hex].
Qed.

(** *** Adding durations that a monotonic clock gives

    [D] is the exact sum of the durations added so far, [s] the sum that the
    additions have computed, [a] and [b] the readings around the next
    attempt.  That [s] is [D] rounded to a neighbour, and that the
    neighbour below [D] is at most [a], is kept by adding the next
    duration. *)

Lemma multiples_le g u v : 0 < g -> (g | u) -> (g | v) -> u < v + g -> u <= v.
Proof.
  intros Hg [k ->] [l ->] H.
  assert (k < l + 1) by (apply (Z.mul_lt_mono_pos_r g); lia).
  apply Z.mul_le_mono_nonneg_r; lia.
Qed.

Lemma round_down_faithful n : 0 <= n -> faithful n (round_down n).
Proof.
  intros Hn. split; [apply round_down_representable, Hn|].
  pose proof (round_bounds_refl n). lia.
Qed.

Lemma round_down_lt n : 0 <= n -> ~ representable n -> round_down n < n.
Proof.
  intros Hn Hrep. pose proof (round_down_bounds n) as [H _].
  destruct (Z.eq_dec (round_down n) n) as [E|]; [|lia].
  exfalso. apply Hrep. rewrite <- E. apply round_down_representable, Hn.
Qed.

(** One more duration is added to the sum.  [a] and [b] are the readings
    of the clock around the attempt, [d] the duration as it is computed, [D]
    the exact sum of the durations before and [s] the sum as it is
    computed. *)
Lemma sum_step a b D s d :
  representable a -> representable b -> 0 <= a <= b -> 0 <= D ->
  round_down D <= a ->
  representable s -> round_down D <= s <= round_up D ->
  faithful (b - a) d ->
  0 <= d /\
  round_down (D + d) <= s + d <= round_up (D + d) /\
  round_down (D + d) <= b /\
  round_up (D + d) <= b + grid b.
Proof.
  intros Ha Hb [Ha0 Hab] HD HG Hs [Hs1 Hs2] Hd.
  pose proof (grid_pos D) as Hg.
  pose proof (round_down_bounds D) as [HD1 HD2].
  pose proof (round_down_nonneg D HD) as HD0.
  assert (Hd0 : 0 <= d) by (apply (faithful_nonneg (b - a)); [lia | exact Hd]).
  assert (Ga : (grid D | a)).
  { rewrite <- (grid_round_down D HD). apply representable_grid; assumption. }
  assert (Gb : (grid D | b)).
  { rewrite <- (grid_round_down D HD). apply representable_grid; [assumption | lia]. }
  assert (Gs : (grid D | s)).
  { rewrite <- (grid_round_down D HD). apply representable_grid; assumption. }
  assert (Gdelta : (grid D | b - a)) by (apply Z.divide_sub_r; assumption).
  assert (Gd : (grid D | d)) by (apply (faithful_grid D (b - a)); [lia | assumption | assumption]).
  assert (Grd : (grid D | round_down D)) by apply round_down_divide.
  set (y := D + d) in *.
  assert (Hy : 0 <= y) by (unfold y; lia).
  assert (Grdy : (grid D | round_down y)).
  { rewrite <- (grid_round_down D HD). apply representable_grid.
    - apply round_down_representable, Hy.
    - apply round_down_mono. unfold y. lia. }
  assert (Gruy : (grid D | round_up y)).
  { rewrite <- (grid_round_down D HD). apply representable_grid.
    - apply round_up_representable, Hy.
    - pose proof (round_up_bounds y). unfold y in *. lia. }
  pose proof (round_down_bounds y) as [Hy1 Hy2].
  pose proof (round_up_bounds y) as [Hy3 Hy4].
  assert (Hlow : round_down y <= s + d).
  { assert (round_down y <= round_down D + d); [|lia].
    apply (multiples_le (grid D)); [exact Hg | exact Grdy | |].
    - apply Z.divide_add_r; assumption.
    - unfold y in *. lia. }
  assert (Hhigh : s + d <= round_up y).
  { destruct (Z.le_gt_cases s D) as [HsD|HsD]; [unfold y in *; lia|].
    assert (Hnr : ~ representable D).
    { intros Hr. rewrite (round_up_exact D Hr) in Hs2. lia. }
    rewrite (round_up_inexact D Hnr) in Hs2.
    pose proof (round_down_lt D HD Hnr) as Hlt.
    apply (multiples_le (grid D)); [exact Hg | | exact Gruy |].
    - apply Z.divide_add_r; assumption.
    - unfold y in *. lia. }
  assert (Hclock : round_down y <= b).
  { destruct (Z.le_gt_cases (round_down y) b) as [|Hgt]; [assumption|exfalso].
    pose proof (representable_next (round_down y) b (round_down_representable y Hy) Hb Hgt)
      as Hnext.
    assert (Hgb : grid D <= grid b).
    { rewrite <- (grid_round_down D HD). apply grid_le. lia. }
    destruct Hd as [Hdrep [Hd1 Hd2]].
    assert (Hbound : grid D + round_up (b - a) <= b - a + grid b).
    { destruct (Z.eq_dec ((b - a) mod grid (b - a)) 0) as [E|E].
      - rewrite (round_up_exact (b - a) E). lia.
      - rewrite (round_up_inexact (b - a) E).
        pose proof (round_down_lt (b - a) ltac:(lia) E) as Hlt.
        assert (Grdd : (grid D | round_down (b - a))).
        { apply (faithful_grid D (b - a)); [lia | exact Gdelta|].
          apply round_down_faithful. lia. }
        assert (Hstep : round_down (b - a) + grid D <= b - a).
        { destruct Grdd as [k Hk]. destruct Gdelta as [l Hl]. rewrite Hk, Hl in *.
          assert (k < l) by (apply (Z.mul_lt_mono_pos_r (grid D)); lia).
          assert ((k + 1) * grid D <= l * grid D) by (apply Z.mul_le_mono_nonneg_r; lia).
          lia. }
        assert (grid (b - a) <= grid b) by (apply grid_le; lia).
        lia. }
    unfold y in *. lia. }
  split; [exact Hd0|]. split; [split; assumption|]. split; [exact Hclock|].
  assert (grid y <= grid b).
  { rewrite <- (grid_round_down y Hy). apply grid_le. exact Hclock. }
  lia.
Qed.

(** *** The operations on [float] *)

Lemma valid_representable s :
  valid_binary s = true -> sf_nonneg s = true -> representable (sf_scaled s).
Proof.
  destruct s as [sx| | |[] m e]; try discriminate; intros V _.
  - reflexivity.
  - cbn [valid_binary] in V. destruct (bounded_facts m e V) as (He & Hm & _).
    cbn [sf_scaled cond_Zopp]. apply divide_representable.
    unfold grid. rewrite Z.log2_mul_pow2 by lia.
    assert (Z.log2 (Z.pos m) < 53) by (apply Z.log2_lt_pow2; lia).
    apply Z.divide_trans with (2 ^ (e + 1074)).
    + apply pow2_divide. lia.
    + apply Z.divide_factor_r.
Qed.

Lemma representable_eightfold f : 0 <= f -> representable f -> representable (8 * f).
Proof.
  intros H0 Hf. destruct (Z.eq_dec f 0) as [->|Hne]; [reflexivity|].
  apply divide_representable. apply representable_divide in Hf.
  apply Z.divide_trans with (8 * grid f); [| apply Z.mul_divide_mono_l, Hf].
  unfold grid. replace (8 * f) with (f * 2 ^ 3) by lia. rewrite Z.log2_mul_pow2 by lia.
  replace (8 * 2 ^ Z.max 0 (Z.log2 f - 52)) with (2 ^ (3 + Z.max 0 (Z.log2 f - 52))).
  - apply pow2_divide. lia.
  - rewrite Z.pow_add_r by lia. reflexivity.
Qed.

Lemma nonneg_of_leb x :
  is_finite x = true -> (0 <=? x)%float = true -> sf_nonneg (Prim2SF x) = true.
Proof.
  rewrite is_finite_spec, leb_spec.
  replace (Prim2SF 0) with (S754_zero false) by reflexivity.
  destruct (Prim2SF x) as [[]|[]| |[] m e]; try discriminate; reflexivity.
Qed.

Lemma nonneg_facts x :
  sf_nonneg (Prim2SF x) = true ->
  is_finite x = true /\ 0 <= scaled x /\ representable (scaled x).
Proof.
  intros H. rewrite is_finite_spec. split; [apply sf_nonneg_finite, H|].
  split; [apply sf_nonneg_scaled, H | apply valid_representable; [apply Prim2SF_valid | exact H]].
Qed.

Lemma add_faithful x y :
  sf_nonneg (Prim2SF x) = true -> sf_nonneg (Prim2SF y) = true ->
  scaled x + scaled y <= 2 ^ 2097 ->
  sf_nonneg (Prim2SF (x + y)) = true /\ faithful (scaled x + scaled y) (scaled (x + y)).
Proof.
  intros Hx Hy Hb.
  destruct (SFadd_faithful _ _ (Prim2SF_valid x) (Prim2SF_valid y) Hx Hy Hb) as [Hn Hr].
  rewrite <- add_spec in Hn, Hr. split; [exact Hn|]. split; [|exact Hr].
  apply valid_representable; [apply Prim2SF_valid | exact Hn].
Qed.

Lemma sub_faithful x y :
  sf_nonneg (Prim2SF x) = true -> sf_nonneg (Prim2SF y) = true ->
  scaled y <= scaled x <= 2 ^ 2097 ->
  sf_nonneg (Prim2SF (x - y)) = true /\ faithful (scaled x - scaled y) (scaled (x - y)).
Proof.
  intros Hx Hy Hb.
  destruct (SFsub_faithful _ _ (Prim2SF_valid x) (Prim2SF_valid y) Hx Hy Hb) as [Hn Hr].
  rewrite <- sub_spec in Hn, Hr. split; [exact Hn|]. split; [|exact Hr].
  apply valid_representable; [apply Prim2SF_valid | exact Hn].
Qed.

Lemma div_eight x :
  sf_nonneg (Prim2SF x) = true ->
  sf_nonneg (Prim2SF (x / number_of_nat 8)) = true /\
  scaled x / 8 <= scaled (x / number_of_nat 8) <= scaled x / 8 + 1 /\
  (scaled x mod 8 = 0 -> scaled (x / number_of_nat 8) = scaled x / 8).
Proof.
  intros Hx. unfold scaled. rewrite div_spec, Prim2SF_eight.
  apply SFdiv_eight; [apply Prim2SF_valid | exact Hx].
Qed.

Lemma scaled_limit : scaled 0x1p1023 = 2 ^ 2097.
Proof. vm_compute. reflexivity. Qed.

Lemma plausible_reading_spec x :
  plausible_reading x = true ->
  sf_nonneg (Prim2SF x) = true /\ representable (scaled x) /\ 0 <= scaled x < 2 ^ 2097.
Proof.
  unfold plausible_reading. intros H.
  apply andb_true_iff in H as [H Hlt]. apply andb_true_iff in H as [Hfin Hle].
  pose proof (nonneg_of_leb x Hfin Hle) as Hn.
  destruct (nonneg_facts x Hn) as (_ & H0 & Hr).
  rewrite ltb_scaled in Hlt by (exact Hfin || reflexivity).
  apply Z.ltb_lt in Hlt. rewrite scaled_limit in Hlt. auto.
Qed.

Section Clock.
Variable env : Env.
Variable r0 : nat.
Hypothesis Hclock : monotonic_clock env r0 16 = true.

Lemma reading_facts i :
  (i < 16)%nat ->
  sf_nonneg (Prim2SF (clock_reading env (r0 + i))) = true
  /\ representable (scaled (clock_reading env (r0 + i)))
  /\ 0 <= scaled (clock_reading env (r0 + i)) < 2 ^ 2097.
Proof.
  intros Hi. pose proof Hclock as H. unfold monotonic_clock in H.
  apply andb_true_iff in H as [H _]. rewrite forallb_forall in H.
  apply plausible_reading_spec, H, in_seq. lia.
Qed.

Lemma reading_le i :
  (S i < 16)%nat ->
  scaled (clock_reading env (r0 + i)) <= scaled (clock_reading env (r0 + S i)).
Proof.
  intros Hi. pose proof Hclock as H. unfold monotonic_clock in H.
  apply andb_true_iff in H as [_ H]. rewrite forallb_forall in H.
  specialize (H (r0 + i)%nat). rewrite in_seq in H. specialize (H ltac:(lia)).
  destruct (reading_facts i ltac:(lia)) as (Ha & _).
  destruct (reading_facts (S i) Hi) as (Hb & _).
  apply nonneg_facts in Ha as (Fa & _). apply nonneg_facts in Hb as (Fb & _).
  replace (S (r0 + i)) with (r0 + S i)%nat in H by lia.
  rewrite leb_scaled in H by assumption. apply Z.leb_le in H. exact H.
Qed.

Lemma duration_faithful k :
  (k < 8)%nat ->
  sf_nonneg (Prim2SF (attempt_duration env r0 k)) = true /\
  faithful (scaled (clock_reading env (r0 + (2 * k + 1)))
            - scaled (clock_reading env (r0 + 2 * k)))
           (scaled (attempt_duration env r0 k)).
Proof.
  intros Hk. unfold attempt_duration.
  destruct (reading_facts (2 * k) ltac:(lia)) as (Ha & _ & Ha0).
  destruct (reading_facts (2 * k + 1) ltac:(lia)) as (Hb & _ & Hb0).
  pose proof (reading_le (2 * k) ltac:(lia)) as Hle.
  replace (S (2 * k)) with (2 * k + 1)%nat in Hle by lia.
  replace (r0 + 2 * k + 1)%nat with (r0 + (2 * k + 1))%nat by lia.
  apply sub_faithful; [exact Hb | exact Ha | lia].
Qed.

Lemma add_up_faithful n : forall k acc D,
  (k + n <= 8)%nat ->
  sf_nonneg (Prim2SF acc) = true ->
  0 <= D ->
  ((0 < n)%nat -> round_down D <= scaled (clock_reading env (r0 + (2 * k)))) ->
  round_down D <= scaled acc <= round_up D ->
  sf_nonneg (Prim2SF (fold_left (fun acc value => (acc + value)%float)
                        (map (attempt_duration env r0) (seq k n)) acc)) = true /\
  round_down (D + fold_right Z.add 0 (map scaled (map (attempt_duration env r0) (seq k n))))
  <= scaled (fold_left (fun acc value => (acc + value)%float)
               (map (attempt_duration env r0) (seq k n)) acc)
  <= round_up (D + fold_right Z.add 0 (map scaled (map (attempt_duration env r0) (seq k n)))).
Proof.
  induction n as [|n IH]; intros k acc D Hk Hacc HD Hc Hs.
  - cbn. rewrite Z.add_0_r. auto.
  - cbn [seq map fold_left fold_right].
    destruct (duration_faithful k ltac:(lia)) as (Hd & Hfd).
    destruct (reading_facts (2 * k) ltac:(lia)) as (_ & Hra & Ha0).
    destruct (reading_facts (2 * k + 1) ltac:(lia)) as (_ & Hrb & Hb0).
    pose proof (reading_le (2 * k) ltac:(lia)) as Hle.
    replace (S (2 * k)) with (2 * k + 1)%nat in Hle by lia.
    destruct (nonneg_facts acc Hacc) as (_ & Hs0 & Hrs).
    destruct (sum_step (scaled (clock_reading env (r0 + (2 * k))))
                (scaled (clock_reading env (r0 + (2 * k + 1)))) D (scaled acc)
                (scaled (attempt_duration env r0 k))
                Hra Hrb ltac:(lia) HD (Hc ltac:(lia)) Hrs Hs Hfd)
      as (Hd0 & Hsum & Hnext & Htop).
    assert (Hlim : scaled (clock_reading env (r0 + (2 * k + 1)))
                   + grid (scaled (clock_reading env (r0 + (2 * k + 1)))) <= 2 ^ 2097).
    { apply representable_next; [apply pow2_representable; lia | exact Hrb | lia]. }
    destruct (add_faithful acc (attempt_duration env r0 k) Hacc Hd ltac:(lia)) as (Hn' & Hf').
    rewrite Z.add_assoc. apply IH.
    + lia.
    + exact Hn'.
    + lia.
    + intros Hpos. eapply Z.le_trans; [exact Hnext|].
      replace (2 * S k)%nat with (S (2 * k + 1)) by lia. apply reading_le. lia.
    + split.
      * eapply faithful_lower; [exact Hf' | apply round_down_representable; lia|].
        split; [apply round_down_nonneg; lia | lia].
      * eapply faithful_upper; [exact Hf' | apply round_up_representable; lia | lia].
Qed.

Lemma durations_nonneg x :
  In x (map (attempt_duration env r0) (seq 0 8)) -> sf_nonneg (Prim2SF x) = true.
Proof.
  intros Hx. apply in_map_iff in Hx as (k & <- & Hk). apply in_seq in Hk.
  apply duration_faithful. lia.
Qed.

Lemma durations_finite :
  forallb is_finite (map (attempt_duration env r0) (seq 0 8)) = true.
Proof.
  apply forallb_forall. intros x Hx. apply nonneg_facts, durations_nonneg, Hx.
Qed.

Lemma mean_within lo hi :
  In lo (map (attempt_duration env r0) (seq 0 8)) ->
  In hi (map (attempt_duration env r0) (seq 0 8)) ->
  Forall (fun x => (lo <=? x)%float = true) (map (attempt_duration env r0) (seq 0 8)) ->
  Forall (fun x => (x <=? hi)%float = true) (map (attempt_duration env r0) (seq 0 8)) ->
  (lo <=? arithmetic_mean (map (attempt_duration env r0) (seq 0 8)))%float = true /\
  (arithmetic_mean (map (attempt_duration env r0) (seq 0 8)) <=? hi)%float = true.
Proof.
  set (xs := map (attempt_duration env r0) (seq 0 8)).
  intros Hlo Hhi Hall_lo Hall_hi.
  destruct (nonneg_facts lo (durations_nonneg lo Hlo)) as (Flo & Hlo0 & Rlo).
  destruct (nonneg_facts hi (durations_nonneg hi Hhi)) as (Fhi & Hhi0 & Rhi).
  assert (Hl : Forall (fun x => scaled lo <= scaled x) xs).
  { rewrite Forall_forall in *. intros x Hx. apply Z.leb_le.
    rewrite <- leb_scaled; [apply Hall_lo, Hx | exact Flo |].
    apply nonneg_facts, durations_nonneg, Hx. }
  assert (Hh : Forall (fun x => scaled x <= scaled hi) xs).
  { rewrite Forall_forall in *. intros x Hx. apply Z.leb_le.
    rewrite <- leb_scaled; [apply Hall_hi, Hx | | exact Fhi].
    apply nonneg_facts, durations_nonneg, Hx. }
  apply scaled_sum_lower in Hl. apply scaled_sum_upper in Hh.
  assert (Hlen : List.length xs = 8%nat) by reflexivity.
  rewrite Hlen in Hl, Hh. change (Z.of_nat 8) with 8 in Hl, Hh.
  destruct (add_up_faithful 8 0 0%float 0 ltac:(lia) eq_refl ltac:(lia)) as (Hn & Hs).
  { intros _. change (round_down 0) with 0. apply (reading_facts 0). lia. }
  { change (round_down 0) with 0. change (round_up 0) with 0. change (scaled 0) with 0. lia. }
  fold xs in Hn, Hs. rewrite Z.add_0_l in Hs. fold (add_up xs) in Hn, Hs.
  set (D := fold_right Z.add 0 (map scaled xs)) in *.
  assert (Hlow : 8 * scaled lo <= scaled (add_up xs)).
  { eapply Z.le_trans; [|apply Hs].
    apply round_down_max; [apply representable_eightfold; assumption | lia]. }
  assert (Hhigh : scaled (add_up xs) <= 8 * scaled hi).
  { eapply Z.le_trans; [apply Hs|].
    apply round_up_min; [apply representable_eightfold; assumption | lia]. }
  destruct (div_eight (add_up xs) Hn) as (Hm & Hb & Hex).
  unfold arithmetic_mean. rewrite Hlen.
  destruct (nonneg_facts _ Hm) as (Fm & _ & _).
  rewrite !leb_scaled by assumption.
  pose proof (Z.div_mod (scaled (add_up xs)) 8 ltac:(lia)) as Hdm.
  pose proof (Z.mod_pos_bound (scaled (add_up xs)) 8 ltac:(lia)) as Hmb.
  split; apply Z.leb_le.
  - lia.
  - destruct (Z.eq_dec (scaled (add_up xs) mod 8) 0) as [E|E].
    + rewrite (Hex E). lia.
    + lia.
Qed.
End Clock.

Local Close Scope Z_scope.

(** *** The latency measurement *)

(** The readings of the scenario are those of a monotonic clock. *)
Example scenario_clock_is_monotonic : monotonic_clock scenario 0 26 = true.
Proof. vm_compute. reflexivity. Qed.

(** Claim C3.  A latency measurement that returns has made exactly 8
    requests, and its samples are the 8 durations in the order of the
    attempts; [average] is their arithmetic mean, computed in binary64 by
    adding from left to right, and [jitter] their mean absolute deviation
    from it.  When the samples are finite numbers, [min] and [max] are
    samples that bound all the samples, [min <= max] and [jitter >= 0].  On
    a monotonic clock, as [performance.now()] is one (the 16 readings of
    the measurement are finite, not negative, below [2 ^ 1023] and do not go
    down), the samples are finite numbers and [min <= average <= max]: the
    roundings of the eight subtractions, of the eight additions and of the
    division do not take the average out of the range of the samples. *)
Theorem C3_latency_metrics (env : Env) (signal : option AbortSignal) (w w' : World)
    (m : LatencyMetrics) :
  measureLatency env signal w = (w', inr m) ->
  (wire w' = (wire w + 8)%nat /\
   exists evs, trace w' = trace w ++ evs /\
               fetches evs = repeat (latency_request signal, true) 8) /\
  (samples m = map (attempt_duration env (readings w)) (seq 0 8) /\
   List.length (samples m) = 8%nat) /\
  average m = arithmetic_mean (samples m) /\
  jitter m = mean_absolute_deviation (samples m) /\
  (forallb is_finite (samples m) = true ->
   (In (min m) (samples m) /\ Forall (fun s => (min m <=? s)%float = true) (samples m)) /\
   (In (max m) (samples m) /\ Forall (fun s => (s <=? max m)%float = true) (samples m)) /\
   (min m <=? max m)%float = true /\
   (0 <=? jitter m)%float = true) /\
  (monotonic_clock env (readings w) 16 = true ->
   forallb is_finite (samples m) = true /\
   (min m <=? average m)%float = true /\ (average m <=? max m)%float = true).
Proof.
  intros Hrun.
  apply measureLatency_inr in Hrun as (-> & Hwire & Hevs).
  set (xs := map (attempt_duration env (readings w)) (seq 0 LATENCY_ATTEMPTS)) in *.
  assert (Hlen : List.length xs = 8%nat) by (subst xs; rewrite length_map, length_seq; reflexivity).
  assert (Hne : xs <> []) by (intros E; rewrite E in Hlen; discriminate).
  assert (Hextrema : forallb is_finite xs = true ->
            (In (Math_min xs) xs /\ Forall (fun s => (Math_min xs <=? s)%float = true) xs) /\
            (In (Math_max xs) xs /\ Forall (fun s => (s <=? Math_max xs)%float = true) xs)).
  { intros Hfin. pose proof (all_finite_no_nan xs Hfin) as Hnan.
    split; [apply Math_min_spec | apply Math_max_spec]; assumption. }
  split; [split; assumption|].
  split; [split; [reflexivity | exact Hlen]|].
  split; [reflexivity|].
  split; [apply jitter_is_mad|].
  cbn [samples min max average latency_metrics].
  split.
  - intros Hfin. destruct (Hextrema Hfin) as [[Hmin_in Hmin_all] [Hmax_in Hmax_all]].
    split; [split; assumption|]. split; [split; assumption|].
    split; [|apply jitter_nonneg; assumption].
    rewrite Forall_forall in Hmin_all, Hmax_all.
    eapply leb_trans; [apply Hmin_all, Hmin_in | apply Hmax_all, Hmin_in].
  - intros Hclock.
    pose proof (durations_finite env (readings w) Hclock) as Hfin.
    destruct (Hextrema Hfin) as [[Hmin_in Hmin_all] [Hmax_in Hmax_all]].
    split; [exact Hfin|].
    apply (mean_within env (readings w) Hclock); assumption.
Qed.

Lemma C3_latency_metrics_witness :
  exists w' m,
    measureLatency scenario None initial_world = (w', inr m) /\
    forallb is_finite (samples m) = true /\
    monotonic_clock scenario (readings initial_world) 16 = true /\
    (wire w' = (wire initial_world + 8)%nat /\
     exists evs, trace w' = trace initial_world ++ evs /\
                 fetches evs = repeat (latency_request None, true) 8) /\
    (samples m = map (attempt_duration scenario (readings initial_world)) (seq 0 8) /\
     List.length (samples m) = 8%nat) /\
    average m = arithmetic_mean (samples m) /\
    jitter m = mean_absolute_deviation (samples m) /\
    (forallb is_finite (samples m) = true ->
     (In (min m) (samples m) /\ Forall (fun s => (min m <=? s)%float = true) (samples m)) /\
     (In (max m) (samples m) /\ Forall (fun s => (s <=? max m)%float = true) (samples m)) /\
     (min m <=? max m)%float = true /\
     (0 <=? jitter m)%float = true) /\
    (monotonic_clock scenario (readings initial_world) 16 = true ->
     forallb is_finite (samples m) = true /\
     (min m <=? average m)%float = true /\ (average m <=? max m)%float = true).
Proof.
  eexists. eexists. split; [vm_compute; reflexivity|].
  split; [vm_compute; reflexivity|].
  split; [vm_compute; reflexivity|].
  apply (C3_latency_metrics scenario None initial_world); vm_compute; reflexivity.
Defined.

(** A clock that reads 0.3, 0.4, 0.4, 0.6, ... ms, the binary64 numbers
    nearest to these: the attempts take about 0.1 ms or 0.2 ms, the sum of
    the samples is a rounded one, and the average stays between the
    extrema. *)
Example rounded_average :
  let clock :=
    [0x1.3333333333333p-2; 0x1.999999999999ap-2; 0x1.999999999999ap-2; 0x1.3333333333333p-1;
     0x1.6666666666666p-1; 0x1.999999999999ap-1; 0x1.999999999999ap-1; 0x1.ccccccccccccdp-1;
     0x1.199999999999ap0; 0x1.3333333333333p0; 0x1.4cccccccccccdp0; 1.5;
     1.5; 0x1.999999999999ap0; 0x1.b333333333333p0; 0x1.ccccccccccccdp0]%float in
  let env := {| network := fun _ => answered;
                clock_reading := fun n => nth n clock 0%float;
                abort_while_sleeping := fun _ => false;
                random_values_quota := fun _ => true;
                date_now := 1700000000000%float;
                removeConsole := false |} in
  exists w' m,
    measureLatency env None initial_world = (w', inr m) /\
    monotonic_clock env 0 16 = true /\
    (min m <=? average m)%float = true /\ (average m <=? max m)%float = true.
Proof.
  eexists. eexists. split; [vm_compute; reflexivity|].
  repeat split.
Qed.

(** ** The metadata lookup *)

Lemma caller_may_abort_trace fires w :
  exists evs, trace (caller_may_abort fires w) = trace w ++ evs /\
              fetches evs = [] /\ filter is_warning evs = [].
Proof.
  unfold caller_may_abort. destruct (fires && negb (aborted w)).
  - exists [Cancel]. repeat split.
  - exists []. rewrite app_nil_r. repeat split.
Qed.

Lemma fetch_unguarded env req w :
  req_signal req = None ->
  exists w1 evs,
    fetch env req w
    = (w1, match reply (network env (wire w)) with
           | Some r => inr {| from := r; cancellable := false |}
           | None => inl NetworkError
           end) /\
    trace w1 = trace w ++ evs /\
    fetches evs = [(req, true)] /\ filter is_warning evs = [] /\
    wire w1 = Datatypes.S (wire w) /\ readings w1 = readings w /\ sleeps w1 = sleeps w.
Proof.
  intros Hreq. unfold fetch. rewrite Hreq. cbn [andb]. cbv zeta.
  set (o := network env (wire w)).
  set (w2 := {| trace := trace (record (Fetch req true) w);
                wire := Datatypes.S (wire (record (Fetch req true) w));
                readings := readings (record (Fetch req true) w);
                sleeps := sleeps (record (Fetch req true) w);
                aborted := aborted (record (Fetch req true) w) |}).
  destruct (caller_may_abort_trace (abort_in_flight o) w2) as (evs & Ht & Hf & Hw).
  destruct (caller_may_abort_counters (abort_in_flight o) w2) as (Hwire & Hread & Hsleep).
  exists (caller_may_abort (abort_in_flight o) w2), (Fetch req true :: evs).
  split; [destruct (reply o); reflexivity|].
  rewrite Ht, Hwire, Hread, Hsleep.
  change (fetches (Fetch req true :: evs)) with ((req, true) :: fetches evs).
  change (filter is_warning (Fetch req true :: evs)) with (filter is_warning evs).
  rewrite Hf, Hw. repeat split. cbn [trace w2 record]. rewrite <- app_assoc. reflexivity.
Qed.

Lemma drain_uncancellable response w :
  cancellable response = false ->
  exists w1 evs,
    drain response w
    = (w1, if body_arrives (from response) then inr tt else inl NetworkError) /\
    trace w1 = trace w ++ evs /\
    fetches evs = [] /\ filter is_warning evs = [] /\
    wire w1 = wire w /\ readings w1 = readings w /\ sleeps w1 = sleeps w.
Proof.
  intros Hc. unfold drain. rewrite Hc. cbn [andb]. cbv zeta.
  destruct (caller_may_abort_trace (abort_mid_body (from response)) w) as (evs & Ht & Hf & Hw).
  destruct (caller_may_abort_counters (abort_mid_body (from response)) w)
    as (Hwire & Hread & Hsleep).
  exists (caller_may_abort (abort_mid_body (from response)) w), evs.
  split; [destruct (body_arrives (from response)); reflexivity|].
  repeat split; assumption.
Qed.

Lemma console_warn_logs env message error w :
  exists evs,
    console_warn env message error w
    = ({| trace := trace w ++ evs; wire := wire w; readings := readings w;
          sleeps := sleeps w; aborted := aborted w |}, inr tt) /\
    fetches evs = [] /\
    filter is_warning evs = if removeConsole env then [] else [Warn message error].
Proof.
  unfold console_warn. destruct (removeConsole env).
  - exists []. rewrite app_nil_r. destruct w. repeat split.
  - exists [Warn message error]. repeat split.
Qed.

(** What the [catch] block of the lookup does with the error that it is
    given. *)
Lemma lookup_handler env error w :
  exists w' evs,
    (console_warn env "Unable to fetch ISP metadata" error ;;; ret JsUndefined) w
    = (w', inr JsUndefined) /\
    trace w' = trace w ++ evs /\
    fetches evs = [] /\
    filter is_warning evs
    = (if removeConsole env then [] else [Warn "Unable to fetch ISP metadata" error]) /\
    wire w' = wire w /\ readings w' = readings w /\ sleeps w' = sleeps w.
Proof.
  destruct (console_warn_logs env "Unable to fetch ISP metadata" error w)
    as (evs & Hwarn & Hf & Hw).
  eexists. exists evs. unfold bind. rewrite Hwarn. unfold ret.
  split; [reflexivity|]. repeat split; assumption.
Qed.

(** The production build logs nothing: on a network that cannot be reached
    the lookup of the production build returns [undefined] and leaves no
    warning. *)
Lemma C8_production_logs_nothing : ~ lookup_failure_is_logged.
Proof.
  intros H. destruct (H production_offline initial_world eq_refl) as (evs & Ht & Hw).
  vm_compute in Ht. subst evs. destruct Hw as (message & error & [Hin|[]]).
  discriminate Hin.
Qed.

(** Claim C8, amended.  [getIspInformation] never throws.  When the lookup
    fails (network failure, status that is not a success, body that does
    not arrive or is not JSON) the error is caught and the result is
    [undefined]; the failure is logged with one warning in a build that
    keeps the calls of [console.*], and not in the production build, which
    has them removed.  Otherwise nothing is logged and the result is read
    from the body.  The lookup issues one request, without the signal, and
    takes no clock reading and no sleep. *)
Theorem C8_getIspInformation (env : Env) (w : World) :
  exists w' value evs,
    getIspInformation env w = (w', inr value) /\
    trace w' = trace w ++ evs /\
    fetches evs = [(meta_request, true)] /\
    wire w' = Datatypes.S (wire w) /\ readings w' = readings w /\ sleeps w' = sleeps w /\
    if lookup_fails (network env (wire w))
    then value = JsUndefined /\
         exists error,
           filter is_warning evs
           = if removeConsole env then []
             else [Warn "Unable to fetch ISP metadata" error]
    else filter is_warning evs = [] /\
         exists r data,
           reply (network env (wire w)) = Some r /\ json_body r = Some data /\
           value = isp_of data.
Proof.
  destruct (fetch_unguarded env meta_request w eq_refl)
    as (w1 & evs1 & Hfetch & Ht1 & Hf1 & Hw1 & Hwire1 & Hread1 & Hsleep1).
  assert (Hcatch : forall error w2 evs2,
             trace w2 = trace w ++ evs2 ->
             fetches evs2 = [(meta_request, true)] -> filter is_warning evs2 = [] ->
             wire w2 = Datatypes.S (wire w) -> readings w2 = readings w ->
             sleeps w2 = sleeps w ->
             exists w' evs,
               (console_warn env "Unable to fetch ISP metadata" error ;;; ret JsUndefined) w2
               = (w', inr JsUndefined) /\
               trace w' = trace w ++ evs /\
               fetches evs = [(meta_request, true)] /\
               wire w' = Datatypes.S (wire w) /\ readings w' = readings w /\
               sleeps w' = sleeps w /\
               filter is_warning evs
               = if removeConsole env then []
                 else [Warn "Unable to fetch ISP metadata" error]).
  { intros error w2 evs2 Ht2 Hf2 Hw2 Hwire2 Hread2 Hsleep2.
    destruct (lookup_handler env error w2) as (w' & evs & Hrun & Ht & Hf & Hw & Hwire & Hread & Hsleep).
    exists w', (evs2 ++ evs). split; [exact Hrun|].
    rewrite Ht, Ht2, <- app_assoc, fetches_app, Hf2, Hf, filter_app, Hw2, Hw.
    repeat split; congruence. }
  unfold getIspInformation, try_catch, bind at 1. rewrite Hfetch.
  unfold lookup_fails. destruct (reply (network env (wire w))) as [r|] eqn:Hreply.
  - unfold ok. cbn [from].
    destruct ((200 <=? status r)%Z && (status r <=? 299)%Z); cbn [negb orb].
    + destruct (drain_uncancellable {| from := r; cancellable := false |} w1 eq_refl)
        as (w2 & evs2 & Hdrain & Ht2 & Hf2 & Hw2 & Hwire2 & Hread2 & Hsleep2).
      assert (Ht12 : trace w2 = trace w ++ evs1 ++ evs2)
        by (rewrite Ht2, Ht1, app_assoc; reflexivity).
      assert (Hf12 : fetches (evs1 ++ evs2) = [(meta_request, true)])
        by (rewrite fetches_app, Hf1, Hf2; reflexivity).
      assert (Hw12 : filter is_warning (evs1 ++ evs2) = [])
        by (rewrite filter_app, Hw1, Hw2; reflexivity).
      unfold json, bind at 1. unfold bind at 1. rewrite Hdrain. cbn [from].
      destruct (body_arrives r); cbn [negb orb].
      * destruct (json_body r) as [data|] eqn:Hjson.
        -- exists w2, (isp_of data), (evs1 ++ evs2). unfold ret.
           repeat split; try congruence. exists r, data. repeat split; assumption.
        -- unfold throw.
           destruct (Hcatch JsonSyntaxError w2 (evs1 ++ evs2))
             as (w' & evs & Hrun & Ht & Hf & Hwire & Hread & Hsleep & Hw); try congruence.
           exists w', JsUndefined, evs. repeat split; try assumption.
           eexists. exact Hw.
      * destruct (Hcatch NetworkError w2 (evs1 ++ evs2))
          as (w' & evs & Hrun & Ht & Hf & Hwire & Hread & Hsleep & Hw); try congruence.
        exists w', JsUndefined, evs. repeat split; try assumption.
        eexists. exact Hw.
    + unfold throw.
      destruct (Hcatch (StatusError "Failed metadata request: " (status r)) w1 evs1)
        as (w' & evs & Hrun & Ht & Hf & Hwire & Hread & Hsleep & Hw); try congruence.
      exists w', JsUndefined, evs. repeat split; try assumption.
      eexists. exact Hw.
  - destruct (Hcatch NetworkError w1 evs1)
      as (w' & evs & Hrun & Ht & Hf & Hwire & Hread & Hsleep & Hw); try congruence.
    exists w', JsUndefined, evs. repeat split; try assumption.
    eexists. exact Hw.
Qed.

(** ** Cancellation *)



Lemma cancelled_trace_app_l evs1 evs2 :
  ~ In Cancel evs1 -> cancelled_trace evs2 -> cancelled_trace (evs1 ++ evs2).
Proof.
  intros H1 (pre & post & -> & Hpre & Hpost).
  exists (evs1 ++ pre), post. rewrite <- app_assoc. repeat split; [|exact Hpost].
  intros Hin. apply in_app_or in Hin as [Hin|Hin]; auto.
Qed.

Lemma cancelled_trace_app_r evs1 evs2 :
  cancelled_trace evs1 -> Forall after_cancellation evs2 -> cancelled_trace (evs1 ++ evs2).
Proof.
  intros (pre & post & -> & Hpre & Hpost) H2.
  exists pre, (post ++ evs2). rewrite <- app_assoc. repeat split; [exact Hpre|].
  apply Forall_app. split; assumption.
Qed.

Section CancellationRules.
Context {E : Type}.
Variable err : E -> Prop.

Lemma refusing_bind {A B} (Q : A -> Prop) (Q' : B -> Prop)
    (c : M World E A) (k : A -> M World E B) :
  refusing err Q c -> (forall a, Q a -> refusing err Q' (k a)) ->
  refusing err Q' (bind c k).
Proof.
  intros Hc Hk w Hw. unfold bind.
  destruct (Hc w Hw) as (evs1 & Ht1 & Hf1 & Ha1 & Hout1).
  destruct (c w) as [w1 [e|a]]; simpl in *.
  - exists evs1. repeat split; assumption.
  - destruct (Hk a Hout1 w1 Ha1) as (evs2 & Ht2 & Hf2 & Ha2 & Hout2).
    exists (evs1 ++ evs2). rewrite Ht2, Ht1, app_assoc.
    repeat split; try assumption. apply Forall_app. split; assumption.
Qed.

Lemma cancelling_bind {A B} (Q : A -> Prop) (Q' : B -> Prop)
    (c : M World E A) (k : A -> M World E B) :
  cancelling err Q c -> (forall a, Q a -> cancelling err Q' (k a)) ->
  cancelling err Q' (bind c k).
Proof.
  intros Hc Hk w Hw. unfold bind.
  destruct (Hc w Hw) as (evs1 & Ht1 & Hcase1).
  destruct (c w) as [w1 [e|a]]; simpl in *.
  - exists evs1. split; [exact Ht1|].
    destruct Hcase1 as [(Ha & Hn & _)|(Ha & Hc1 & He)]; [left | right]; repeat split; assumption.
  - destruct Hcase1 as [(Ha & Hn & Hq)|(_ & _ & [])].
    destruct (Hk a Hq w1 Ha) as (evs2 & Ht2 & Hcase2).
    exists (evs1 ++ evs2). rewrite Ht2, Ht1, app_assoc. split; [reflexivity|].
    destruct Hcase2 as [(Ha2 & Hn2 & Hq2)|(Ha2 & Hc2 & He2)]; [left | right];
      repeat split; try assumption.
    + intros Hin. apply in_app_or in Hin as [Hin|Hin]; auto.
    + apply cancelled_trace_app_l; assumption.
Qed.

Lemma cancelling_ret {A} (Q : A -> Prop) (a : A) : Q a -> cancelling err Q (ret a).
Proof.
  intros Hq w Hw. exists []. simpl. rewrite app_nil_r. split; [reflexivity|].
  left. repeat split; auto.
Qed.

Lemma cancelling_throw {A} (Q : A -> Prop) (e : E) : cancelling err Q (throw e).
Proof.
  intros w Hw. exists []. simpl. rewrite app_nil_r. split; [reflexivity|].
  left. repeat split; auto.
Qed.
End CancellationRules.

Section CancellationOfProbes.
Variable env : Env.

Lemma refusing_performance_now :
  refusing cancelled_error (fun _ => True) (performance_now env).
Proof.
  intros w Hw. exists []. simpl. rewrite app_nil_r. repeat split; [constructor | exact Hw].
Qed.

Lemma cancelling_performance_now :
  cancelling cancelled_error (fun _ => True) (performance_now env).
Proof.
  intros w Hw. exists []. simpl. rewrite app_nil_r. split; [reflexivity|].
  left. repeat split; auto.
Qed.

Lemma refusing_crypto sizeBytes :
  refusing cancelled_error (fun _ => True) (crypto_getRandomValues env sizeBytes).
Proof.
  intros w Hw. exists []. unfold crypto_getRandomValues.
  destruct (random_values_quota env sizeBytes); simpl; rewrite app_nil_r.
  - repeat split; [constructor | exact Hw].
  - repeat split; [constructor | exact Hw | right; reflexivity].
Qed.

Lemma cancelling_crypto sizeBytes :
  cancelling cancelled_error (fun _ => True) (crypto_getRandomValues env sizeBytes).
Proof.
  unfold crypto_getRandomValues. destruct (random_values_quota env sizeBytes);
    [apply cancelling_ret; exact I | apply cancelling_throw].
Qed.

Lemma refusing_fetch req s :
  req_signal req = Some s ->
  refusing cancelled_error (fun _ => False) (fetch env req).
Proof.
  intros Hreq w Hw. unfold fetch. rewrite Hreq, Hw. cbn [andb fst snd].
  exists [Fetch req false]. repeat split; [repeat constructor | exact Hw | left; reflexivity].
Qed.

Lemma cancelling_fetch req s :
  req_signal req = Some s ->
  cancelling cancelled_error (fun response => cancellable response = true) (fetch env req).
Proof.
  intros Hreq w Hw. unfold fetch. rewrite Hreq, Hw. cbn [andb]. cbv zeta.
  unfold caller_may_abort. cbn [aborted record]. rewrite Hw. cbn [negb]. rewrite andb_true_r.
  destruct (abort_in_flight (network env (wire w))); cbn [aborted fst snd trace record].
  - exists ([Fetch req true] ++ Cancel :: []). rewrite <- app_assoc. split; [reflexivity|].
    right. repeat split; [|left; reflexivity].
    exists [Fetch req true], []. repeat split; [|constructor].
    intros [H|[]]. discriminate H.
  - exists [Fetch req true]. rewrite ?Hw.
    destruct (reply (network env (wire w))); cbn [fst snd trace];
      (split; [reflexivity|]); left; repeat split; auto;
      intros [H|[]]; discriminate H.
Qed.

Lemma cancelling_drain response :
  cancellable response = true ->
  cancelling cancelled_error (fun _ => True) (drain response).
Proof.
  intros Hc w Hw. unfold drain. rewrite Hc. cbn [andb]. cbv zeta.
  unfold caller_may_abort. rewrite Hw. cbn [negb]. rewrite andb_true_r.
  destruct (abort_mid_body (from response)); cbn [aborted fst snd trace].
  - exists ([] ++ Cancel :: []). split; [reflexivity|].
    right. repeat split; [|left; reflexivity].
    exists [], []. repeat split; [intros [] | constructor].
  - exists []. rewrite ?Hw, app_nil_r.
    destruct (body_arrives (from response)); cbn [fst snd];
      (split; [reflexivity|]); left; repeat split; auto.
Qed.

(** The three probes have the same shape after their first statements:
    the request, the check of the status, the body, the second reading. *)
Lemma refusing_request {A} req s (k : Response -> M World JsError A) :
  req_signal req = Some s ->
  refusing cancelled_error (fun _ => False) (bind (fetch env req) k).
Proof.
  intros Hreq. eapply refusing_bind; [eapply refusing_fetch, Hreq | intros a []].
Qed.

Lemma cancelling_request {A} req s message (k : float -> M World JsError A) :
  req_signal req = Some s ->
  (forall stop, cancelling cancelled_error (fun _ => True) (k stop)) ->
  cancelling cancelled_error (fun _ => True)
    (bind (fetch env req)
       (fun response =>
          if negb (ok response)
          then throw (StatusError message (status (from response)))
          else bind (arrayBuffer response)
                 (fun _ => bind (performance_now env) k))).
Proof.
  intros Hreq Hk.
  eapply cancelling_bind; [eapply cancelling_fetch, Hreq | intros response Hc].
  destruct (negb (ok response)); [apply cancelling_throw|].
  eapply cancelling_bind; [apply cancelling_drain, Hc | intros _ _].
  eapply cancelling_bind; [apply cancelling_performance_now | intros stop _; apply Hk].
Qed.

Lemma refusing_latency_attempt s :
  refusing cancelled_error (fun _ => False) (latency_attempt env (Some s)).
Proof.
  unfold latency_attempt.
  eapply refusing_bind; [apply refusing_performance_now | intros start _].
  eapply refusing_request. reflexivity.
Qed.

Lemma cancelling_latency_attempt s :
  cancelling cancelled_error (fun _ => True) (latency_attempt env (Some s)).
Proof.
  unfold latency_attempt.
  eapply cancelling_bind; [apply cancelling_performance_now | intros start _].
  eapply cancelling_request; [reflexivity | intros stop; apply cancelling_ret; exact I].
Qed.

Lemma refusing_measureLatency s :
  refusing cancelled_error (fun _ => False) (measureLatency env (Some s)).
Proof.
  unfold measureLatency, LATENCY_ATTEMPTS. cbn [latency_loop].
  eapply (refusing_bind _ (fun _ => False)); [|intros a []].
  eapply refusing_bind; [apply refusing_latency_attempt | intros a []].
Qed.

Lemma cancelling_latency_loop s todo :
  forall samples,
    cancelling cancelled_error (fun _ => True) (latency_loop env todo (Some s) samples).
Proof.
  induction todo as [|todo IH]; intros samples; simpl.
  - apply cancelling_ret. exact I.
  - eapply cancelling_bind; [apply cancelling_latency_attempt | intros d _; apply IH].
Qed.

Lemma cancelling_measureLatency s :
  cancelling cancelled_error (fun _ => True) (measureLatency env (Some s)).
Proof.
  unfold measureLatency.
  eapply cancelling_bind; [apply cancelling_latency_loop | intros l _].
  apply cancelling_ret. exact I.
Qed.

Lemma refusing_measureDownloadForSize size s :
  refusing cancelled_error (fun _ => False) (measureDownloadForSize env size (Some s)).
Proof.
  unfold measureDownloadForSize.
  eapply refusing_bind; [apply refusing_performance_now | intros start _].
  eapply refusing_request. reflexivity.
Qed.

Lemma cancelling_measureDownloadForSize size s :
  cancelling cancelled_error (fun _ => True) (measureDownloadForSize env size (Some s)).
Proof.
  unfold measureDownloadForSize.
  eapply cancelling_bind; [apply cancelling_performance_now | intros start _].
  eapply cancelling_request; [reflexivity | intros stop; apply cancelling_ret; exact I].
Qed.

Lemma refusing_measureUploadForSize size s :
  refusing cancelled_error (fun _ => False) (measureUploadForSize env size (Some s)).
Proof.
  unfold measureUploadForSize.
  eapply refusing_bind; [apply refusing_crypto | intros _ _].
  eapply refusing_bind; [apply refusing_performance_now | intros start _].
  eapply refusing_request. reflexivity.
Qed.

Lemma cancelling_measureUploadForSize size s :
  cancelling cancelled_error (fun _ => True) (measureUploadForSize env size (Some s)).
Proof.
  unfold measureUploadForSize.
  eapply cancelling_bind; [apply cancelling_crypto | intros _ _].
  eapply cancelling_bind; [apply cancelling_performance_now | intros start _].
  eapply cancelling_request; [reflexivity | intros stop; apply cancelling_ret; exact I].
Qed.
End CancellationOfProbes.

Section CancellationOfRetries.
Variable env : Env.
Context {A : Type}.
Variable fn : M World JsError A.
Hypothesis fn_refusing : refusing cancelled_error (fun _ => False) fn.

Lemma sleep_after_cancellation ms w :
  aborted w = true ->
  trace (setTimeout_sleep env ms w) = trace w ++ [Sleep ms] /\
  aborted (setTimeout_sleep env ms w) = true.
Proof.
  intros Hw. unfold setTimeout_sleep, caller_may_abort. cbn [aborted].
  rewrite Hw. cbn [negb]. rewrite andb_false_r. split; reflexivity.
Qed.

Lemma sleep_before_cancellation ms w :
  aborted w = false ->
  (trace (setTimeout_sleep env ms w) = trace w ++ [Sleep ms] /\
   aborted (setTimeout_sleep env ms w) = false) \/
  (trace (setTimeout_sleep env ms w) = trace w ++ [Sleep ms; Cancel] /\
   aborted (setTimeout_sleep env ms w) = true).
Proof.
  intros Hw. unfold setTimeout_sleep, caller_may_abort. cbn [aborted].
  rewrite Hw. cbn [negb]. rewrite andb_true_r.
  destruct (abort_while_sleeping env (sleeps w)); cbn [trace aborted].
  - right. rewrite <- app_assoc. split; reflexivity.
  - left. split; reflexivity.
Qed.

(** Once the signal has fired, the wrapper goes on: it sleeps and invokes
    the probe for every attempt that is left, and throws what the last
    one throws. *)
Lemma withRetry_loop_refusing n :
  forall r a lastError,
    (Z.to_nat (r + 1 - a) <= n)%nat ->
    (a <= r)%Z \/ caught_cancelled_error lastError ->
    refusing caught_cancelled_error (fun _ => False)
      (withRetry_loop (setTimeout_sleep env) fn n r a lastError).
Proof.
  induction n as [|n IH]; intros r a lastError Hn Hlast w Hw;
    rewrite withRetry_loop_eq by assumption.
  - destruct (Z.leb_spec a r) as [Har|Har]; [lia|].
    destruct Hlast as [Hlast|Hlast]; [lia|].
    exists []. simpl. rewrite app_nil_r. repeat split; [constructor | exact Hw | exact Hlast].
  - destruct (Z.leb_spec a r) as [Har|Har].
    + destruct (fn_refusing w Hw) as (evs1 & Ht1 & Hf1 & Ha1 & Hout1).
      destruct (fn w) as [w1 [e|v]]; simpl in Ht1, Ha1, Hout1; [|contradiction].
      destruct (Z.eqb_spec a r) as [Heq|Hne].
      * exists evs1. simpl. repeat split; try assumption. exists e. split; [reflexivity|assumption].
      * destruct (sleep_after_cancellation (300 * (a + 1)) w1 Ha1) as [Hts Has].
        simpl Nat.pred.
        destruct (IH r (a + 1)%Z (caught e) ltac:(lia) ltac:(left; lia)
                    (setTimeout_sleep env (300 * (a + 1)) w1) Has)
          as (evs2 & Ht2 & Hf2 & Ha2 & Hout2).
        exists (evs1 ++ [Sleep (300 * (a + 1))] ++ evs2).
        rewrite Ht2, Hts, Ht1, <- !app_assoc. repeat split; try assumption.
        apply Forall_app. split; [exact Hf1|]. constructor; [exact I | exact Hf2].
    + destruct Hlast as [Hlast|Hlast]; [lia|].
      exists []. simpl. rewrite app_nil_r. repeat split; [constructor | exact Hw | exact Hlast].
Qed.

Hypothesis fn_cancelling : cancelling cancelled_error (fun _ => True) fn.

Lemma withRetry_loop_cancelling n :
  forall r a lastError,
    (Z.to_nat (r + 1 - a) <= n)%nat ->
    cancelling caught_cancelled_error (fun _ => True)
      (withRetry_loop (setTimeout_sleep env) fn n r a lastError).
Proof.
  induction n as [|n IH]; intros r a lastError Hn w Hw;
    rewrite withRetry_loop_eq by assumption.
  - destruct (Z.leb_spec a r) as [Har|Har]; [lia|].
    exists []. simpl. rewrite app_nil_r. split; [reflexivity|]. left. repeat split; auto.
  - destruct (Z.leb_spec a r) as [Har|Har].
    2:{ exists []. simpl. rewrite app_nil_r. split; [reflexivity|]. left. repeat split; auto. }
    destruct (fn_cancelling w Hw) as (evs1 & Ht1 & Hcase).
    destruct (fn w) as [w1 [e|v]]; simpl in Ht1, Hcase.
    2:{ exists evs1. simpl. split; [exact Ht1|].
        destruct Hcase as [(Ha & Hn1 & _)|(_ & _ & [])]. left. repeat split; auto. }
    destruct (Z.eqb_spec a r) as [Heq|Hne].
    { exists evs1. simpl. split; [exact Ht1|].
      destruct Hcase as [(Ha & Hn1 & _)|(Ha & Hc & He)]; [left | right]; repeat split; auto.
      exists e. split; [reflexivity | exact He]. }
    simpl Nat.pred.
    destruct Hcase as [(Ha1 & Hn1 & _)|(Ha1 & Hc1 & He1)].
    + destruct (sleep_before_cancellation (300 * (a + 1)) w1 Ha1) as [[Hts Has]|[Hts Has]].
      * destruct (IH r (a + 1)%Z (caught e) ltac:(lia)
                    (setTimeout_sleep env (300 * (a + 1)) w1) Has)
          as (evs2 & Ht2 & Hcase2).
        exists (evs1 ++ [Sleep (300 * (a + 1))] ++ evs2).
        rewrite Ht2, Hts, Ht1, <- !app_assoc. split; [reflexivity|].
        assert (Hpre : ~ In Cancel (evs1 ++ [Sleep (300 * (a + 1))])).
        { intros Hin. apply in_app_or in Hin as [Hin|[Hin|[]]]; [auto | discriminate Hin]. }
        rewrite app_assoc.
        destruct Hcase2 as [(Ha2 & Hn2 & Hq2)|(Ha2 & Hc2 & He2)]; [left | right];
          repeat split; try assumption.
        -- intros Hin. apply in_app_or in Hin as [Hin|Hin]; auto.
        -- apply cancelled_trace_app_l; assumption.
      * destruct (withRetry_loop_refusing n r (a + 1)%Z (caught e) ltac:(lia)
                    ltac:(left; lia) (setTimeout_sleep env (300 * (a + 1)) w1) Has)
          as (evs2 & Ht2 & Hf2 & Ha2 & Hout2).
        exists (evs1 ++ [Sleep (300 * (a + 1)); Cancel] ++ evs2).
        rewrite Ht2, Hts, Ht1, <- !app_assoc. split; [reflexivity|].
        right. repeat split; try assumption.
        exists (evs1 ++ [Sleep (300 * (a + 1))]), evs2.
        rewrite <- app_assoc. repeat split; [|exact Hf2].
        intros Hin. apply in_app_or in Hin as [Hin|[Hin|[]]]; [auto | discriminate Hin].
    + destruct (sleep_after_cancellation (300 * (a + 1)) w1 Ha1) as [Hts Has].
      destruct (withRetry_loop_refusing n r (a + 1)%Z (caught e) ltac:(lia)
                  ltac:(left; lia) (setTimeout_sleep env (300 * (a + 1)) w1) Has)
        as (evs2 & Ht2 & Hf2 & Ha2 & Hout2).
      exists (evs1 ++ [Sleep (300 * (a + 1))] ++ evs2).
      rewrite Ht2, Hts, Ht1, <- !app_assoc. split; [reflexivity|].
      right. repeat split; try assumption.
      apply cancelled_trace_app_r; [exact Hc1|]. constructor; [exact I | exact Hf2].
Qed.

Lemma withRetry_cancelling r :
  cancelling caught_cancelled_error (fun _ => True)
    (withRetry (setTimeout_sleep env) fn r).
Proof. apply withRetry_loop_cancelling. lia. Qed.
End CancellationOfRetries.

Section CancellationOfRuns.
Variable env : Env.
Variable s : AbortSignal.

Lemma cancelling_progress onProgress value phase :
  cancelling caught_cancelled_error (fun _ => True) (progress onProgress value phase).
Proof.
  unfold progress. destruct onProgress; [|apply cancelling_ret; exact I].
  intros w Hw. exists [Progress (clamp value) phase]. split; [reflexivity|].
  left. repeat split; [exact Hw|]. intros [H|[]]. discriminate H.
Qed.

Lemma cancelling_download_loop onProgress r todo :
  forall i downloadSamples,
    cancelling caught_cancelled_error (fun _ => True)
      (download_loop env onProgress (Some s) r todo i downloadSamples).
Proof.
  induction todo as [|size todo IH]; intros i downloadSamples; simpl.
  - apply cancelling_ret. exact I.
  - eapply cancelling_bind.
    + apply withRetry_cancelling;
        [apply refusing_measureDownloadForSize | apply cancelling_measureDownloadForSize].
    + intros sample _.
      eapply cancelling_bind; [apply cancelling_progress | intros _ _; apply IH].
Qed.

Lemma cancelling_upload_loop onProgress r todo :
  forall i uploadSamples,
    cancelling caught_cancelled_error (fun _ => True)
      (upload_loop env onProgress (Some s) r todo i uploadSamples).
Proof.
  induction todo as [|size todo IH]; intros i uploadSamples; simpl.
  - apply cancelling_ret. exact I.
  - eapply cancelling_bind.
    + apply withRetry_cancelling;
        [apply refusing_measureUploadForSize | apply cancelling_measureUploadForSize].
    + intros sample _.
      eapply cancelling_bind; [apply cancelling_progress | intros _ _; apply IH].
Qed.

Lemma cancelling_runSpeedTest options :
  signal options = Some s ->
  cancelling caught_cancelled_error (fun _ => True) (runSpeedTest env options).
Proof.
  intros Hsig. unfold runSpeedTest. rewrite Hsig. cbv zeta.
  eapply cancelling_bind; [apply cancelling_progress | intros _ _].
  eapply cancelling_bind;
    [apply withRetry_cancelling;
       [apply refusing_measureLatency | apply cancelling_measureLatency]
    | intros latency _].
  eapply cancelling_bind; [apply cancelling_progress | intros _ _].
  eapply cancelling_bind; [apply cancelling_download_loop | intros downloadSamples _].
  eapply cancelling_bind with (Q := fun _ => True).
  - destruct (upload_enabled options).
    + eapply cancelling_bind; [apply cancelling_upload_loop | intros ul _].
      apply cancelling_ret. exact I.
    + apply cancelling_ret. exact I.
  - intros uploadMbps _.
    eapply cancelling_bind; [apply cancelling_progress | intros _ _].
    apply cancelling_ret. exact I.
Qed.
End CancellationOfRuns.



(** ** Further properties of the retry wrapper *)

Lemma total_delays first count :
  fold_right Z.add 0%Z (delays first count)
  = (300 * first * Z.of_nat count + 150 * Z.of_nat count * (Z.of_nat count - 1))%Z.
Proof.
  revert first. induction count as [|count IH]; intros first.
  - unfold delays. cbn [seq map fold_right]. lia.
  - rewrite delays_S. cbn [fold_right]. rewrite IH. lia.
Qed.

(** Property X1.  The wrapper sleeps 150 * k * (k + 1) ms in total when k attempts are
    followed by a retry (300 + 600 + ... + 300 * k), which is at most
    150 * r * (r + 1) ms for a budget [r >= 0]: 900 ms for the default
    budget of 2. *)
Theorem X1_withRetry_total_backoff {E T : Type} (script : nat -> E + T) (r : Z) :
  (0 <= r)%Z ->
  let h' := fst (withRetry nap (stub script) r no_calls) in
  let k := Z.of_nat (calls h' - 1) in
  total_backoff h' = (150 * k * (k + 1))%Z /\
  (total_backoff h' <= 150 * r * (r + 1))%Z.
Proof.
  intros Hr h' k.
  destruct (loop_schedule script (Z.to_nat (r + 1)) r 0 undefined no_calls
              ltac:(lia)) as (c & Hc & Hbound & Hone & Hnaps).
  fold (withRetry nap (stub script) r no_calls) in Hc, Hnaps.
  fold h' in Hc, Hnaps. simpl in Hc, Hnaps.
  specialize (Hone Hr).
  assert (Hk : k = Z.of_nat (c - 1)) by (unfold k; rewrite Hc; reflexivity).
  assert (Htotal : total_backoff h' = (150 * k * (k + 1))%Z).
  { unfold total_backoff. rewrite Hnaps, total_delays, Hk. lia. }
  split; [exact Htotal|]. rewrite Htotal.
  assert (0 <= k <= r)%Z by lia. nia.
Qed.

Lemma X1_withRetry_total_backoff_witness :
  let h' := fst (withRetry nap (stub (fails_then_succeeds 5)) 2 no_calls) in
  let k := Z.of_nat (calls h' - 1) in
  total_backoff h' = (150 * k * (k + 1))%Z /\
  (total_backoff h' <= 150 * 2 * (2 + 1))%Z.
Proof.
  apply (X1_withRetry_total_backoff (fails_then_succeeds 5) 2). lia.
Defined.

(** ** Further properties of the clamp of the progress closure *)

Lemma SFltb_trans a b c : SFltb a b = true -> SFltb b c = true -> SFltb a c = true.
Proof.
  unfold SFltb.
  destruct a as [[]|[]| |[] ma ea], b as [[]|[]| |[] mb eb], c as [[]|[]| |[] mc ec];
    simpl; try reflexivity; try discriminate; intros H1 H2; cmp_cases;
    simpl in *; try reflexivity; try discriminate; try lia.
Qed.

Lemma ltb_trans x y z :
  (x <? y)%float = true -> (y <? z)%float = true -> (x <? z)%float = true.
Proof. rewrite !ltb_spec. apply SFltb_trans. Qed.

Lemma ltb_not_nan_l x y : (x <? y)%float = true -> is_nan x = false.
Proof. intros H. apply ltb_leb in H. exact (leb_not_nan_l _ _ H). Qed.

Lemma ltb_not_nan_r x y : (x <? y)%float = true -> is_nan y = false.
Proof. intros H. apply ltb_leb in H. exact (leb_not_nan_r _ _ H). Qed.

Lemma ltb_asym x y : (x <? y)%float = true -> (y <? x)%float = false.
Proof.
  intros H. pose proof (ltb_not_nan_l _ _ H) as Hx. pose proof (ltb_not_nan_r _ _ H) as Hy.
  rewrite is_nan_spec in Hx, Hy. rewrite ltb_spec in *. unfold SFltb in *.
  rewrite (SFcompare_antisym _ _ Hx Hy).
  destruct (SFcompare (Prim2SF x) (Prim2SF y)) as [[]|]; try discriminate. reflexivity.
Qed.

Lemma leb_not_ltb_eqb x y :
  (x <=? y)%float = true -> (x <? y)%float = false -> (x =? y)%float = true.
Proof.
  rewrite leb_spec, ltb_spec, eqb_spec. unfold SFleb, SFltb, SFeqb.
  destruct (SFcompare (Prim2SF x) (Prim2SF y)) as [[]|]; try discriminate; reflexivity.
Qed.

Lemma eqb_sym x y : (x =? y)%float = true -> (y =? x)%float = true.
Proof.
  rewrite !eqb_spec. unfold SFeqb. intros H.
  assert (Hx : sf_nan (Prim2SF x) = false)
    by (destruct (Prim2SF x) as [[]|[]| |[] ? ?]; try reflexivity; discriminate H).
  assert (Hy : sf_nan (Prim2SF y) = false)
    by (destruct (Prim2SF x) as [[]|[]| |[] ? ?], (Prim2SF y) as [[]|[]| |[] ? ?];
        try reflexivity; discriminate H).
  rewrite (SFcompare_antisym _ _ Hx Hy).
  destruct (SFcompare (Prim2SF x) (Prim2SF y)) as [[]|]; try discriminate. reflexivity.
Qed.

(** The clamp, by cases. *)
Lemma clamp_eq value :
  clamp value =
  if is_nan value then nan
  else if (0 <? value)%float then (if (value <? 100)%float then value else 100%float)
       else 0%float.
Proof.
  unfold clamp, Math_max, Math_min. cbn [existsb fold_left].
  change (is_nan 0) with false. change (is_nan 100) with false. cbn [orb].
  rewrite orb_false_r.
  destruct (is_nan value) eqn:Hnan.
  - reflexivity.
  - change (higher neg_infinity 0) with 0%float.
    change (lower infinity 100) with 100%float.
    assert (Hhigher : higher 0 value = if (0 <? value)%float then value else 0%float).
    { unfold higher. change (is_neg_zero 0) with false. rewrite andb_false_r. reflexivity. }
    rewrite Hhigher.
    destruct (0 <? value)%float eqn:Hpos.
    + cbn [orb]. rewrite ?Hnan. unfold lower. change (is_pos_zero 100) with false.
      rewrite andb_false_r. reflexivity.
    + reflexivity.
Qed.

(** Property X2.  The clamp leaves a number between 0 and 100 as it is (up to the sign of
    a zero), replaces a number below 0 by 0 and one above 100 by 100, and
    hands NaN on: NaN is not clamped. *)
Theorem X2_clamp_cases (value : float) :
  (is_nan value = true -> clamp value = nan) /\
  ((value <? 0)%float = true -> clamp value = 0%float) /\
  ((100 <? value)%float = true -> clamp value = 100%float) /\
  ((0 <=? value)%float = true -> (value <=? 100)%float = true ->
   (clamp value =? value)%float = true).
Proof.
  rewrite clamp_eq. repeat split.
  - intros ->. reflexivity.
  - intros H. rewrite (ltb_not_nan_l _ _ H), (ltb_asym _ _ H). reflexivity.
  - intros H. rewrite (ltb_not_nan_r _ _ H), (ltb_asym _ _ H).
    rewrite (ltb_trans 0 100 value eq_refl H). reflexivity.
  - intros H0 H100. rewrite (leb_not_nan_r _ _ H0).
    destruct (0 <? value)%float eqn:Hpos.
    + destruct (value <? 100)%float eqn:Hlt.
      * rewrite eqb_spec. unfold SFeqb. rewrite SFcompare_refl; [reflexivity|].
        rewrite <- is_nan_spec. exact (leb_not_nan_r _ _ H0).
      * apply eqb_sym, leb_not_ltb_eqb; assumption.
    + apply leb_not_ltb_eqb; assumption.
Qed.

Lemma X2_clamp_cases_witness :
  clamp nan = nan /\ clamp (-5)%float = 0%float /\ clamp 250%float = 100%float /\
  (clamp (20 + (1 / 3) * 55) =? 20 + (1 / 3) * 55)%float = true.
Proof.
  destruct (X2_clamp_cases nan) as (Hnan & _).
  destruct (X2_clamp_cases (-5)%float) as (_ & Hlow & _).
  destruct (X2_clamp_cases 250%float) as (_ & _ & Hhigh & _).
  destruct (X2_clamp_cases (20 + (1 / 3) * 55)%float) as (_ & _ & _ & Hin).
  split; [|split; [|split]]; [apply Hnan | apply Hlow | apply Hhigh | apply Hin]; reflexivity.
Defined.

(** ** Further properties of the throughput probes *)

Section ProbeClock.
Variable env : Env.

(** A download probe that returns has read the clock twice, before the
    request and after the body, and nothing else has. *)
Lemma measureDownloadForSize_clock size signal w w' sample :
  measureDownloadForSize env size signal w = (w', inr sample) ->
  durationSeconds sample
  = ((clock_reading env (Datatypes.S (readings w)) - clock_reading env (readings w))
     / 1000)%float /\
  readings w' = (readings w + 2)%nat.
Proof.
  unfold measureDownloadForSize. intros H.
  apply bind_inr in H as (w1 & start & Hstart & H).
  apply bind_inr in H as (w2 & response & Hfetch & H).
  destruct (negb (ok response)); [discriminate|].
  apply bind_inr in H as (w3 & [] & Hdrain & H).
  apply bind_inr in H as (w4 & stop & Hstop & H).
  injection H as <- <-.
  unfold performance_now in Hstart. injection Hstart as <- <-.
  apply fetch_inr in Hfetch as (_ & Hr2 & _).
  apply drain_inr in Hdrain as (_ & Hr3 & _).
  unfold performance_now in Hstop. injection Hstop as <- <-.
  cbn [durationSeconds readings] in *. rewrite Hr3, Hr2. split; [reflexivity | lia].
Qed.

Lemma measureUploadForSize_clock size signal w w' sample :
  measureUploadForSize env size signal w = (w', inr sample) ->
  durationSeconds sample
  = ((clock_reading env (Datatypes.S (readings w)) - clock_reading env (readings w))
     / 1000)%float /\
  readings w' = (readings w + 2)%nat.
Proof.
  unfold measureUploadForSize. intros H.
  apply bind_inr in H as (w0 & [] & Hcrypto & H).
  apply bind_inr in H as (w1 & start & Hstart & H).
  apply bind_inr in H as (w2 & response & Hfetch & H).
  destruct (negb (ok response)); [discriminate|].
  apply bind_inr in H as (w3 & [] & Hdrain & H).
  apply bind_inr in H as (w4 & stop & Hstop & H).
  injection H as <- <-.
  unfold crypto_getRandomValues in Hcrypto.
  destruct (random_values_quota env size); [|discriminate]. injection Hcrypto as <-.
  unfold performance_now in Hstart. injection Hstart as <- <-.
  apply fetch_inr in Hfetch as (_ & Hr2 & _).
  apply drain_inr in Hdrain as (_ & Hr3 & _).
  unfold performance_now in Hstop. injection Hstop as <- <-.
  cbn [durationSeconds readings] in *. rewrite Hr3, Hr2. split; [reflexivity | lia].
Qed.
End ProbeClock.

Lemma sub_diag x : is_finite x = true -> (x - x)%float = 0%float.
Proof.
  rewrite is_finite_spec. intros H. apply Prim2SF_inj. rewrite sub_spec.
  change (Prim2SF 0) with (S754_zero false).
  destruct (Prim2SF x) as [[]|[]| |s m e]; try discriminate H; try reflexivity.
  unfold SF64sub, SFsub. cbv zeta.
  set (a := cond_Zopp s (Z.pos (fst (shl_align m e (IntDef.Z.min e e))))).
  replace (a - a)%Z with 0%Z by (symmetry; apply Z.sub_diag). reflexivity.
Qed.

Lemma positive_over_zero x :
  (0 <? x)%float = true -> (x / 0 / 1000000)%float = infinity.
Proof.
  rewrite ltb_spec. change (Prim2SF 0) with (S754_zero false). intros H.
  assert (Hdiv : (x / 0)%float = infinity).
  { apply Prim2SF_inj. rewrite div_spec. change (Prim2SF 0) with (S754_zero false).
    destruct (Prim2SF x) as [[]|[]| |[] m e]; try discriminate H; reflexivity. }
  rewrite Hdiv. reflexivity.
Qed.

(** Property X3.  A probe does not guard against a duration of zero: when the two readings
    of the clock coincide (a coarse timer, a response from a cache), the
    sample has [durationSeconds = 0] and, for a positive size,
    [mbps = Infinity]. *)
Theorem X3_zero_duration_throughput (env : Env) (size : float) (signal : option AbortSignal)
    (w w' : World) (sample : ThroughputSample) :
  measureDownloadForSize env size signal w = (w', inr sample)
  \/ measureUploadForSize env size signal w = (w', inr sample) ->
  clock_reading env (Datatypes.S (readings w)) = clock_reading env (readings w) ->
  is_finite (clock_reading env (readings w)) = true ->
  (0 <? size * 8)%float = true ->
  durationSeconds sample = 0%float /\ mbps sample = infinity.
Proof.
  intros Hrun Hsame Hfin Hpos.
  assert (Hd : durationSeconds sample = 0%float).
  { assert (H : durationSeconds sample
                = ((clock_reading env (Datatypes.S (readings w))
                    - clock_reading env (readings w)) / 1000)%float)
      by (destruct Hrun as [H|H];
          [apply measureDownloadForSize_clock in H | apply measureUploadForSize_clock in H];
          apply H).
    rewrite H, Hsame, (sub_diag _ Hfin). reflexivity. }
  split; [exact Hd|].
  assert (Hid : sizeBytes sample = size /\ sample_identity sample)
    by (destruct Hrun as [H|H];
        [eapply measureDownloadForSize_inr | eapply measureUploadForSize_inr]; exact H).
  destruct Hid as [Hsize Hid]. unfold sample_identity in Hid.
  rewrite Hid, Hsize, Hd. apply positive_over_zero, Hpos.
Qed.

Lemma X3_zero_duration_throughput_witness :
  exists w' sample,
    measureDownloadForSize frozen_clock 1048576 None initial_world = (w', inr sample) /\
    durationSeconds sample = 0%float /\ mbps sample = infinity.
Proof.
  eexists. eexists. split; [vm_compute; reflexivity|].
  eapply (X3_zero_duration_throughput frozen_clock 1048576 None initial_world);
    [left; vm_compute; reflexivity | reflexivity | reflexivity | reflexivity].
Defined.

(** ** Further properties of the orchestrator *)

(** Property X4.  With a negative retry budget the run measures nothing: it reports the
    progress 2 of the latency stage, if there is a callback, and throws
    [undefined]; no request is made, no clock is read. *)
Theorem X4_runSpeedTest_negative_budget (env : Env) (options : RunSpeedTestOptions) (w : World) :
  (retry_budget options < 0)%Z ->
  runSpeedTest env options w
  = ((if onProgress options then record (Progress 2 phase_latency) w else w),
     inl undefined).
Proof.
  intros Hneg. unfold runSpeedTest. cbv zeta.
  fold (retry_budget options). unfold bind at 1, progress.
  destruct (onProgress options).
  - unfold effect. unfold bind at 1. rewrite withRetry_negative by exact Hneg. reflexivity.
  - unfold ret at 1. unfold bind at 1. rewrite withRetry_negative by exact Hneg. reflexivity.
Qed.

Lemma X4_runSpeedTest_negative_budget_witness :
  runSpeedTest scenario negative_budget initial_world
  = ((if onProgress negative_budget
      then record (Progress 2 phase_latency) initial_world else initial_world),
     inl undefined).
Proof.
  apply (X4_runSpeedTest_negative_budget scenario negative_budget initial_world). reflexivity.
Defined.

(** Property X5.  The fields of a result that the type allows to be [null] are not: a run
    that returns gives a latency with its 8 samples and a download
    throughput, takes its timestamp from [Date.now()], and leaves
    [uploadMbps] null exactly when upload is disabled. *)
Theorem X5_runSpeedTest_result_shape (env : Env) (options : RunSpeedTestOptions) (w w' : World)
    (res : SpeedTestResult) :
  runSpeedTest env options w = (w', inr res) ->
  (exists lat, latency res = Some lat /\ List.length (samples lat) = 8%nat /\
               lat = latency_metrics (samples lat)) /\
  downloadMbps res <> None /\
  (uploadMbps res = None <-> upload_enabled options = false) /\
  timestamp res = date_now env.
Proof.
  intros Hrun.
  apply runSpeedTest_inr in Hrun
    as (w1 & w2 & w3 & w4 & lat & dl & up & Hlat & _ & Hup & ->).
  apply withRetry_inr in Hlat as (w0 & Hlat).
  apply measureLatency_inr in Hlat as (-> & _).
  cbn [latency downloadMbps uploadMbps timestamp].
  split; [|split; [discriminate | split; [|reflexivity]]].
  - eexists. split; [reflexivity|]. cbn [samples latency_metrics].
    split; [|reflexivity]. rewrite length_map, length_seq. reflexivity.
  - destruct (upload_enabled options).
    + destruct Hup as (w5 & w6 & ul & _ & ->). split; discriminate.
    + subst up. split; reflexivity.
Qed.

Lemma X5_runSpeedTest_result_shape_witness :
  exists w' res,
    runSpeedTest scenario default_options initial_world = (w', inr res) /\
    (exists lat, latency res = Some lat /\ List.length (samples lat) = 8%nat /\
                 lat = latency_metrics (samples lat)) /\
    downloadMbps res <> None /\
    (uploadMbps res = None <-> upload_enabled default_options = false) /\
    timestamp res = date_now scenario.
Proof.
  eexists. eexists. split; [vm_compute; reflexivity|].
  eapply (X5_runSpeedTest_result_shape scenario default_options initial_world).
  vm_compute. reflexivity.
Defined.

(** ** The values that a run throws *)

Section Outcomes.
Context {S E : Type}.

Lemma outcome_ret {A} (Q : E -> Prop) (R : A -> Prop) (a : A) :
  R a -> outcome (S := S) Q R (ret a).
Proof. intros H s. exact H. Qed.

Lemma outcome_throw {A} (Q : E -> Prop) (R : A -> Prop) (e : E) :
  Q e -> outcome (S := S) (A := A) Q R (throw e).
Proof. intros H s. exact H. Qed.

Lemma outcome_bind {A B} (Q : E -> Prop) (R : A -> Prop) (R' : B -> Prop)
    (c : M S E A) (k : A -> M S E B) :
  outcome Q R c -> (forall a, R a -> outcome Q R' (k a)) -> outcome Q R' (bind c k).
Proof.
  intros Hc Hk s. unfold bind. specialize (Hc s).
  destruct (c s) as [s1 [e|a]]; simpl in *; [exact Hc | apply Hk, Hc].
Qed.

Lemma outcome_weaken {A} (Q Q' : E -> Prop) (R R' : A -> Prop) (c : M S E A) :
  (forall e, Q e -> Q' e) -> (forall a, R a -> R' a) -> outcome Q R c -> outcome Q' R' c.
Proof.
  intros HQ HR Hc s. specialize (Hc s). destruct (snd (c s)); auto.
Qed.
End Outcomes.

Section OutcomeOfRetries.
Context {S A : Type}.
Variable sleep : Z -> S -> S.
Variable fn : M S JsError A.
Variable Q : JsError -> Prop.
Variable R : A -> Prop.
Hypothesis fn_outcome : outcome Q R fn.

Lemma outcome_withRetry_loop n :
  forall r a lastError,
    (Z.to_nat (r + 1 - a) <= n)%nat -> (0 <= a)%Z ->
    (a = 0%Z /\ lastError = undefined) \/ (exists e, lastError = caught e /\ Q e /\ (a <= r)%Z) ->
    outcome (retried Q r) R (withRetry_loop sleep fn n r a lastError).
Proof.
  induction n as [|n IH]; intros r a lastError Hn Ha Hlast s;
    rewrite withRetry_loop_eq by assumption.
  - destruct (Z.leb_spec a r) as [Har|Har]; [lia|]. cbn [snd].
    destruct Hlast as [[-> ->]|(e & -> & He & Hle)]; [cbn; lia | lia].
  - destruct (Z.leb_spec a r) as [Har|Har].
    + specialize (fn_outcome s). destruct (fn s) as [s1 [e|v]]; cbn [snd] in *.
      * destruct (Z.eqb_spec a r) as [Heq|Hne].
        -- cbn [snd retried]. split; [|exact fn_outcome].
           lia.
        -- apply IH; [simpl; lia | lia |]. right. exists e. repeat split; [exact fn_outcome | lia].
      * exact fn_outcome.
    + cbn [snd]. destruct Hlast as [[-> ->]|(e & -> & He & Hle)]; [cbn; lia | lia].
Qed.

Lemma outcome_withRetry r : outcome (retried Q r) R (withRetry sleep fn r).
Proof. apply outcome_withRetry_loop; [lia | lia | left; split; reflexivity]. Qed.
End OutcomeOfRetries.

Section OutcomeOfProbes.
Variable env : Env.

Lemma outcome_performance_now (Q : JsError -> Prop) :
  outcome Q (fun _ => True) (performance_now env).
Proof. intros w. exact I. Qed.

Lemma outcome_fetch req message fills :
  outcome (fun e => probe_error (guarded_by (req_signal req)) fills message e = true)
    (fun response => cancellable response = guarded_by (req_signal req))
    (fetch env req).
Proof.
  intros w. unfold fetch, guarded_by.
  destruct (req_signal req) as [s|]; cbn [andb].
  - destruct (aborted w); [reflexivity|]. cbv zeta.
    destruct (aborted (caller_may_abort _ _)); [reflexivity|].
    destruct (reply _); reflexivity.
  - cbv zeta. destruct (reply _); reflexivity.
Qed.

Lemma outcome_drain response guarded message fills :
  cancellable response = guarded ->
  outcome (fun e => probe_error guarded fills message e = true) (fun _ => True)
    (drain response).
Proof.
  intros Hc w. unfold drain. cbv zeta. rewrite Hc.
  destruct guarded; cbn [andb].
  - destruct (aborted (caller_may_abort _ _)); [reflexivity|].
    destruct (body_arrives _); [exact I | reflexivity].
  - destruct (body_arrives _); [exact I | reflexivity].
Qed.

(** The part that the three probes share: the request, the check of the
    status, the body and the second reading of the clock. *)
Lemma outcome_request {A} req message fills (k : float -> M World JsError A) :
  (forall stop, outcome (fun e => probe_error (guarded_by (req_signal req)) fills message e
                                  = true) (fun _ => True) (k stop)) ->
  outcome (fun e => probe_error (guarded_by (req_signal req)) fills message e = true)
    (fun _ => True)
    (bind (fetch env req)
       (fun response =>
          if negb (ok response)
          then throw (StatusError message (status (from response)))
          else bind (arrayBuffer response)
                 (fun _ => bind (performance_now env) k))).
Proof.
  intros Hk.
  eapply outcome_bind; [apply outcome_fetch | intros response Hc].
  destruct (negb (ok response)) eqn:Hok.
  - apply outcome_throw. cbn [probe_error]. rewrite String.eqb_refl. cbn [andb].
    unfold ok in Hok. exact Hok.
  - eapply outcome_bind; [apply outcome_drain, Hc | intros _ _].
    eapply outcome_bind; [apply outcome_performance_now | intros stop _; apply Hk].
Qed.

Lemma outcome_latency_attempt signal :
  outcome (fun e => probe_error (guarded_by signal) false
                      "Latency request failed with status " e = true)
    (fun _ => True) (latency_attempt env signal).
Proof.
  unfold latency_attempt.
  eapply outcome_bind; [apply outcome_performance_now | intros start _].
  apply (outcome_request (latency_request signal)). intros stop. apply outcome_ret. exact I.
Qed.

Lemma outcome_latency_loop signal todo :
  forall samples,
    outcome (fun e => probe_error (guarded_by signal) false
                        "Latency request failed with status " e = true)
      (fun _ => True) (latency_loop env todo signal samples).
Proof.
  induction todo as [|todo IH]; intros samples; simpl.
  - apply outcome_ret. exact I.
  - eapply outcome_bind; [apply outcome_latency_attempt | intros d _; apply IH].
Qed.

Lemma outcome_measureLatency signal :
  outcome (fun e => probe_error (guarded_by signal) false
                      "Latency request failed with status " e = true)
    (fun _ => True) (measureLatency env signal).
Proof.
  unfold measureLatency.
  eapply outcome_bind; [apply outcome_latency_loop | intros l _; apply outcome_ret; exact I].
Qed.

Lemma outcome_measureDownloadForSize size signal :
  outcome (fun e => probe_error (guarded_by signal) false
                      "Download request failed with status " e = true)
    (fun _ => True) (measureDownloadForSize env size signal).
Proof.
  unfold measureDownloadForSize.
  eapply outcome_bind; [apply outcome_performance_now | intros start _].
  apply (outcome_request (download_request size signal)).
  intros stop. apply outcome_ret. exact I.
Qed.

Lemma outcome_measureUploadForSize size signal :
  outcome (fun e => probe_error (guarded_by signal) true
                      "Upload request failed with status " e = true)
    (fun _ => True) (measureUploadForSize env size signal).
Proof.
  unfold measureUploadForSize.
  eapply outcome_bind with (R := fun _ => True).
  - intros w. unfold crypto_getRandomValues.
    destruct (random_values_quota env size); [exact I | reflexivity].
  - intros _ _.
    eapply outcome_bind; [apply outcome_performance_now | intros start _].
    apply (outcome_request (upload_request size signal)).
    intros stop. apply outcome_ret. exact I.
Qed.
End OutcomeOfProbes.

Section OutcomeOfRuns.
Variable env : Env.
Variable options : RunSpeedTestOptions.

Lemma outcome_progress (Q : unknown JsError -> Prop) value phase :
  outcome Q (fun _ => True) (progress (onProgress options) value phase).
Proof. intros w. unfold progress. destruct (onProgress options); exact I. Qed.

Lemma run_error_latency u :
  retried (fun e => probe_error (guarded_by (signal options)) false
                      "Latency request failed with status " e = true)
    (retry_budget options) u ->
  run_error options u = true.
Proof.
  destruct u as [|e]; cbn [retried run_error].
  - intros H. apply Z.ltb_lt, H.
  - intros [Hr He]. unfold has_signal. rewrite He.
    apply andb_true_iff. split; [apply Z.leb_le, Hr | reflexivity].
Qed.

Lemma run_error_download u :
  retried (fun e => probe_error (guarded_by (signal options)) false
                      "Download request failed with status " e = true)
    (retry_budget options) u ->
  run_error options u = true.
Proof.
  destruct u as [|e]; cbn [retried run_error].
  - intros H. apply Z.ltb_lt, H.
  - intros [Hr He]. unfold has_signal. rewrite He, orb_true_r.
    apply andb_true_iff. split; [apply Z.leb_le, Hr | reflexivity].
Qed.

Lemma run_error_upload u :
  upload_enabled options = true ->
  retried (fun e => probe_error (guarded_by (signal options)) true
                      "Upload request failed with status " e = true)
    (retry_budget options) u ->
  run_error options u = true.
Proof.
  intros Hup. destruct u as [|e]; cbn [retried run_error].
  - intros H. apply Z.ltb_lt, H.
  - intros [Hr He]. unfold has_signal. rewrite He, Hup, !orb_true_r.
    apply andb_true_iff. split; [apply Z.leb_le, Hr | reflexivity].
Qed.

Lemma outcome_download_loop todo :
  forall i downloadSamples,
    outcome (fun u => run_error options u = true) (fun _ => True)
      (download_loop env (onProgress options) (signal options) (retry_budget options)
         todo i downloadSamples).
Proof.
  induction todo as [|size todo IH]; intros i downloadSamples; simpl.
  - apply outcome_ret. exact I.
  - eapply outcome_bind with (R := fun _ => True).
    + eapply outcome_weaken; [apply run_error_download | intros a H; exact H |].
      apply outcome_withRetry, outcome_measureDownloadForSize.
    + intros sample _.
      eapply outcome_bind; [apply outcome_progress | intros _ _; apply IH].
Qed.

Lemma outcome_upload_loop todo :
  upload_enabled options = true ->
  forall i uploadSamples,
    outcome (fun u => run_error options u = true) (fun _ => True)
      (upload_loop env (onProgress options) (signal options) (retry_budget options)
         todo i uploadSamples).
Proof.
  intros Hup. induction todo as [|size todo IH]; intros i uploadSamples; simpl.
  - apply outcome_ret. exact I.
  - eapply outcome_bind with (R := fun _ => True).
    + eapply outcome_weaken; [intros u0; apply (run_error_upload u0 Hup) | intros a H; exact H |].
      apply outcome_withRetry, outcome_measureUploadForSize.
    + intros sample _.
      eapply outcome_bind; [apply outcome_progress | intros _ _; apply IH].
Qed.

Lemma outcome_runSpeedTest :
  outcome (fun u => run_error options u = true) (fun _ => True) (runSpeedTest env options).
Proof.
  unfold runSpeedTest. cbv zeta. fold (upload_enabled options) (retry_budget options).
  eapply outcome_bind; [apply outcome_progress | intros _ _].
  eapply outcome_bind with (R := fun _ => True).
  { eapply outcome_weaken; [apply run_error_latency | intros a H; exact H |].
    apply outcome_withRetry, outcome_measureLatency. }
  intros latency _.
  eapply outcome_bind; [apply outcome_progress | intros _ _].
  eapply outcome_bind; [apply outcome_download_loop | intros downloadSamples _].
  eapply outcome_bind with (R := fun _ => True).
  - assert (Hup : upload_enabled options = true \/ upload_enabled options = false)
      by (destruct (upload_enabled options); auto).
    destruct Hup as [Hup|Hup]; rewrite Hup.
    + eapply outcome_bind; [apply outcome_upload_loop, Hup | intros ul _].
      apply outcome_ret. exact I.
    + apply outcome_ret. exact I.
  - intros uploadMbps _.
    eapply outcome_bind; [apply outcome_progress | intros _ _]. apply outcome_ret. exact I.
Qed.
End OutcomeOfRuns.

(** Property X6.  What a run can throw.  With a negative budget it throws [undefined].
    Otherwise it throws what the last attempt of a probe threw: the
    [TypeError] of a request that failed on the network; the abort error,
    only if the run was given a signal; the quota error of
    [crypto.getRandomValues], only if upload is enabled; or one of the three
    errors that the probes make of a status outside 200..299, the one of the
    upload probe only if upload is enabled.  It never throws a syntax error
    (no probe parses a body). *)
Theorem X6_runSpeedTest_throws (env : Env) (options : RunSpeedTestOptions) (w w' : World)
    (u : unknown JsError) :
  runSpeedTest env options w = (w', inl u) ->
  run_error options u = true.
Proof.
  intros Hrun. pose proof (outcome_runSpeedTest env options w) as H.
  rewrite Hrun in H. exact H.
Qed.

Lemma X6_runSpeedTest_throws_witness :
  exists w',
    runSpeedTest aborts_first_request default_options initial_world
    = (w', inl (caught AbortError)) /\
    run_error default_options (caught AbortError) = true.
Proof.
  eexists. split; [vm_compute; reflexivity|].
  eapply (X6_runSpeedTest_throws aborts_first_request default_options initial_world).
  vm_compute. reflexivity.
Defined.

(** ** The quota of [crypto.getRandomValues] *)

Lemma emits_bind_outcome {E A B} (P : Event -> Prop) (Q : E -> Prop) (R : A -> Prop)
    (c : M World E A) (k : A -> M World E B) :
  emits P c -> outcome Q R c -> (forall a, R a -> emits P (k a)) -> emits P (bind c k).
Proof.
  intros Hc Ho Hk w. unfold bind. specialize (Hc w). specialize (Ho w).
  destruct (c w) as [w1 [e|a]]; simpl in *; [exact Hc|].
  eapply extends_trans; [exact Hc | apply Hk, Ho].
Qed.

Lemma emits_report (P : Event -> Prop) onProgress value phase :
  (forall value', P (Progress value' phase)) -> emits P (progress onProgress value phase).
Proof.
  intros H. unfold progress. destruct onProgress; [|intros w; apply extends_refl].
  intros w. apply extends_record, H.
Qed.

Section QuotaRefused.
Variable env : Env.
Variable options : RunSpeedTestOptions.
Hypothesis upload_on : upload_enabled options = true.
Hypothesis refused : random_values_quota env 1048576 = false.

Lemma measureUploadForSize_refused signal w :
  measureUploadForSize env 1048576 signal w = (w, inl QuotaExceededError).
Proof.
  unfold measureUploadForSize, bind, crypto_getRandomValues. rewrite refused. reflexivity.
Qed.

Lemma upload_stage_never_returns :
  outcome (fun _ => True) (fun _ => False)
    (upload_loop env (onProgress options) (signal options) (retry_budget options)
       UPLOAD_SIZES 0 []).
Proof.
  unfold UPLOAD_SIZES. cbn [upload_loop].
  eapply outcome_bind with (R := fun _ => False); [|intros a []].
  eapply outcome_weaken; [intros e _; exact I | intros a H; exact H |].
  apply outcome_withRetry with (Q := fun _ => True).
  intros w. rewrite measureUploadForSize_refused. exact I.
Qed.

Lemma upload_stage_before_upload :
  emits before_upload
    (upload_loop env (onProgress options) (signal options) (retry_budget options)
       UPLOAD_SIZES 0 []).
Proof.
  unfold UPLOAD_SIZES. cbn [upload_loop].
  eapply emits_bind_outcome with (R := fun _ => False); [| |intros a []].
  - apply emits_withRetry; [|intros ms; exact I | exact I].
    intros w. rewrite measureUploadForSize_refused. apply extends_refl.
  - eapply outcome_weaken; [intros e _; exact I | intros a H; exact H |].
    apply outcome_withRetry with (Q := fun _ => True).
    intros w. rewrite measureUploadForSize_refused. exact I.
Qed.

Lemma download_stage_before_upload todo :
  forall i downloadSamples,
    emits before_upload
      (download_loop env (onProgress options) (signal options) (retry_budget options)
         todo i downloadSamples).
Proof.
  induction todo as [|size todo IH]; intros i downloadSamples; simpl.
  - apply emits_ret.
  - apply emits_bind.
    + apply emits_withRetry; [|intros ms; exact I | exact I].
      apply emits_measureDownloadForSize; [exact I|].
      intros sent. split; [discriminate | reflexivity].
    + intros sample. apply emits_bind; [apply emits_report; intros; exact I | intros _; apply IH].
Qed.

Lemma run_never_returns :
  outcome (fun _ => True) (fun _ => False) (runSpeedTest env options).
Proof.
  unfold runSpeedTest. cbv zeta. fold (upload_enabled options) (retry_budget options).
  rewrite upload_on.
  eapply outcome_bind; [apply outcome_progress | intros _ _].
  eapply outcome_bind with (R := fun _ => True); [intros w; destruct (snd _); exact I|].
  intros latency _.
  eapply outcome_bind; [apply outcome_progress | intros _ _].
  eapply outcome_bind with (R := fun _ => True); [intros w; destruct (snd _); exact I|].
  intros downloadSamples _.
  eapply outcome_bind with (R := fun _ => False); [|intros a []].
  eapply outcome_bind; [apply upload_stage_never_returns | intros a []].
Qed.

Lemma run_before_upload : emits before_upload (runSpeedTest env options).
Proof.
  unfold runSpeedTest. cbv zeta. fold (upload_enabled options) (retry_budget options).
  rewrite upload_on.
  apply emits_bind; [apply emits_report; intros; exact I | intros _].
  apply emits_bind.
  { apply emits_withRetry; [|intros ms; exact I | exact I].
    apply emits_measureLatency; [exact I|]. intros sent. split; [discriminate | reflexivity]. }
  intros latency.
  apply emits_bind; [apply emits_report; intros; exact I | intros _].
  apply emits_bind; [apply download_stage_before_upload | intros downloadSamples].
  eapply emits_bind_outcome with (R := fun _ => False); [| |intros a []].
  - eapply emits_bind_outcome;
      [apply upload_stage_before_upload | apply upload_stage_never_returns | intros a []].
  - eapply outcome_bind; [apply upload_stage_never_returns | intros a []].
Qed.
End QuotaRefused.

(** Property X7.  [measureUploadForSize] fills a buffer of [sizeBytes] bytes with one call
    of [crypto.getRandomValues].  On a platform that refuses a buffer of
    1 MiB (the Web Crypto API refuses more than 65536 bytes) the first
    upload probe throws before it makes its request, at every attempt: a run
    with upload enabled never returns a result, sends nothing to the upload
    endpoint and reports neither upload progress nor completion. *)
Theorem X7_upload_refused_by_quota (env : Env) (options : RunSpeedTestOptions) (w : World) :
  upload_enabled options = true ->
  random_values_quota env 1048576 = false ->
  (exists u, snd (runSpeedTest env options w) = inl u) /\
  exists evs,
    trace (fst (runSpeedTest env options w)) = trace w ++ evs /\
    Forall before_upload evs.
Proof.
  intros Hup Hquota. split.
  - pose proof (run_never_returns env options Hup Hquota w) as H.
    destruct (snd (runSpeedTest env options w)) as [u|res]; [exists u; reflexivity | contradiction].
  - exact (run_before_upload env options Hup Hquota w).
Qed.

Lemma X7_upload_refused_by_quota_witness :
  (exists u, snd (runSpeedTest web_crypto_quota default_options initial_world) = inl u) /\
  exists evs,
    trace (fst (runSpeedTest web_crypto_quota default_options initial_world))
    = trace initial_world ++ evs /\
    Forall before_upload evs.
Proof.
  apply (X7_upload_refused_by_quota web_crypto_quota default_options initial_world);
    reflexivity.
Defined.

(** On that platform and a network without failures, the run with the
    default options measures the latency and the three downloads, reports
    the progress up to 75, attempts the upload three times without a
    request, 300 ms and 600 ms apart, and throws the quota error. *)
Example quota_run :
  exists w',
    runSpeedTest web_crypto_quota default_options initial_world
    = (w', inl (caught QuotaExceededError)) /\
    List.length (fetches (trace w')) = 11%nat /\
    progress_values (trace w')
    = [2; 20; 20 + (1 / 3) * 55; 20 + (2 / 3) * 55; 20 + (3 / 3) * 55]%float /\
    filter (fun ev => match ev with Sleep _ => true | _ => false end) (trace w')
    = [Sleep 300; Sleep 600].
Proof. eexists. split; [vm_compute; reflexivity|]. repeat split. Qed.

(** ** The requests of a run, stage by stage *)

Lemma requests_app evs1 evs2 : requests (evs1 ++ evs2) = requests evs1 ++ requests evs2.
Proof. unfold requests. rewrite fetches_app, map_app. reflexivity. Qed.

Lemma requests_silent evs : Forall not_fetch evs -> requests evs = [].
Proof.
  induction 1 as [|ev evs Hev _ IH]; [reflexivity|].
  destruct ev; simpl in *; try exact IH. contradiction.
Qed.

Section CallsOfFetch.
Context {E : Type}.
Variable q : Request.

Lemma calls_silent {A} (c : M World E A) : emits not_fetch c -> calls_fetch q 0 c.
Proof.
  intros Hc w. destruct (Hc w) as (evs & Ht & Hf). exists evs, 0%nat.
  repeat split; [exact Ht | lia | apply requests_silent, Hf].
Qed.

Lemma calls_weaken {A} (c : M World E A) b b' :
  (b <= b')%nat -> calls_fetch q b c -> calls_fetch q b' c.
Proof.
  intros Hb Hc w. destruct (Hc w) as (evs & n & Ht & Hn & Hr). exists evs, n.
  repeat split; [exact Ht | lia | exact Hr].
Qed.

Lemma calls_bind {A B} (c : M World E A) (k : A -> M World E B) b1 b2 :
  calls_fetch q b1 c -> (forall a, calls_fetch q b2 (k a)) ->
  calls_fetch q (b1 + b2) (bind c k).
Proof.
  intros Hc Hk w. unfold bind. destruct (Hc w) as (evs1 & n1 & Ht1 & Hn1 & Hr1).
  destruct (c w) as [w1 [e|a]]; simpl in *.
  - exists evs1, n1. repeat split; [exact Ht1 | lia | exact Hr1].
  - destruct (Hk a w1) as (evs2 & n2 & Ht2 & Hn2 & Hr2).
    exists (evs1 ++ evs2), (n1 + n2)%nat. rewrite Ht2, Ht1, app_assoc.
    repeat split; [lia|]. rewrite requests_app, Hr1, Hr2, repeat_app. reflexivity.
Qed.
End CallsOfFetch.

Section CallsOfProbes.
Variable env : Env.

Lemma calls_fetch_fetch req : calls_fetch req 1 (fetch env req).
Proof.
  intros w. unfold fetch.
  destruct (match req_signal req with Some _ => true | None => false end && aborted w).
  - exists [Fetch req false], 1%nat. repeat split. lia.
  - cbv zeta.
    set (w2 := {| trace := trace (record (Fetch req true) w);
                  wire := Datatypes.S (wire (record (Fetch req true) w));
                  readings := readings (record (Fetch req true) w);
                  sleeps := sleeps (record (Fetch req true) w);
                  aborted := aborted (record (Fetch req true) w) |}).
    destruct (fetches_caller_may_abort (abort_in_flight (network env (wire w))) w2)
      as (evs & Ht & Hf).
    exists (Fetch req true :: evs), 1%nat.
    assert (Htrace : trace (caller_may_abort (abort_in_flight (network env (wire w))) w2)
                     = trace w ++ Fetch req true :: evs).
    { rewrite Ht. cbn [trace record w2]. rewrite <- app_assoc. reflexivity. }
    repeat split.
    + destruct (_ && _); [exact Htrace|]. destruct (reply _); exact Htrace.
    + lia.
    + unfold requests. cbn [fetches flat_map app]. fold (fetches evs). rewrite Hf. reflexivity.
Qed.

(** The part that the three probes share. *)
Lemma calls_request {A} req message (k : float -> M World JsError A) :
  (forall stop, calls_fetch req 0 (k stop)) ->
  calls_fetch req 1
    (bind (fetch env req)
       (fun response =>
          if negb (ok response)
          then throw (StatusError message (status (from response)))
          else bind (arrayBuffer response)
                 (fun _ => bind (performance_now env) k))).
Proof.
  intros Hk. apply (calls_bind req _ _ 1 0); [apply calls_fetch_fetch | intros response].
  destruct (negb (ok response)); [apply calls_silent, emits_throw|].
  apply (calls_bind req _ _ 0 0); [apply calls_silent, emits_drain; exact I | intros _].
  apply (calls_bind req _ _ 0 0); [apply calls_silent, emits_performance_now | intros stop].
  apply Hk.
Qed.

Lemma calls_latency_attempt signal :
  calls_fetch (latency_request signal) 1 (latency_attempt env signal).
Proof.
  unfold latency_attempt.
  apply (calls_bind _ _ _ 0 1); [apply calls_silent, emits_performance_now | intros start].
  apply calls_request. intros stop. apply calls_silent, emits_ret.
Qed.

Lemma calls_latency_loop signal todo :
  forall samples,
    calls_fetch (latency_request signal) todo (latency_loop env todo signal samples).
Proof.
  induction todo as [|todo IH]; intros samples; simpl.
  - apply calls_silent, emits_ret.
  - apply (calls_bind _ _ _ 1 todo); [apply calls_latency_attempt | intros d; apply IH].
Qed.

Lemma calls_measureLatency signal :
  calls_fetch (latency_request signal) LATENCY_ATTEMPTS (measureLatency env signal).
Proof.
  unfold measureLatency.
  apply (calls_weaken _ _ (LATENCY_ATTEMPTS + 0)); [lia|].
  apply calls_bind; [apply calls_latency_loop | intros l; apply calls_silent, emits_ret].
Qed.

Lemma calls_measureDownloadForSize size signal :
  calls_fetch (download_request size signal) 1 (measureDownloadForSize env size signal).
Proof.
  unfold measureDownloadForSize.
  apply (calls_bind _ _ _ 0 1); [apply calls_silent, emits_performance_now | intros start].
  apply calls_request. intros stop. apply calls_silent, emits_ret.
Qed.

Lemma calls_measureUploadForSize size signal :
  calls_fetch (upload_request size signal) 1 (measureUploadForSize env size signal).
Proof.
  unfold measureUploadForSize.
  apply (calls_bind _ _ _ 0 1); [apply calls_silent, emits_crypto | intros _].
  apply (calls_bind _ _ _ 0 1); [apply calls_silent, emits_performance_now | intros start].
  apply calls_request. intros stop. apply calls_silent, emits_ret.
Qed.

(** The wrapper makes the requests of the probe once per attempt. *)
Lemma calls_withRetry_loop {A} (fn : M World JsError A) q b :
  calls_fetch q b fn ->
  forall n r a lastError,
    (Z.to_nat (r + 1 - a) <= n)%nat ->
    calls_fetch q (b * Z.to_nat (r + 1 - a))
      (withRetry_loop (setTimeout_sleep env) fn n r a lastError).
Proof.
  intros Hfn. induction n as [|n IH]; intros r a lastError Hn w;
    rewrite withRetry_loop_eq by assumption.
  - destruct (Z.leb_spec a r) as [Har|Har]; [lia|].
    exists [], 0%nat. simpl. rewrite app_nil_r. repeat split. lia.
  - destruct (Z.leb_spec a r) as [Har|Har].
    2:{ exists [], 0%nat. simpl. rewrite app_nil_r. repeat split. lia. }
    assert (Hk : Z.to_nat (r + 1 - a) = Datatypes.S (Z.to_nat (r + 1 - (a + 1)))) by lia.
    destruct (Hfn w) as (evs1 & n1 & Ht1 & Hn1 & Hr1).
    destruct (fn w) as [w1 [e|v]]; cbn [fst] in Ht1.
    + destruct (Z.eqb_spec a r) as [Heq|Hne].
      * exists evs1, n1. cbn [fst]. repeat split; [exact Ht1 | nia | exact Hr1].
      * simpl Nat.pred.
        destruct (extends_sleep env not_fetch (300 * (a + 1)) w1 I I) as (evs2 & Ht2 & Hf2).
        destruct (IH r (a + 1)%Z (caught e) ltac:(lia)
                    (setTimeout_sleep env (300 * (a + 1)) w1))
          as (evs3 & n3 & Ht3 & Hn3 & Hr3).
        exists (evs1 ++ evs2 ++ evs3), (n1 + n3)%nat.
        rewrite Ht3, Ht2, Ht1, <- !app_assoc. repeat split; [nia|].
        rewrite !requests_app, Hr1, (requests_silent _ Hf2), Hr3, repeat_app. reflexivity.
    + exists evs1, n1. cbn [fst]. repeat split; [exact Ht1 | nia | exact Hr1].
Qed.

Lemma calls_withRetry {A} (fn : M World JsError A) q b r :
  calls_fetch q b fn ->
  calls_fetch q (b * Z.to_nat (r + 1)) (withRetry (setTimeout_sleep env) fn r).
Proof.
  intros Hfn. unfold withRetry.
  replace (Z.to_nat (r + 1)) with (Z.to_nat (r + 1 - 0)) at 1 by (f_equal; lia).
  apply calls_withRetry_loop; [exact Hfn | lia].
Qed.
End CallsOfProbes.

Lemma within_plan_length plan counts :
  within_plan plan counts -> List.length plan = List.length counts.
Proof. induction 1; simpl; congruence. Qed.

Lemma staged_app plan1 plan2 counts1 counts2 :
  List.length plan1 = List.length counts1 ->
  staged (plan1 ++ plan2) (counts1 ++ counts2) = staged plan1 counts1 ++ staged plan2 counts2.
Proof.
  revert counts1. induction plan1 as [|stage plan1 IH]; intros [|n counts1] Hlen;
    try discriminate Hlen; [reflexivity|].
  unfold staged in *. cbn [app combine map List.concat].
  rewrite IH by (simpl in Hlen; lia). rewrite app_assoc. reflexivity.
Qed.

Lemma within_plan_zeros plan : within_plan plan (repeat 0%nat (List.length plan)).
Proof. induction plan as [|stage plan IH]; simpl; constructor; [lia | exact IH]. Qed.

Lemma staged_zeros plan : staged plan (repeat 0%nat (List.length plan)) = [].
Proof. induction plan as [|stage plan IH]; [reflexivity | exact IH]. Qed.

Lemma staged_length plan counts :
  within_plan plan counts ->
  (List.length (staged plan counts) <= list_sum (map snd plan))%nat.
Proof.
  induction 1 as [|stage n plan counts Hn _ IH]; [simpl; lia|].
  change (staged (stage :: plan) (n :: counts))
    with (repeat (fst stage) n ++ staged plan counts).
  change (list_sum (map snd (stage :: plan)))
    with (snd stage + list_sum (map snd plan))%nat.
  rewrite length_app, repeat_length. lia.
Qed.

Section Plans.
Context {E : Type}.

Lemma follows_silent {A} (c : M World E A) : emits not_fetch c -> follows [] c.
Proof.
  intros Hc w. destruct (Hc w) as (evs & Ht & Hf). exists evs, [].
  repeat split; [exact Ht | constructor | apply requests_silent, Hf].
Qed.

Lemma follows_calls {A} (c : M World E A) q b : calls_fetch q b c -> follows [(q, b)] c.
Proof.
  intros Hc w. destruct (Hc w) as (evs & n & Ht & Hn & Hr). exists evs, [n].
  repeat split; [exact Ht | repeat constructor; exact Hn |].
  rewrite Hr. unfold staged. simpl. rewrite app_nil_r. reflexivity.
Qed.

Lemma follows_bind {A B} (c : M World E A) (k : A -> M World E B) plan1 plan2 :
  follows plan1 c -> (forall a, follows plan2 (k a)) -> follows (plan1 ++ plan2) (bind c k).
Proof.
  intros Hc Hk w. unfold bind. destruct (Hc w) as (evs1 & counts1 & Ht1 & Hw1 & Hr1).
  pose proof (within_plan_length _ _ Hw1) as Hlen.
  destruct (c w) as [w1 [e|a]]; simpl in *.
  - exists evs1, (counts1 ++ repeat 0%nat (List.length plan2)). repeat split.
    + exact Ht1.
    + apply Forall2_app; [exact Hw1 | apply within_plan_zeros].
    + rewrite staged_app, staged_zeros, app_nil_r by exact Hlen. exact Hr1.
  - destruct (Hk a w1) as (evs2 & counts2 & Ht2 & Hw2 & Hr2).
    exists (evs1 ++ evs2), (counts1 ++ counts2). rewrite Ht2, Ht1, app_assoc. repeat split.
    + apply Forall2_app; assumption.
    + rewrite requests_app, Hr1, Hr2, staged_app by exact Hlen. reflexivity.
Qed.
End Plans.

Lemma emits_callback onProgress value phase :
  emits not_fetch (progress onProgress value phase).
Proof.
  unfold progress. destruct onProgress; [|intros w; apply extends_refl].
  intros w. apply extends_record. exact I.
Qed.

Section PlanOfRuns.
Variable env : Env.
Variable options : RunSpeedTestOptions.

Lemma follows_download_loop todo :
  forall i downloadSamples,
    follows
      (map (fun size => (download_request size (signal options),
                         Z.to_nat (retry_budget options + 1))) todo)
      (download_loop env (onProgress options) (signal options) (retry_budget options)
         todo i downloadSamples).
Proof.
  induction todo as [|size todo IH]; intros i downloadSamples; cbn [download_loop map].
  - apply follows_silent, emits_ret.
  - apply (follows_bind _ _ [_] _).
    + apply follows_calls.
      replace (Z.to_nat (retry_budget options + 1))
        with (1 * Z.to_nat (retry_budget options + 1))%nat by lia.
      apply calls_withRetry, calls_measureDownloadForSize.
    + intros sample. apply (follows_bind _ _ [] _); [|intros _; apply IH].
      apply follows_silent, emits_callback.
Qed.

Lemma follows_upload_loop todo :
  forall i uploadSamples,
    follows
      (map (fun size => (upload_request size (signal options),
                         Z.to_nat (retry_budget options + 1))) todo)
      (upload_loop env (onProgress options) (signal options) (retry_budget options)
         todo i uploadSamples).
Proof.
  induction todo as [|size todo IH]; intros i uploadSamples; cbn [upload_loop map].
  - apply follows_silent, emits_ret.
  - apply (follows_bind _ _ [_] _).
    + apply follows_calls.
      replace (Z.to_nat (retry_budget options + 1))
        with (1 * Z.to_nat (retry_budget options + 1))%nat by lia.
      apply calls_withRetry, calls_measureUploadForSize.
    + intros sample. apply (follows_bind _ _ [] _); [|intros _; apply IH].
      apply follows_silent, emits_callback.
Qed.

Lemma follows_runSpeedTest : follows (run_plan options) (runSpeedTest env options).
Proof.
  unfold runSpeedTest. cbv zeta. fold (upload_enabled options) (retry_budget options).
  set (attempts := Z.to_nat (retry_budget options + 1)).
  replace (run_plan options)
    with ([] ++ [(latency_request (signal options), (LATENCY_ATTEMPTS * attempts)%nat)]
          ++ [] ++ map (fun size => (download_request size (signal options), attempts))
                     DOWNLOAD_SIZES
          ++ (if upload_enabled options
              then map (fun size => (upload_request size (signal options), attempts))
                     UPLOAD_SIZES ++ []
              else [])
          ++ [] ++ [])
    by (unfold run_plan; fold attempts; destruct (upload_enabled options);
        rewrite ?app_nil_r; reflexivity).
  apply follows_bind; [apply follows_silent, emits_callback | intros _].
  apply follows_bind; [apply follows_calls, calls_withRetry, calls_measureLatency
                      | intros latency].
  apply follows_bind; [apply follows_silent, emits_callback | intros _].
  apply follows_bind; [apply follows_download_loop | intros downloadSamples].
  apply follows_bind.
  - destruct (upload_enabled options).
    + apply follows_bind; [apply follows_upload_loop | intros ul].
      apply follows_silent, emits_ret.
    + apply follows_silent, emits_ret.
  - intros uploadMbps.
    apply follows_bind; [apply follows_silent, emits_callback | intros _].
    apply follows_silent, emits_ret.
Qed.
End PlanOfRuns.

(** Property X8.  The calls of [fetch] of a run go through the stages in order: first the
    latency request, at most 8 times per attempt of the latency stage; then
    the download of 1 MiB, of 5 MiB and of 10 MiB, each at most once per
    attempt; then, if upload is enabled, the upload of 1 MiB and of 2 MiB
    likewise.  A stage is never returned to once the next one has started.
    With [r + 1] attempts per stage (none for a negative budget [r]) the run
    calls [fetch] at most [(8 + 3 + 2) * (r + 1)] times: 39 times with the
    default budget. *)
Theorem X8_runSpeedTest_requests (env : Env) (options : RunSpeedTestOptions) (w : World) :
  exists evs counts,
    trace (fst (runSpeedTest env options w)) = trace w ++ evs /\
    within_plan (run_plan options) counts /\
    requests evs = staged (run_plan options) counts /\
    (List.length (requests evs)
     <= (8 + 3 + (if upload_enabled options then 2 else 0))
        * Z.to_nat (retry_budget options + 1))%nat.
Proof.
  destruct (follows_runSpeedTest env options w) as (evs & counts & Ht & Hw & Hr).
  exists evs, counts. repeat split; try assumption.
  rewrite Hr. eapply Nat.le_trans; [apply staged_length, Hw|].
  unfold run_plan. destruct (upload_enabled options); simpl; lia.
Qed.

(** The requests of the run against the server that answers 503: the
    latency request three times, and nothing of the later stages. *)
Example requests_when_unavailable :
  requests (trace (fst (runSpeedTest unavailable default_options initial_world)))
  = staged (run_plan default_options) [3; 0; 0; 0; 0; 0]%nat.
Proof. vm_compute. reflexivity. Qed.

(** ** Runs on a network without surprises *)

Lemma advances_refl w : advances w w [] 0.
Proof. unfold advances. rewrite app_nil_r. repeat split; lia. Qed.

Lemma advances_trans w1 w2 w3 evs1 evs2 n1 n2 :
  advances w1 w2 evs1 n1 -> advances w2 w3 evs2 n2 ->
  advances w1 w3 (evs1 ++ evs2) (n1 + n2).
Proof.
  intros (Ht1 & Hw1 & Hr1 & Hs1 & Ha1) (Ht2 & Hw2 & Hr2 & Hs2 & Ha2).
  unfold advances. rewrite Ht2, Ht1, Hw2, Hw1, Hr2, Hr1, Hs2, Hs1, Ha2, Ha1, app_assoc.
  repeat split; lia.
Qed.

Lemma withRetry_first_try {S E T} (sleep : Z -> S -> S) (fn : M S E T) r s s' v :
  (0 <= r)%Z -> fn s = (s', inr v) -> withRetry sleep fn r s = (s', inr v).
Proof.
  intros Hr Hfn. unfold withRetry. rewrite withRetry_loop_eq by lia.
  destruct (Z.leb_spec 0 r); [|lia]. rewrite Hfn. reflexivity.
Qed.

Lemma serves_tail env from count :
  serves env from (Datatypes.S count) -> serves env (Datatypes.S from) count.
Proof.
  intros H i Hi. replace (Datatypes.S from + i)%nat with (from + Datatypes.S i)%nat by lia.
  apply H. lia.
Qed.

Lemma serves_head env from count :
  serves env from (Datatypes.S count) -> served (network env from) = true.
Proof. intros H. rewrite <- (Nat.add_0_r from). apply H. lia. Qed.

Lemma serves_split env from n1 n2 :
  serves env from (n1 + n2) -> serves env from n1 /\ serves env (from + n1) n2.
Proof.
  intros H. split; intros i Hi.
  - apply H. lia.
  - rewrite <- Nat.add_assoc. apply H. lia.
Qed.

Section Served.
Variable env : Env.

Lemma fetch_served req w :
  served (network env (wire w)) = true ->
  aborted w = false ->
  exists rep,
    fetch env req w
    = (sent req w, inr {| from := rep; cancellable := guarded_by (req_signal req) |}) /\
    ((200 <=? status rep)%Z && (status rep <=? 299)%Z) = true /\
    abort_mid_body rep = false /\ body_arrives rep = true.
Proof.
  intros Hs Hw. unfold served in Hs.
  apply andb_true_iff in Hs as [Hflight Hs]. apply negb_true_iff in Hflight.
  destruct (reply (network env (wire w))) as [rep|] eqn:Hrep; [|discriminate].
  apply andb_true_iff in Hs as [Hs Hbody]. apply andb_true_iff in Hs as [Hok Hmid].
  apply negb_true_iff in Hmid.
  exists rep. repeat split; try assumption.
  unfold fetch. rewrite Hw, andb_false_r. cbv zeta.
  rewrite Hflight. unfold caller_may_abort. cbn [andb aborted record].
  rewrite Hw, andb_false_r, Hrep. unfold sent. rewrite Hw. reflexivity.
Qed.

Lemma drain_served rep guarded w :
  aborted w = false -> abort_mid_body rep = false -> body_arrives rep = true ->
  drain {| from := rep; cancellable := guarded |} w = (w, inr tt).
Proof.
  intros Hw Hmid Hbody. unfold drain. cbv zeta. cbn [from cancellable].
  rewrite Hmid, Hbody. unfold caller_may_abort. cbn [andb]. rewrite Hw, andb_false_r.
  reflexivity.
Qed.

(** The part that the three probes share. *)
Lemma request_served {A} req message (k : float -> M World JsError A) w :
  served (network env (wire w)) = true ->
  aborted w = false ->
  bind (fetch env req)
    (fun response =>
       if negb (ok response)
       then throw (StatusError message (status (from response)))
       else bind (arrayBuffer response)
              (fun _ => bind (performance_now env) k)) w
  = k (clock_reading env (readings w)) (tick (sent req w)).
Proof.
  intros Hs Hw. destruct (fetch_served req w Hs Hw) as (rep & Hfetch & Hok & Hmid & Hbody).
  unfold bind at 1. rewrite Hfetch. unfold ok. cbn [from]. rewrite Hok. cbn [negb].
  unfold bind at 1, arrayBuffer. rewrite drain_served by assumption.
  unfold bind at 1, performance_now. reflexivity.
Qed.

Lemma probed_advances req w :
  advances w (tick (sent req (tick w))) [Fetch req true] 1.
Proof. unfold advances. cbn. repeat split; lia. Qed.

Lemma latency_attempt_served signal w :
  served (network env (wire w)) = true ->
  aborted w = false ->
  exists duration,
    latency_attempt env signal w
    = (tick (sent (latency_request signal) (tick w)), inr duration).
Proof.
  intros Hs Hw. unfold latency_attempt. unfold bind at 1, performance_now.
  rewrite request_served by assumption. eexists. reflexivity.
Qed.

Lemma latency_loop_served signal todo :
  forall samples w,
    serves env (wire w) todo ->
    aborted w = false ->
    exists w' l,
      latency_loop env todo signal samples w = (w', inr l) /\
      advances w w' (repeat (Fetch (latency_request signal) true) todo) todo.
Proof.
  induction todo as [|todo IH]; intros samples w Hs Hw; cbn [latency_loop].
  - exists w, samples. split; [reflexivity | apply advances_refl].
  - destruct (latency_attempt_served signal w (serves_head _ _ _ Hs) Hw) as (d & Hd).
    unfold bind. rewrite Hd.
    destruct (IH (samples ++ [d]) (tick (sent (latency_request signal) (tick w)))
                (serves_tail _ _ _ Hs) Hw)
      as (w' & l & Hl & Hadv).
    exists w', l. split; [exact Hl|].
    change (advances w w' ([Fetch (latency_request signal) true]
                           ++ repeat (Fetch (latency_request signal) true) todo)
              (1 + todo)).
    eapply advances_trans; [apply probed_advances | exact Hadv].
Qed.

Lemma measureLatency_served signal w :
  serves env (wire w) LATENCY_ATTEMPTS ->
  aborted w = false ->
  exists w' m,
    measureLatency env signal w = (w', inr m) /\
    advances w w' (repeat (Fetch (latency_request signal) true) LATENCY_ATTEMPTS)
      LATENCY_ATTEMPTS.
Proof.
  intros Hs Hw. destruct (latency_loop_served signal LATENCY_ATTEMPTS [] w Hs Hw)
    as (w' & l & Hl & Hadv).
  unfold measureLatency, bind. rewrite Hl. eexists. eexists. split; [reflexivity | exact Hadv].
Qed.

Lemma measureDownloadForSize_served size signal w :
  served (network env (wire w)) = true ->
  aborted w = false ->
  exists sample,
    measureDownloadForSize env size signal w
    = (tick (sent (download_request size signal) (tick w)), inr sample).
Proof.
  intros Hs Hw. unfold measureDownloadForSize. unfold bind at 1, performance_now.
  rewrite request_served by assumption. eexists. reflexivity.
Qed.

Lemma measureUploadForSize_served size signal w :
  served (network env (wire w)) = true ->
  aborted w = false -> random_values_quota env size = true ->
  exists sample,
    measureUploadForSize env size signal w
    = (tick (sent (upload_request size signal) (tick w)), inr sample).
Proof.
  intros Hs Hw Hquota. unfold measureUploadForSize.
  unfold bind at 1, crypto_getRandomValues. rewrite Hquota.
  unfold ret at 1. unfold bind at 1, performance_now.
  rewrite request_served by assumption. eexists. reflexivity.
Qed.

Lemma progress_advances onProgress value phase w :
  exists w',
    progress onProgress value phase w = (w', inr tt) /\
    advances w w' (report onProgress value phase) 0.
Proof.
  unfold progress, report. destruct onProgress.
  - eexists. split; [reflexivity|]. unfold advances. cbn. repeat split; lia.
  - exists w. split; [reflexivity | apply advances_refl].
Qed.

Variable options : RunSpeedTestOptions.
Hypothesis budget : (0 <= retry_budget options)%Z.

Lemma download_loop_served todo :
  forall i downloadSamples w,
    serves env (wire w) (List.length todo) ->
    aborted w = false ->
    exists w' dl,
      download_loop env (onProgress options) (signal options) (retry_budget options)
        todo i downloadSamples w = (w', inr dl) /\
      advances w w' (download_events (onProgress options) (signal options) todo i)
        (List.length todo).
Proof.
  induction todo as [|size todo IH]; intros i downloadSamples w Hs Hw;
    cbn [download_loop download_events List.length] in *.
  - exists w, downloadSamples. split; [reflexivity | apply advances_refl].
  - destruct (measureDownloadForSize_served size (signal options) w
                (serves_head _ _ _ Hs) Hw) as (sample & Hsample).
    unfold bind at 1. rewrite (withRetry_first_try _ _ _ _ _ _ budget Hsample).
    destruct (progress_advances (onProgress options)
                (20 + (number_of_Z (i + 1) / number_of_nat (List.length DOWNLOAD_SIZES)) * 55)
                phase_download
                (tick (sent (download_request size (signal options)) (tick w))))
      as (w1 & Hp & Hadv1).
    unfold bind at 1. rewrite Hp.
    assert (Hw1 : aborted w1 = false) by (destruct Hadv1 as (_ & _ & _ & _ & ->); exact Hw).
    assert (Hs1 : serves env (wire w1) (List.length todo)).
    { destruct Hadv1 as (_ & -> & _). cbn [wire tick sent]. rewrite Nat.add_0_r.
      apply serves_tail, Hs. }
    destruct (IH (i + 1)%Z (downloadSamples ++ [sample]) w1 Hs1 Hw1)
      as (w' & dl & Hdl & Hadv).
    exists w', dl. split; [exact Hdl|].
    pose proof (advances_trans _ _ _ _ _ _ _
                  (advances_trans _ _ _ _ _ _ _ (probed_advances _ w) Hadv1) Hadv) as H.
    rewrite <- app_assoc in H. exact H.
Qed.

Lemma upload_loop_served todo :
  (forall size, In size todo -> random_values_quota env size = true) ->
  forall i uploadSamples w,
    serves env (wire w) (List.length todo) ->
    aborted w = false ->
    exists w' ul,
      upload_loop env (onProgress options) (signal options) (retry_budget options)
        todo i uploadSamples w = (w', inr ul) /\
      advances w w' (upload_events (onProgress options) (signal options) todo i)
        (List.length todo).
Proof.
  induction todo as [|size todo IH]; intros Hquota i uploadSamples w Hs Hw;
    cbn [upload_loop upload_events List.length] in *.
  - exists w, uploadSamples. split; [reflexivity | apply advances_refl].
  - destruct (measureUploadForSize_served size (signal options) w
                (serves_head _ _ _ Hs) Hw (Hquota size (or_introl eq_refl)))
      as (sample & Hsample).
    unfold bind at 1. rewrite (withRetry_first_try _ _ _ _ _ _ budget Hsample).
    destruct (progress_advances (onProgress options)
                (80 + (number_of_Z (i + 1) / number_of_nat (List.length UPLOAD_SIZES)) * 18)
                phase_upload
                (tick (sent (upload_request size (signal options)) (tick w))))
      as (w1 & Hp & Hadv1).
    unfold bind at 1. rewrite Hp.
    assert (Hw1 : aborted w1 = false) by (destruct Hadv1 as (_ & _ & _ & _ & ->); exact Hw).
    assert (Hs1 : serves env (wire w1) (List.length todo)).
    { destruct Hadv1 as (_ & -> & _). cbn [wire tick sent]. rewrite Nat.add_0_r.
      apply serves_tail, Hs. }
    destruct (IH (fun s Hin => Hquota s (or_intror Hin)) (i + 1)%Z
                (uploadSamples ++ [sample]) w1 Hs1 Hw1) as (w' & ul & Hul & Hadv).
    exists w', ul. split; [exact Hul|].
    pose proof (advances_trans _ _ _ _ _ _ _
                  (advances_trans _ _ _ _ _ _ _ (probed_advances _ w) Hadv1) Hadv) as H.
    rewrite <- app_assoc in H. exact H.
Qed.

Hypothesis quota :
  upload_enabled options = true ->
  forall size, In size UPLOAD_SIZES -> random_values_quota env size = true.

(** The run from the end of the latency stage on. *)
Lemma stages_served (latency : LatencyMetrics) w :
  serves env (wire w)
    (List.length DOWNLOAD_SIZES
     + (if upload_enabled options then List.length UPLOAD_SIZES else 0)) ->
  aborted w = false ->
  exists w' res,
    (progress (onProgress options) 20 phase_latency ;;;
     downloadSamples <- download_loop env (onProgress options) (signal options)
                          (retry_budget options) DOWNLOAD_SIZES 0 [] ;;
     uploadMbps <-
       (if upload_enabled options
        then
          uploadSamples <- upload_loop env (onProgress options) (signal options)
                             (retry_budget options) UPLOAD_SIZES 0 [] ;;
          ret (Some (averageThroughput uploadSamples))
        else ret None) ;;
     progress (onProgress options) 100 phase_completed ;;;
     ret {| downloadMbps := Some (averageThroughput downloadSamples);
            uploadMbps := uploadMbps;
            latency := Some latency; timestamp := date_now env |}) w
    = (w', inr res) /\
    advances w w' (stages_trace options)
      (List.length DOWNLOAD_SIZES
       + (if upload_enabled options then List.length UPLOAD_SIZES else 0)).
Proof.
  intros Hs Hw. apply serves_split in Hs as [Hsd Hsu].
  destruct (progress_advances (onProgress options) 20 phase_latency w) as (w3 & Hp3 & Ha3).
  unfold bind at 1. rewrite Hp3.
  assert (Hw3 : aborted w3 = false) by (destruct Ha3 as (_ & _ & _ & _ & ->); exact Hw).
  assert (Hwire3 : wire w3 = wire w) by (destruct Ha3 as (_ & -> & _); lia).
  rewrite <- Hwire3 in Hsd, Hsu.
  destruct (download_loop_served DOWNLOAD_SIZES 0 [] w3 Hsd Hw3) as (w4 & dl & Hdl & Ha4).
  unfold bind at 1. rewrite Hdl.
  assert (Hw4 : aborted w4 = false) by (destruct Ha4 as (_ & _ & _ & _ & ->); exact Hw3).
  assert (Hwire4 : wire w4 = (wire w3 + List.length DOWNLOAD_SIZES)%nat)
    by (destruct Ha4 as (_ & -> & _); reflexivity).
  rewrite <- Hwire4 in Hsu.
  pose proof (advances_trans _ _ _ _ _ _ _ Ha3 Ha4) as Ha.
  unfold stages_trace.
  destruct (upload_enabled options) eqn:Hup.
  - destruct (upload_loop_served UPLOAD_SIZES (quota eq_refl) 0 [] w4 Hsu Hw4)
      as (w5 & ul & Hul & Ha5).
    unfold bind at 1. unfold bind at 1. rewrite Hul. unfold ret at 1.
    destruct (progress_advances (onProgress options) 100 phase_completed w5)
      as (w6 & Hp6 & Ha6).
    unfold bind at 1. rewrite Hp6.
    eexists. eexists. split; [reflexivity|].
    pose proof (advances_trans _ _ _ _ _ _ _ (advances_trans _ _ _ _ _ _ _ Ha Ha5) Ha6) as H.
    rewrite <- !app_assoc in H. rewrite Nat.add_0_r in H. exact H.
  - unfold bind at 1. unfold ret at 1.
    destruct (progress_advances (onProgress options) 100 phase_completed w4)
      as (w6 & Hp6 & Ha6).
    unfold bind at 1. rewrite Hp6.
    eexists. eexists. split; [reflexivity|].
    pose proof (advances_trans _ _ _ _ _ _ _ Ha Ha6) as H.
    rewrite <- !app_assoc in H. rewrite !Nat.add_0_r in H.
    cbn [app]. rewrite Nat.add_0_r. exact H.
Qed.

Lemma runSpeedTest_served w :
  serves env (wire w) (healthy_requests options) ->
  aborted w = false ->
  exists w' res,
    runSpeedTest env options w = (w', inr res) /\
    advances w w' (healthy_trace options) (healthy_requests options).
Proof.
  intros Hs Hw. unfold runSpeedTest. cbv zeta.
  fold (upload_enabled options) (retry_budget options).
  unfold healthy_requests in *. rewrite <- Nat.add_assoc in Hs.
  apply serves_split in Hs as [Hsl Hss].
  destruct (progress_advances (onProgress options) 2 phase_latency w) as (w1 & Hp1 & Ha1).
  unfold bind at 1. rewrite Hp1.
  assert (Hw1 : aborted w1 = false) by (destruct Ha1 as (_ & _ & _ & _ & ->); exact Hw).
  assert (Hwire1 : wire w1 = wire w) by (destruct Ha1 as (_ & -> & _); lia).
  rewrite <- Hwire1 in Hsl, Hss.
  destruct (measureLatency_served (signal options) w1 Hsl Hw1) as (w2 & lat & Hlat & Ha2).
  unfold bind at 1. rewrite (withRetry_first_try _ _ _ _ _ _ budget Hlat).
  assert (Hw2 : aborted w2 = false) by (destruct Ha2 as (_ & _ & _ & _ & ->); exact Hw1).
  assert (Hwire2 : wire w2 = (wire w1 + LATENCY_ATTEMPTS)%nat)
    by (destruct Ha2 as (_ & -> & _); reflexivity).
  rewrite <- Hwire2 in Hss.
  destruct (stages_served lat w2 Hss Hw2) as (w' & res & Hrest & Ha3).
  rewrite Hrest. exists w', res. split; [reflexivity|].
  pose proof (advances_trans _ _ _ _ _ _ _ (advances_trans _ _ _ _ _ _ _ Ha1 Ha2) Ha3) as H.
  rewrite <- !app_assoc in H. rewrite <- Nat.add_assoc. exact H.
Qed.
End Served.

(** Property X9.  On a network that serves the requests of the run (a status of success,
    the whole body), with a platform that fills the upload buffers and a
    caller that has not aborted, a run with a budget [r >= 0] returns a
    result.  It makes each request once, in the order of the stages (8
    latency requests, the 3 downloads and, if upload is enabled, the 2
    uploads), reports the progress after each step, reads the clock twice
    per request and never sleeps. *)
Theorem X9_runSpeedTest_healthy (env : Env) (options : RunSpeedTestOptions) (w : World) :
  serves env (wire w) (healthy_requests options) ->
  (upload_enabled options = true ->
   forall size, In size UPLOAD_SIZES -> random_values_quota env size = true) ->
  (0 <= retry_budget options)%Z ->
  aborted w = false ->
  exists w' res,
    runSpeedTest env options w = (w', inr res) /\
    trace w' = trace w ++ healthy_trace options /\
    wire w' = (wire w + (8 + 3 + (if upload_enabled options then 2 else 0)))%nat /\
    readings w' = (readings w + 2 * (8 + 3 + (if upload_enabled options then 2 else 0)))%nat /\
    sleeps w' = sleeps w.
Proof.
  intros Hserved Hquota Hbudget Hw.
  destruct (runSpeedTest_served env options Hbudget Hquota w Hserved Hw)
    as (w' & res & Hrun & Ht & Hwire & Hread & Hsleep & _).
  exists w', res. split; [exact Hrun|]. split; [exact Ht|].
  unfold healthy_requests, LATENCY_ATTEMPTS, DOWNLOAD_SIZES, UPLOAD_SIZES in Hwire, Hread.
  cbn [List.length] in Hwire, Hread.
  repeat split; [|  | exact Hsleep];
    destruct (upload_enabled options); assumption.
Qed.

Lemma X9_runSpeedTest_healthy_witness :
  exists w' res,
    runSpeedTest scenario default_options initial_world = (w', inr res) /\
    trace w' = trace initial_world ++ healthy_trace default_options /\
    wire w' = (wire initial_world + (8 + 3 + (if upload_enabled default_options then 2 else 0)))%nat /\
    readings w'
    = (readings initial_world
       + 2 * (8 + 3 + (if upload_enabled default_options then 2 else 0)))%nat /\
    sleeps w' = sleeps initial_world.
Proof.
  apply (X9_runSpeedTest_healthy scenario default_options initial_world).
  - intros i _. reflexivity.
  - intros _ size _. reflexivity.
  - vm_compute. discriminate.
  - reflexivity.
Defined.

(** The events of such a run with the default options. *)
Example healthy_trace_default :
  healthy_trace default_options
  = [Progress 2 phase_latency]
    ++ repeat (Fetch (latency_request (Some caller_signal)) true) 8
    ++ [Progress 20 phase_latency;
        Fetch (download_request 1048576 (Some caller_signal)) true;
        Progress (20 + (1 / 3) * 55) phase_download;
        Fetch (download_request 5242880 (Some caller_signal)) true;
        Progress (20 + (2 / 3) * 55) phase_download;
        Fetch (download_request 10485760 (Some caller_signal)) true;
        Progress 75 phase_download;
        Fetch (upload_request 1048576 (Some caller_signal)) true;
        Progress 89 phase_upload;
        Fetch (upload_request 2097152 (Some caller_signal)) true;
        Progress 98 phase_upload;
        Progress 100 phase_completed]%float.
Proof. vm_compute. reflexivity. Qed.

(** *** A server that cannot be reached or refuses *)

Lemma attempts_trace_S q first count :
  attempts_trace q first (Datatypes.S count)
  = Fetch q true :: Sleep (300 * first) :: attempts_trace q (first + 1) count.
Proof.
  unfold attempts_trace. change (seq 0 (Datatypes.S count)) with (0%nat :: seq 1 count).
  rewrite <- seq_shift. cbn [flat_map]. rewrite flat_map_concat_map, map_map,
    <- flat_map_concat_map.
  replace (first + Z.of_nat 0)%Z with first by lia. cbn [app].
  do 3 f_equal. apply flat_map_ext. intros j.
  replace (first + Z.of_nat (Datatypes.S j))%Z with (first + 1 + Z.of_nat j)%Z by lia.
  reflexivity.
Qed.

Section Refused.
Variable env : Env.
Hypothesis quiet : never_aborts env.
Variable signal : option AbortSignal.

Lemma sleep_quiet ms w : setTimeout_sleep env ms w = slept ms w.
Proof.
  destruct quiet as (_ & _ & Hsleep). unfold setTimeout_sleep.
  rewrite Hsleep. reflexivity.
Qed.

Lemma fetch_quiet req w :
  aborted w = false ->
  fetch env req w
  = (sent req w,
     match reply (network env (wire w)) with
     | Some rep => inr {| from := rep; cancellable := guarded_by (req_signal req) |}
     | None => inl NetworkError
     end).
Proof.
  intros Hw. destruct quiet as (Hflight & _ & _).
  unfold fetch. rewrite Hw, andb_false_r. cbv zeta.
  rewrite Hflight. unfold caller_may_abort. cbn [andb aborted record].
  rewrite Hw, andb_false_r. unfold sent. rewrite Hw.
  destruct (reply (network env (wire w))); reflexivity.
Qed.

Lemma latency_attempt_refused w e :
  aborted w = false ->
  request_error "Latency request failed with status " (network env (wire w)) = Some e ->
  latency_attempt env signal w = (sent (latency_request signal) (tick w), inl e).
Proof.
  intros Hw He. unfold latency_attempt.
  unfold bind at 1, performance_now. fold (tick w).
  unfold bind at 1. rewrite (fetch_quiet _ (tick w)) by exact Hw.
  cbn [wire tick]. unfold request_error in He.
  destruct (reply (network env (wire w))) as [rep|].
  - unfold ok. cbn [from].
    destruct ((200 <=? status rep)%Z && (status rep <=? 299)%Z); [discriminate|].
    injection He as <-. reflexivity.
  - injection He as <-. reflexivity.
Qed.

Lemma measureLatency_refused w e :
  aborted w = false ->
  request_error "Latency request failed with status " (network env (wire w)) = Some e ->
  measureLatency env signal w = (sent (latency_request signal) (tick w), inl e).
Proof.
  intros Hw He.
  unfold measureLatency, LATENCY_ATTEMPTS. cbn [latency_loop].
  unfold bind at 1. unfold bind at 1. rewrite (latency_attempt_refused w e Hw He).
  reflexivity.
Qed.

(** The loop of the latency probe when its first [j] requests are served
    and the next one fails: the samples taken so far are lost. *)
Lemma latency_loop_fails j :
  forall todo samples w e,
    (j < todo)%nat -> serves env (wire w) j ->
    request_error "Latency request failed with status " (network env (wire w + j)) = Some e ->
    aborted w = false ->
    exists w',
      latency_loop env todo signal samples w = (w', inl e) /\
      trace w' = trace w ++ repeat (Fetch (latency_request signal) true) (j + 1) /\
      wire w' = (wire w + j + 1)%nat /\ aborted w' = false.
Proof.
  induction j as [|j IH]; intros todo samples w e Hj Hs He Hw;
    (destruct todo as [|todo]; [lia|]); cbn [latency_loop].
  - rewrite Nat.add_0_r in He. unfold bind. rewrite (latency_attempt_refused w e Hw He).
    eexists. split; [reflexivity|]. cbn. repeat split; [lia | exact Hw].
  - destruct (latency_attempt_served env signal w (serves_head _ _ _ Hs) Hw) as (d & Hd).
    unfold bind. rewrite Hd.
    destruct (IH todo (samples ++ [d]) (tick (sent (latency_request signal) (tick w))) e)
      as (w' & Hloop & Ht & Hwire & Ha);
      [lia | apply serves_tail, Hs
      | cbn [wire tick sent]; rewrite <- He; do 2 f_equal; lia | exact Hw |].
    exists w'. split; [exact Hloop|].
    cbn [trace wire tick sent] in Ht, Hwire. rewrite Ht, Hwire, <- app_assoc.
    split; [|split; [lia | exact Ha]].
    replace (Datatypes.S j + 1)%nat with (Datatypes.S (j + 1)) by lia. reflexivity.
Qed.

Hypothesis refused :
  forall n, request_error "Latency request failed with status " (network env n) <> None.

Lemma withRetry_loop_refused m :
  forall n r a lastError w,
    (Z.to_nat (r + 1 - a) <= n)%nat -> (a <= r)%Z -> m = Z.to_nat (r - a) ->
    aborted w = false ->
    exists w' e,
      withRetry_loop (setTimeout_sleep env) (measureLatency env signal) n r a lastError w
      = (w', inl (caught e)) /\
      request_error "Latency request failed with status " (network env (wire w + m))
      = Some e /\
      trace w' = trace w ++ attempts_trace (latency_request signal) (a + 1) m /\
      wire w' = (wire w + m + 1)%nat /\ readings w' = (readings w + m + 1)%nat /\
      sleeps w' = (sleeps w + m)%nat.
Proof.
  induction m as [|m IH]; intros n r a lastError w Hn Har Hm Hw;
    rewrite withRetry_loop_eq by assumption;
    (destruct (Z.leb_spec a r); [|lia]);
    (destruct (request_error "Latency request failed with status " (network env (wire w)))
       as [e|] eqn:He; [|exfalso; exact (refused (wire w) He)]);
    rewrite (measureLatency_refused w e Hw He).
  - destruct (Z.eqb_spec a r); [|lia].
    eexists. exists e. split; [reflexivity|]. rewrite Nat.add_0_r.
    split; [exact He|]. cbn. repeat split; lia.
  - destruct (Z.eqb_spec a r); [lia|].
    rewrite sleep_quiet.
    destruct (IH (Nat.pred n) r (a + 1)%Z (caught e)
                (slept (300 * (a + 1)) (sent (latency_request signal) (tick w))))
      as (w' & e' & Hloop & He' & Ht & Hwire & Hread & Hsleep);
      [lia | lia | lia | cbn; exact Hw |].
    exists w', e'. split; [exact Hloop|].
    cbn [slept sent tick trace wire readings sleeps] in *.
    repeat split.
    + rewrite <- He'. do 2 f_equal. lia.
    + rewrite Ht, attempts_trace_S, <- !app_assoc. reflexivity.
    + lia.
    + lia.
    + lia.
Qed.
End Refused.

(** Property X10.  A server that cannot be reached, or that answers every request with a
    status outside 200..299, stops the run in its first stage.  With a
    budget [r >= 0] and a caller who does not abort, the run reports the
    progress 2, makes the latency request [r + 1] times (each attempt ends
    at its first request), sleeps 300, 600, ..., [300 * r] ms in between
    and throws the error of the last attempt. *)
Theorem X10_runSpeedTest_server_refuses (env : Env) (options : RunSpeedTestOptions) (w : World) :
  never_aborts env ->
  (forall n, request_error "Latency request failed with status " (network env n) <> None) ->
  (0 <= retry_budget options)%Z ->
  aborted w = false ->
  exists w' e,
    runSpeedTest env options w = (w', inl (caught e)) /\
    request_error "Latency request failed with status "
      (network env (wire w + Z.to_nat (retry_budget options))) = Some e /\
    trace w'
    = trace w ++ report (onProgress options) 2 phase_latency
      ++ attempts_trace (latency_request (signal options)) 1
           (Z.to_nat (retry_budget options)) /\
    wire w' = (wire w + Z.to_nat (retry_budget options) + 1)%nat.
Proof.
  intros Hquiet Hrefused Hbudget Hw.
  unfold runSpeedTest. cbv zeta. fold (retry_budget options).
  destruct (progress_advances (onProgress options) 2 phase_latency w)
    as (w1 & Hp & Ht1 & Hwire1 & _ & _ & Ha1).
  unfold bind at 1. rewrite Hp.
  destruct (withRetry_loop_refused env Hquiet (signal options) Hrefused
              (Z.to_nat (retry_budget options)) (Z.to_nat (retry_budget options + 1))
              (retry_budget options) 0 undefined w1)
    as (w' & e & Hloop & He & Ht & Hwire & _ & _);
    [lia | lia | f_equal; lia | rewrite Ha1; exact Hw |].
  unfold bind at 1. unfold withRetry. rewrite Hloop.
  exists w', e. split; [reflexivity|].
  rewrite Hwire1, Nat.add_0_r in He, Hwire. repeat split; [exact He | | exact Hwire].
  rewrite Ht, Ht1, <- app_assoc. reflexivity.
Qed.

Lemma X10_runSpeedTest_server_refuses_witness :
  exists w' e,
    runSpeedTest unavailable default_options initial_world = (w', inl (caught e)) /\
    request_error "Latency request failed with status "
      (network unavailable (wire initial_world + Z.to_nat (retry_budget default_options)))
    = Some e /\
    trace w'
    = trace initial_world ++ report (onProgress default_options) 2 phase_latency
      ++ attempts_trace (latency_request (signal default_options)) 1
           (Z.to_nat (retry_budget default_options)) /\
    wire w' = (wire initial_world + Z.to_nat (retry_budget default_options) + 1)%nat.
Proof.
  apply (X10_runSpeedTest_server_refuses unavailable default_options initial_world).
  - split; [|split]; [intros n; reflexivity | | intros n; reflexivity].
    intros n rep H. injection H as <-. reflexivity.
  - intros n. discriminate.
  - vm_compute. discriminate.
  - reflexivity.
Defined.

(** With the default budget: three requests, 300 ms and 600 ms apart, and
    the error of the status 503. *)
Example unavailable_run :
  exists w',
    runSpeedTest unavailable default_options initial_world
    = (w', inl (caught (StatusError "Latency request failed with status " 503))) /\
    trace w'
    = [Progress 2 phase_latency;
       Fetch (latency_request (Some caller_signal)) true; Sleep 300;
       Fetch (latency_request (Some caller_signal)) true; Sleep 600;
       Fetch (latency_request (Some caller_signal)) true].
Proof. eexists. split; vm_compute; reflexivity. Qed.

(** *** A failure that a retry repairs *)

(** Property X11.  One failed request in the latency stage makes the stage start over.
    When the first [j] latency requests are served, the next one fails (on
    the network or by its status) and the requests after it are served, a
    run with a budget of at least 1 drops the [j] samples, sleeps 300 ms,
    measures the latency again with 8 new requests and completes as on a
    network without failures. *)
Theorem X11_runSpeedTest_restarts_latency (env : Env) (options : RunSpeedTestOptions)
    (w : World) (j : nat) (e : JsError) :
  never_aborts env ->
  aborted w = false ->
  (1 <= retry_budget options)%Z ->
  (j < 8)%nat ->
  serves env (wire w) j ->
  request_error "Latency request failed with status " (network env (wire w + j)) = Some e ->
  serves env (wire w + j + 1) (healthy_requests options) ->
  (upload_enabled options = true ->
   forall size, In size UPLOAD_SIZES -> random_values_quota env size = true) ->
  exists w' res,
    runSpeedTest env options w = (w', inr res) /\
    trace w'
    = trace w ++ report (onProgress options) 2 phase_latency
      ++ repeat (Fetch (latency_request (signal options)) true) (j + 1)
      ++ [Sleep 300]
      ++ repeat (Fetch (latency_request (signal options)) true) 8
      ++ stages_trace options /\
    wire w' = (wire w + (j + 1) + healthy_requests options)%nat.
Proof.
  intros Hquiet Hw Hbudget Hj Hsj He Hs Hquota.
  unfold runSpeedTest. cbv zeta. fold (upload_enabled options) (retry_budget options).
  replace (healthy_requests options)
    with (LATENCY_ATTEMPTS
          + (List.length DOWNLOAD_SIZES
             + (if upload_enabled options then List.length UPLOAD_SIZES else 0)))%nat in Hs
    by (unfold healthy_requests; lia).
  apply serves_split in Hs as [Hsl Hss].
  destruct (progress_advances (onProgress options) 2 phase_latency w)
    as (w1 & Hp1 & Ht1 & Hwire1 & _ & _ & Ha1).
  unfold bind at 1. rewrite Hp1. rewrite Nat.add_0_r in Hwire1.
  rewrite <- Hwire1 in Hsj, He, Hsl, Hss. rewrite <- Ha1 in Hw.
  destruct (latency_loop_fails env Hquiet (signal options) j LATENCY_ATTEMPTS [] w1 e
              Hj Hsj He Hw) as (w2 & Hloop & Ht2 & Hwire2 & Ha2).
  assert (Hfirst : measureLatency env (signal options) w1 = (w2, inl e))
    by (unfold measureLatency, bind; rewrite Hloop; reflexivity).
  replace (wire w1 + j + 1)%nat with (wire (slept 300 w2)) in Hsl, Hss
    by (cbn [wire slept]; lia).
  destruct (measureLatency_served env (signal options) (slept 300 w2) Hsl Ha2)
    as (w4 & lat & Hlat & Ht4 & Hwire4 & _ & _ & Ha4).
  assert (Hretry : withRetry (setTimeout_sleep env) (measureLatency env (signal options))
                     (retry_budget options) w1 = (w4, inr lat)).
  { unfold withRetry. rewrite withRetry_loop_eq by lia.
    destruct (Z.leb_spec 0 (retry_budget options)); [|lia]. rewrite Hfirst.
    destruct (Z.eqb_spec 0 (retry_budget options)); [lia|].
    rewrite (sleep_quiet env Hquiet). rewrite withRetry_loop_eq by lia.
    destruct (Z.leb_spec (0 + 1) (retry_budget options)); [|lia].
    change (300 * (0 + 1))%Z with 300%Z. rewrite Hlat. reflexivity. }
  unfold bind at 1. rewrite Hretry.
  rewrite <- Hwire4 in Hss.
  destruct (stages_served env options ltac:(lia) Hquota lat w4 Hss
              ltac:(rewrite Ha4; exact Ha2))
    as (w' & res & Hrest & Ht' & Hwire' & _).
  rewrite Hrest. exists w', res. split; [reflexivity|]. split.
  - rewrite Ht', Ht4. cbn [trace slept]. rewrite Ht2, Ht1, <- !app_assoc. reflexivity.
  - rewrite Hwire', Hwire4. cbn [wire slept]. rewrite Hwire2, Hwire1.
    unfold healthy_requests. lia.
Qed.

Lemma X11_runSpeedTest_restarts_latency_witness :
  exists w' res,
    runSpeedTest (one_failure 3) default_options initial_world = (w', inr res) /\
    trace w'
    = trace initial_world ++ report (onProgress default_options) 2 phase_latency
      ++ repeat (Fetch (latency_request (signal default_options)) true) (3 + 1)
      ++ [Sleep 300]
      ++ repeat (Fetch (latency_request (signal default_options)) true) 8
      ++ stages_trace default_options /\
    wire w' = (wire initial_world + (3 + 1) + healthy_requests default_options)%nat.
Proof.
  apply (X11_runSpeedTest_restarts_latency (one_failure 3) default_options initial_world 3
           NetworkError).
  - split; [|split].
    + intros n. unfold one_failure. cbn [network]. destruct (n =? 3)%nat; reflexivity.
    + intros n rep. unfold one_failure. cbn [network].
      destruct (n =? 3)%nat; intros H; [discriminate | injection H as <-; reflexivity].
    + intros n. reflexivity.
  - reflexivity.
  - vm_compute. discriminate.
  - lia.
  - intros i Hi. unfold one_failure. cbn [network wire initial_world].
    destruct (Nat.eqb_spec (0 + i) 3); [lia | reflexivity].
  - reflexivity.
  - intros i Hi. unfold one_failure. cbn [network wire initial_world].
    destruct (Nat.eqb_spec (0 + 3 + 1 + i) 3); [lia | reflexivity].
  - intros _ size _. reflexivity.
Defined.

(** ** A signal that has fired before the run *)

Lemma refused_trace_S q first count :
  refused_trace q first (Datatypes.S count)
  = Fetch q false :: Sleep (300 * first) :: refused_trace q (first + 1) count.
Proof.
  unfold refused_trace. change (seq 0 (Datatypes.S count)) with (0%nat :: seq 1 count).
  rewrite <- seq_shift. cbn [flat_map]. rewrite flat_map_concat_map, map_map,
    <- flat_map_concat_map.
  replace (first + Z.of_nat 0)%Z with first by lia. cbn [app].
  do 3 f_equal. apply flat_map_ext. intros j.
  replace (first + Z.of_nat (Datatypes.S j))%Z with (first + 1 + Z.of_nat j)%Z by lia.
  reflexivity.
Qed.

Section AlreadyAborted.
Variable env : Env.
Variable s : AbortSignal.

Lemma measureLatency_aborted w :
  aborted w = true ->
  measureLatency env (Some s) w
  = (record (Fetch (latency_request (Some s)) false) (tick w), inl AbortError).
Proof.
  intros Hw. unfold measureLatency, LATENCY_ATTEMPTS. cbn [latency_loop].
  unfold bind at 1. unfold bind at 1. unfold latency_attempt.
  unfold bind at 1, performance_now. fold (tick w).
  unfold bind at 1, fetch. cbn [req_signal latency_request aborted tick andb].
  rewrite Hw. reflexivity.
Qed.

Lemma sleep_aborted ms w : aborted w = true -> setTimeout_sleep env ms w = slept ms w.
Proof.
  intros Hw. unfold setTimeout_sleep, caller_may_abort. cbn [aborted].
  rewrite Hw. cbn [negb]. rewrite andb_false_r. unfold slept. rewrite Hw. reflexivity.
Qed.

Lemma withRetry_loop_aborted m :
  forall n r a lastError w,
    (Z.to_nat (r + 1 - a) <= n)%nat -> (a <= r)%Z -> m = Z.to_nat (r - a) ->
    aborted w = true ->
    exists w',
      withRetry_loop (setTimeout_sleep env) (measureLatency env (Some s)) n r a lastError w
      = (w', inl (caught AbortError)) /\
      trace w' = trace w ++ refused_trace (latency_request (Some s)) (a + 1) m /\
      wire w' = wire w /\ sleeps w' = (sleeps w + m)%nat.
Proof.
  induction m as [|m IH]; intros n r a lastError w Hn Har Hm Hw;
    rewrite withRetry_loop_eq by assumption;
    (destruct (Z.leb_spec a r); [|lia]);
    rewrite (measureLatency_aborted w Hw).
  - destruct (Z.eqb_spec a r); [|lia].
    eexists. split; [reflexivity|]. cbn. repeat split. lia.
  - destruct (Z.eqb_spec a r); [lia|].
    rewrite sleep_aborted by exact Hw.
    destruct (IH (Nat.pred n) r (a + 1)%Z (caught AbortError)
                (slept (300 * (a + 1))
                   (record (Fetch (latency_request (Some s)) false) (tick w))))
      as (w' & Hloop & Ht & Hwire & Hsleep);
      [lia | lia | lia | exact Hw |].
    exists w'. split; [exact Hloop|].
    cbn [slept record tick trace wire sleeps] in *.
    split; [|split; [exact Hwire | lia]].
    rewrite Ht, refused_trace_S, <- !app_assoc. reflexivity.
Qed.
End AlreadyAborted.

(** Property X21.  A run that is given a signal that has already fired puts
    nothing on the wire.  With a budget [r >= 0] it reports the progress 2,
    calls [fetch] for the latency request [r + 1] times, each call refused
    at once, sleeps 300, 600, ..., [300 * r] ms in between all the same,
    and throws the abort error. *)
Theorem X21_runSpeedTest_already_aborted (env : Env) (options : RunSpeedTestOptions)
    (w : World) :
  signal options = Some caller_signal ->
  aborted w = true ->
  (0 <= retry_budget options)%Z ->
  exists w',
    runSpeedTest env options w = (w', inl (caught AbortError)) /\
    trace w'
    = trace w ++ report (onProgress options) 2 phase_latency
      ++ refused_trace (latency_request (Some caller_signal)) 1
           (Z.to_nat (retry_budget options)) /\
    wire w' = wire w /\
    sleeps w' = (sleeps w + Z.to_nat (retry_budget options))%nat.
Proof.
  intros Hsig Hw Hbudget.
  unfold runSpeedTest. cbv zeta. fold (retry_budget options). rewrite Hsig.
  destruct (progress_advances (onProgress options) 2 phase_latency w)
    as (w1 & Hp & Ht1 & Hwire1 & _ & Hsleep1 & Ha1).
  unfold bind at 1. rewrite Hp.
  destruct (withRetry_loop_aborted env caller_signal
              (Z.to_nat (retry_budget options)) (Z.to_nat (retry_budget options + 1))
              (retry_budget options) 0 undefined w1)
    as (w' & Hloop & Ht & Hwire & Hsleep);
    [lia | lia | f_equal; lia | rewrite Ha1; exact Hw |].
  unfold bind at 1. unfold withRetry. rewrite Hloop.
  exists w'. split; [reflexivity|].
  rewrite Hwire, Hwire1, Hsleep, Hsleep1, Ht, Ht1, <- app_assoc.
  repeat split. lia.
Qed.

Lemma X21_runSpeedTest_already_aborted_witness :
  exists w',
    runSpeedTest scenario default_options already_aborted = (w', inl (caught AbortError)) /\
    trace w'
    = trace already_aborted ++ report (onProgress default_options) 2 phase_latency
      ++ refused_trace (latency_request (Some caller_signal)) 1
           (Z.to_nat (retry_budget default_options)) /\
    wire w' = wire already_aborted /\
    sleeps w' = (sleeps already_aborted + Z.to_nat (retry_budget default_options))%nat.
Proof.
  apply (X21_runSpeedTest_already_aborted scenario default_options already_aborted).
  - reflexivity.
  - reflexivity.
  - vm_compute. discriminate.
Defined.

(** * Properties of the component *)

Lemma skipn_trace_app {A} (xs ys : list A) : skipn (List.length xs) (xs ++ ys) = ys.
Proof. induction xs as [|x xs IH]; [reflexivity | exact IH]. Qed.

(** The events of the run are what the run adds to the trace. *)
Lemma run_events_spec env w evs :
  trace (fst (runSpeedTest env SpeedTest.options (SpeedTest.new_controller w)))
  = trace w ++ evs ->
  run_events env w = evs.
Proof. intros H. unfold run_events. rewrite H. apply skipn_trace_app. Qed.

Lemma startTest_eq env c b w :
  SpeedTest.isRunning c = false ->
  SpeedTest.startTest env (c, b) w
  = (SpeedTest.settle env (SpeedTest.isp c)
       (snd (runSpeedTest env SpeedTest.options (SpeedTest.new_controller w)))
       (fold_left SpeedTest.during (run_events env w) (SpeedTest.starting c), b),
     fst (runSpeedTest env SpeedTest.options (SpeedTest.new_controller w))).
Proof.
  intros Hc. unfold SpeedTest.startTest, run_events. rewrite Hc. cbv zeta.
  destruct (runSpeedTest env SpeedTest.options (SpeedTest.new_controller w)) as [w' out].
  reflexivity.
Qed.

(** The callback and the Cancel button leave the result, the error, the
    history, the provider and the theme alone. *)
Lemma during_frame c ev :
  SpeedTest.result (SpeedTest.during c ev) = SpeedTest.result c /\
  SpeedTest.error (SpeedTest.during c ev) = SpeedTest.error c /\
  SpeedTest.history (SpeedTest.during c ev) = SpeedTest.history c /\
  SpeedTest.isp (SpeedTest.during c ev) = SpeedTest.isp c /\
  SpeedTest.theme (SpeedTest.during c ev) = SpeedTest.theme c.
Proof. destruct ev; repeat split. Qed.

Lemma fold_during_frame evs : forall c,
  SpeedTest.result (fold_left SpeedTest.during evs c) = SpeedTest.result c /\
  SpeedTest.error (fold_left SpeedTest.during evs c) = SpeedTest.error c /\
  SpeedTest.history (fold_left SpeedTest.during evs c) = SpeedTest.history c /\
  SpeedTest.isp (fold_left SpeedTest.during evs c) = SpeedTest.isp c /\
  SpeedTest.theme (fold_left SpeedTest.during evs c) = SpeedTest.theme c.
Proof.
  induction evs as [|ev evs IH]; intros c; [repeat split|].
  cbn [fold_left]. destruct (IH (SpeedTest.during c ev)) as (H1 & H2 & H3 & H4 & H5).
  destruct (during_frame c ev) as (G1 & G2 & G3 & G4 & G5).
  repeat split; congruence.
Qed.

(** Property X12.  What [startTest] leaves behind.  A click while a run is in progress
    does nothing.  Otherwise the run is awaited and, whatever its outcome,
    the component is no longer running and holds no controller.  If the run
    returns, the page shows the phase completed, 100 and the result; the
    result is put in front of the history with the provider known at the
    click, the history is cut to five entries and stored.  If the run
    throws the abort error, the page goes back to idle without a message.
    If it throws anything else, the page shows the phase error and the
    message, and the value is logged in a build that keeps the calls of
    [console.*]; the production build logs nothing.  In both cases the
    history and the store are as before. *)
Theorem X12_startTest_outcome (env : Env) (c : SpeedTest.Component) (b : SpeedTest.Browser)
    (w : World) :
  let run := runSpeedTest env SpeedTest.options (SpeedTest.new_controller w) in
  let ui' := fst (SpeedTest.startTest env (c, b) w) in
  let c' := fst ui' in
  let b' := snd ui' in
  (SpeedTest.isRunning c = true -> SpeedTest.startTest env (c, b) w = ((c, b), w)) /\
  (SpeedTest.isRunning c = false ->
   snd (SpeedTest.startTest env (c, b) w) = fst run /\
   SpeedTest.isRunning c' = false /\ SpeedTest.abortControllerRef c' = None /\
   SpeedTest.isp c' = SpeedTest.isp c /\ SpeedTest.theme c' = SpeedTest.theme c /\
   match snd run with
   | inr testResult =>
       SpeedTest.phase c' = phase_completed /\ SpeedTest.progress c' = 100%float /\
       SpeedTest.result c' = Some testResult /\ SpeedTest.error c' = None /\
       SpeedTest.history c'
       = firstn 5 ({| extends := testResult; isp := SpeedTest.isp c |} :: SpeedTest.history c) /\
       SpeedTest.stored_history b' = Some (SpeedTest.history c') /\
       SpeedTest.console_errors b' = SpeedTest.console_errors b
   | inl err =>
       SpeedTest.progress c' = 0%float /\ SpeedTest.result c' = None /\
       SpeedTest.history c' = SpeedTest.history c /\
       SpeedTest.stored_history b' = SpeedTest.stored_history b /\
       if match err with caught AbortError => true | _ => false end
       then SpeedTest.phase c' = phase_idle /\ SpeedTest.error c' = None /\ b' = b
       else SpeedTest.phase c' = phase_error /\
            SpeedTest.error c' = Some SpeedTest.ERROR_MESSAGE /\
            SpeedTest.console_errors b'
            = if removeConsole env then SpeedTest.console_errors b
              else SpeedTest.console_errors b ++ [err]
   end).
Proof.
  cbv zeta. split.
  - intros Hc. unfold SpeedTest.startTest. rewrite Hc. reflexivity.
  - intros Hc. rewrite (startTest_eq env c b w Hc). cbn [fst snd].
    destruct (fold_during_frame (run_events env w) (SpeedTest.starting c))
      as (Hres & Herr & Hhist & Hisp & Htheme).
    cbn [SpeedTest.starting SpeedTest.result SpeedTest.error SpeedTest.history SpeedTest.isp
         SpeedTest.theme] in Hres, Herr, Hhist, Hisp, Htheme.
    split; [reflexivity|].
    destruct (snd (runSpeedTest env SpeedTest.options (SpeedTest.new_controller w)))
      as [err|testResult]; unfold SpeedTest.settle.
    + destruct err as [|[]]; cbn; rewrite ?Hres, ?Hhist, ?Hisp, ?Htheme;
        repeat split; reflexivity.
    + cbn. rewrite ?Herr, ?Hhist, ?Hisp, ?Htheme. repeat split; reflexivity.
Qed.

(** ** The progress on the page *)

Lemma in_progress_events value phase evs :
  In (Progress value phase) evs -> In (value, phase) (progress_events evs).
Proof.
  intros H. unfold progress_events. apply in_flat_map.
  exists (Progress value phase). split; [exact H | left; reflexivity].
Qed.

(** The values that the run of the component reports round to the numbers
    of [shown_progress]. *)
Lemma reported_rounds value phase :
  In (value, phase) (run_progress SpeedTest.options) ->
  In (Math_round value) shown_progress.
Proof.
  intros H. vm_compute in H.
  repeat (destruct H as [H|H]; [injection H as <- _; vm_compute; tauto|]).
  contradiction.
Qed.

Lemma run_events_reported env w value phase :
  In (Progress value phase) (run_events env w) ->
  In (value, phase) (run_progress SpeedTest.options).
Proof.
  intros Hin.
  destruct (reports_runSpeedTest env SpeedTest.options (SpeedTest.new_controller w))
    as (evs & Ht & Hp).
  rewrite (run_events_spec env w evs Ht) in Hin.
  apply in_progress_events in Hin.
  destruct (snd (runSpeedTest env SpeedTest.options (SpeedTest.new_controller w))).
  - destruct Hp as [rest ->]. apply in_or_app. left. exact Hin.
  - rewrite <- Hp. exact Hin.
Qed.

Lemma shown_invariant (P : SpeedTest.Component -> Prop) evs :
  (forall c ev, In ev evs -> P c -> P (SpeedTest.during c ev)) ->
  forall c, P c -> Forall P (SpeedTest.shown c evs).
Proof.
  induction evs as [|ev evs IH]; intros Hstep c Hc; cbn [SpeedTest.shown]; constructor.
  - apply Hstep; [left; reflexivity | exact Hc].
  - apply IH; [|apply Hstep; [left; reflexivity | exact Hc]].
    intros c0 ev0 Hin. apply Hstep. right. exact Hin.
Qed.

(** Property X13.  The page shows the progress as an integer between 0 and 100: from the
    click to the end of [startTest] the state variable [progress] only takes
    the values 0, 2, 20, 38, 57, 75, 89, 98 and 100 (the callback rounds
    38.33... to 38 and 56.66... to 57), and it is 0 or 100 at the end. *)
Theorem X13_progress_on_the_page (env : Env) (c : SpeedTest.Component) (b : SpeedTest.Browser)
    (w : World) :
  Forall (fun c' => In (SpeedTest.progress c') shown_progress /\
                    isInteger (SpeedTest.progress c') = true /\
                    within_0_100 (SpeedTest.progress c') = true)
    (SpeedTest.starting c :: SpeedTest.shown (SpeedTest.starting c) (run_events env w)) /\
  (SpeedTest.isRunning c = false ->
   let c' := fst (fst (SpeedTest.startTest env (c, b) w)) in
   SpeedTest.progress c' = 0%float \/ SpeedTest.progress c' = 100%float).
Proof.
  split.
  - assert (Hall : Forall (fun c' => In (SpeedTest.progress c') shown_progress)
                     (SpeedTest.starting c
                      :: SpeedTest.shown (SpeedTest.starting c) (run_events env w))).
    { constructor; [left; reflexivity|].
      apply shown_invariant; [|left; reflexivity].
      intros c0 ev Hin Hc0. destruct ev as [req sent0| |ms|value phase0|message e];
        cbn [SpeedTest.during]; try exact Hc0.
      - left. reflexivity.
      - cbn [SpeedTest.onProgress SpeedTest.progress].
        eapply reported_rounds, run_events_reported, Hin. }
    eapply Forall_impl; [|exact Hall].
    intros c' Hin. split; [exact Hin|].
    unfold shown_progress in Hin. cbn [In] in Hin.
    repeat (destruct Hin as [Hin|Hin]; [rewrite <- Hin; split; reflexivity|]).
    contradiction.
  - intros Hc. cbv zeta. rewrite (startTest_eq env c b w Hc). cbn [fst].
    destruct (snd (runSpeedTest env SpeedTest.options (SpeedTest.new_controller w)))
      as [[|[]]|res]; cbn; auto.
Qed.

(** In the scenario the callback sets these numbers, in this order. *)
Example progress_in_the_scenario :
  map Math_round (progress_values (run_events scenario initial_world))
  = [2; 20; 38; 57; 75; 89; 98; 100]%float.
Proof. vm_compute. reflexivity. Qed.

(** ** The Cancel button *)

(** Property X14.  A click on Cancel while [startTest] waits takes the page back to idle at
    once, and nothing that happens afterwards in the run changes the page:
    the run reports no more progress.  The run goes on through its backoff
    sleeps and refused requests and then throws.  If it throws the abort
    error the page stays idle, without a message; if the last attempt
    threw the quota error of the upload probe instead, the page ends in the
    phase error with the message.  The history is as before. *)
Theorem X14_cancel_during_run (env : Env) (c : SpeedTest.Component) (b : SpeedTest.Browser)
    (w : World) :
  SpeedTest.isRunning c = false ->
  In Cancel (run_events env w) ->
  exists pre post e,
    run_events env w = pre ++ Cancel :: post /\ ~ In Cancel pre /\
    Forall cancelled
      (SpeedTest.shown (fold_left SpeedTest.during pre (SpeedTest.starting c)) (Cancel :: post)) /\
    snd (runSpeedTest env SpeedTest.options (SpeedTest.new_controller w)) = inl (caught e) /\
    let c' := fst (fst (SpeedTest.startTest env (c, b) w)) in
    let b' := snd (fst (SpeedTest.startTest env (c, b) w)) in
    SpeedTest.isRunning c' = false /\ SpeedTest.progress c' = 0%float /\
    SpeedTest.result c' = None /\ SpeedTest.history c' = SpeedTest.history c /\
    ((e = AbortError /\ SpeedTest.phase c' = phase_idle /\ SpeedTest.error c' = None /\ b' = b)
     \/
     (e = QuotaExceededError /\ SpeedTest.phase c' = phase_error /\
      SpeedTest.error c' = Some SpeedTest.ERROR_MESSAGE)).
Proof.
  intros Hc Hin.
  destruct (cancelling_runSpeedTest env caller_signal SpeedTest.options eq_refl
              (SpeedTest.new_controller w) eq_refl) as (evs & Ht & Hcase).
  rewrite (run_events_spec env w evs Ht) in *.
  destruct Hcase as [(_ & Hno & _)|(_ & (pre & post & -> & Hpre & Hpost) & Hout)];
    [contradiction|].
  destruct (snd (runSpeedTest env SpeedTest.options (SpeedTest.new_controller w)))
    as [u|res] eqn:Hsnd; [|contradiction].
  destruct Hout as (e & -> & He).
  exists pre, post, e. split; [reflexivity|]. split; [exact Hpre|]. split.
  { cbn [SpeedTest.shown SpeedTest.during]. constructor; [repeat split|].
    apply shown_invariant; [|repeat split].
    intros c0 ev Hev Hc0. rewrite Forall_forall in Hpost. specialize (Hpost ev Hev).
    destruct ev as [req [|]| | | |]; simpl in Hpost; try contradiction; exact Hc0. }
  split; [reflexivity|].
  cbv zeta. rewrite (startTest_eq env c b w Hc), Hsnd.
  rewrite (run_events_spec env w _ Ht). cbn [fst snd].
  destruct (fold_during_frame (pre ++ Cancel :: post) (SpeedTest.starting c))
    as (Hres & _ & Hhist & _ & _).
  cbn [SpeedTest.starting SpeedTest.result SpeedTest.history] in Hres, Hhist.
  destruct He as [-> | ->]; cbn; rewrite ?Hres, ?Hhist; repeat split;
    [left | right]; repeat split.
Qed.

Lemma X14_cancel_during_run_witness :
  exists pre post e,
    run_events aborts_first_request initial_world = pre ++ Cancel :: post /\
    ~ In Cancel pre /\
    Forall cancelled
      (SpeedTest.shown (fold_left SpeedTest.during pre (SpeedTest.starting SpeedTest.initial))
         (Cancel :: post)) /\
    snd (runSpeedTest aborts_first_request SpeedTest.options
           (SpeedTest.new_controller initial_world)) = inl (caught e) /\
    let c' := fst (fst (SpeedTest.startTest aborts_first_request
                          (SpeedTest.initial, empty_store)
                          initial_world)) in
    let b' := snd (fst (SpeedTest.startTest aborts_first_request
                          (SpeedTest.initial, empty_store)
                          initial_world)) in
    SpeedTest.isRunning c' = false /\ SpeedTest.progress c' = 0%float /\
    SpeedTest.result c' = None /\ SpeedTest.history c' = SpeedTest.history SpeedTest.initial /\
    ((e = AbortError /\ SpeedTest.phase c' = phase_idle /\ SpeedTest.error c' = None /\
      b' = empty_store)
     \/
     (e = QuotaExceededError /\ SpeedTest.phase c' = phase_error /\
      SpeedTest.error c' = Some SpeedTest.ERROR_MESSAGE)).
Proof.
  apply (X14_cancel_during_run aborts_first_request SpeedTest.initial empty_store initial_world).
  - reflexivity.
  - vm_compute. right. right. left. reflexivity.
Defined.

(** ** The quota of [crypto.getRandomValues] on the page *)

(** Property X15.  The component always enables the upload stage.  On a platform that
    refuses a buffer of 1 MiB no test completes: [startTest] ends in the
    phase error, or idle after a cancellation, without a result, and the
    history and the store stay as they were. *)
Theorem X15_page_never_completes (env : Env) (c : SpeedTest.Component) (b : SpeedTest.Browser)
    (w : World) :
  random_values_quota env 1048576 = false ->
  SpeedTest.isRunning c = false ->
  let c' := fst (fst (SpeedTest.startTest env (c, b) w)) in
  let b' := snd (fst (SpeedTest.startTest env (c, b) w)) in
  (SpeedTest.phase c' = phase_error \/ SpeedTest.phase c' = phase_idle) /\
  SpeedTest.result c' = None /\
  SpeedTest.history c' = SpeedTest.history c /\
  SpeedTest.stored_history b' = SpeedTest.stored_history b.
Proof.
  intros Hquota Hc. cbv zeta. rewrite (startTest_eq env c b w Hc). cbn [fst snd].
  pose proof (run_never_returns env SpeedTest.options eq_refl Hquota
                (SpeedTest.new_controller w)) as Hnever.
  destruct (fold_during_frame (run_events env w) (SpeedTest.starting c))
    as (Hres & _ & Hhist & _ & _).
  cbn [SpeedTest.starting SpeedTest.result SpeedTest.history] in Hres, Hhist.
  destruct (snd (runSpeedTest env SpeedTest.options (SpeedTest.new_controller w)))
    as [[|[]]|res]; [| | | | | |contradiction];
    cbn; rewrite ?Hres, ?Hhist; repeat split; auto.
Qed.

Lemma X15_page_never_completes_witness :
  let c' := fst (fst (SpeedTest.startTest web_crypto_quota (SpeedTest.initial, empty_store)
                        initial_world)) in
  let b' := snd (fst (SpeedTest.startTest web_crypto_quota (SpeedTest.initial, empty_store)
                        initial_world)) in
  (SpeedTest.phase c' = phase_error \/ SpeedTest.phase c' = phase_idle) /\
  SpeedTest.result c' = None /\
  SpeedTest.history c' = SpeedTest.history SpeedTest.initial /\
  SpeedTest.stored_history b' = SpeedTest.stored_history empty_store.
Proof.
  apply (X15_page_never_completes web_crypto_quota SpeedTest.initial empty_store initial_world);
    reflexivity.
Defined.

(** ** The theme *)

(** Property X16.  A click on the theme button switches the theme, gives the body the
    class of the new theme and stores the choice.  From then on a change of
    the colour scheme of the system is ignored, the next visit starts with
    the stored theme whatever the system prefers, and a second click
    switches back. *)
Theorem X16_theme_choice (ui : SpeedTest.Component * SpeedTest.Browser) :
  let ui1 := SpeedTest.handleThemeToggle ui in
  SpeedTest.theme (fst ui1) <> SpeedTest.theme (fst ui) /\
  SpeedTest.themed ui1 /\
  SpeedTest.loadStoredTheme (snd ui1) = Some (SpeedTest.theme (fst ui1)) /\
  (forall matches, SpeedTest.handleChange matches ui1 = ui1) /\
  (forall matches c0,
      SpeedTest.theme (fst (SpeedTest.restore_theme matches (c0, snd ui1)))
      = SpeedTest.theme (fst ui1) /\
      SpeedTest.themed (SpeedTest.restore_theme matches (c0, snd ui1))) /\
  SpeedTest.theme (fst (SpeedTest.handleThemeToggle ui1)) = SpeedTest.theme (fst ui).
Proof.
  destruct ui as [c b]. cbv zeta. unfold SpeedTest.themed.
  destruct (SpeedTest.theme c) eqn:Htheme;
    cbn [SpeedTest.handleThemeToggle SpeedTest.handleChange SpeedTest.restore_theme
         SpeedTest.loadStoredTheme SpeedTest.persistTheme SpeedTest.applyThemeClass
         SpeedTest.setTheme SpeedTest.theme SpeedTest.stored_theme SpeedTest.body_light
         fst snd];
    rewrite ?Htheme; cbn; repeat split; try reflexivity; discriminate.
Qed.

(** Property X17.  As long as no theme is stored, the colour scheme of the system decides,
    at the first render and at each of its changes. *)
Theorem X17_theme_of_the_system (c : SpeedTest.Component) (b : SpeedTest.Browser)
    (matches later : bool) :
  SpeedTest.loadStoredTheme b = None ->
  let ui1 := SpeedTest.restore_theme matches (c, b) in
  let ui2 := SpeedTest.handleChange later ui1 in
  SpeedTest.theme (fst ui1) = (if matches then SpeedTest.dark else SpeedTest.light) /\
  SpeedTest.themed ui1 /\
  SpeedTest.theme (fst ui2) = (if later then SpeedTest.dark else SpeedTest.light) /\
  SpeedTest.themed ui2 /\
  SpeedTest.loadStoredTheme (snd ui2) = None.
Proof.
  intros Hstored. cbv zeta. unfold SpeedTest.restore_theme. rewrite Hstored.
  unfold SpeedTest.handleChange, SpeedTest.loadStoredTheme in *.
  cbn [SpeedTest.applyThemeClass SpeedTest.stored_theme]. rewrite Hstored.
  unfold SpeedTest.themed.
  destruct matches, later; repeat split; try reflexivity; exact Hstored.
Qed.

Lemma X17_theme_of_the_system_witness :
  let ui1 := SpeedTest.restore_theme false (SpeedTest.initial, empty_store) in
  let ui2 := SpeedTest.handleChange true ui1 in
  SpeedTest.theme (fst ui1) = (if false then SpeedTest.dark else SpeedTest.light) /\
  SpeedTest.themed ui1 /\
  SpeedTest.theme (fst ui2) = (if true then SpeedTest.dark else SpeedTest.light) /\
  SpeedTest.themed ui2 /\
  SpeedTest.loadStoredTheme (snd ui2) = None.
Proof.
  apply (X17_theme_of_the_system SpeedTest.initial empty_store false true). reflexivity.
Defined.

(** ** The component at rest *)

Lemma startTest_at_rest read env ui w :
  at_rest read ui -> at_rest read (fst (SpeedTest.startTest env ui w)).
Proof.
  destruct ui as [c b]. intros (Hrun & Href & Hlen & Hthemed).
  rewrite (startTest_eq env c b w Hrun). cbn [fst].
  destruct (fold_during_frame (run_events env w) (SpeedTest.starting c))
    as (_ & _ & Hhist & _ & Htheme).
  cbn [SpeedTest.starting SpeedTest.history SpeedTest.theme] in Hhist, Htheme.
  unfold SpeedTest.themed in Hthemed. cbn [fst snd] in Hlen, Hthemed.
  unfold at_rest, SpeedTest.themed.
  destruct (snd (runSpeedTest env SpeedTest.options (SpeedTest.new_controller w)))
    as [[|[]]|res]; unfold SpeedTest.settle;
    cbn [fst snd SpeedTest.isRunning SpeedTest.abortControllerRef SpeedTest.history
         SpeedTest.theme SpeedTest.body_light SpeedTest.persistHistory];
    rewrite ?Hhist, ?Htheme; repeat split; try assumption.
  right. rewrite length_firstn. apply Nat.le_min_l.
Qed.

Lemma act_at_rest read s a : at_rest read (fst s) -> at_rest read (fst (SpeedTest.act s a)).
Proof.
  destruct s as [[c b] w]. destruct a as [env| | |matches|value]; cbn [SpeedTest.act fst].
  - apply startTest_at_rest.
  - intros (Hrun & Href & Hlen & Hthemed). repeat split; assumption.
  - intros (Hrun & Href & Hlen & Hthemed). unfold at_rest, SpeedTest.themed in *.
    cbn [fst snd] in *. cbn. repeat split; try assumption;
      try (destruct (SpeedTest.theme c); reflexivity).
  - intros (Hrun & Href & Hlen & Hthemed). unfold at_rest, SpeedTest.themed in *.
    unfold SpeedTest.handleChange. destruct (SpeedTest.loadStoredTheme b);
      cbn [fst snd] in *; cbn; repeat split; try assumption;
      try (destruct matches; reflexivity).
  - intros (Hrun & Href & Hlen & Hthemed). repeat split; assumption.
Qed.

(** The first render takes the history from the store as it is, however
    many entries it has. *)
Lemma mount_history matches b0 :
  SpeedTest.history (fst (SpeedTest.mount matches (SpeedTest.initial, b0))) = restored b0.
Proof.
  unfold SpeedTest.mount, SpeedTest.restore_history, SpeedTest.restore_theme, restored.
  destruct (SpeedTest.stored_history b0); reflexivity.
Qed.

(** Property X18.  The first render restores the history and the theme from
    the store.  From then on, whatever is clicked and whatever the network
    does to the runs that the clicks on Start begin, the component comes to
    rest after each handler: it is not running and holds no controller (so
    the Start button works again), the body has the class of the theme, and
    the history is the one read from the store, of whatever length, or holds
    at most five results: a run that completes cuts it to five. *)
Theorem X18_component_comes_to_rest (b0 : SpeedTest.Browser) (matches : bool)
    (actions : list SpeedTest.Action) (w : World) :
  SpeedTest.history (fst (SpeedTest.mount matches (SpeedTest.initial, b0))) = restored b0 /\
  at_rest (restored b0)
    (fst (fold_left SpeedTest.act actions
            (SpeedTest.mount matches (SpeedTest.initial, b0), w))).
Proof.
  split; [apply mount_history|].
  assert (H0 : at_rest (restored b0)
                 (fst (SpeedTest.mount matches (SpeedTest.initial, b0), w))).
  { cbn [fst]. unfold at_rest. rewrite mount_history.
    unfold SpeedTest.themed, SpeedTest.mount, SpeedTest.restore_history,
      SpeedTest.restore_theme.
    destruct (SpeedTest.stored_history b0);
      unfold SpeedTest.loadStoredTheme; cbn [SpeedTest.stored_theme];
      destruct (SpeedTest.stored_theme b0) as [[]|], matches; cbn;
      repeat split; left; reflexivity. }
  revert H0. generalize (SpeedTest.mount matches (SpeedTest.initial, b0), w).
  induction actions as [|a actions IH]; intros s Hs; [exact Hs|].
  cbn [fold_left]. apply IH, act_at_rest, Hs.
Qed.

(** A store that holds the six results of another session: the first
    render shows all six, and the next run that completes leaves five. *)
Example history_of_six_entries :
  let entry := {| extends := {| downloadMbps := Some 100%float; uploadMbps := None;
                                latency := None; timestamp := 0%float |};
                  isp := JsUndefined |} in
  let b0 := {| SpeedTest.stored_theme := None;
               SpeedTest.stored_history := Some (repeat entry 6);
               SpeedTest.body_light := false; SpeedTest.console_errors := [] |} in
  let s0 := (SpeedTest.mount true (SpeedTest.initial, b0), initial_world) in
  List.length (SpeedTest.history (fst (fst s0))) = 6%nat /\
  List.length (SpeedTest.history (fst (fst (SpeedTest.act s0 (SpeedTest.ClickStart scenario)))))
  = 5%nat.
Proof. vm_compute. split; reflexivity. Qed.

(** Six runs on a network without failures: the history keeps the five most
    recent results, the newest first. *)
Example history_after_six_runs :
  let s := fold_left SpeedTest.act (repeat (SpeedTest.ClickStart scenario) 6)
             ((SpeedTest.initial, empty_store), initial_world) in
  List.length (SpeedTest.history (fst (fst s))) = 5%nat /\
  SpeedTest.stored_history (snd (fst s)) = Some (SpeedTest.history (fst (fst s))) /\
  SpeedTest.phase (fst (fst s)) = phase_completed.
Proof. vm_compute. repeat split. Qed.

(** ** The result on the cards *)

(** Property X19.  The cards show [result ?? history.at(0) ?? null], and a
    card whose phase is in progress shows "--" instead.  [startTest] clears
    [result] first, so from the click to the end of the run the cards show
    the newest entry of the history (nothing, if the history is empty),
    except for the cards of the phase in progress: right after the click
    Ping and Jitter show "--".  Afterwards no card is loading, and the cards
    show the new result if the run returned, and the newest entry of the
    history if it threw or was cancelled. *)
Theorem X19_result_on_the_cards (toString : float -> string) (env : Env)
    (c : SpeedTest.Component) (b : SpeedTest.Browser) (w : World) :
  SpeedTest.isRunning c = false ->
  let newest := option_map extends (hd_error (SpeedTest.history c)) in
  Forall (fun c' =>
            cards toString c'
            = cards_of toString newest
                (fun p => SpeedTest.isRunning c' && phase_eqb (SpeedTest.phase c') p))
    (SpeedTest.starting c :: SpeedTest.shown (SpeedTest.starting c) (run_events env w)) /\
  Ping (cards toString (SpeedTest.starting c)) = "--"%string /\
  Jitter (cards toString (SpeedTest.starting c)) = "--"%string /\
  cards toString (fst (fst (SpeedTest.startTest env (c, b) w)))
  = cards_of toString
      match snd (runSpeedTest env SpeedTest.options (SpeedTest.new_controller w)) with
      | inr testResult => Some testResult
      | inl _ => newest
      end
      (fun _ => false).
Proof.
  intros Hc newest.
  assert (Hstart : SpeedTest.activeResult (SpeedTest.starting c) = newest)
    by (unfold SpeedTest.activeResult, newest; cbn; destruct (SpeedTest.history c); reflexivity).
  assert (Hshown : Forall (fun c' => SpeedTest.activeResult c' = newest)
                     (SpeedTest.starting c
                      :: SpeedTest.shown (SpeedTest.starting c) (run_events env w))).
  { constructor; [exact Hstart|].
    apply shown_invariant; [|exact Hstart].
    intros c0 ev _ Hc0. unfold SpeedTest.activeResult in *.
    destruct (during_frame c0 ev) as (-> & _ & -> & _). exact Hc0. }
  split; [|split; [|split]].
  - eapply Forall_impl; [|exact Hshown]. intros c' Hc'. unfold cards. rewrite Hc'. reflexivity.
  - reflexivity.
  - reflexivity.
  - rewrite (startTest_eq env c b w Hc). cbn [fst].
    destruct (fold_during_frame (run_events env w) (SpeedTest.starting c))
      as (Hres & _ & Hhist & _ & _).
    cbn [SpeedTest.starting SpeedTest.result SpeedTest.history] in Hres, Hhist.
    unfold cards, SpeedTest.activeResult.
    destruct (snd (runSpeedTest env SpeedTest.options (SpeedTest.new_controller w)))
      as [[|[]]|res]; unfold SpeedTest.settle;
      cbn [fst SpeedTest.result SpeedTest.history SpeedTest.isRunning andb];
      rewrite ?Hres, ?Hhist; try reflexivity;
      unfold newest; destruct (SpeedTest.history c); reflexivity.
Qed.

Lemma X19_result_on_the_cards_witness :
  let newest := option_map extends (hd_error (SpeedTest.history SpeedTest.initial)) in
  Forall (fun c' =>
            cards (fun _ => EmptyString) c'
            = cards_of (fun _ => EmptyString) newest
                (fun p => SpeedTest.isRunning c' && phase_eqb (SpeedTest.phase c') p))
    (SpeedTest.starting SpeedTest.initial
     :: SpeedTest.shown (SpeedTest.starting SpeedTest.initial)
          (run_events unavailable initial_world)) /\
  Ping (cards (fun _ => EmptyString) (SpeedTest.starting SpeedTest.initial))
  = "--"%string /\
  Jitter (cards (fun _ => EmptyString) (SpeedTest.starting SpeedTest.initial))
  = "--"%string /\
  cards (fun _ => EmptyString)
    (fst (fst (SpeedTest.startTest unavailable (SpeedTest.initial, empty_store) initial_world)))
  = cards_of (fun _ => EmptyString)
      match snd (runSpeedTest unavailable SpeedTest.options
                   (SpeedTest.new_controller initial_world)) with
      | inr testResult => Some testResult
      | inl _ => newest
      end
      (fun _ => false).
Proof.
  apply (X19_result_on_the_cards (fun _ => EmptyString) unavailable SpeedTest.initial
           empty_store initial_world).
  reflexivity.
Defined.

(** A run on a network without failures, after an earlier one: while the
    download is measured the Download card shows "--" and the other cards
    the earlier result; at the end the cards show the new result. *)
Example cards_in_the_scenario :
  let toString := fun _ : float => EmptyString in
  let s1 := SpeedTest.act ((SpeedTest.initial, empty_store), initial_world)
              (SpeedTest.ClickStart scenario) in
  let c1 := fst (fst s1) in
  let during_download :=
    SpeedTest.onProgress 20 phase_download (SpeedTest.starting c1) in
  cards toString c1
  = {| Download := "97.87"; Upload := "83.89"; Ping := "20.00"; Jitter := "0.00" |}%string /\
  cards toString (SpeedTest.starting c1)
  = {| Download := "97.87"; Upload := "83.89"; Ping := "--"; Jitter := "--" |}%string /\
  cards toString during_download
  = {| Download := "--"; Upload := "83.89"; Ping := "20.00"; Jitter := "0.00" |}%string.
Proof. vm_compute. repeat split. Qed.

(** ** The provider *)

(** What the lookup resolves with. *)
Lemma getIspInformation_value env w :
  exists w',
    getIspInformation env w
    = (w', inr (match reply (network env (wire w)) with
                | Some r =>
                    if lookup_fails (network env (wire w)) then JsUndefined
                    else match json_body r with
                         | Some data => isp_of data
                         | None => JsUndefined
                         end
                | None => JsUndefined
                end)).
Proof.
  destruct (fetch_unguarded env meta_request w eq_refl)
    as (w1 & evs1 & Hfetch & _).
  unfold getIspInformation, try_catch, console_warn, bind at 1. rewrite Hfetch.
  unfold lookup_fails. destruct (reply (network env (wire w))) as [r|].
  - unfold ok. cbn [from].
    destruct ((200 <=? status r)%Z && (status r <=? 299)%Z); cbn [negb orb].
    + destruct (drain_uncancellable {| from := r; cancellable := false |} w1 eq_refl)
        as (w2 & evs2 & Hdrain & _).
      unfold json, bind. rewrite Hdrain. cbn [from].
      destruct (body_arrives r); cbn [negb orb].
      * destruct (json_body r) as [data|]; destruct (removeConsole env);
          eexists; reflexivity.
      * destruct (removeConsole env); eexists; reflexivity.
    + destruct (removeConsole env); eexists; reflexivity.
  - destruct (removeConsole env); eexists; reflexivity.
Qed.

(** Property X20.  The effect that looks the provider up cannot leave an
    unhandled rejection, although its promise has no [catch]: the lookup
    never throws.  While the component is mounted, [isp] becomes what the
    lookup resolves with: [undefined] when the lookup fails, so that the
    badge is not rendered, and the value read from the body otherwise.
    After the cleanup of the effect the state is left alone. *)
Theorem X20_isp_effect (env : Env) (c : SpeedTest.Component) (w : World) :
  snd (isp_effect env true c w) = None /\
  snd (isp_effect env false c w) = None /\
  fst (fst (isp_effect env false c w)) = c /\
  (if lookup_fails (network env (wire w))
   then SpeedTest.isp (fst (fst (isp_effect env true c w))) = JsUndefined /\
        badge (fst (fst (isp_effect env true c w))) = false
   else exists r data,
       reply (network env (wire w)) = Some r /\ json_body r = Some data /\
       SpeedTest.isp (fst (fst (isp_effect env true c w))) = isp_of data) /\
  SpeedTest.history (fst (fst (isp_effect env true c w))) = SpeedTest.history c /\
  SpeedTest.phase (fst (fst (isp_effect env true c w))) = SpeedTest.phase c.
Proof.
  destruct (getIspInformation_value env w) as (w' & Hv).
  unfold isp_effect. rewrite Hv. cbn [fst snd].
  split; [reflexivity|]. split; [reflexivity|]. split; [reflexivity|].
  split; [|split; reflexivity].
  unfold lookup_fails in *.
  destruct (reply (network env (wire w))) as [r|]; [|split; reflexivity].
  destruct (negb ((200 <=? status r)%Z && (status r <=? 299)%Z)
            || negb (body_arrives r)
            || match json_body r with Some _ => false | None => true end) eqn:Hfails.
  - split; reflexivity.
  - destruct (json_body r) as [data|] eqn:Hjson;
      [|rewrite orb_true_r in Hfails; discriminate].
    exists r, data. split; [reflexivity|]. split; [exact Hjson | reflexivity].
Qed.

(** * Properties of the result card *)

Example formatValue_examples toString :
  map (formatValue toString)
    [None; Some (inl nan); Some (inr "n/a"%string); Some (inl 0%float);
     Some (inl 20%float); Some (inl (20 + (1 / 3) * 55)%float); Some (inl 0.5%float);
     Some (inl 99.5%float); Some (inl 100%float); Some (inl 250.5%float);
     Some (inl infinity); Some (inl neg_infinity); Some (inl (-0)%float);
     Some (inl (-2.5)%float)]
  = ["--"; "--"; "n/a"; "0.00"; "20.00"; "38.33"; "0.50"; "99.50"; "100"; "251";
     "Infinity"; "-Infinity"; "0.00"; "-2.50"]%string.
Proof. vm_compute. reflexivity. Qed.

Example just_under_100 toString :
  map (formatValue toString) [Some (inl 99.9990234375%float); Some (inl 99.5%float)]
  = ["100.00"; "99.50"]%string.
Proof. vm_compute. reflexivity. Qed.

(** A number between two finite numbers is finite. *)
Lemma between_finite lo hi x :
  is_finite lo = true -> is_finite hi = true ->
  (lo <=? x)%float = true -> (x <? hi)%float = true -> is_finite x = true.
Proof.
  rewrite !is_finite_spec, leb_spec, ltb_spec. unfold SFleb, SFltb.
  destruct (Prim2SF lo) as [[]|[]| |[] ml el], (Prim2SF hi) as [[]|[]| |[] mh eh],
    (Prim2SF x) as [[]|[]| |[] m e]; cbn; intros; try reflexivity; discriminate.
Qed.

Lemma scaled_unit_pos : (0 < 2 ^ 1074)%Z.
Proof. apply Z.pow_pos_nonneg; lia. Qed.

Lemma scaled_100 : scaled 100 = (100 * 2 ^ 1074)%Z.
Proof. vm_compute. reflexivity. Qed.

Lemma scaled_1e21 : scaled 1e21 = (10 ^ 21 * 2 ^ 1074)%Z.
Proof. vm_compute. reflexivity. Qed.

Lemma scaled_0 : scaled 0 = 0%Z.
Proof. reflexivity. Qed.

(** The integer of step 11.a is the nearest one, the larger one of two. *)
Lemma nearest_spec f m e :
  (-1074 <= e)%Z ->
  ((2 * nearest f m e - 1) * 2 ^ 1074
   <= 2 * 10 ^ Z.of_nat f * (Z.pos m * 2 ^ (e + 1074))
   < (2 * nearest f m e + 1) * 2 ^ 1074)%Z.
Proof.
  intros He. unfold nearest.
  assert (HU : (0 < 2 ^ 1074)%Z) by apply scaled_unit_pos.
  assert (HT : (0 < 10 ^ Z.of_nat f)%Z) by (apply Z.pow_pos_nonneg; lia).
  destruct (0 <=? e)%Z eqn:Hsign.
  - apply Z.leb_le in Hsign.
    rewrite (Z.pow_add_r 2 e 1074) by lia.
    remember (2 ^ 1074)%Z as U. remember (10 ^ Z.of_nat f)%Z as T.
    remember (2 ^ e)%Z as E.
    replace (2 * T * (Z.pos m * (E * U)))%Z with (2 * (Z.pos m * T * E) * U)%Z by ring.
    split; nia.
  - apply Z.leb_gt in Hsign.
    assert (HD : (0 < 2 ^ (- e))%Z) by (apply Z.pow_pos_nonneg; lia).
    assert (HP : (0 < 2 ^ (e + 1074))%Z) by (apply Z.pow_pos_nonneg; lia).
    assert (H2 : (2 ^ (1 - e) = 2 * 2 ^ (- e))%Z).
    { replace (1 - e)%Z with (Z.succ (- e)) by lia. apply Z.pow_succ_r. lia. }
    assert (HUD : (2 ^ 1074 = 2 ^ (- e) * 2 ^ (e + 1074))%Z).
    { rewrite <- Z.pow_add_r by lia. f_equal. lia. }
    rewrite H2, HUD.
    remember (2 ^ (- e))%Z as D. remember (2 ^ (e + 1074))%Z as P.
    remember (10 ^ Z.of_nat f)%Z as T.
    pose proof (Z.div_mod (2 * Z.pos m * T + D) (2 * D) ltac:(lia)) as Hdiv.
    pose proof (Z.mod_pos_bound (2 * Z.pos m * T + D) (2 * D) ltac:(lia)) as Hmod.
    remember ((2 * Z.pos m * T + D) / (2 * D))%Z as n.
    remember ((2 * Z.pos m * T + D) mod (2 * D))%Z as r.
    assert (Hlo : ((2 * n - 1) * D <= 2 * T * Z.pos m)%Z) by nia.
    assert (Hhi : (2 * T * Z.pos m < (2 * n + 1) * D)%Z) by nia.
    split.
    + replace ((2 * n - 1) * (D * P))%Z with ((2 * n - 1) * D * P)%Z by ring.
      replace (2 * T * (Z.pos m * P))%Z with (2 * T * Z.pos m * P)%Z by ring.
      apply Z.mul_le_mono_nonneg_r; lia.
    + replace ((2 * n + 1) * (D * P))%Z with ((2 * n + 1) * D * P)%Z by ring.
      replace (2 * T * (Z.pos m * P))%Z with (2 * T * Z.pos m * P)%Z by ring.
      apply Z.mul_lt_mono_pos_r; lia.
Qed.

(** The text of up to 10000 hundredths, by running [fixed] on each of them. *)
Lemma fixed_hundredths n : (0 <= n <= 10000)%Z -> fixed n 2 = hundredths n.
Proof.
  intros Hn.
  assert (Hall : forallb (fun k => String.eqb (fixed (Z.of_nat k) 2) (hundredths (Z.of_nat k)))
                   (seq 0 (Z.to_nat 10001)) = true) by (vm_compute; reflexivity).
  rewrite forallb_forall in Hall.
  specialize (Hall (Z.to_nat n)). rewrite Z2Nat.id in Hall by lia.
  apply String.eqb_eq, Hall, in_seq. lia.
Qed.

(** A finite number that is not negative, behind its sign bit. *)
Lemma abs_unsigned x m e : Prim2SF x = S754_finite false m e -> abs x = x.
Proof. intros Hx. apply Prim2SF_inj. rewrite abs_spec, Hx. reflexivity. Qed.

(** Property X22.  [formatValue] shows a number from 0 up to, but not
    including, 100 as the number of hundredths nearest to it (the
    larger one of two), with the digits of the integer part, a point and
    exactly two decimals.  The number of hundredths can be 10000: the
    numbers just under 100 are shown as "100.00". *)
Theorem X22_formatValue_two_decimals (toString : float -> string) (x : float) :
  (0 <=? x)%float = true -> (x <? 100)%float = true ->
  exists n : Z,
    (0 <= n <= 10000)%Z /\ nearest_to 100 x n /\
    formatValue toString (Some (inl x)) = hundredths n.
Proof.
  intros H0 H100.
  assert (Hfin : is_finite x = true) by (apply (between_finite 0 100); auto).
  assert (Hnan : is_nan x = false).
  { rewrite is_nan_spec. rewrite is_finite_spec in Hfin.
    destruct (Prim2SF x); try discriminate; reflexivity. }
  pose proof H0 as Hs0. rewrite (leb_scaled 0 x eq_refl Hfin), scaled_0 in Hs0.
  apply Z.leb_le in Hs0.
  pose proof H100 as Hs100. rewrite (ltb_scaled x 100 Hfin eq_refl), scaled_100 in Hs100.
  apply Z.ltb_lt in Hs100.
  assert (Hge : (100 <=? x)%float = false).
  { rewrite (leb_scaled 100 x eq_refl Hfin), scaled_100. apply Z.leb_gt. lia. }
  assert (Hbig : (1e21 <=? x)%float = false).
  { rewrite (leb_scaled 1e21 x eq_refl Hfin), scaled_1e21. apply Z.leb_gt.
    pose proof scaled_unit_pos. nia. }
  pose proof scaled_unit_pos as HU.
  unfold formatValue. rewrite Hnan, Hge. unfold toFixed, nearest_to.
  pose proof (Prim2SF_valid x) as Hvalid.
  unfold scaled in Hs0, Hs100 |- *.
  destruct (Prim2SF x) as [s|s| |s m e] eqn:Hx; try (rewrite is_finite_spec, Hx in Hfin; discriminate).
  - exists 0%Z. cbn [sf_scaled]. repeat split; try lia. 
  - cbn [valid_binary] in Hvalid. destruct (bounded_facts m e Hvalid) as (He & _ & _).
    cbn [sf_scaled] in Hs0, Hs100 |- *.
    assert (HP : (0 < Z.pos m * 2 ^ (e + 1074))%Z)
      by (apply Z.mul_pos_pos; [lia | apply Z.pow_pos_nonneg; lia]).
    destruct s; [cbn [cond_Zopp] in Hs0; lia|]. cbn [cond_Zopp] in Hs100 |- *.
    rewrite (abs_unsigned x m e Hx), Hbig.
    pose proof (nearest_spec 2 m e He) as Hn.
    change (10 ^ Z.of_nat 2)%Z with 100%Z in Hn.
    remember (nearest 2 m e) as n. remember (Z.pos m * 2 ^ (e + 1074))%Z as v.
    remember (2 ^ 1074)%Z as U.
    assert (Hbounds : (0 <= n <= 10000)%Z) by nia.
    exists n. split; [exact Hbounds|]. split; [lia|].
    cbn [append]. apply fixed_hundredths, Hbounds.
Qed.

Lemma X22_formatValue_two_decimals_witness :
  exists n : Z,
    (0 <= n <= 10000)%Z /\ nearest_to 100 99.9990234375%float n /\
    formatValue (fun _ => EmptyString) (Some (inl 99.9990234375%float)) = hundredths n.
Proof. apply X22_formatValue_two_decimals; reflexivity. Defined.

(** Property X23.  [formatValue] shows a number from 100 up to, but not
    including, 10 ^ 21 as the integer nearest to it (the larger one
    of two), by the digits of that integer alone. *)
Theorem X23_formatValue_whole (toString : float -> string) (x : float) :
  (100 <=? x)%float = true -> (x <? 1e21)%float = true ->
  exists n : Z,
    (100 <= n)%Z /\ nearest_to 1 x n /\
    formatValue toString (Some (inl x)) = decimal_digits n.
Proof.
  intros H100 Hbig.
  assert (Hfin : is_finite x = true) by (apply (between_finite 100 1e21); auto).
  assert (Hnan : is_nan x = false).
  { rewrite is_nan_spec. rewrite is_finite_spec in Hfin.
    destruct (Prim2SF x); try discriminate; reflexivity. }
  pose proof H100 as Hs100. rewrite (leb_scaled 100 x eq_refl Hfin), scaled_100 in Hs100.
  apply Z.leb_le in Hs100.
  pose proof Hbig as Hsbig. rewrite (ltb_scaled x 1e21 Hfin eq_refl), scaled_1e21 in Hsbig.
  apply Z.ltb_lt in Hsbig.
  assert (Hnot : (1e21 <=? x)%float = false).
  { rewrite (leb_scaled 1e21 x eq_refl Hfin), scaled_1e21. apply Z.leb_gt. lia. }
  pose proof scaled_unit_pos as HU.
  unfold formatValue. rewrite Hnan, H100. unfold toFixed, nearest_to.
  pose proof (Prim2SF_valid x) as Hvalid.
  unfold scaled in Hs100, Hsbig |- *.
  destruct (Prim2SF x) as [s|s| |s m e] eqn:Hx; try (rewrite is_finite_spec, Hx in Hfin; discriminate).
  - cbn [sf_scaled] in Hs100. lia.
  - cbn [valid_binary] in Hvalid. destruct (bounded_facts m e Hvalid) as (He & _ & _).
    cbn [sf_scaled] in Hs100, Hsbig |- *.
    assert (HP : (0 < Z.pos m * 2 ^ (e + 1074))%Z)
      by (apply Z.mul_pos_pos; [lia | apply Z.pow_pos_nonneg; lia]).
    destruct s; [cbn [cond_Zopp] in Hs100; lia|]. cbn [cond_Zopp] in Hs100 |- *.
    rewrite (abs_unsigned x m e Hx), Hnot.
    pose proof (nearest_spec 0 m e He) as Hn.
    change (10 ^ Z.of_nat 0)%Z with 1%Z in Hn.
    remember (nearest 0 m e) as n. remember (Z.pos m * 2 ^ (e + 1074))%Z as v.
    remember (2 ^ 1074)%Z as U.
    exists n. split; [nia|]. split; [lia|]. reflexivity.
Qed.

Lemma X23_formatValue_whole_witness :
  exists n : Z,
    (100 <= n)%Z /\ nearest_to 1 250.5%float n /\
    formatValue (fun _ => EmptyString) (Some (inl 250.5%float)) = decimal_digits n.
Proof. apply X23_formatValue_whole; reflexivity. Defined.
